(** * directory-tree: the tree walkers and their renderers

    A shallow embedding of the traversal engines of
    [directory_tree_generator.py] and of the [method1] .. [method4]
    variants, and the properties of the walk that the specification states.

    Python values are modelled as follows.
    - [str] is a sequence of Unicode code points: [pystr := list Z].
    - [int] is [Z]; a [float] is carried as its IEEE-754 binary64 bit
      pattern (a 64-bit [Z]) and is never computed with.
    - A [pathlib.Path] is modelled by what its queries answer: [name],
      [stat()], [iterdir()], and [exists()], [is_dir()], [is_file()], which
      [pathlib] (Python 3.11) answers from [stat()] and which raise what
      [stat()] raises unless it is one of the errors [pathlib] takes for
      "no".  The file system does not change during a walk.
    - Exceptions are the [OSError] family; a computation that may raise
      returns an [outcome] that keeps the state mutated so far, so that
      [try]/[except] handlers resume from it.
    - An entry point takes the path that [Path(start_path).resolve()]
      returned; [resolve()] raises only on a loop of symbolic links, which
      the file systems of the model do not have. *)

From Stdlib Require Import List ZArith Lia Bool String Ascii.
From Stdlib Require Import Sorting.Sorted Sorting.Permutation.
From Stdlib Require Decimal DecimalFacts DecimalPos DecimalN DecimalZ.
Import ListNotations.
Local Open Scope Z_scope.
Local Open Scope list_scope.

Set Implicit Arguments.
Set Warnings "-register-all".

(* ===================================================================== *)
(** * Python strings *)
(* ===================================================================== *)

Definition pystr := list Z.

(** An ASCII literal as a [str]. *)
Fixpoint u (s : string) : pystr :=
  match s with
  | EmptyString => []
  | String c s' => Z.of_N (N_of_ascii c) :: u s'
  end.

(** [s.startswith(p)] *)
Fixpoint startswith (s p : pystr) : bool :=
  match p, s with
  | [], _ => true
  | _ :: _, [] => false
  | c :: p', d :: s' => (c =? d) && startswith s' p'
  end.

(** [a < b] on [str]: lexicographic on code points. *)
Fixpoint str_lt (a b : pystr) : bool :=
  match a, b with
  | _, [] => false
  | [], _ :: _ => true
  | c :: a', d :: b' => (c <? d) || ((c =? d) && str_lt a' b')
  end.

Fixpoint str_eqb (a b : pystr) : bool :=
  match a, b with
  | [], [] => true
  | c :: a', d :: b' => (c =? d) && str_eqb a' b'
  | _, _ => false
  end.

(** [str(n)] for an [int]: its decimal digits. *)
Fixpoint digits_of_uint (d : Decimal.uint) : pystr :=
  match d with
  | Decimal.Nil => []
  | Decimal.D0 d => 0x30 :: digits_of_uint d
  | Decimal.D1 d => 0x31 :: digits_of_uint d
  | Decimal.D2 d => 0x32 :: digits_of_uint d
  | Decimal.D3 d => 0x33 :: digits_of_uint d
  | Decimal.D4 d => 0x34 :: digits_of_uint d
  | Decimal.D5 d => 0x35 :: digits_of_uint d
  | Decimal.D6 d => 0x36 :: digits_of_uint d
  | Decimal.D7 d => 0x37 :: digits_of_uint d
  | Decimal.D8 d => 0x38 :: digits_of_uint d
  | Decimal.D9 d => 0x39 :: digits_of_uint d
  end.

Definition str_of_int (n : Z) : pystr :=
  match Z.to_int n with
  | Decimal.Pos d => digits_of_uint d
  | Decimal.Neg d => 0x2D :: digits_of_uint d
  end.

(** [c * n] for a one-character string [c]. *)
Definition str_repeat (c : Z) (n : nat) : pystr := repeat c n.

(** The glyphs of the line art. *)
Definition corner : pystr := [0x2514; 0x2500; 0x2500; 0x20].   (* "└── " *)
Definition tee    : pystr := [0x251C; 0x2500; 0x2500; 0x20].   (* "├── " *)
Definition bar    : pystr := [0x2502; 0x20; 0x20; 0x20].       (* "│   " *)
Definition blank  : pystr := [0x20; 0x20; 0x20; 0x20].         (* "    " *)

Definition hidden_marker : pystr := u ".".

(* ===================================================================== *)
(** * Exceptions and outcomes *)
(* ===================================================================== *)

(** [OSError] stands for any other member of the family, of an [errno]
    that [pathlib] does not ignore. *)
Inductive exn : Type :=
| PermissionError
| FileNotFoundError
| NotADirectoryError
| OSError.

Definition is_PermissionError (e : exn) : bool :=
  match e with PermissionError => true | _ => false end.

(** The value of an expression that may raise. *)
Inductive result (A : Type) : Type :=
| Ok (a : A)
| Raise (e : exn).
Arguments Ok {A} a.
Arguments Raise {A} e.

(** The end of a statement sequence over a mutable state [S]: it returns, or
    an exception leaves it; either way the mutations made so far stay. *)
Inductive outcome (S : Type) : Type :=
| Returned (s : S)
| Raised (e : exn) (s : S).
Arguments Returned {S} s.
Arguments Raised {S} e s.

(** The value of an expression, or the exception it raises, inside a
    statement sequence that has brought the state to [s]. *)
Definition eval {A S : Type} (r : result A) (s : S) (k : A -> outcome S)
  : outcome S :=
  match r with
  | Ok a => k a
  | Raise e => Raised e s
  end.

Definition bind {S : Type} (o : outcome S) (k : S -> outcome S) : outcome S :=
  match o with
  | Returned s => k s
  | Raised e s => Raised e s
  end.

Notation "o ;; k" := (bind o k) (at level 61, left associativity).

(** [try: body  except PermissionError: handler] *)
Definition try_except_PermissionError {S : Type}
    (body : outcome S) (handler : S -> outcome S) : outcome S :=
  match body with
  | Returned s => Returned s
  | Raised e s => if is_PermissionError e then handler s else Raised e s
  end.

(** [for x in l: body] *)
Fixpoint for_each {A S : Type} (body : A -> S -> outcome S) (l : list A) (s : S)
  : outcome S :=
  match l with
  | [] => Returned s
  | x :: l' => body x s ;; for_each body l'
  end.

(** [enumerate(l)] *)
Fixpoint enumerate_from {A : Type} (i : Z) (l : list A) : list (Z * A) :=
  match l with
  | [] => []
  | x :: l' => (i, x) :: enumerate_from (i + 1) l'
  end.
Definition enumerate {A : Type} (l : list A) : list (Z * A) := enumerate_from 0 l.

Definition len {A : Type} (l : list A) : Z := Z.of_nat (List.length l).

(* ===================================================================== *)
(** * Sorting: [sorted] and [list.sort] are stable *)
(* ===================================================================== *)

Section Sort.
Variable A : Type.
Variable lt : A -> A -> bool.        (* [key(x) < key(y)] *)

Fixpoint insert (x : A) (l : list A) : list A :=
  match l with
  | [] => [x]
  | y :: l' => if lt y x then y :: insert x l' else x :: l
  end.

Fixpoint sorted (l : list A) : list A :=
  match l with
  | [] => []
  | x :: l' => insert x (sorted l')
  end.

(** The keys of [sorted(l, key=key)] and [l.sort(key=key)]: the key of every
    item is computed, from the first item to the last, before any two are
    compared; an exception of [key] ends the sort. *)
Variable K : Type.
Variable key : A -> result K.

Fixpoint decorate (l : list A) : result (list (K * A)) :=
  match l with
  | [] => Ok []
  | x :: l' =>
      match key x with
      | Raise e => Raise e
      | Ok k =>
          match decorate l' with
          | Raise e => Raise e
          | Ok kl => Ok ((k, x) :: kl)
          end
      end
  end.
End Sort.

(** [sorted(l, key=key)], the keys compared by [lt]. *)
Definition sorted_by {A K : Type} (key : A -> result K) (lt : K -> K -> bool)
    (l : list A) : result (list A) :=
  match decorate key l with
  | Raise e => Raise e
  | Ok kl => Ok (map snd (sorted (fun x y => lt (fst x) (fst y)) kl))
  end.

(* ===================================================================== *)
(** * The file system as the walkers observe it *)
(* ===================================================================== *)

Record stat_result : Type := mk_stat {
  st_size : Z;
  st_mtime : Z        (* a float, as its binary64 bit pattern *)
}.

(** A path and what is under it.
    - [Absent]: nothing is there ([stat()] and [iterdir()] raise
      [FileNotFoundError]).
    - [File]: not a directory; [stat()] answers [st], which may raise: a
      regular file when it answers, an entry that cannot be reached when
      it raises (a file in a directory that may not be searched, a link to
      nothing).
    - [Dir]: a directory; [iterdir()] answers [ls] (in the order the
      operating system lists the entries), which may raise. *)
Inductive path : Type :=
| Absent (name : pystr)
| File (name : pystr) (st : result stat_result)
| Dir (name : pystr) (st : stat_result) (ls : result (list path)).

Definition name (p : path) : pystr :=
  match p with Absent n | File n _ | Dir n _ _ => n end.

Definition stat (p : path) : result stat_result :=
  match p with
  | Absent _ => Raise FileNotFoundError
  | File _ st => st
  | Dir _ st _ => Ok st
  end.

(** [_ignore_error(e)] of [pathlib]: the [errno] is one of [ENOENT],
    [ENOTDIR], [EBADF], [ELOOP]. *)
Definition ignore_error (e : exn) : bool :=
  match e with
  | FileNotFoundError | NotADirectoryError => true
  | PermissionError | OSError => false
  end.

(** [S_ISDIR(st_mode)] and [S_ISREG(st_mode)] of a [stat()] that answers. *)
Definition kind_dir (p : path) : bool :=
  match p with Dir _ _ _ => true | _ => false end.

Definition kind_file (p : path) : bool :=
  match p with File _ _ => true | _ => false end.

(** The queries that [pathlib] answers from [stat()]:
    [try: return answer(self.stat())
     except OSError as e:
         if not _ignore_error(e): raise
         return False] *)
Definition stat_query (answer : bool) (p : path) : result bool :=
  match stat p with
  | Ok _ => Ok answer
  | Raise e => if ignore_error e then Ok false else Raise e
  end.

Definition exists_ (p : path) : result bool := stat_query true p.
Definition is_dir (p : path) : result bool := stat_query (kind_dir p) p.
Definition is_file (p : path) : result bool := stat_query (kind_file p) p.

(** [os.listdir] of a path that [stat()] cannot reach fails as [stat()]
    does; of a regular file it raises [NotADirectoryError]. *)
Definition iterdir (p : path) : result (list path) :=
  match p with
  | Absent _ => Raise FileNotFoundError
  | File _ (Raise e) => Raise e
  | File _ (Ok _) => Raise NotADirectoryError
  | Dir _ _ ls => ls
  end.

(** [max_depth is not None and depth > max_depth] *)
Definition depth_exceeded (max_depth : option Z) (depth : Z) : bool :=
  match max_depth with
  | None => false
  | Some m => depth >? m
  end.

(** [max_depth is not None and current_depth >= max_depth] *)
Definition depth_reached (max_depth : option Z) (current_depth : Z) : bool :=
  match max_depth with
  | None => false
  | Some m => current_depth >=? m
  end.


(** [list(p.iterdir())] for a walker [f] that recurses on the entries of a
    sorted listing: each entry comes paired with the walker's call on it, and
    sorting and filtering look at the entry only. *)
Definition iterdir_calling {R : Type} (f : path -> R) (p : path)
  : result (list (path * R)) :=
  match p with
  | Absent _ => Raise FileNotFoundError
  | File _ (Raise e) => Raise e
  | File _ (Ok _) => Raise NotADirectoryError
  | Dir _ _ (Raise e) => Raise e
  | Dir _ _ (Ok ls) => Ok (map (fun item => (item, f item)) ls)
  end.

(** What the walkers take from the Python runtime and do not compute here:
    Unicode lower-casing, and the decimal rendering and reading of floats. *)
Class builtins : Type := {
  str_lower : pystr -> pystr;               (* [s.lower()] *)
  format_float : nat -> Z -> Z -> pystr;    (* [f"{a/b:.{d}f}"] as [format_float d a b] *)
  float_repr : Z -> pystr;                  (* [repr(x)] of a float *)
  float_of_str : pystr -> Z                 (* [float(s)] *)
}.

Definition not_hidden (p : path) : bool := negb (startswith (name p) hidden_marker).

(** [key=lambda x: (not x.is_dir(), x.name.lower())] *)
Definition sort_key `{builtins} (x : path) : result (bool * pystr) :=
  match is_dir x with
  | Raise e => Raise e
  | Ok d => Ok (negb d, str_lower (name x))
  end.

(** [kx < ky] on these keys: tuples compare at their first differing
    component, [False < True]. *)
Definition key_lt (kx ky : bool * pystr) : bool :=
  if Bool.eqb (fst kx) (fst ky)
  then str_lt (snd kx) (snd ky)
  else negb (fst kx) && fst ky.

(** [sorted(items, key=lambda x: (not x.is_dir(), x.name.lower()))] on
    paths, and on entries paired with a call. *)
Definition sort_dirs_first `{builtins} (items : list path) : result (list path) :=
  sorted_by sort_key key_lt items.

Definition sort_dirs_first_calling `{builtins} {R : Type} (items : list (path * R))
  : result (list (path * R)) :=
  sorted_by (fun x => sort_key (fst x)) key_lt items.

(** [sum(1 for di in dir_items if pred(di))]: the first [pred(di)] that
    raises ends the sum. *)
Fixpoint count (pred : path -> result bool) (dir_items : list path) : result Z :=
  match dir_items with
  | [] => Ok 0
  | di :: rest =>
      match pred di with
      | Raise e => Raise e
      | Ok hit =>
          match count pred rest with
          | Raise e => Raise e
          | Ok n => Ok ((if hit then 1 else 0) + n)
          end
      end
  end.

Definition rule60 : pystr := str_repeat 0x3D 60.     (* ["=" * 60] *)

(* ===================================================================== *)
(** * Method 1: the basic tree *)
(* ===================================================================== *)

Module Basic.

(** [sorted(paths)]: sibling paths compare by their last component. *)
Definition path_lt {R : Type} (x y : path * R) : bool :=
  str_lt (name (fst x)) (name (fst y)).

(** [walk_directory(current_path, prefix, depth)], acting on [tree_lines].
    The same function stands in [method1/directory_tree.py] and in
    [directory_tree_generator.py]. *)
Fixpoint walk_directory (max_depth : option Z) (current_path : path)
    (prefix : pystr) (depth : Z) (tree_lines : list pystr)
  : outcome (list pystr) :=
  if depth_exceeded max_depth depth then Returned tree_lines
  else
    try_except_PermissionError
      (match iterdir_calling (walk_directory max_depth) current_path with
       | Raise e => Raised e tree_lines
       | Ok listing =>
           let items := sorted path_lt listing in
           for_each
             (fun '(i, (item, walk_item)) tree_lines =>
                let is_last := i =? len items - 1 in
                let connector := if is_last then corner else tee in
                let tree_lines := tree_lines ++ [prefix ++ connector ++ name item] in
                eval (is_dir item) tree_lines (fun d =>
                  if d then
                    let extension := if is_last then blank else bar in
                    walk_item (prefix ++ extension) (depth + 1) tree_lines
                  else Returned tree_lines))
             (enumerate items) tree_lines
       end)
      (fun tree_lines =>
         Returned (tree_lines ++ [prefix ++ corner ++ u "[Permission Denied]"])).

(** [method1/directory_tree.py]: [generate_directory_tree], up to the
    lines it joins. *)
Definition method1_generate_directory_tree (start_path : path)
    (max_depth : option Z) : result (list pystr) :=
  match exists_ start_path with
  | Raise e => Raise e
  | Ok false => Raise FileNotFoundError
  | Ok true =>
      match is_dir start_path with
      | Raise e => Raise e
      | Ok d =>
          let tree_lines := [if d then name start_path ++ u "/" else name start_path] in
          match walk_directory max_depth start_path [] 0 tree_lines with
          | Returned tree_lines => Ok tree_lines
          | Raised e _ => Raise e
          end
      end
  end.

(** [directory_tree_generator.py]: [generate_directory_tree], up to the
    lines it joins.  It defines [walk_directory] and never calls it: the
    lines are the header and the closing rule. *)
Definition generate_directory_tree (start_path_str now : pystr)
    (start_path : path) (max_depth : option Z) : result (list pystr) :=
  match exists_ start_path with
  | Raise e => Raise e
  | Ok false => Raise FileNotFoundError
  | Ok true =>
      let tree_lines : list pystr := [] in
      let tree_lines := rule60 :: tree_lines in
      let tree_lines := (u "Generated: " ++ now) :: tree_lines in
      let tree_lines := (u "Directory Tree for: " ++ start_path_str) :: tree_lines in
      Ok (tree_lines ++ [rule60])
  end.

End Basic.

(* ===================================================================== *)
(** * Method 2 of the generator: the ASCII tree with counts and sizes *)
(* ===================================================================== *)

Module Ascii.

Record state : Type := mk_state {
  tree_lines : list pystr;
  total_dirs : Z;
  total_files : Z;
  total_size : Z
}.

Definition append_line (line : pystr) (s : state) : state :=
  mk_state (tree_lines s ++ [line]) (total_dirs s) (total_files s) (total_size s).
Definition incr_dirs (s : state) : state :=
  mk_state (tree_lines s) (total_dirs s + 1) (total_files s) (total_size s).
Definition incr_files (s : state) : state :=
  mk_state (tree_lines s) (total_dirs s) (total_files s + 1) (total_size s).
Definition add_size (size : Z) (s : state) : state :=
  mk_state (tree_lines s) (total_dirs s) (total_files s) (total_size s + size).

Section WithBuiltins.
Context `{builtins}.

Definition size_str (size : Z) : pystr :=
  if size =? 0 then u "empty"
  else if size <? 1024 then str_of_int size ++ u " B"
  else if size <? 1024 * 1024 then format_float 1 size 1024 ++ u " KB"
  else if size <? 1024 * 1024 * 1024 then format_float 1 size (1024 * 1024) ++ u " MB"
  else format_float 1 size (1024 * 1024 * 1024) ++ u " GB".

(** The count annotation of a directory line; the bare [except] takes
    every failure of the listing and of the two counts. *)
Definition dir_annotation (show_hidden : bool) (item : path) : pystr :=
  match iterdir item with
  | Ok dir_items =>
      let dir_items :=
        if negb show_hidden then filter not_hidden dir_items else dir_items in
      match count is_file dir_items with
      | Ok dir_files =>
          match count is_dir dir_items with
          | Ok dir_subdirs =>
              name item ++ u "/ (" ++ str_of_int dir_files ++ u "f, "
                ++ str_of_int dir_subdirs ++ u "d)"
          | Raise _ => name item ++ u "/ (?)"
          end
      | Raise _ => name item ++ u "/ (?)"
      end
  | Raise _ => name item ++ u "/ (?)"
  end.

(** The [else] branch of the loop: a file line. *)
Definition file_entry (line : pystr) (item : path) (s : state) : state :=
  let s := incr_files s in
  let line := line ++ u "[F] " in
  match stat item with
  | Ok st =>
      let size := st_size st in
      let s := add_size size s in
      append_line (line ++ name item ++ u " (" ++ size_str size ++ u ")") s
  | Raise _ =>
      append_line (line ++ name item ++ u " (access denied)") s
  end.

(** [build_tree(current_path, prefix, is_last, depth)]. *)
Fixpoint build_tree (show_hidden : bool) (max_depth : option Z)
    (current_path : path) (prefix : pystr) (is_last : bool) (depth : Z)
    (s : state) : outcome state :=
  if depth_exceeded max_depth depth then Returned s
  else
    try_except_PermissionError
      (match iterdir_calling (build_tree show_hidden max_depth) current_path with
       | Raise e => Raised e s
       | Ok items =>
           let items :=
             if negb show_hidden
             then filter (fun x => not_hidden (fst x)) items else items in
           eval (sort_dirs_first_calling items) s (fun items =>
           for_each
             (fun '(i, (item, build_item)) s =>
                let is_last_item := i =? len items - 1 in
                let connector :=
                  if i =? 0 then (if is_last then corner else tee)
                  else (if is_last then blank else bar) in
                let line := prefix ++ connector in
                eval (is_dir item) s (fun d =>
                  if d then
                    let s := incr_dirs s in
                    let line := line ++ u "[D] " in
                    let line := line ++ dir_annotation show_hidden item in
                    let s := append_line line s in
                    let next_prefix := prefix ++ (if is_last then blank else bar) in
                    build_item next_prefix is_last_item (depth + 1) s
                  else Returned (file_entry line item s)))
             (enumerate items) s)
       end)
      (fun s => Returned (append_line (prefix ++ corner ++ u "[Permission Denied]") s)).

(** [generate_ascii_tree], up to the end of the walk: the lines and the
    three totals that the summary then prints. *)
Definition generate_ascii_tree (start_path_str now : pystr)
    (start_path : path) (show_hidden : bool) (max_depth : option Z)
  : result state :=
  match exists_ start_path with
  | Raise e => Raise e
  | Ok false => Raise FileNotFoundError
  | Ok true =>
      let tree_lines :=
        [u "ASCII Tree for: " ++ start_path_str; u "Generated: " ++ now; rule60] in
      match build_tree show_hidden max_depth start_path [] true 0
              (mk_state tree_lines 0 0 0) with
      | Returned s => Ok s
      | Raised e _ => Raise e
      end
  end.

End WithBuiltins.
End Ascii.

(* ===================================================================== *)
(** * The enhanced tree, the fall-back of the rich tree *)
(* ===================================================================== *)

Definition folder_mark : pystr := [0x1F4C1; 0x20].      (* "📁 " *)
Definition page_mark   : pystr := [0x1F4C4; 0x20].      (* "📄 " *)
Definition lock_mark   : pystr := [0x1F512; 0x20].      (* "🔒 " *)
Definition open_folder_mark : pystr := [0x1F4C2; 0x20]. (* "📂 " *)

Module Enhanced.

Record state : Type := mk_state {
  tree_lines : list pystr;
  total_dirs : Z;
  total_files : Z;
  total_size : Z
}.

Definition append_line (line : pystr) (s : state) : state :=
  mk_state (tree_lines s ++ [line]) (total_dirs s) (total_files s) (total_size s).
Definition incr_dirs (s : state) : state :=
  mk_state (tree_lines s) (total_dirs s + 1) (total_files s) (total_size s).
Definition incr_files (s : state) : state :=
  mk_state (tree_lines s) (total_dirs s) (total_files s + 1) (total_size s).
Definition add_size (size : Z) (s : state) : state :=
  mk_state (tree_lines s) (total_dirs s) (total_files s) (total_size s + size).

Definition depth_limited : pystr := u "... (depth limited)".

Section WithBuiltins.
Context `{builtins}.

Definition size_str (size : Z) : pystr :=
  if size =? 0 then u "(empty)"
  else if size <? 1024 then u "(" ++ str_of_int size ++ u " B)"
  else if size <? 1024 * 1024 then u "(" ++ format_float 1 size 1024 ++ u " KB)"
  else if size <? 1024 * 1024 * 1024
  then u "(" ++ format_float 1 size (1024 * 1024) ++ u " MB)"
  else u "(" ++ format_float 1 size (1024 * 1024 * 1024) ++ u " GB)".

Definition dir_annotation (item : path) : pystr :=
  match iterdir item with
  | Ok dir_items =>
      match count is_file dir_items with
      | Ok dir_files =>
          match count is_dir dir_items with
          | Ok dir_dirs =>
              name item ++ u "/ (" ++ str_of_int dir_files ++ u "f, "
                ++ str_of_int dir_dirs ++ u "d)"
          | Raise _ => name item ++ u "/ (?)"
          end
      | Raise _ => name item ++ u "/ (?)"
      end
  | Raise _ => name item ++ u "/ (?)"
  end.

Definition file_entry (line : pystr) (item : path) (s : state) : state :=
  let s := incr_files s in
  let line := line ++ page_mark in
  match stat item with
  | Ok st =>
      let size := st_size st in
      let s := add_size size s in
      append_line (line ++ name item ++ u " " ++ size_str size) s
  | Raise _ =>
      append_line (line ++ name item ++ u " (access denied)") s
  end.

(** [build_tree(current_path, prefix, is_last, depth)]. *)
Fixpoint build_tree (max_depth : option Z)
    (current_path : path) (prefix : pystr) (is_last : bool) (depth : Z)
    (s : state) : outcome state :=
  if depth_exceeded max_depth depth
  then Returned (append_line (prefix ++ corner ++ depth_limited) s)
  else
    try_except_PermissionError
      (match iterdir_calling (build_tree max_depth) current_path with
       | Raise e => Raised e s
       | Ok items =>
           eval (sort_dirs_first_calling items) s (fun items =>
           for_each
             (fun '(i, (item, build_item)) s =>
                let is_last_item := i =? len items - 1 in
                let connector :=
                  if i =? 0 then (if is_last then corner else tee)
                  else (if is_last then blank else bar) in
                let line := prefix ++ connector in
                eval (is_dir item) s (fun d =>
                  if d then
                    let s := incr_dirs s in
                    let line := line ++ folder_mark in
                    let line := line ++ dir_annotation item in
                    let s := append_line line s in
                    let next_prefix := prefix ++ (if is_last then blank else bar) in
                    build_item next_prefix is_last_item (depth + 1) s
                  else Returned (file_entry line item s)))
             (enumerate items) s)
       end)
      (fun s =>
         Returned (append_line
                     (prefix ++ corner ++ lock_mark ++ u "[Permission Denied]") s)).

(** [generate_enhanced_tree], up to the end of the walk. *)
Definition generate_enhanced_tree (start_path_str now : pystr)
    (start_path : path) (max_depth : option Z) : result state :=
  let tree_lines :=
    [u "ENHANCED TREE for: " ++ start_path_str; u "Generated: " ++ now; rule60] in
  match build_tree max_depth start_path [] true 0 (mk_state tree_lines 0 0 0) with
  | Returned s => Ok s
  | Raised e _ => Raise e
  end.

End WithBuiltins.
End Enhanced.

(* ===================================================================== *)
(** * Method 4 of the generator: the detailed tree *)
(* ===================================================================== *)

Module Detailed.

Record state : Type := mk_state {
  tree_lines : list pystr;
  dir_count : Z;
  file_count : Z;
  total_size : Z
}.

Definition append_line (line : pystr) (s : state) : state :=
  mk_state (tree_lines s ++ [line]) (dir_count s) (file_count s) (total_size s).
Definition incr_dirs (s : state) : state :=
  mk_state (tree_lines s) (dir_count s + 1) (file_count s) (total_size s).
Definition incr_files (s : state) : state :=
  mk_state (tree_lines s) (dir_count s) (file_count s + 1) (total_size s).
Definition add_size (size : Z) (s : state) : state :=
  mk_state (tree_lines s) (dir_count s) (file_count s) (total_size s + size).

Section WithBuiltins.
Context `{builtins}.

Definition size_str (size : Z) : pystr :=
  if size >? 1024 * 1024 * 1024
  then u " (" ++ format_float 2 size (1024 * 1024 * 1024) ++ u " GB)"
  else if size >? 1024 * 1024
  then u " (" ++ format_float 2 size (1024 * 1024) ++ u " MB)"
  else if size >? 1024 then u " (" ++ format_float 2 size 1024 ++ u " KB)"
  else u " (" ++ str_of_int size ++ u " bytes)".

Definition count_info (show_hidden : bool) (item : path) : pystr :=
  match iterdir item with
  | Ok sub_items =>
      let sub_items :=
        if negb show_hidden then filter not_hidden sub_items else sub_items in
      match count is_file sub_items with
      | Ok file_count_in_dir =>
          match count is_dir sub_items with
          | Ok dir_count_in_dir =>
              u " (" ++ str_of_int file_count_in_dir ++ u " files, "
                ++ str_of_int dir_count_in_dir ++ u " dirs)"
          | Raise _ => u " [?]"
          end
      | Raise _ => u " [?]"
      end
  | Raise _ => u " [?]"
  end.

Definition file_entry (prefix connector : pystr) (item : path) (s : state)
  : state :=
  let s := incr_files s in
  let marker := page_mark in
  match stat item with
  | Ok st =>
      let size := st_size st in
      let s := add_size size s in
      append_line (prefix ++ connector ++ marker ++ name item ++ size_str size) s
  | Raise _ =>
      let size_str : pystr := [] in
      append_line (prefix ++ connector ++ marker ++ name item ++ size_str) s
  end.

(** [process_directory(current_path, prefix, is_last, current_depth)]. *)
Fixpoint process_directory (show_hidden : bool) (max_depth : option Z)
    (current_path : path) (prefix : pystr) (is_last : bool) (current_depth : Z)
    (s : state) : outcome state :=
  if depth_exceeded max_depth current_depth then Returned s
  else
    try_except_PermissionError
      (match
         iterdir_calling (process_directory show_hidden max_depth) current_path
       with
       | Raise e => Raised e s
       | Ok items =>
           let items :=
             if negb show_hidden
             then filter (fun x => not_hidden (fst x)) items else items in
           eval (sort_dirs_first_calling items) s (fun items =>
           for_each
             (fun '(i, (item, process_item)) s =>
                let is_last_item := i =? len items - 1 in
                let connector :=
                  if i =? 0 then (if is_last then corner else tee)
                  else (if is_last then blank else bar) in
                eval (is_dir item) s (fun d =>
                  if d then
                    let s := incr_dirs s in
                    let marker := folder_mark in
                    let s :=
                      append_line (prefix ++ connector ++ marker ++ name item
                                     ++ count_info show_hidden item) s in
                    let next_prefix := prefix ++ (if is_last then blank else bar) in
                    process_item next_prefix is_last_item (current_depth + 1) s
                  else Returned (file_entry prefix connector item s)))
             (enumerate items) s)
       end)
      (fun s =>
         Returned (append_line
                     (prefix ++ corner ++ lock_mark ++ u "[Permission Denied]") s)).

(** [generate_detailed_tree], up to the end of the walk.  There is no
    test that the root exists. *)
Definition generate_detailed_tree (start_path_str : pystr)
    (start_path : path) (show_hidden : bool) (max_depth : option Z)
  : result state :=
  let tree_lines := [open_folder_mark ++ start_path_str; rule60] in
  match process_directory show_hidden max_depth start_path [] true 0
          (mk_state tree_lines 0 0 0) with
  | Returned s => Ok s
  | Raised e _ => Raise e
  end.

End WithBuiltins.
End Detailed.

(* ===================================================================== *)
(** * Method 3 of the generator, and [method2]: the rich tree *)
(* ===================================================================== *)

(** A [rich.tree.Tree]: a label and the sub-trees added to it, in order. *)
Inductive tree : Type :=
| Tree (label : pystr) (children : list tree).

(** [node.add(label)]: a new last child with no children of its own. *)
Definition add (label : pystr) (node : tree) : tree :=
  match node with
  | Tree l children => Tree l (children ++ [Tree label []])
  end.

(** The child [dir_node] returned by [parent_node.add(..)] is filled by the
    recursive call while it already hangs under its parent: what the call
    leaves in [dir_node], on return or on an exception, is what the parent
    holds. *)
Definition under (parent_node : tree) (filled : outcome tree) : outcome tree :=
  match parent_node, filled with
  | Tree l children, Returned dir_node => Returned (Tree l (children ++ [dir_node]))
  | Tree l children, Raised e dir_node => Raised e (Tree l (children ++ [dir_node]))
  end.

(** [node.label] and [node.children]. *)
Definition tree_label (node : tree) : pystr :=
  match node with Tree l _ => l end.
Definition tree_children (node : tree) : list tree :=
  match node with Tree _ children => children end.

Module Rich.
Section WithBuiltins.
Context `{builtins}.

Definition size_str (size : Z) : pystr :=
  if size =? 0 then u "[dim](empty)[/dim]"
  else if size <? 1024 then u "[dim](" ++ str_of_int size ++ u " B)[/dim]"
  else if size <? 1024 * 1024
  then u "[dim](" ++ format_float 1 size 1024 ++ u " KB)[/dim]"
  else if size <? 1024 * 1024 * 1024
  then u "[dim](" ++ format_float 1 size (1024 * 1024) ++ u " MB)[/dim]"
  else u "[dim](" ++ format_float 1 size (1024 * 1024 * 1024) ++ u " GB)[/dim]".

Definition dir_label (item : path) : pystr :=
  let dir_label := u "[bold cyan]" ++ name item ++ u "[/bold cyan]" in
  match iterdir item with
  | Ok dir_items =>
      match count is_file dir_items with
      | Ok dir_files =>
          match count is_dir dir_items with
          | Ok dir_dirs =>
              dir_label ++ u " [dim](" ++ str_of_int dir_files ++ u "f, "
                ++ str_of_int dir_dirs ++ u "d)[/dim]"
          | Raise _ => dir_label ++ u " [red][?][/red]"
          end
      | Raise _ => dir_label ++ u " [red][?][/red]"
      end
  | Raise _ => dir_label ++ u " [red][?][/red]"
  end.

Definition file_label (item : path) : pystr :=
  let size_str :=
    match stat item with
    | Ok st => size_str (st_size st)
    | Raise _ => u "[red](access denied)[/red]"
    end in
  u "[green]" ++ name item ++ u "[/green] " ++ size_str.

Definition depth_limited : pystr :=
  u "[dim italic]... (depth limited)[/dim italic]".
Definition permission_denied : pystr := u "[red][Permission Denied][/red]".

(** [build_tree(current_path, parent_node, current_depth)] of
    [directory_tree_generator.py]. *)
Fixpoint build_tree (max_depth : option Z) (current_path : path)
    (current_depth : Z) (parent_node : tree) : outcome tree :=
  if depth_reached max_depth current_depth
  then Returned (add depth_limited parent_node)
  else
    try_except_PermissionError
      (match iterdir_calling (build_tree max_depth) current_path with
       | Raise e => Raised e parent_node
       | Ok items =>
           eval (sort_dirs_first_calling items) parent_node (fun items =>
           for_each
             (fun '(item, build_item) parent_node =>
                eval (is_dir item) parent_node (fun d =>
                  if d then
                    under parent_node
                      (build_item (current_depth + 1) (Tree (dir_label item) []))
                  else Returned (add (file_label item) parent_node)))
             items parent_node)
       end)
      (fun parent_node => Returned (add permission_denied parent_node)).

(** [create_rich_directory_tree] with the rich library present, up to the
    tree it prints.  There is no test that the root exists. *)
Definition create_rich_directory_tree (start_path : path)
    (max_depth : option Z) : result tree :=
  let tree :=
    Tree (u "[bold bright_blue]" ++ name start_path ++ u "[/bold bright_blue]") [] in
  match build_tree max_depth start_path 0 tree with
  | Returned tree => Ok tree
  | Raised e _ => Raise e
  end.

End WithBuiltins.
End Rich.

(** [f"{n:,}"]: the decimal digits in groups of three. *)
Fixpoint group3 (rev_digits : list Z) : list Z :=
  match rev_digits with
  | a :: b :: c :: ((_ :: _) as more) => a :: b :: c :: 0x2C :: group3 more
  | _ => rev_digits
  end.

Definition format_thousands (n : Z) : pystr :=
  (if n <? 0 then u "-" else []) ++ rev (group3 (rev (str_of_int (Z.abs n)))).

Module Method2.
Section WithBuiltins.
Context `{builtins}.

(** The file branch: [item.stat()] stands bare in the loop. *)
Definition file_entry (item : path) (parent_node : tree) : outcome tree :=
  match stat item with
  | Raise e => Raised e parent_node
  | Ok st =>
      let size := st_size st in
      let size_str :=
        if size >? 0 then u " (" ++ format_thousands size ++ u " bytes)"
        else u " (empty)" in
      Returned (add (u "[green]" ++ name item ++ u "[/green][dim]"
                       ++ size_str ++ u "[/dim]") parent_node)
  end.

(** [build_tree(current_path, parent_node, current_depth)] of
    [method2/directory_tree.py]. *)
Fixpoint build_tree (max_depth : option Z) (current_path : path)
    (current_depth : Z) (parent_node : tree) : outcome tree :=
  if depth_reached max_depth current_depth then Returned parent_node
  else
    try_except_PermissionError
      (match iterdir_calling (build_tree max_depth) current_path with
       | Raise e => Raised e parent_node
       | Ok items =>
           eval (sort_dirs_first_calling items) parent_node (fun items =>
           for_each
             (fun '(item, build_item) parent_node =>
                eval (is_dir item) parent_node (fun d =>
                  if d then
                    under parent_node
                      (build_item (current_depth + 1)
                         (Tree (u "[bold cyan]" ++ name item ++ u "[/bold cyan]") []))
                  else file_entry item parent_node))
             items parent_node)
       end)
      (fun parent_node =>
         Returned (add (u "[red][Permission Denied][/red]") parent_node)).

(** [create_rich_directory_tree], up to the tree it prints. *)
Definition create_rich_directory_tree (start_path : path)
    (max_depth : option Z) : result tree :=
  let tree := Tree (u "[bold blue]" ++ name start_path ++ u "[/bold blue]") [] in
  match build_tree max_depth start_path 0 tree with
  | Returned tree => Ok tree
  | Raised e _ => Raise e
  end.

End WithBuiltins.
End Method2.

(* ===================================================================== *)
(** * Method 5 of the generator: the dictionary of the tree, JSON and XML *)
(* ===================================================================== *)

(** The Python values a tree dictionary is made of.  A [dict] keeps its
    keys in insertion order. *)
Inductive pyval : Type :=
| PNone
| PBool (b : bool)
| PInt (n : Z)
| PFloat (bits : Z)
| PStr (s : pystr)
| PList (l : list pyval)
| PDict (items : list (pystr * pyval)).

Definition dict := list (pystr * pyval).

(** [d[k] = v] *)
Fixpoint setitem (k : pystr) (v : pyval) (d : dict) : dict :=
  match d with
  | [] => [(k, v)]
  | (k', v') :: d' =>
      if str_eqb k' k then (k', v) :: d' else (k', v') :: setitem k v d'
  end.

(** [d.get(k)] *)
Fixpoint get (k : pystr) (d : dict) : option pyval :=
  match d with
  | [] => None
  | (k', v) :: d' => if str_eqb k' k then Some v else get k d'
  end.

Definition k_name : pystr := Eval cbv in u "name".
Definition k_path : pystr := Eval cbv in u "path".
Definition k_type : pystr := Eval cbv in u "type".
Definition k_size : pystr := Eval cbv in u "size".
Definition k_modified : pystr := Eval cbv in u "modified".
Definition k_children : pystr := Eval cbv in u "children".
Definition k_error : pystr := Eval cbv in u "error".
Definition k_metadata : pystr := Eval cbv in u "metadata".
Definition k_generated : pystr := Eval cbv in u "generated".
Definition k_source_path : pystr := Eval cbv in u "source_path".
Definition k_max_depth : pystr := Eval cbv in u "max_depth".
Definition s_directory : pystr := Eval cbv in u "directory".
Definition s_file : pystr := Eval cbv in u "file".
Definition s_item : pystr := Eval cbv in u "item".
Definition s_permission_denied : pystr := Eval cbv in u "Permission denied".

(** [d['size']] where the walker reads it back: the key is there and holds
    an [int]. *)
Definition size_of (d : dict) : Z :=
  match get k_size d with
  | Some (PInt n) => n
  | _ => 0
  end.

Definition children_of (d : dict) : list pyval :=
  match get k_children d with
  | Some (PList l) => l
  | _ => []
  end.

(** [d['children'].append(child)] *)
Definition append_child (child : pyval) (d : dict) : dict :=
  setitem k_children (PList (children_of d ++ [child])) d.

(** [d['size'] += n] *)
Definition add_size (n : Z) (d : dict) : dict :=
  setitem k_size (PInt (size_of d + n)) d.

(** [str(parent / name)] for an absolute [parent]. *)
Definition child_str (parent_str name : pystr) : pystr :=
  if str_eqb parent_str (u "/") then parent_str ++ name
  else parent_str ++ u "/" ++ name.

Definition error_entry : pyval := PDict [(k_error, PStr s_permission_denied)].

Module Method5.
Section WithBuiltins.
Context `{builtins}.

(** The [else] branch of the loop: a file entry. *)
Definition file_entry (item_str : pystr) (item : path) (d : dict) : dict :=
  match stat item with
  | Ok stat =>
      let child_dict :=
        PDict [(k_name, PStr (name item));
               (k_path, PStr item_str);
               (k_type, PStr s_file);
               (k_size, PInt (st_size stat));
               (k_modified, PFloat (st_mtime stat))] in
      let d := append_child child_dict d in
      add_size (st_size stat) d
  | Raise _ =>
      append_child
        (PDict [(k_name, PStr (name item));
                (k_type, PStr s_file);
                (k_error, PStr s_permission_denied)]) d
  end.

(** [path.stat().st_mtime if path.exists() else 0] *)
Definition modified_of (path : path) : result pyval :=
  match exists_ path with
  | Raise e => Raise e
  | Ok true =>
      match stat path with
      | Ok st => Ok (PFloat (st_mtime st))
      | Raise e => Raise e
      end
  | Ok false => Ok (PInt 0)
  end.

(** [directory_to_dict(path, max_depth, current_depth)]; [path_str] is
    [str(path)].  Every exception of the model is an [OSError], so the
    handler of the [try] takes all of them. *)
Fixpoint directory_to_dict (max_depth : option Z) (path : path)
    (path_str : pystr) (current_depth : Z) : result pyval :=
  match modified_of path with
  | Raise e => Raise e
  | Ok modified =>
      let d : dict :=
        [(k_name, PStr (name path));
         (k_path, PStr path_str);
         (k_type, PStr s_directory);
         (k_size, PInt 0);
         (k_modified, modified)] in
      if depth_reached max_depth current_depth
      then Ok (PDict (setitem k_children (PList []) d))
      else
        match
          match iterdir_calling (directory_to_dict max_depth) path with
          | Raise e => Raised e d
          | Ok items =>
              let d := setitem k_children (PList []) d in
              eval (sort_dirs_first_calling items) d (fun items =>
              for_each
                (fun '(item, item_to_dict) d =>
                   let item_str := child_str path_str (name item) in
                   eval (is_dir item) d (fun is_a_dir =>
                     if is_a_dir then
                       match item_to_dict item_str (current_depth + 1) with
                       | Raise e => Raised e d
                       | Ok child_dict =>
                           let d := append_child child_dict d in
                           Returned
                             (add_size
                                (match child_dict with
                                 | PDict c => size_of c
                                 | _ => 0
                                 end) d)
                       end
                     else Returned (file_entry item_str item d)))
                items d)
          end
        with
        | Returned d => Ok (PDict d)
        | Raised _ d => Ok (PDict (setitem k_children (PList [error_entry]) d))
        end
  end.

(** [tree_dict] of [save_tree_json]: the dictionary with its metadata,
    as handed to [json.dump]. *)
Definition json_tree_dict (start_path_str now : pystr) (start_path : path)
    (max_depth : option Z) : result pyval :=
  match directory_to_dict max_depth start_path start_path_str 0 with
  | Raise e => Raise e
  | Ok (PDict tree_dict) =>
      Ok (PDict
            (setitem k_metadata
               (PDict [(k_generated, PStr now);
                       (k_source_path, PStr start_path_str);
                       (k_max_depth,
                        match max_depth with
                        | None => PNone
                        | Some m => PInt m
                        end)])
               tree_dict))
  | Ok other => Ok other
  end.

(** ** XML *)

(** An [xml.etree.ElementTree.Element]. *)
Inductive element : Type :=
| Element (tag : pystr) (attrib : list (pystr * pystr)) (sub : list element).

Fixpoint set_attrib (k v : pystr) (a : list (pystr * pystr))
  : list (pystr * pystr) :=
  match a with
  | [] => [(k, v)]
  | (k', v') :: a' =>
      if str_eqb k' k then (k', v) :: a' else (k', v') :: set_attrib k v a'
  end.

Fixpoint get_attrib (k : pystr) (a : list (pystr * pystr)) : option pystr :=
  match a with
  | [] => None
  | (k', v) :: a' => if str_eqb k' k then Some v else get_attrib k a'
  end.

(** [element.set(key, value)] *)
Definition set (key value : pystr) (e : element) : element :=
  match e with
  | Element tag attrib sub => Element tag (set_attrib key value attrib) sub
  end.

(** [ET.SubElement(element, tag)] once the new child is filled. *)
Definition sub_element (e child : element) : element :=
  match e with
  | Element tag attrib sub => Element tag attrib (sub ++ [child])
  end.

(** [str(value)] for the values that reach [element.set]: a list or a
    dictionary never does. *)
Definition str_of_value (value : pyval) : pystr :=
  match value with
  | PNone => u "None"
  | PBool b => if b then u "True" else u "False"
  | PInt n => str_of_int n
  | PFloat x => float_repr x
  | PStr s => s
  | PList _ | PDict _ => []
  end.

(** [child.get('type', 'item')] *)
Definition child_type (child : pyval) : pystr :=
  match child with
  | PDict c =>
      match get k_type c with
      | Some (PStr t) => t
      | _ => s_item
      end
  | _ => s_item
  end.

(** [dict_to_xml(element, data)] *)
Fixpoint dict_to_xml (data : pyval) (e : element) {struct data} : element :=
  match data with
  | PDict items =>
      (fix over_items (items : dict) (e : element) {struct items} : element :=
         match items with
         | [] => e
         | (key, value) :: rest =>
             let scalar e :=
               if negb (str_eqb key k_type || str_eqb key k_children)
               then set key (str_of_value value) e else e in
             let e :=
               match value with
               | PList l =>
                   if str_eqb key k_children then
                     (fix over_children (l : list pyval) (e : element)
                        {struct l} : element :=
                        match l with
                        | [] => e
                        | child :: l' =>
                            over_children l'
                              (sub_element e
                                 (dict_to_xml child
                                    (Element (child_type child) [] [])))
                        end) l e
                   else scalar e
               | PDict _ => sub_element e (dict_to_xml value (Element key [] []))
               | _ => scalar e
               end in
             over_items rest e
         end) items e
  | _ => e
  end.

(** [str(max_depth) if max_depth else 'unlimited'] *)
Definition max_depth_attribute (max_depth : option Z) : pystr :=
  match max_depth with
  | None => u "unlimited"
  | Some m => if m =? 0 then u "unlimited" else str_of_int m
  end.

(** [save_tree_xml], up to the root element it serialises. *)
Definition save_tree_xml (start_path_str now : pystr) (start_path : path)
    (max_depth : option Z) : result element :=
  match directory_to_dict max_depth start_path start_path_str 0 with
  | Raise e => Raise e
  | Ok tree_dict =>
      let root := Element (u "directory_tree") [] [] in
      let root := set k_generated now root in
      let root := set k_path start_path_str root in
      let root := set k_max_depth (max_depth_attribute max_depth) root in
      Ok (dict_to_xml tree_dict root)
  end.

End WithBuiltins.
End Method5.

(* ===================================================================== *)
(** * [json.dump(.., indent=2)] and [json.load] *)
(* ===================================================================== *)

Module Json.

(** ** Floats by their bits *)

Definition float_exponent (x : Z) : Z := Z.land (Z.shiftr x 52) 0x7FF.
Definition float_fraction (x : Z) : Z := Z.land x 0xFFFFFFFFFFFFF.
Definition float_negative (x : Z) : bool := Z.testbit x 63.
Definition finite (x : Z) : bool := negb (float_exponent x =? 0x7FF).

Definition nan : Z := 0x7FF8000000000000.
Definition inf : Z := 0x7FF0000000000000.
Definition neg_inf : Z := 0xFFF0000000000000.

(** ** The encoder *)

Definition hex_digit (n : Z) : Z := if n <? 10 then 0x30 + n else 0x61 + (n - 10).

(** ['{0:04x}'.format(n)] *)
Definition hex4 (n : Z) : pystr :=
  [hex_digit (n / 4096 mod 16); hex_digit (n / 256 mod 16);
   hex_digit (n / 16 mod 16); hex_digit (n mod 16)].

Definition backslash_u (n : Z) : pystr := [0x5C; 0x75] ++ hex4 n.

(** The replacement of one character by [ESCAPE_ASCII]. *)
Definition escape_char (c : Z) : pystr :=
  if c =? 0x22 then [0x5C; 0x22]
  else if c =? 0x5C then [0x5C; 0x5C]
  else if c =? 0x0A then [0x5C; 0x6E]
  else if c =? 0x0D then [0x5C; 0x72]
  else if c =? 0x09 then [0x5C; 0x74]
  else if c =? 0x08 then [0x5C; 0x62]
  else if c =? 0x0C then [0x5C; 0x66]
  else if (0x20 <=? c) && (c <=? 0x7E) then [c]
  else if c <? 0x10000 then backslash_u c
  else
    let n := c - 0x10000 in
    let s1 := Z.lor 0xD800 (Z.land (Z.shiftr n 10) 0x3FF) in
    let s2 := Z.lor 0xDC00 (Z.land n 0x3FF) in
    backslash_u s1 ++ backslash_u s2.

(** [encode_basestring_ascii(s)] *)
Definition encode_basestring_ascii (s : pystr) : pystr :=
  [0x22] ++ flat_map escape_char s ++ [0x22].

(** ['\n' + ' ' * (2 * level)] *)
Definition newline_indent (level : nat) : pystr := 0x0A :: repeat 0x20 (2 * level).

Section WithBuiltins.
Context `{builtins}.

(** [floatstr(o)] *)
Definition floatstr (x : Z) : pystr :=
  if finite x then float_repr x
  else if negb (float_fraction x =? 0) then u "NaN"
  else if float_negative x then u "-Infinity"
  else u "Infinity".

(** [_iterencode(o, level)], joined.  Keys of the dictionaries are
    strings. *)
Fixpoint iterencode (o : pyval) (level : nat) {struct o} : pystr :=
  match o with
  | PNone => u "null"
  | PBool true => u "true"
  | PBool false => u "false"
  | PInt n => str_of_int n
  | PFloat x => floatstr x
  | PStr s => encode_basestring_ascii s
  | PList [] => u "[]"
  | PList (x :: l) =>
      [0x5B] ++ newline_indent (S level) ++ iterencode x (S level)
        ++ (fix items (l : list pyval) : pystr :=
              match l with
              | [] => []
              | y :: l' =>
                  [0x2C] ++ newline_indent (S level) ++ iterencode y (S level)
                    ++ items l'
              end) l
        ++ newline_indent level ++ [0x5D]
  | PDict [] => u "{}"
  | PDict ((k, v) :: d) =>
      [0x7B] ++ newline_indent (S level)
        ++ encode_basestring_ascii k ++ [0x3A; 0x20] ++ iterencode v (S level)
        ++ (fix items (d : list (pystr * pyval)) : pystr :=
              match d with
              | [] => []
              | (k, v) :: d' =>
                  [0x2C] ++ newline_indent (S level)
                    ++ encode_basestring_ascii k ++ [0x3A; 0x20]
                    ++ iterencode v (S level) ++ items d'
              end) d
        ++ newline_indent level ++ [0x7D]
  end.

(** [json.dumps(obj, indent=2)]: the text [json.dump] writes. *)
Definition dumps (obj : pyval) : pystr := iterencode obj 0.

(** ** The decoder *)

Definition is_ws (c : Z) : bool :=
  (c =? 0x20) || (c =? 0x09) || (c =? 0x0A) || (c =? 0x0D).

Fixpoint skip_ws (s : pystr) : pystr :=
  match s with
  | c :: s' => if is_ws c then skip_ws s' else s
  | [] => []
  end.

Definition hex_value (c : Z) : option Z :=
  if (0x30 <=? c) && (c <=? 0x39) then Some (c - 0x30)
  else if (0x61 <=? c) && (c <=? 0x66) then Some (c - 0x61 + 10)
  else if (0x41 <=? c) && (c <=? 0x46) then Some (c - 0x41 + 10)
  else None.

(** [_decode_uXXXX] *)
Definition decode_hex4 (h1 h2 h3 h4 : Z) : option Z :=
  match hex_value h1, hex_value h2, hex_value h3, hex_value h4 with
  | Some a, Some b, Some c, Some d => Some (a * 4096 + b * 256 + c * 16 + d)
  | _, _, _, _ => None
  end.

(** [BACKSLASH[esc]] *)
Definition backslash (esc : Z) : option Z :=
  if esc =? 0x22 then Some 0x22
  else if esc =? 0x5C then Some 0x5C
  else if esc =? 0x2F then Some 0x2F
  else if esc =? 0x62 then Some 0x08
  else if esc =? 0x66 then Some 0x0C
  else if esc =? 0x6E then Some 0x0A
  else if esc =? 0x72 then Some 0x0D
  else if esc =? 0x74 then Some 0x09
  else None.

Definition cons_char (c : Z) (r : option (pystr * pystr)) : option (pystr * pystr) :=
  match r with
  | Some (str, rest) => Some (c :: str, rest)
  | None => None
  end.

(** [scanstring(s, end, strict=True)], from after the opening quote: the
    string and what follows its closing quote. *)
Fixpoint scanstring (s : pystr) {struct s} : option (pystr * pystr) :=
  match s with
  | [] => None
  | c :: s1 =>
      if c =? 0x22 then Some ([], s1)
      else if c =? 0x5C then
        match s1 with
        | [] => None
        | esc :: s2 =>
            if esc =? 0x75 then
              match s2 with
              | h1 :: h2 :: h3 :: h4 :: s3 =>
                  match decode_hex4 h1 h2 h3 h4 with
                  | None => None
                  | Some uni =>
                      if (0xD800 <=? uni) && (uni <=? 0xDBFF) then
                        match s3 with
                        | b :: v :: s3' =>
                            if (b =? 0x5C) && (v =? 0x75) then
                              match s3' with
                              | g1 :: g2 :: g3 :: g4 :: s4 =>
                                  match decode_hex4 g1 g2 g3 g4 with
                                  | None => None
                                  | Some uni2 =>
                                      if (0xDC00 <=? uni2) && (uni2 <=? 0xDFFF) then
                                        cons_char
                                          (0x10000
                                           + Z.lor (Z.shiftl (uni - 0xD800) 10) (uni2 - 0xDC00))
                                          (scanstring s4)
                                      else cons_char uni (scanstring s3)
                                  end
                              | _ => None
                              end
                            else cons_char uni (scanstring s3)
                        | _ => cons_char uni (scanstring s3)
                        end
                      else cons_char uni (scanstring s3)
                  end
              | _ => None
              end
            else
              match backslash esc with
              | Some char => cons_char char (scanstring s2)
              | None => None
              end
        end
      else if c <? 0x20 then None
      else cons_char c (scanstring s1)
  end.

Definition is_digit (c : Z) : bool := (0x30 <=? c) && (c <=? 0x39).

Definition cons_digit (c : Z) (d : Decimal.uint) : Decimal.uint :=
  if c =? 0x30 then Decimal.D0 d else if c =? 0x31 then Decimal.D1 d
  else if c =? 0x32 then Decimal.D2 d else if c =? 0x33 then Decimal.D3 d
  else if c =? 0x34 then Decimal.D4 d else if c =? 0x35 then Decimal.D5 d
  else if c =? 0x36 then Decimal.D6 d else if c =? 0x37 then Decimal.D7 d
  else if c =? 0x38 then Decimal.D8 d else Decimal.D9 d.

(** A run of digits: the digits read and what follows them. *)
Fixpoint scan_digits (s : pystr) : pystr * pystr :=
  match s with
  | c :: s' =>
      if is_digit c then let (ds, r) := scan_digits s' in (c :: ds, r)
      else ([], s)
  | [] => ([], [])
  end.

(** [int(digits)] *)
Definition int_of_digits (ds : pystr) : Z :=
  Z.of_uint (fold_right cons_digit Decimal.Nil ds).

(** The integer part of [NUMBER_RE], an optional minus sign and then a
    lone zero or a digit string without a leading zero: the lexeme and
    the rest. *)
Definition scan_integer (s : pystr) : option (pystr * pystr) :=
  let (sign, s1) :=
    match s with
    | c :: s' => if c =? 0x2D then ([0x2D], s') else ([], s)
    | [] => ([], s)
    end in
  match s1 with
  | c :: s2 =>
      if c =? 0x30 then Some (sign ++ [c], s2)
      else if is_digit c then
        let (ds, r) := scan_digits s2 in Some (sign ++ c :: ds, r)
      else None
  | [] => None
  end.

(** The optional fraction of [NUMBER_RE]: a dot and at least one digit. *)
Definition scan_frac (s : pystr) : pystr * pystr :=
  match s with
  | c :: s' =>
      if c =? 0x2E then
        match scan_digits s' with
        | ([], _) => ([], s)
        | (ds, r) => (c :: ds, r)
        end
      else ([], s)
  | [] => ([], s)
  end.

(** The optional exponent of [NUMBER_RE]: [e] or [E], an optional sign,
    at least one digit. *)
Definition scan_exp (s : pystr) : pystr * pystr :=
  match s with
  | c :: s' =>
      if (c =? 0x65) || (c =? 0x45) then
        let (sign, s1) :=
          match s' with
          | g :: s'' => if (g =? 0x2D) || (g =? 0x2B) then ([g], s'') else ([], s')
          | [] => ([], s')
          end in
        match scan_digits s1 with
        | ([], _) => ([], s)
        | (ds, r) => (c :: sign ++ ds, r)
        end
      else ([], s)
  | [] => ([], s)
  end.

(** [NUMBER_RE.match] and the conversion of the lexeme. *)
Definition scan_number (s : pystr) : option (pyval * pystr) :=
  match scan_integer s with
  | None => None
  | Some (integer, s1) =>
      let (frac, s2) := scan_frac s1 in
      let (exp, s3) := scan_exp s2 in
      match frac, exp with
      | [], [] =>
          Some (PInt (match integer with
                      | c :: ds => if c =? 0x2D then - int_of_digits ds
                                   else int_of_digits integer
                      | [] => 0
                      end), s3)
      | _, _ => Some (PFloat (float_of_str (integer ++ frac ++ exp)), s3)
      end
  end.

(** [dict(pairs)] *)
Definition dict_of_pairs (pairs : list (pystr * pyval)) : dict :=
  fold_left (fun d kv => setitem (fst kv) (snd kv) d) pairs [].

(** [s] starts with the ASCII word [w]: the rest after it. *)
Fixpoint after (w s : pystr) : option pystr :=
  match w, s with
  | [], _ => Some s
  | c :: w', d :: s' => if c =? d then after w' s' else None
  | _ :: _, [] => None
  end.

(** [scan_once], with [JSONObject] and [JSONArray]; [fuel] bounds the
    calls, and the length of the text is enough. *)
Fixpoint scan_once (fuel : nat) (s : pystr) {struct fuel}
  : option (pyval * pystr) :=
  match fuel with
  | O => None
  | S fuel =>
      match s with
      | [] => None
      | c :: s' =>
          if c =? 0x22 then
            match scanstring s' with
            | Some (str, r) => Some (PStr str, r)
            | None => None
            end
          else if c =? 0x7B then
            match skip_ws s' with
            | c1 :: s1 =>
                if c1 =? 0x7D then Some (PDict [], s1)
                else if c1 =? 0x22 then
                  match members fuel s1 with
                  | Some (pairs, r) => Some (PDict (dict_of_pairs pairs), r)
                  | None => None
                  end
                else None
            | [] => None
            end
          else if c =? 0x5B then
            match skip_ws s' with
            | c1 :: s1 =>
                if c1 =? 0x5D then Some (PList [], s1)
                else
                  match elements fuel (c1 :: s1) with
                  | Some (values, r) => Some (PList values, r)
                  | None => None
                  end
            | [] => None
            end
          else if c =? 0x6E then
            match after (u "ull") s' with
            | Some r => Some (PNone, r) | None => None
            end
          else if c =? 0x74 then
            match after (u "rue") s' with
            | Some r => Some (PBool true, r) | None => None
            end
          else if c =? 0x66 then
            match after (u "alse") s' with
            | Some r => Some (PBool false, r) | None => None
            end
          else
            match scan_number s with
            | Some r => Some r
            | None =>
                match after (u "NaN") s, after (u "Infinity") s,
                      after (u "-Infinity") s with
                | Some r, _, _ => Some (PFloat nan, r)
                | _, Some r, _ => Some (PFloat inf, r)
                | _, _, Some r => Some (PFloat neg_inf, r)
                | _, _, _ => None
                end
            end
      end
  end

(** The members of an object, from after the opening quote of a key. *)
with members (fuel : nat) (s : pystr) {struct fuel}
  : option (list (pystr * pyval) * pystr) :=
  match fuel with
  | O => None
  | S fuel =>
      match scanstring s with
      | None => None
      | Some (key, s1) =>
          match skip_ws s1 with
          | c :: s2 =>
              if c =? 0x3A then
                match scan_once fuel (skip_ws s2) with
                | None => None
                | Some (value, s3) =>
                    match skip_ws s3 with
                    | c' :: s4 =>
                        if c' =? 0x7D then Some ([(key, value)], s4)
                        else if c' =? 0x2C then
                          match skip_ws s4 with
                          | q :: s5 =>
                              if q =? 0x22 then
                                match members fuel s5 with
                                | Some (pairs, r) => Some ((key, value) :: pairs, r)
                                | None => None
                                end
                              else None
                          | [] => None
                          end
                        else None
                    | [] => None
                    end
                end
              else None
          | [] => None
          end
      end
  end

(** The elements of an array, from its first value. *)
with elements (fuel : nat) (s : pystr) {struct fuel}
  : option (list pyval * pystr) :=
  match fuel with
  | O => None
  | S fuel =>
      match scan_once fuel s with
      | None => None
      | Some (value, s1) =>
          match skip_ws s1 with
          | c :: s2 =>
              if c =? 0x5D then Some ([value], s2)
              else if c =? 0x2C then
                match elements fuel (skip_ws s2) with
                | Some (values, r) => Some (value :: values, r)
                | None => None
                end
              else None
          | [] => None
          end
      end
  end.

(** [json.loads(s)] *)
Definition loads (s : pystr) : option pyval :=
  match scan_once (S (List.length s)) (skip_ws s) with
  | Some (obj, r) =>
      match skip_ws r with
      | [] => Some obj
      | _ :: _ => None
      end
  | None => None
  end.

(** [save_tree_json], up to the text it writes. *)
Definition save_tree_json (start_path_str now : pystr) (start_path : path)
    (max_depth : option Z) : result pystr :=
  match Method5.json_tree_dict start_path_str now start_path max_depth with
  | Raise e => Raise e
  | Ok tree_dict => Ok (dumps tree_dict)
  end.

End WithBuiltins.
End Json.

(* ===================================================================== *)
(** * A runtime to evaluate the walkers on concrete trees *)
(* ===================================================================== *)

Definition ascii_lower_char (c : Z) : Z :=
  if (0x41 <=? c) && (c <=? 0x5A) then c + 0x20 else c.

(** [round(a / b)], ties to even, for [0 <= a] and [0 < b]. *)
Definition round_half_even (a b : Z) : Z :=
  let q := a / b in
  let r := a mod b in
  if 2 * r <? b then q
  else if 2 * r >? b then q + 1
  else if Z.even q then q else q + 1.

Definition pad_zeros (width : nat) (digits : pystr) : pystr :=
  repeat 0x30 (width - List.length digits) ++ digits.

(** The integer a signed digit string denotes. *)
Definition int_of_str (s : pystr) : Z :=
  match s with
  | c :: ds => if c =? 0x2D then - Json.int_of_digits ds else Json.int_of_digits s
  | [] => 0
  end.

(** ASCII lower-casing; [a/b] rendered from the exact quotient (what Python
    prints when [a/b] is exact in binary64, as it is for a size below 2^53
    over a power of two); a float written as the decimal number of its bit
    pattern followed by [".0"], and read back from there. *)
#[export] Instance ascii_builtins : builtins := {
  str_lower := map ascii_lower_char;
  format_float d a b :=
    let t := round_half_even (a * 10 ^ Z.of_nat d) b in
    str_of_int (t / 10 ^ Z.of_nat d) ++ u "."
      ++ pad_zeros d (str_of_int (t mod 10 ^ Z.of_nat d));
  float_repr x := str_of_int x ++ u ".0";
  float_of_str s :=
    match Json.scan_integer s with
    | Some (integer, _) => int_of_str integer
    | None => 0
    end
}.

(* ===================================================================== *)
(** * The walkers, one level at a time *)
(* ===================================================================== *)

(** The loop bodies with the recursive call written on the entry itself,
    and the listings as the walkers order them. *)

Section AsciiLevel.
Context `{builtins}.
Import Ascii.

(** The body of the loop of [build_tree] on one entry of a listing of
    [n] entries. *)
Definition ascii_visit (show_hidden : bool) (max_depth : option Z)
    (prefix : pystr) (is_last : bool) (depth n : Z) (ix : Z * path) (s : state)
  : outcome state :=
  let i := fst ix in
  let item := snd ix in
  let is_last_item := i =? n - 1 in
  let connector :=
    if i =? 0 then (if is_last then corner else tee)
    else (if is_last then blank else bar) in
  let line := prefix ++ connector in
  eval (is_dir item) s (fun d =>
    if d then
      build_tree show_hidden max_depth item
        (prefix ++ (if is_last then blank else bar)) is_last_item (depth + 1)
        (append_line (line ++ u "[D] " ++ dir_annotation show_hidden item) (incr_dirs s))
    else Returned (file_entry line item s)).

(** The entries of a directory as [build_tree] and [process_directory] go
    through them: listed, filtered, sorted. *)
Definition ascii_listing (show_hidden : bool) (p : path) : result (list path) :=
  match iterdir p with
  | Raise e => Raise e
  | Ok ls => sort_dirs_first (if negb show_hidden then filter not_hidden ls else ls)
  end.

(** The key of an entry whose [is_dir()] answers, and the order of the
    keys on the entries. *)
Definition path_key (x : path) : bool * pystr :=
  (negb (kind_dir x), str_lower (name x)).

Definition path_key_lt (x y : path) : bool := key_lt (path_key x) (path_key y).

(** What the first entry whose [is_dir()] raises, raises. *)
Fixpoint first_raise (l : list path) : option exn :=
  match l with
  | [] => None
  | x :: l' =>
      match is_dir x with
      | Raise e => Some e
      | Ok _ => first_raise l'
      end
  end.

(** The connector of the ASCII, enhanced and detailed trees for the entry
    of index [i], in a directory listed with the flag [is_last]. *)
Definition connector_of (is_last : bool) (i : Z) : pystr :=
  if i =? 0 then (if is_last then corner else tee)
  else (if is_last then blank else bar).

(** The line that [build_tree] writes for an entry whose [is_dir()]
    answers. *)
Definition ascii_line (show_hidden : bool) (prefix : pystr) (is_last : bool)
    (ix : Z * path) : pystr :=
  let item := snd ix in
  let line := prefix ++ connector_of is_last (fst ix) in
  if kind_dir item then line ++ u "[D] " ++ dir_annotation show_hidden item
  else
    match stat item with
    | Ok st =>
        line ++ u "[F] " ++ name item ++ u " (" ++ size_str (st_size st) ++ u ")"
    | Raise _ => line ++ u "[F] " ++ name item ++ u " (access denied)"
    end.
End AsciiLevel.

Section DetailedLevel.
Context `{builtins}.
Import Detailed.

(** The body of the loop of [process_directory] on one entry of a listing
    of [n] entries. *)
Definition detailed_visit (show_hidden : bool) (max_depth : option Z)
    (prefix : pystr) (is_last : bool) (current_depth n : Z) (ix : Z * path)
    (s : state) : outcome state :=
  let i := fst ix in
  let item := snd ix in
  let is_last_item := i =? n - 1 in
  let connector :=
    if i =? 0 then (if is_last then corner else tee)
    else (if is_last then blank else bar) in
  eval (is_dir item) s (fun d =>
    if d then
      process_directory show_hidden max_depth item
        (prefix ++ (if is_last then blank else bar)) is_last_item (current_depth + 1)
        (append_line (prefix ++ connector ++ folder_mark ++ name item
                        ++ count_info show_hidden item) (incr_dirs s))
    else Returned (file_entry prefix connector item s)).

(** The line that [process_directory] writes for an entry whose [is_dir()]
    answers. *)
Definition detailed_line (show_hidden : bool) (prefix : pystr) (is_last : bool)
    (ix : Z * path) : pystr :=
  let item := snd ix in
  let line := prefix ++ connector_of is_last (fst ix) in
  if kind_dir item
  then line ++ folder_mark ++ name item ++ count_info show_hidden item
  else
    match stat item with
    | Ok st => line ++ page_mark ++ name item ++ size_str (st_size st)
    | Raise _ => line ++ page_mark ++ name item
    end.
End DetailedLevel.

Section BasicLevel.
Import Basic.


(** [sorted(paths)] on the paths themselves. *)
Definition basic_listing (ls : list path) : list path :=
  sorted (fun x y => str_lt (name x) (name y)) ls.

End BasicLevel.

Section DictLevel.
Context `{builtins}.
Import Method5.

(** The body of the loop of [directory_to_dict] on one entry. *)
Definition dict_visit (max_depth : option Z) (path_str : pystr)
    (current_depth : Z) (item : path) (d : dict) : outcome dict :=
  let item_str := child_str path_str (name item) in
  eval (is_dir item) d (fun is_a_dir =>
    if is_a_dir then
      match directory_to_dict max_depth item item_str (current_depth + 1) with
      | Raise e => Raised e d
      | Ok child_dict =>
          Returned
            (add_size (match child_dict with PDict c => size_of c | _ => 0 end)
               (append_child child_dict d))
      end
    else Returned (file_entry item_str item d)).

(** The dictionary before its children are known. *)
Definition dict_header (path : path) (path_str : pystr) (modified : pyval) : dict :=
  [(k_name, PStr (name path));
   (k_path, PStr path_str);
   (k_type, PStr s_directory);
   (k_size, PInt 0);
   (k_modified, modified)].
End DictLevel.

(* ===================================================================== *)
(** * Reading a tree dictionary *)
(* ===================================================================== *)

(** [d['type'] == t] *)
Definition type_is (t : pystr) (d : dict) : bool :=
  match get k_type d with
  | Some (PStr t') => str_eqb t' t
  | _ => false
  end.

(** The bytes of the file nodes in and under a node: a file node counts its
    own [size] (nothing when it has none, as the entries that record an
    error), any other node the file nodes under its [children]. *)
Fixpoint file_bytes (v : pyval) : Z :=
  match v with
  | PDict items =>
      if type_is s_file items then size_of items
      else
        (fix over (items : dict) : Z :=
           match items with
           | [] => 0
           | (k, v) :: rest =>
               (if str_eqb k k_children then file_bytes v else 0) + over rest
           end) items
  | PList l =>
      (fix sum (l : list pyval) : Z :=
         match l with
         | [] => 0
         | x :: l' => file_bytes x + sum l'
         end) l
  | _ => 0
  end.

(** Every directory node in and under [v] has for [size] the bytes of the
    file nodes under it. *)
Fixpoint sizes_ok (v : pyval) : bool :=
  match v with
  | PDict items =>
      (if type_is s_directory items
       then size_of items =? file_bytes (PList (children_of items))
       else true)
      && (fix over (items : dict) : bool :=
            match items with
            | [] => true
            | (_, v) :: rest => sizes_ok v && over rest
            end) items
  | PList l =>
      (fix all (l : list pyval) : bool :=
         match l with
         | [] => true
         | x :: l' => sizes_ok x && all l'
         end) l
  | _ => true
  end.

(** A directory dictionary with its six keys. *)
Definition dir_dict (name path_str : pystr) (size : Z) (modified : pyval)
    (children : list pyval) : dict :=
  [(k_name, PStr name);
   (k_path, PStr path_str);
   (k_type, PStr s_directory);
   (k_size, PInt size);
   (k_modified, modified);
   (k_children, PList children)].

(** The limit of the dictionary walk that stops where the limit
    [max_depth] stops the text walkers. *)
Definition one_more (max_depth : option Z) : option Z :=
  match max_depth with
  | Some m => Some (m + 1)
  | None => None
  end.

(* ===================================================================== *)
(** * Trees to run the walkers on *)
(* ===================================================================== *)

Definition file (name : string) (size : Z) : path :=
  File (u name) (Ok (mk_stat size 0x41D9000000000000)).
Definition directory (name : string) (ls : list path) : path :=
  Dir (u name) (mk_stat 4096 0x41D9000000000000) (Ok ls).

(** The scenario of the specification: [a.txt] of 10 bytes, and [B/] with
    [c.txt] of 5 bytes. *)
Definition scenario : path :=
  directory "root" [file "a.txt" 10; directory "B" [file "c.txt" 5]].

(** A directory with a hidden file of 7 bytes and a visible one of 3. *)
Definition with_hidden : path :=
  directory "root" [file ".env" 7; file "notes" 3].

(** The dictionary of the scenario, without a depth limit. *)
Definition scenario_dict : dict :=
  dir_dict (u "root") (u "/root") 15 (PFloat 0x41D9000000000000)
    [PDict (dir_dict (u "B") (u "/root/B") 5 (PFloat 0x41D9000000000000)
              [PDict [(k_name, PStr (u "c.txt"));
                      (k_path, PStr (u "/root/B/c.txt"));
                      (k_type, PStr s_file);
                      (k_size, PInt 5);
                      (k_modified, PFloat 0x41D9000000000000)]]);
     PDict [(k_name, PStr (u "a.txt"));
            (k_path, PStr (u "/root/a.txt"));
            (k_type, PStr s_file);
            (k_size, PInt 10);
            (k_modified, PFloat 0x41D9000000000000)]].

(** The lines and totals of the ASCII walk of the scenario, hidden entries
    shown, without a depth limit. *)
Definition scenario_ascii : Ascii.state :=
  Ascii.mk_state
    [u "ASCII Tree for: /root"; u "Generated: now"; rule60;
     corner ++ u "[D] B/ (1f, 0d)";
     blank ++ tee ++ u "[F] c.txt (5 B)";
     blank ++ u "[F] a.txt (10 B)"]
    1 2 15.

(** The attributes of the XML root of the scenario walked with
    [max_depth = 0], under [ascii_builtins]. *)
Definition scenario_xml_attrib : list (pystr * pystr) :=
  [(k_generated, u "now");
   (k_path, u "/root");
   (k_max_depth, u "unlimited");
   (k_name, u "root");
   (k_size, u "0");
   (k_modified, float_repr 0x41D9000000000000)].

(* ===================================================================== *)
(** * What a text walk passes *)
(* ===================================================================== *)

Definition zsum (l : list Z) : Z := fold_right Z.add 0 l.

Definition shown (show_hidden : bool) (item : path) : bool :=
  show_hidden || not_hidden item.

(** [body] is made of one block of lines for each entry, in the order of
    the entries: the line of the entry, then the lines under it, none
    under a [leaf]. *)
Definition blocks_of {A : Type} (line : A -> pystr) (leaf : A -> Prop)
    (entries : list A) (body : list pystr) : Prop :=
  exists blocks,
    body = List.concat blocks
    /\ Forall2 (fun x block =>
                  exists under, block = line x :: under /\ (leaf x -> under = []))
         entries blocks.

(** [is_dir()] of the entry answers. *)
Definition kind_answers (item : path) : bool :=
  match is_dir item with Ok _ => true | Raise _ => false end.

(** The sort of a listing goes through: the key of every entry that is
    shown answers. *)
Definition sortable (show_hidden : bool) (ls : list path) : bool :=
  forallb (fun item => negb (shown show_hidden item) || kind_answers item) ls.




(** A directory with an entry that vanished, or a link to nothing
    ([stat()] raises [FileNotFoundError], [is_dir()] answers [False]), and
    a file of 4 bytes. *)
Definition with_ghost : path :=
  directory "root" [Absent (u "ghost"); file "open" 4].



(** A directory with a file whose [stat()] raises [PermissionError] (the
    directory may be read but not searched) and a file of 4 bytes. *)
Definition locked : path := File (u "locked") (Raise PermissionError).

Definition with_denied : path := directory "root" [locked; file "open" 4].

(** The ASCII walk of [with_denied]: the sort of the listing raises. *)
Definition denied_ascii : Ascii.state :=
  Ascii.mk_state
    [u "ASCII Tree for: /root"; u "Generated: now"; rule60;
     corner ++ u "[Permission Denied]"]
    0 0 0.


(** A root path under which nothing exists. *)
Definition gone : path := Absent (u "gone").

(* ===================================================================== *)
(** * The tree without its hidden entries *)
(* ===================================================================== *)

(** [p] with every entry whose name starts with the hidden marker taken
    out of every listing, with all that is under it. *)
Fixpoint prune_hidden (p : path) : path :=
match p with
| Dir n st (Ok ls) =>
    Dir n st
      (Ok ((fix prune_all (l : list path) : list path :=
              match l with
              | [] => []
              | x :: l' =>
                  if not_hidden x then prune_hidden x :: prune_all l'
                  else prune_all l'
              end) ls))
| _ => p
end.

(** [q] stands in a listing in or under [p]. *)
Inductive listed : path -> path -> Prop :=
| listed_here n st ls q : In q ls -> listed (Dir n st (Ok ls)) q
| listed_below n st ls d q : In d ls -> listed d q -> listed (Dir n st (Ok ls)) q.

(* ===================================================================== *)
(** * Reading the children of a dictionary *)
(* ===================================================================== *)

(** [c['name']] *)
Definition child_name (c : pyval) : pystr :=
match c with
| PDict d => match get k_name d with Some (PStr s) => s | _ => [] end
| _ => []
end.

(** [c['type'] == 'directory'] *)
Definition child_is_dir (c : pyval) : bool :=
match c with
| PDict d => type_is s_directory d
| _ => false
end.

(** A directory with the file [README] and the directory [src]. *)
Definition project : path :=
  directory "root" [directory "src" []; file "README" 1].

(** Directories stand before the other entries, and within each group the
    lower-cased names do not go down. *)
Definition dirs_first_ordered `{builtins} (l : list path) : Prop :=
  forall l1 x l2 y l3,
    l = l1 ++ x :: l2 ++ y :: l3 ->
    (is_dir y = Ok true -> is_dir x = Ok true)
    /\ (is_dir x = is_dir y ->
        str_lt (str_lower (name y)) (str_lower (name x)) = false).

(** The names do not go down, by code points, whatever the kinds. *)
Definition plainly_ordered (l : list path) : Prop :=
  forall l1 x l2 y l3,
    l = l1 ++ x :: l2 ++ y :: l3 -> str_lt (name y) (name x) = false.



(** A directory with two files. *)
Definition two_files : path := directory "root" [file "a" 1; file "b" 2].

(** The ASCII walk of [two_files]. *)
Definition two_files_ascii : Ascii.state :=
  Ascii.mk_state
    [u "ASCII Tree for: /root"; u "Generated: now"; rule60;
     corner ++ u "[F] a (1 B)";
     blank ++ u "[F] b (2 B)"]
    0 2 3.

(** Every listing in and under [p] answers or raises [PermissionError],
    and the [is_dir()] of every entry answers or raises
    [PermissionError]. *)
Fixpoint denied_at_worst (p : path) : bool :=
match p with
| Dir _ _ (Ok ls) =>
    (fix all (l : list path) : bool :=
       match l with
       | [] => true
       | x :: l' => denied_at_worst x && all l'
       end) ls
| Dir _ _ (Raise e) => is_PermissionError e
| File _ (Raise e) => ignore_error e || is_PermissionError e
| _ => true
end.

(** Every listing in and under [p] answers or raises [PermissionError],
    and the [is_dir()] of every entry answers. *)
Fixpoint kinds_known (p : path) : bool :=
match p with
| Dir _ _ (Ok ls) =>
    (fix all (l : list path) : bool :=
       match l with
       | [] => true
       | x :: l' => kinds_known x && all l'
       end) ls
| Dir _ _ (Raise e) => is_PermissionError e
| File _ (Raise e) => ignore_error e
| _ => true
end.

(* ===================================================================== *)
(** * The line art as the specification words it *)
(* ===================================================================== *)



(* ===================================================================== *)
(** * Values that a JSON document carries faithfully *)
(* ===================================================================== *)

Section ReadingBack.
Import Json.

Definition is_high_surrogate (c : Z) : bool := (0xD800 <=? c) && (c <=? 0xDBFF).
Definition is_low_surrogate (c : Z) : bool := (0xDC00 <=? c) && (c <=? 0xDFFF).

(** A string made of code points, in which no high surrogate stands
    directly before a low surrogate. *)
Fixpoint wf_str (s : pystr) : bool :=
match s with
| [] => true
| c :: s' =>
    (0 <=? c) && (c <=? 0x10FFFF)
    && negb (is_high_surrogate c
             && match s' with d :: _ => is_low_surrogate d | [] => false end)
    && wf_str s'
end.

(** What the decoder looks for after a high surrogate: the escape of a low
    surrogate, or the start of an escape that does not read. *)
Definition low_escape_ahead (s : pystr) : bool :=
match s with
| b :: v :: s' =>
    (b =? 0x5C) && (v =? 0x75)
    && match s' with
       | g1 :: g2 :: g3 :: g4 :: _ =>
           match Json.decode_hex4 g1 g2 g3 g4 with
           | Some uni2 => is_low_surrogate uni2
           | None => true
           end
       | _ => true
       end
| _ => false
end.

(** A text that does not go on with a digit. *)
Definition digit_free (rest : pystr) : bool :=
match rest with
| [] => true
| c :: _ => negb (Json.is_digit c)
end.

(** What follows a value in the text the encoder writes: nothing, a comma
    or a line feed. *)
Definition delimited (rest : pystr) : bool :=
match rest with
| [] => true
| c :: _ => (c =? 0x2C) || (c =? 0x0A)
end.

(** [NUMBER_RE] matches all of [s], with a fraction or an exponent. *)
Definition is_float_literal (s : pystr) : bool :=
match Json.scan_integer s with
| Some (_, s1) =>
    let (frac, s2) := Json.scan_frac s1 in
    let (exp, s3) := Json.scan_exp s2 in
    match s3 with
    | [] => match frac, exp with [], [] => false | _, _ => true end
    | _ :: _ => false
    end
| None => false
end.

(** What is known of the floats of Python: the [repr] of a finite float is
    a number of JSON with a fraction or an exponent, and [float] reads it
    back. *)
Class float_laws `{builtins} : Prop := {
  float_repr_literal :
    forall x, Json.finite x = true -> is_float_literal (float_repr x) = true;
  float_of_repr :
    forall x, Json.finite x = true -> float_of_str (float_repr x) = x
}.

Fixpoint keys_distinct (keys : list pystr) : bool :=
match keys with
| [] => true
| k :: ks => negb (existsb (str_eqb k) ks) && keys_distinct ks
end.

(** A value that [json.dump] writes as it is: strings well formed, floats
    finite, the keys of a dictionary distinct. *)
Fixpoint wf_val (v : pyval) : bool :=
match v with
| PNone | PBool _ | PInt _ => true
| PFloat x => Json.finite x
| PStr s => wf_str s
| PList l =>
    (fix all (l : list pyval) : bool :=
       match l with
       | [] => true
       | x :: l' => wf_val x && all l'
       end) l
| PDict d =>
    keys_distinct (map fst d)
    && (fix all (d : list (pystr * pyval)) : bool :=
          match d with
          | [] => true
          | (k, v) :: d' => wf_str k && wf_val v && all d'
          end) d
end.

Section Encoding.
Context `{builtins}.

(** The elements of a list after the first, each behind its comma. *)
Definition encode_items (level : nat) (l : list pyval) : pystr :=
  flat_map (fun y => [0x2C] ++ Json.newline_indent (S level)
                       ++ Json.iterencode y (S level)) l.

(** A member of a dictionary from its key on. *)
Definition encode_member (level : nat) (kv : pystr * pyval) : pystr :=
  Json.encode_basestring_ascii (fst kv) ++ [0x3A; 0x20]
    ++ Json.iterencode (snd kv) (S level).

(** The members of a dictionary after the first, each behind its comma. *)
Definition encode_members (level : nat) (d : list (pystr * pyval)) : pystr :=
  flat_map (fun kv => [0x2C] ++ Json.newline_indent (S level)
                        ++ encode_member level kv) d.
End Encoding.

(** A text that starts where a value starts: not with white space and not
    with a closing bracket. *)
Definition starts_value (s : pystr) : bool :=
match s with
| c :: _ => negb (Json.is_ws c) && negb (c =? 0x5D)
| [] => false
end.

(** A text that starts as a number does. *)
Definition starts_number (s : pystr) : bool :=
match s with
| c :: _ => (c =? 0x2D) || Json.is_digit c
| [] => false
end.

(** A tree whose names are well-formed strings and whose modification times
    are finite floats. *)
Fixpoint wf_path (p : path) : bool :=
match p with
| Absent n => wf_str n
| File n (Ok st) => wf_str n && Json.finite (st_mtime st)
| File n (Raise _) => wf_str n
| Dir n st (Raise _) => wf_str n && Json.finite (st_mtime st)
| Dir n st (Ok ls) =>
    wf_str n && Json.finite (st_mtime st)
    && (fix all (l : list path) : bool :=
          match l with
          | [] => true
          | x :: l' => wf_path x && all l'
          end) ls
end.

(** The dictionary of the scenario with its metadata. *)
Definition scenario_json : pyval :=
  PDict (scenario_dict
           ++ [(k_metadata,
                PDict [(k_generated, PStr (u "now"));
                       (k_source_path, PStr (u "/root"));
                       (k_max_depth, PNone)])]).

End ReadingBack.

(** Every listing in and under [p] answers, and so does the [is_dir()] of
    every entry. *)
Fixpoint fully_listed (p : path) : bool :=
match p with
| Dir _ _ (Ok ls) =>
    (fix all (l : list path) : bool :=
       match l with
       | [] => true
       | x :: l' => fully_listed x && all l'
       end) ls
| Dir _ _ (Raise _) => false
| File _ (Raise e) => ignore_error e
| _ => true
end.

(** The body of the loop of the enhanced [build_tree] on one entry of a
    listing of [n] entries. *)
Section EnhancedLevel.
Context `{builtins}.
Import Enhanced.

Definition enhanced_visit (max_depth : option Z)
    (prefix : pystr) (is_last : bool) (depth n : Z) (ix : Z * path) (s : state)
  : outcome state :=
  let i := fst ix in
  let item := snd ix in
  let is_last_item := i =? n - 1 in
  let connector :=
    if i =? 0 then (if is_last then corner else tee)
    else (if is_last then blank else bar) in
  let line := prefix ++ connector in
  eval (is_dir item) s (fun d =>
    if d then
      build_tree max_depth item
        (prefix ++ (if is_last then blank else bar)) is_last_item (depth + 1)
        (append_line (line ++ folder_mark ++ dir_annotation item) (incr_dirs s))
    else Returned (file_entry line item s)).

(** The line that the enhanced [build_tree] writes for an entry whose
    [is_dir()] answers. *)
Definition enhanced_line (prefix : pystr) (is_last : bool) (ix : Z * path)
  : pystr :=
  let item := snd ix in
  let line := prefix ++ connector_of is_last (fst ix) in
  if kind_dir item then line ++ folder_mark ++ dir_annotation item
  else
    match stat item with
    | Ok st => line ++ page_mark ++ name item ++ u " " ++ size_str (st_size st)
    | Raise _ => line ++ page_mark ++ name item ++ u " (access denied)"
    end.

End EnhancedLevel.

Section RichLevel.
Context `{builtins}.

(** The body of the loop of the rich [build_tree] of the generator on one
    entry. *)
Definition rich_visit (max_depth : option Z) (current_depth : Z) (item : path)
    (parent_node : tree) : outcome tree :=
  eval (is_dir item) parent_node (fun d =>
    if d then
      under parent_node
        (Rich.build_tree max_depth item (current_depth + 1)
           (Tree (Rich.dir_label item) []))
    else Returned (add (Rich.file_label item) parent_node)).

(** The label of the node that it adds for an entry whose [is_dir()]
    answers. *)
Definition rich_label (item : path) : pystr :=
  if kind_dir item then Rich.dir_label item else Rich.file_label item.

End RichLevel.

(** [node'] is [node] with the sub-trees [kids] added after its own. *)
Definition grown (node node' : tree) (kids : list tree) : Prop :=
  tree_label node' = tree_label node
  /\ tree_children node' = tree_children node ++ kids.

(** ** The nodes of a tree dictionary *)

(** The four forms of a node: the bare error entry of a listing that
    failed, a file with its size and time, a file whose [stat()] failed, and
    a directory with its children. *)
Inductive tree_node : pyval -> Prop :=
| node_error : tree_node error_entry
| node_file nm ps size mtime :
    tree_node (PDict [(k_name, PStr nm); (k_path, PStr ps); (k_type, PStr s_file);
                      (k_size, PInt size); (k_modified, PFloat mtime)])
| node_unreadable nm :
    tree_node (PDict [(k_name, PStr nm); (k_type, PStr s_file);
                      (k_error, PStr s_permission_denied)])
| node_dir nm ps n m cs :
    (exists x, m = PFloat x) \/ m = PInt 0 ->
    Forall tree_node cs ->
    tree_node (PDict (dir_dict nm ps n m cs)).

(** The outline of a tree document: the kind of a node, its name where it
    has one, and the outlines of the nodes under it, in order. *)
Inductive outline : Type :=
| Node (kind : pystr) (name : option pystr) (under : list outline).

(** The outline of a dictionary: the kind of a node is its ['type'], and
    ['item'] where it has none. *)
Fixpoint dict_outline (v : pyval) : outline :=
  match v with
  | PDict items =>
      Node (Method5.child_type v)
        (match get k_name items with Some (PStr s) => Some s | _ => None end)
        ((fix over (items : dict) : list outline :=
            match items with
            | [] => []
            | (k, v) :: rest =>
                if str_eqb k k_children then
                  match v with
                  | PList l =>
                      (fix each (l : list pyval) : list outline :=
                         match l with
                         | [] => []
                         | c :: l' => dict_outline c :: each l'
                         end) l
                  | _ => []
                  end
                else over rest
            end) items)
  | _ => Node s_item None []
  end.

(** The outline of an XML element: the kind of a node is its tag, its name
    the attribute [name]. *)
Fixpoint xml_outline (e : Method5.element) : outline :=
  match e with
  | Method5.Element tag attrib sub =>
      Node tag (Method5.get_attrib k_name attrib)
        ((fix each (l : list Method5.element) : list outline :=
            match l with
            | [] => []
            | c :: l' => xml_outline c :: each l'
            end) sub)
  end.

(** A text of line feeds and printable ASCII characters only. *)
Definition plain_ascii (s : pystr) : Prop :=
  Forall (fun c => c = 0x0A \/ 0x20 <= c <= 0x7E) s.

(** A directory with a file whose name holds a character beyond the basic
    plane, a Latin-1 letter, a lone surrogate (a byte that is not UTF-8) and
    a quote. *)
Definition exotic : path :=
  directory "root"
    [File [0x1F4C1; 0xE9; 0xDC80; 0x22] (Ok (mk_stat 1 0x41D9000000000000))].

(* ===================================================================== *)
(** * [method3]: the detailed tree without a depth limit *)
(* ===================================================================== *)

Module Method3.

Record state : Type := mk_state {
  tree_lines : list pystr;
  dir_count : Z;
  file_count : Z
}.

Definition append_line (line : pystr) (s : state) : state :=
  mk_state (tree_lines s ++ [line]) (dir_count s) (file_count s).
Definition incr_dirs (s : state) : state :=
  mk_state (tree_lines s) (dir_count s + 1) (file_count s).
Definition incr_files (s : state) : state :=
  mk_state (tree_lines s) (dir_count s) (file_count s + 1).

Section WithBuiltins.
Context `{builtins}.

Definition size_str (size : Z) : pystr :=
  if size >? 1024 * 1024
  then u " (" ++ format_float 1 size (1024 * 1024) ++ u " MB)"
  else if size >? 1024 then u " (" ++ format_float 1 size 1024 ++ u " KB)"
  else u " (" ++ str_of_int size ++ u " bytes)".

Definition file_entry (prefix connector : pystr) (item : path) (s : state)
  : state :=
  let s := incr_files s in
  let marker := page_mark in
  match stat item with
  | Ok st =>
      append_line (prefix ++ connector ++ marker ++ name item
                     ++ size_str (st_size st)) s
  | Raise _ =>
      let size_str : pystr := [] in
      append_line (prefix ++ connector ++ marker ++ name item ++ size_str) s
  end.

(** [process_directory(current_path, prefix, is_last)]. *)
Fixpoint process_directory (show_hidden : bool)
    (current_path : path) (prefix : pystr) (is_last : bool)
    (s : state) : outcome state :=
  try_except_PermissionError
    (match iterdir_calling (process_directory show_hidden) current_path with
     | Raise e => Raised e s
     | Ok items =>
         let items :=
           if negb show_hidden
           then filter (fun x => not_hidden (fst x)) items else items in
         eval (sort_dirs_first_calling items) s (fun items =>
         for_each
           (fun '(i, (item, process_item)) s =>
              let is_last_item := i =? len items - 1 in
              let connector :=
                if i =? 0 then (if is_last then corner else tee)
                else (if is_last then blank else bar) in
              eval (is_dir item) s (fun d =>
                if d then
                  let s := incr_dirs s in
                  let marker := folder_mark in
                  let s :=
                    append_line (prefix ++ connector ++ marker ++ name item
                                   ++ Detailed.count_info show_hidden item) s in
                  let next_prefix := prefix ++ (if is_last then blank else bar) in
                  process_item next_prefix is_last_item s
                else Returned (file_entry prefix connector item s)))
           (enumerate items) s)
     end)
    (fun s =>
       Returned (append_line
                   (prefix ++ corner ++ lock_mark ++ u "[Permission Denied]") s)).

Definition rule50 : pystr := str_repeat 0x3D 50.     (* ["=" * 50] *)

(** [generate_detailed_tree], up to the lines it joins. *)
Definition generate_detailed_tree (start_path_str : pystr)
    (start_path : path) (show_hidden : bool) : result (list pystr) :=
  match process_directory show_hidden start_path [] true
          (mk_state [open_folder_mark ++ start_path_str] 0 0) with
  | Returned s =>
      let s := append_line (u (String "010" "") ++ rule50) s in
      let s :=
        append_line (u "Summary: " ++ str_of_int (dir_count s) ++ u " directories, "
                       ++ str_of_int (file_count s) ++ u " files") s in
      Ok (tree_lines s)
  | Raised e _ => Raise e
  end.

End WithBuiltins.
End Method3.

(** The body of the loop of [method3]'s [process_directory] on one entry
    of a listing of [n] entries. *)
Section Method3Level.
Context `{builtins}.
Import Method3.

Definition method3_visit (show_hidden : bool)
    (prefix : pystr) (is_last : bool) (n : Z) (ix : Z * path)
    (s : state) : outcome state :=
  let i := fst ix in
  let item := snd ix in
  let is_last_item := i =? n - 1 in
  let connector :=
    if i =? 0 then (if is_last then corner else tee)
    else (if is_last then blank else bar) in
  eval (is_dir item) s (fun d =>
    if d then
      process_directory show_hidden item
        (prefix ++ (if is_last then blank else bar)) is_last_item
        (append_line (prefix ++ connector ++ folder_mark ++ name item
                        ++ Detailed.count_info show_hidden item) (incr_dirs s))
    else Returned (file_entry prefix connector item s)).
End Method3Level.

(** No file in or under [p] is larger than 1024 bytes. *)
Fixpoint small_files (p : path) : bool :=
match p with
| File _ (Ok st) => st_size st <=? 1024
| Dir _ _ (Ok ls) =>
    (fix all (l : list path) : bool :=
       match l with
       | [] => true
       | x :: l' => small_files x && all l'
       end) ls
| _ => true
end.

(* ===================================================================== *)
(** * [method4]: the dictionary without sizes, JSON and XML *)
(* ===================================================================== *)

Module Method4.
Section WithBuiltins.
Context `{builtins}.

Definition s_denied : pystr := Eval cbv in u "Permission Denied".

(** The [else] branch of the loop: [item.stat()] stands bare in the
    dictionary display. *)
Definition file_entry (item : path) (d : dict) : outcome dict :=
  match stat item with
  | Raise e => Raised e d
  | Ok st =>
      Returned
        (append_child
           (PDict [(k_name, PStr (name item));
                   (k_type, PStr s_file);
                   (k_size, PInt (st_size st));
                   (k_modified, PFloat (st_mtime st))]) d)
  end.

(** [directory_to_dict(path)].  Every exception of the model is an
    [OSError], so the handler takes all of them and the function always
    returns. *)
Fixpoint directory_to_dict (path : path) : pyval :=
  let d : dict := [(k_name, PStr (name path)); (k_type, PStr s_directory)] in
  match
    match iterdir_calling directory_to_dict path with
    | Raise e => Raised e d
    | Ok items =>
        let d := setitem k_children (PList []) d in
        eval (sort_dirs_first_calling items) d (fun items =>
        for_each
          (fun '(item, item_dict) d =>
             eval (is_dir item) d (fun is_a_dir =>
               if is_a_dir then Returned (append_child item_dict d)
               else file_entry item d))
          items d)
    end
  with
  | Returned d => PDict d
  | Raised _ d => PDict (setitem k_children (PList [PStr s_denied]) d)
  end.

(** [save_tree_json], up to the text it writes. *)
Definition save_tree_json (start_path : path) : pystr :=
  Json.dumps (directory_to_dict start_path).

(** What [dict_to_xml] comes to: the element filled, or the
    [AttributeError] of [child.get] on a child that is not a dictionary. *)
Inductive xml_result : Type :=
| Built (e : Method5.element)
| AttributeError.

(** [dict_to_xml(element, data)]; [str(value)] as in the generator. *)
Fixpoint dict_to_xml (data : pyval) (e : Method5.element) {struct data}
  : xml_result :=
  match data with
  | PDict items =>
      (fix over_items (items : dict) (e : Method5.element) {struct items}
         : xml_result :=
         match items with
         | [] => Built e
         | (key, value) :: rest =>
             let scalar e :=
               over_items rest (Method5.set key (Method5.str_of_value value) e) in
             match value with
             | PList l =>
                 if str_eqb key k_children then
                   (fix over_children (l : list pyval) (e : Method5.element)
                      {struct l} : xml_result :=
                      match l with
                      | [] => over_items rest e
                      | child :: l' =>
                          match child with
                          | PDict c =>
                              let tag :=
                                match get k_type c with
                                | Some (PStr t) =>
                                    if str_eqb t s_directory
                                    then s_directory else s_file
                                | _ => s_file
                                end in
                              match
                                dict_to_xml child (Method5.Element tag [] [])
                              with
                              | Built child_elem =>
                                  over_children l' (Method5.sub_element e child_elem)
                              | AttributeError => AttributeError
                              end
                          | _ => AttributeError
                          end
                      end) l e
                 else scalar e
             | PDict _ =>
                 match dict_to_xml value (Method5.Element key [] []) with
                 | Built child_elem =>
                     over_items rest (Method5.sub_element e child_elem)
                 | AttributeError => AttributeError
                 end
             | _ => scalar e
             end
         end) items e
  | _ => AttributeError
  end.

(** [save_tree_xml], up to the root element it serialises. *)
Definition save_tree_xml (start_path : path) : xml_result :=
  let tree_dict := directory_to_dict start_path in
  let root := Method5.Element (u "directory_tree") [] [] in
  dict_to_xml tree_dict root.

End WithBuiltins.
End Method4.

(** The body of the loop of [method4]'s [directory_to_dict]. *)
Section Method4Level.
Context `{builtins}.


(** The dictionary of [method4] while the loop runs. *)
Definition dir_dict4 (name : pystr) (children : list pyval) : dict :=
  [(k_name, PStr name); (k_type, PStr s_directory); (k_children, PList children)].



End Method4Level.


(* ===================================================================== *)
(** * The entry points: file names, files written, the command line *)
(* ===================================================================== *)

(** The functions of [directory_tree_generator.py] from the end of the walk
    on: the summary, the name of the output file, the file written, and
    the callers [generate_auto_filename], [generate_all_formats] and
    [main].

    - The output files live in a store of their own, a finite map from
      file names to contents, apart from the tree that is walked; a name
      is looked up as it is written.
    - [open(name, 'w', encoding='utf-8')] raises what the store says for
      [name], or creates the file empty; [f.write(text)] raises
      [UnicodeEncodeError] when [text] holds a surrogate and appends
      [text] otherwise; the file keeps what was written before an
      exception.
    - What is printed to the console is left out.  A [print] raises when
      the console cannot take a string ([UnicodeEncodeError] for a name
      with a surrogate on a strict console), after the file is written: a
      call that returns here stands for the calls of the program in which
      no [print] raises, and the theorems on these functions speak of
      calls that return, or of the steps before the first [print].
    - The clock is read where the source reads it; each reading is a
      parameter.
    - What the libraries [rich] and [xml.dom.minidom] make of a tree is a
      parameter. *)

Module Cli.

(** ** Strings *)

(** [sep.join(l)] *)
Fixpoint join (sep : pystr) (l : list pystr) : pystr :=
  match l with
  | [] => []
  | [x] => x
  | x :: l' => x ++ sep ++ join sep l'
  end.

Definition nl : pystr := [0x0A].

(** [s.endswith(suffix)] and [s.endswith((suffix, ...))] *)
Definition endswith (s suffix : pystr) : bool := startswith (rev s) (rev suffix).
Definition endswith_any (s : pystr) (suffixes : list pystr) : bool :=
  existsb (endswith s) suffixes.

Definition known_extensions : list pystr := [u ".txt"; u ".json"; u ".xml"].

(** [d.get(k, default)] for a dictionary of strings. *)
Fixpoint get_str (k : pystr) (d : list (pystr * pystr)) (default : pystr) : pystr :=
  match d with
  | [] => default
  | (k', v) :: d' => if str_eqb k' k then v else get_str k d' default
  end.

(** [s.rstrip()], for [isspace] the white space of [str]. *)
Definition rstrip (isspace : Z -> bool) (s : pystr) : pystr :=
  rev ((fix drop (l : pystr) : pystr :=
          match l with
          | c :: l' => if isspace c then drop l' else l
          | [] => []
          end) (rev s)).

(** [start_path.name if start_path.name else "root"] *)
Definition dir_name_of (start_path : path) : pystr :=
  match name start_path with
  | [] => u "root"
  | n => n
  end.

(** ** The files written *)

Record world : Type := mk_world {
  files : list (pystr * pystr);          (* name, content *)
  open_error : pystr -> option exn      (* what [open(name, 'w')] raises *)
}.

(** What ends a call: an [OSError] of the walk or of [open], the
    [UnicodeEncodeError] of a [write], or an exception of a library. *)
Inductive failure : Type :=
| OsError (e : exn)
| UnicodeEncodeError
| LibraryError.

Inductive run (A : Type) : Type :=
| Done (a : A) (w : world)
| Failed (f : failure) (w : world).
Arguments Done {A} a w.
Arguments Failed {A} f w.

Fixpoint lookup (name : pystr) (l : list (pystr * pystr)) : option pystr :=
  match l with
  | [] => None
  | (n, c) :: l' => if str_eqb n name then Some c else lookup name l'
  end.

Fixpoint store (name content : pystr) (l : list (pystr * pystr))
  : list (pystr * pystr) :=
  match l with
  | [] => [(name, content)]
  | (n, c) :: l' =>
      if str_eqb n name then (n, content) :: l' else (n, c) :: store name content l'
  end.

Definition put (name content : pystr) (w : world) : world :=
  mk_world (store name content (files w)) (open_error w).

(** [os.path.exists(name)] *)
Definition exists_file (name : pystr) (w : world) : bool :=
  match lookup name (files w) with Some _ => true | None => false end.

(** The bytes of a character in UTF-8. *)
Definition utf8_len (c : Z) : Z :=
  if c <? 0x80 then 1 else if c <? 0x800 then 2 else if c <? 0x10000 then 3 else 4.

(** [os.path.getsize(name)] of a file that is there. *)
Definition getsize (name : pystr) (w : world) : Z :=
  match lookup name (files w) with
  | Some content => fold_right (fun c n => utf8_len c + n) 0 content
  | None => 0
  end.

Definition is_surrogate (c : Z) : bool := (0xD800 <=? c) && (c <=? 0xDFFF).

(** The [f.write(chunk)] calls of a [with open(..) as f] block, in order. *)
Fixpoint write_all (name : pystr) (chunks : list pystr) (written : pystr)
    (w : world) : run unit :=
  match chunks with
  | [] => Done tt (put name written w)
  | chunk :: rest =>
      if existsb is_surrogate chunk
      then Failed UnicodeEncodeError (put name written w)
      else write_all name rest (written ++ chunk) w
  end.

(** [with open(name, 'w', encoding='utf-8') as f: f.write(..) ...] *)
Definition write_file (name : pystr) (chunks : list pystr) (w : world) : run unit :=
  match open_error w name with
  | Some e => Failed (OsError e) w
  | None => write_all name chunks [] w
  end.

(** One reading of the clock, in the three formats of the source:
    ['%Y-%m-%d %H:%M:%S'], ['%Y%m%d_%H%M%S'] and [isoformat()]. *)
Record clock : Type := mk_clock {
  now : pystr;
  timestamp : pystr;
  isoformat : pystr
}.

(** ** [ansi_escape.sub('', text)] *)

(** The pattern is [ESC] and then either one character of [[@-Z\\-_]], or
    [[], parameter characters [[0-?]*], intermediate characters [[ -/]*]
    and one final character of [[@-~]].  The three classes after [[] are
    disjoint, so the greedy match is the only one. *)
Fixpoint skip_while (p : Z -> bool) (s : pystr) : pystr :=
  match s with
  | c :: s' => if p c then skip_while p s' else s
  | [] => []
  end.

Definition in_range (lo hi c : Z) : bool := (lo <=? c) && (c <=? hi).

(** The rest of the text after an escape sequence that starts behind the
    [ESC] at the head of [s], if there is one. *)
Definition after_escape (s : pystr) : option pystr :=
  match s with
  | c :: s' =>
      if in_range 0x40 0x5A c || in_range 0x5C 0x5F c then Some s'
      else if c =? 0x5B then
        match skip_while (in_range 0x20 0x2F) (skip_while (in_range 0x30 0x3F) s') with
        | f :: s'' => if in_range 0x40 0x7E f then Some s'' else None
        | [] => None
        end
      else None
  | [] => None
  end.

(** The scan, on fuel for the length of the text. *)
Fixpoint strip_ansi_fuel (fuel : nat) (s : pystr) : pystr :=
  match fuel with
  | O => s
  | S fuel =>
      match s with
      | [] => []
      | c :: s' =>
          if c =? 0x1B then
            match after_escape s' with
            | Some rest => strip_ansi_fuel fuel rest
            | None => c :: strip_ansi_fuel fuel s'
            end
          else c :: strip_ansi_fuel fuel s'
      end
  end.

Definition strip_ansi (text : pystr) : pystr :=
  strip_ansi_fuel (List.length text) text.

Section WithRuntime.
Context `{builtins}.

(** [c.isalnum()] and the white space of [str.rstrip()]. *)
Variable isalnum : Z -> bool.
Variable isspace : Z -> bool.

(** Whether [rich] can be imported; what [console.print(tree)] and
    [console.export_text()] make of a tree; what
    [minidom.parseString(ET.tostring(root)).toprettyxml(indent="  ")] makes
    of an element.  [None]: the library raises. *)
Variable rich_available : bool.
Variable export_text : tree -> option pystr.
Variable toprettyxml : Method5.element -> option pystr.

(** ** The names of the output files *)

(** [f"{prefix}_{dir_name}_{timestamp}{ext}"] *)
Definition auto_name (prefix : pystr) (start_path : path) (c : clock) (ext : pystr)
  : pystr :=
  prefix ++ u "_" ++ dir_name_of start_path ++ u "_" ++ timestamp c ++ ext.

(** [if output_file is None: .. elif not output_file.endswith(..): ..] *)
Definition text_output_name (prefix : pystr) (start_path : path) (c : clock)
    (output_file : option pystr) : pystr :=
  match output_file with
  | None => auto_name prefix start_path c (u ".txt")
  | Some output_file =>
      if negb (endswith_any output_file known_extensions)
      then output_file ++ u ".txt" else output_file
  end.

Definition data_output_name (ext : pystr) (start_path : path) (c : clock)
    (output_file : option pystr) : pystr :=
  match output_file with
  | None => auto_name (u "tree") start_path c ext
  | Some output_file =>
      if negb (endswith output_file ext) then output_file ++ ext else output_file
  end.

(** ** Method 1: [generate_directory_tree] *)

Definition generate_directory_tree (c : clock) (start_path_str : pystr)
    (start_path : path) (output_file : option pystr) (max_depth : option Z)
    (save_to_file : bool) (w : world) : run (pystr * option pystr) :=
  match Basic.generate_directory_tree start_path_str (now c) start_path max_depth with
  | Raise e => Failed (OsError e) w
  | Ok tree_lines =>
      let tree_str := join nl tree_lines in
      let output_file :=
        match output_file with
        | None =>
            if save_to_file then Some (auto_name (u "tree") start_path c (u ".txt"))
            else None
        | Some _ => output_file
        end in
      match output_file with
      | Some ((_ :: _) as output_file) =>
          let output_file :=
            if negb (endswith_any output_file known_extensions)
            then output_file ++ u ".txt" else output_file in
          match write_file output_file [tree_str] w with
          | Failed f w => Failed f w
          | Done _ w => Done (tree_str, Some output_file) w
          end
      | _ => Done (tree_str, None) w
      end
  end.

(** ** Method 2: [generate_ascii_tree] *)

Definition ascii_total_size_str (total_size : Z) : pystr :=
  if total_size =? 0 then u "0 B"
  else if total_size <? 1024 then str_of_int total_size ++ u " B"
  else if total_size <? 1024 * 1024 then format_float 1 total_size 1024 ++ u " KB"
  else if total_size <? 1024 * 1024 * 1024
  then format_float 1 total_size (1024 * 1024) ++ u " MB"
  else format_float 1 total_size (1024 * 1024 * 1024) ++ u " GB".

Definition max_depth_line (label : pystr) (max_depth : option Z) : list pystr :=
  match max_depth with
  | Some m => [label ++ str_of_int m]
  | None => []
  end.

Definition ascii_summary (s : Ascii.state) (show_hidden : bool)
    (max_depth : option Z) : list pystr :=
  [[]; rule60; u "SUMMARY"; rule60;
   u "Total directories: " ++ str_of_int (Ascii.total_dirs s);
   u "Total files: " ++ str_of_int (Ascii.total_files s);
   u "Total size: " ++ ascii_total_size_str (Ascii.total_size s)]
  ++ max_depth_line (u "Max depth: ") max_depth
  ++ [u "Include hidden: " ++ (if show_hidden then u "Yes" else u "No"); rule60].

Definition generate_ascii_tree (c : clock) (start_path_str : pystr)
    (start_path : path) (output_file : option pystr) (show_hidden : bool)
    (max_depth : option Z) (w : world) : run (pystr * pystr) :=
  match
    Ascii.generate_ascii_tree start_path_str (now c) start_path show_hidden max_depth
  with
  | Raise e => Failed (OsError e) w
  | Ok s =>
      let tree_lines := Ascii.tree_lines s ++ ascii_summary s show_hidden max_depth in
      let tree_str := join nl tree_lines in
      let output_file := text_output_name (u "ascii_tree") start_path c output_file in
      match write_file output_file [tree_str] w with
      | Failed f w => Failed f w
      | Done _ w => Done (tree_str, output_file) w
      end
  end.

(** ** The enhanced tree *)

Definition enhanced_summary (s : Enhanced.state) (max_depth : option Z)
  : list pystr :=
  [[]; rule60; u "SUMMARY"; rule60;
   u "Total directories: " ++ str_of_int (Enhanced.total_dirs s);
   u "Total files: " ++ str_of_int (Enhanced.total_files s);
   u "Total size: " ++ ascii_total_size_str (Enhanced.total_size s)]
  ++ max_depth_line (u "Max depth: ") max_depth
  ++ [rule60].

Definition generate_enhanced_tree (c : clock) (start_path_str : pystr)
    (start_path : path) (output_file : pystr) (max_depth : option Z) (w : world)
  : run pystr :=
  match
    Enhanced.generate_enhanced_tree start_path_str (now c) start_path max_depth
  with
  | Raise e => Failed (OsError e) w
  | Ok s =>
      let tree_lines := Enhanced.tree_lines s ++ enhanced_summary s max_depth in
      let tree_str := join nl tree_lines in
      match write_file output_file [tree_str] w with
      | Failed f w => Failed f w
      | Done _ w => Done output_file w
      end
  end.

(** ** Method 3: [create_rich_directory_tree] *)

Definition create_rich_directory_tree (c : clock) (start_path_str : pystr)
    (start_path : path) (output_file : option pystr) (max_depth : option Z)
    (w : world) : run pystr :=
  let output_file := text_output_name (u "rich_tree") start_path c output_file in
  if negb rich_available
  then generate_enhanced_tree c start_path_str start_path output_file max_depth w
  else
    match Rich.create_rich_directory_tree start_path max_depth with
    | Raise e => Failed (OsError e) w
    | Ok tree =>
        match export_text tree with
        | None => Failed LibraryError w
        | Some tree_text =>
            let clean_tree := strip_ansi tree_text in
            match
              write_file output_file
                ([rule60 ++ nl;
                  u "RICH DIRECTORY TREE" ++ nl;
                  rule60 ++ nl;
                  u "Directory: " ++ start_path_str ++ nl;
                  u "Generated: " ++ now c ++ nl]
                 ++ map (fun line => line ++ nl)
                      (max_depth_line (u "Max Depth: ") max_depth)
                 ++ [rule60 ++ nl ++ nl;
                     clean_tree;
                     nl ++ rule60 ++ nl;
                     u "Note: Colors are only visible in terminal with rich support"
                       ++ nl;
                     rule60 ++ nl]) w
            with
            | Failed f w => Failed f w
            | Done _ w =>
                if exists_file output_file w then
                  if getsize output_file w =? 0
                  then generate_enhanced_tree c start_path_str start_path
                         output_file max_depth w
                  else Done output_file w
                else generate_enhanced_tree c start_path_str start_path
                       output_file max_depth w
            end
        end
    end.

(** ** Method 4: [generate_detailed_tree] *)

Definition detailed_total_size_str (total_size : Z) : pystr :=
  if total_size >? 1024 * 1024 * 1024
  then format_float 2 total_size (1024 * 1024 * 1024) ++ u " GB"
  else if total_size >? 1024 * 1024
  then format_float 2 total_size (1024 * 1024) ++ u " MB"
  else if total_size >? 1024 then format_float 2 total_size 1024 ++ u " KB"
  else str_of_int total_size ++ u " bytes".

Definition chart_mark : pystr := [0x1F4CA; 0x20].     (* "📊 " *)
Definition bullet : pystr := [0x2022; 0x20].           (* "• " *)

Definition detailed_summary (c : clock) (start_path_str : pystr)
    (s : Detailed.state) (max_depth : option Z) : list pystr :=
  [nl ++ rule60; chart_mark ++ u "SUMMARY"; rule60;
   bullet ++ u "Directories: " ++ str_of_int (Detailed.dir_count s);
   bullet ++ u "Files: " ++ str_of_int (Detailed.file_count s);
   bullet ++ u "Total Size: " ++ detailed_total_size_str (Detailed.total_size s);
   bullet ++ u "Generated: " ++ now c;
   bullet ++ u "Path: " ++ start_path_str]
  ++ max_depth_line (bullet ++ u "Max Depth: ") max_depth.

Definition generate_detailed_tree (c : clock) (start_path_str : pystr)
    (start_path : path) (output_file : option pystr) (show_hidden : bool)
    (max_depth : option Z) (w : world) : run (pystr * pystr) :=
  match
    Detailed.generate_detailed_tree start_path_str start_path show_hidden max_depth
  with
  | Raise e => Failed (OsError e) w
  | Ok s =>
      let tree_lines :=
        Detailed.tree_lines s ++ detailed_summary c start_path_str s max_depth in
      let tree_str := join nl tree_lines in
      let output_file := text_output_name (u "detailed") start_path c output_file in
      match write_file output_file [tree_str] w with
      | Failed f w => Failed f w
      | Done _ w => Done (tree_str, output_file) w
      end
  end.

(** ** Method 5: [save_tree_json] and [save_tree_xml] *)

Definition save_tree_json (c : clock) (start_path_str : pystr)
    (start_path : path) (output_file : option pystr) (max_depth : option Z)
    (w : world) : run pystr :=
  let output_file := data_output_name (u ".json") start_path c output_file in
  match Json.save_tree_json start_path_str (isoformat c) start_path max_depth with
  | Raise e => Failed (OsError e) w
  | Ok text =>
      match write_file output_file [text] w with
      | Failed f w => Failed f w
      | Done _ w => Done output_file w
      end
  end.

Definition save_tree_xml (c : clock) (start_path_str : pystr)
    (start_path : path) (output_file : option pystr) (max_depth : option Z)
    (w : world) : run pystr :=
  let output_file := data_output_name (u ".xml") start_path c output_file in
  match Method5.save_tree_xml start_path_str (isoformat c) start_path max_depth with
  | Raise e => Failed (OsError e) w
  | Ok root =>
      match toprettyxml root with
      | None => Failed LibraryError w
      | Some xml_str =>
          match write_file output_file [xml_str] w with
          | Failed f w => Failed f w
          | Done _ w => Done output_file w
          end
      end
  end.

(** ** [generate_auto_filename] *)

Definition format_extensions : list (pystr * pystr) :=
  [(u "basic", u ".txt"); (u "ascii", u ".txt"); (u "rich", u ".txt");
   (u "detailed", u ".txt"); (u "json", u ".json"); (u "xml", u ".xml")].

Definition format_prefixes : list (pystr * pystr) :=
  [(u "basic", u "tree"); (u "ascii", u "ascii_tree"); (u "rich", u "rich_tree");
   (u "detailed", u "detailed_tree"); (u "json", u "tree_data");
   (u "xml", u "tree_data")].

Definition generate_auto_filename (c : clock) (start_path : path)
    (format_type : pystr) : pystr :=
  let dir_name := dir_name_of start_path in
  let dir_name_clean :=
    rstrip isspace
      (filter (fun ch => isalnum ch || (ch =? 0x2D) || (ch =? 0x5F)) dir_name) in
  let prefix := get_str format_type format_prefixes (u "tree") in
  let ext := get_str format_type format_extensions (u ".txt") in
  prefix ++ u "_" ++ dir_name_clean ++ u "_" ++ timestamp c ++ ext.

(** ** [generate_all_formats] *)

(** A result of [generate_all_formats]: the file name, or the
    ["ERROR: .."] string of what was raised. *)
Inductive saved : Type :=
| Saved (filename : pystr)
| NoFile
| Error (f : failure).

(** The clocks read by the six generators, in the order of the calls. *)
Record clocks : Type := mk_clocks {
  c_basic : clock; c_ascii : clock; c_detailed : clock;
  c_json : clock; c_xml : clock; c_rich : clock
}.

(** One turn of the loop over the formats: the [try] with its
    [except Exception]. *)
Definition attempt (fmt : pystr) (r : run (option pystr))
    (results : list (pystr * saved)) (w : world)
  : list (pystr * saved) * world :=
  match r with
  | Done (Some filename) w => (results ++ [(fmt, Saved filename)], w)
  | Done None w => (results ++ [(fmt, NoFile)], w)
  | Failed f w => (results ++ [(fmt, Error f)], w)
  end.

(** The file name that a generator returns, alone or behind the text. *)
Definition filename_of (r : run pystr) : run (option pystr) :=
  match r with
  | Done filename w => Done (Some filename) w
  | Failed f w => Failed f w
  end.

Definition second {A : Type} (r : run (A * pystr)) : run (option pystr) :=
  match r with
  | Done (_, filename) w => Done (Some filename) w
  | Failed f w => Failed f w
  end.

Definition generate_all_formats (cs : clocks) (start_path_str : pystr)
    (start_path : path) (depth : option Z) (include_hidden : bool) (w : world)
  : list (pystr * saved) * world :=
  let results : list (pystr * saved) := [] in
  let '(results, w) :=
    attempt (u "basic")
      (match
         generate_directory_tree (c_basic cs) start_path_str start_path None depth
           true w
       with
       | Done (_, filename) w => Done filename w
       | Failed f w => Failed f w
       end) results w in
  let '(results, w) :=
    attempt (u "ascii")
      (second (generate_ascii_tree (c_ascii cs) start_path_str start_path None
                 include_hidden depth w)) results w in
  let '(results, w) :=
    attempt (u "detailed")
      (second (generate_detailed_tree (c_detailed cs) start_path_str start_path None
                 include_hidden depth w)) results w in
  let '(results, w) :=
    attempt (u "json")
      (filename_of
         (save_tree_json (c_json cs) start_path_str start_path None depth w))
      results w in
  let '(results, w) :=
    attempt (u "xml")
      (filename_of
         (save_tree_xml (c_xml cs) start_path_str start_path None depth w))
      results w in
  attempt (u "rich")
    (filename_of
       (create_rich_directory_tree (c_rich cs) start_path_str start_path None depth w))
    results w.

(** ** The quick functions *)

Definition quick_tree (c : clock) (start_path_str : pystr) (start_path : path)
    (w : world) : run (pystr * option pystr) :=
  generate_directory_tree c start_path_str start_path None None true w.

Definition quick_ascii_tree (c : clock) (start_path_str : pystr) (start_path : path)
    (include_hidden : bool) (depth : option Z) (w : world) : run (pystr * pystr) :=
  generate_ascii_tree c start_path_str start_path None include_hidden depth w.

Definition reliable_tree (c : clock) (start_path_str : pystr) (start_path : path)
    (depth : option Z) (w : world) : run (pystr * pystr) :=
  generate_ascii_tree c start_path_str start_path None false depth w.

(** ** [main] *)

(** The arguments as [argparse] hands them over. *)
Record arguments : Type := mk_arguments {
  arg_path : path;               (* what [args.path] names *)
  arg_path_str : pystr;          (* its resolved string *)
  arg_output : option pystr;
  arg_depth : option Z;
  arg_all : bool;
  arg_format : pystr;
  arg_auto_all : bool;
  arg_test_rich : bool
}.

(** How [main] ends: by one of its early returns, by [sys.exit(1)] from
    one of the three handlers, or with one of the three final reports on
    [output_file]. *)
Inductive verdict : Type :=
| TestedRich
| GeneratedAll (results : list (pystr * saved))
| ExitNotFound
| ExitPermissionDenied
| ExitUnexpected
| Success (output_file : pystr)
| CreatedButEmpty (output_file : pystr)
| NotCreated (output_file : pystr).

(** The world after a call, whatever it returned. *)
Definition finish {A : Type} (r : run A) : run unit :=
  match r with
  | Done _ w => Done tt w
  | Failed f w => Failed f w
  end.

Definition main (c : clock) (cs : clocks) (args : arguments) (w : world)
  : verdict * world :=
  if arg_test_rich args then (TestedRich, w)
  else if arg_auto_all args || str_eqb (arg_format args) (u "all") then
    let '(results, w) :=
      generate_all_formats cs (arg_path_str args) (arg_path args) (arg_depth args)
        (arg_all args) w in
    (GeneratedAll results, w)
  else
    let output_file :=
      match arg_output args with
      | Some ((_ :: _) as output) => output
      | _ => generate_auto_filename c (arg_path args) (arg_format args)
      end in
    let format := arg_format args in
    let call : run unit :=
      if str_eqb format (u "basic") then
        finish (generate_directory_tree (c_basic cs) (arg_path_str args)
                  (arg_path args) (Some output_file) (arg_depth args) true w)
      else if str_eqb format (u "ascii") then
        finish (generate_ascii_tree (c_ascii cs) (arg_path_str args)
                  (arg_path args) (Some output_file) (arg_all args) (arg_depth args) w)
      else if str_eqb format (u "rich") then
        finish (create_rich_directory_tree (c_rich cs) (arg_path_str args)
                  (arg_path args) (Some output_file) (arg_depth args) w)
      else if str_eqb format (u "detailed") then
        finish (generate_detailed_tree (c_detailed cs) (arg_path_str args)
                  (arg_path args) (Some output_file) (arg_all args) (arg_depth args) w)
      else if str_eqb format (u "json") then
        finish (save_tree_json (c_json cs) (arg_path_str args)
                  (arg_path args) (Some output_file) (arg_depth args) w)
      else if str_eqb format (u "xml") then
        finish (save_tree_xml (c_xml cs) (arg_path_str args)
                  (arg_path args) (Some output_file) (arg_depth args) w)
      else Done tt w in
    match call with
    | Failed (OsError FileNotFoundError) w => (ExitNotFound, w)
    | Failed (OsError PermissionError) w => (ExitPermissionDenied, w)
    | Failed _ w => (ExitUnexpected, w)
    | Done _ w =>
        if exists_file output_file w then
          if getsize output_file w >? 0 then (Success output_file, w)
          else (CreatedButEmpty output_file, w)
        else (NotCreated output_file, w)
    end.

End WithRuntime.
End Cli.

(** The formats that [main] hands to a generator of their own, the
    extension that the generator of a format makes sure of, and whether it
    takes a given name as it is. *)
Definition writer_formats : list pystr :=
  [u "basic"; u "ascii"; u "rich"; u "detailed"; u "json"; u "xml"].

Definition extension_of (format : pystr) : pystr :=
  if str_eqb format (u "json") then u ".json"
  else if str_eqb format (u "xml") then u ".xml"
  else u ".txt".

Definition takes_name (format given : pystr) : bool :=
  if str_eqb format (u "json") then Cli.endswith given (u ".json")
  else if str_eqb format (u "xml") then Cli.endswith given (u ".xml")
  else Cli.endswith_any given Cli.known_extensions.

(** A store with no file where every name can be opened. *)
Definition empty_world : Cli.world := Cli.mk_world [] (fun _ => None).

(** The same reading for every call. *)
Definition noon : Cli.clock :=
  Cli.mk_clock (u "2024-01-01 12:00:00") (u "20240101_120000") (u "2024-01-01T12:00:00").
Definition at_noon : Cli.clocks := Cli.mk_clocks noon noon noon noon noon noon.

(** [w'] is [w] with the file [name] written or written again. *)
Definition wrote (name : pystr) (w w' : Cli.world) : Prop :=
  Cli.exists_file name w' = true
  /\ (forall other, other <> name ->
        Cli.lookup other (Cli.files w') = Cli.lookup other (Cli.files w))
  /\ Cli.open_error w' = Cli.open_error w.

(** The names that the six generators of [generate_all_formats] make, none
    being given, in the order of the calls. *)
Definition auto_names (cs : Cli.clocks) (start_path : path) : list pystr :=
  [Cli.auto_name (u "tree") start_path (Cli.c_basic cs) (u ".txt");
   Cli.auto_name (u "ascii_tree") start_path (Cli.c_ascii cs) (u ".txt");
   Cli.auto_name (u "detailed") start_path (Cli.c_detailed cs) (u ".txt");
   Cli.auto_name (u "tree") start_path (Cli.c_json cs) (u ".json");
   Cli.auto_name (u "tree") start_path (Cli.c_xml cs) (u ".xml");
   Cli.auto_name (u "rich_tree") start_path (Cli.c_rich cs) (u ".txt")].

(** The arguments of a run on the scenario. *)
Definition sample_arguments (format : string) (output : option pystr)
  : Cli.arguments :=
  Cli.mk_arguments scenario (u "/root") output None false (u format) false false.

(* ===================================================================== *)
(** * Facts shared by the walkers *)
(* ===================================================================== *)

(** Induction on a path with the hypothesis for every listed entry. *)
Fixpoint path_induction (P : path -> Prop)
    (HA : forall n, P (Absent n))
    (HF : forall n st, P (File n st))
    (HE : forall n st e, P (Dir n st (Raise e)))
    (HD : forall n st ls, Forall P ls -> P (Dir n st (Ok ls)))
    (p : path) {struct p} : P p :=
  match p with
  | Absent n => HA n
  | File n st => HF n st
  | Dir n st (Raise e) => HE n st e
  | Dir n st (Ok ls) =>
      HD n st ls
        ((fix all (l : list path) : Forall P l :=
            match l with
            | [] => Forall_nil P
            | x :: l' => Forall_cons x (path_induction HA HF HE HD x) (all l')
            end) ls)
  end.

Lemma iterdir_ok p ls : iterdir p = Ok ls -> exists n st, p = Dir n st (Ok ls).
Proof.
  destruct p as [n|n [st|e]|n st [l|e]]; try discriminate.
  intros [= <-]. eauto.
Qed.

(** Induction on a path with the hypothesis for the entries of its
    listing, when it has one. *)
Lemma listing_induction (P : path -> Prop) :
  (forall p, (forall ls, iterdir p = Ok ls -> Forall P ls) -> P p) ->
  forall p, P p.
Proof.
  intros HP. induction p as [n|n st|n st e|n st ls IH] using path_induction;
    apply HP; intros l Hl.
  - discriminate.
  - destruct st; discriminate.
  - discriminate.
  - injection Hl as <-. exact IH.
Qed.

Section SortFacts.
Context {A : Type} (lt : A -> A -> bool).

Lemma insert_perm x l : Permutation (x :: l) (insert lt x l).
Proof.
  induction l as [|y l IH]; simpl; [reflexivity|].
  destruct (lt y x); [|reflexivity].
  rewrite perm_swap. now constructor.
Qed.

Lemma sorted_perm l : Permutation l (sorted lt l).
Proof.
  induction l as [|x l IH]; simpl; [constructor|].
  rewrite <- insert_perm. now constructor.
Qed.

Lemma sorted_In x l : In x (sorted lt l) <-> In x l.
Proof.
  split; apply Permutation_in; [symmetry|]; apply sorted_perm.
Qed.

Lemma sorted_length l : List.length (sorted lt l) = List.length l.
Proof. symmetry. apply Permutation_length, sorted_perm. Qed.

(** [x] may stand before [y]: [key(y) < key(x)] fails. *)
Definition before (x y : A) : Prop := lt y x = false.

Hypothesis before_trans : forall x y z, before x y -> before y z -> before x z.
Hypothesis lt_asym : forall x y, lt x y = true -> lt y x = false.

Lemma insert_sorted x l :
  StronglySorted before l -> StronglySorted before (insert lt x l).
Proof.
  induction 1 as [|y l Hs IH Hy]; simpl.
  - constructor; constructor.
  - destruct (lt y x) eqn:E.
    + constructor; [exact IH|].
      apply (Permutation_Forall (insert_perm x l)).
      constructor; [now apply lt_asym | exact Hy].
    + constructor; [now constructor|].
      constructor; [exact E|].
      eapply Forall_impl; [|exact Hy]. intros z Hz.
      now apply before_trans with y.
Qed.

Lemma sorted_sorted l : StronglySorted before (sorted lt l).
Proof.
  induction l; simpl; [constructor | now apply insert_sorted].
Qed.
End SortFacts.

(** Sorting commutes with a map that keeps the order. *)
Lemma sorted_map {A B : Type} (ltA : A -> A -> bool) (ltB : B -> B -> bool)
    (g : A -> B) :
  (forall x y, ltB (g x) (g y) = ltA x y) ->
  forall l, sorted ltB (map g l) = map g (sorted ltA l).
Proof.
  intros Hg. induction l as [|x l IH]; simpl; [reflexivity|].
  rewrite IH. generalize (sorted ltA l). clear IH.
  induction l0 as [|y l0 IH]; simpl; [reflexivity|].
  rewrite Hg. destruct (ltA y x); simpl; [now rewrite IH | reflexivity].
Qed.

Lemma filter_map_comm {A B : Type} (g : A -> B) (p : B -> bool) (l : list A) :
  filter p (map g l) = map g (filter (fun x => p (g x)) l).
Proof.
  induction l as [|x l IH]; simpl; [reflexivity|].
  destruct (p (g x)); simpl; now rewrite IH.
Qed.

Lemma len_map {A B : Type} (g : A -> B) (l : list A) : len (map g l) = len l.
Proof. unfold len. now rewrite length_map. Qed.

Lemma enumerate_from_map {A B : Type} (g : A -> B) (l : list A) (i : Z) :
  enumerate_from i (map g l) = map (fun ix => (fst ix, g (snd ix))) (enumerate_from i l).
Proof.
  revert i. induction l as [|x l IH]; intros i; simpl; [reflexivity|].
  now rewrite IH.
Qed.

Lemma enumerate_from_snd {A : Type} (l : list A) (i : Z) :
  map snd (enumerate_from i l) = l.
Proof.
  revert i. induction l as [|x l IH]; intros i; simpl; [reflexivity|].
  now rewrite IH.
Qed.

Lemma for_each_map {A B S : Type} (g : A -> B) (body : B -> S -> outcome S)
    (l : list A) (s : S) :
  for_each body (map g l) s = for_each (fun x => body (g x)) l s.
Proof.
  revert s. induction l as [|x l IH]; intros s; simpl; [reflexivity|].
  destruct (body (g x) s); simpl; [apply IH | reflexivity].
Qed.

Lemma for_each_ext {A S : Type} (body1 body2 : A -> S -> outcome S) (l : list A) :
  Forall (fun x => forall s, body1 x s = body2 x s) l ->
  forall s, for_each body1 l s = for_each body2 l s.
Proof.
  induction 1 as [|x l Hx _ IH]; intros s; simpl; [reflexivity|].
  rewrite Hx. destruct (body2 x s); simpl; [apply IH | reflexivity].
Qed.

Lemma for_each_app {A S : Type} (body : A -> S -> outcome S) (l1 l2 : list A) (s : S) :
  for_each body (l1 ++ l2) s = for_each body l1 s ;; for_each body l2.
Proof.
  revert s. induction l1 as [|x l1 IH]; intros s; simpl; [reflexivity|].
  destruct (body x s); simpl; [apply IH | reflexivity].
Qed.

(** The listing of a directory, paired with the calls, is the listing of
    the paths mapped. *)
Lemma iterdir_calling_spec {R : Type} (f : path -> R) (p : path) :
  iterdir_calling f p =
  match iterdir p with
  | Ok ls => Ok (map (fun item => (item, f item)) ls)
  | Raise e => Raise e
  end.
Proof. destruct p as [n|n [st|e]|n st [ls|e]]; reflexivity. Qed.

(** ** What [is_dir()] answers *)

Lemma is_dir_kind p b : is_dir p = Ok b -> b = kind_dir p.
Proof.
  unfold is_dir, stat_query. destruct p as [n|n [st|e]|n st ls]; cbn.
  - now intros [= <-].
  - now intros [= <-].
  - destruct (ignore_error e); [now intros [= <-] | discriminate].
  - now intros [= <-].
Qed.

Lemma is_dir_answer p b : is_dir p = Ok b -> is_dir p = Ok (kind_dir p).
Proof. intros Hb. now rewrite <- (is_dir_kind _ Hb). Qed.

Lemma is_dir_true p : is_dir p = Ok true -> exists n st ls, p = Dir n st ls.
Proof.
  intros Hd. apply is_dir_kind in Hd.
  destruct p as [n|n st|n st ls]; try discriminate. eauto.
Qed.

Lemma is_dir_raises p e :
  is_dir p = Raise e <-> stat p = Raise e /\ ignore_error e = false.
Proof.
  unfold is_dir, stat_query. destruct (stat p) as [st|e'].
  - split; [discriminate | intros [[=] _]].
  - destruct (ignore_error e') eqn:Hi; split.
    + discriminate.
    + intros [[= ->] He]. congruence.
    + intros [= ->]. auto.
    + now intros [[= ->] _].
Qed.


Lemma exists_true p : exists_ p = Ok true <-> exists st, stat p = Ok st.
Proof.
  unfold exists_, stat_query. destruct (stat p) as [st|e].
  - split; eauto.
  - destruct (ignore_error e); split; try discriminate; intros [st [=]].
Qed.

Lemma exists_false p :
  exists_ p = Ok false <-> exists e, stat p = Raise e /\ ignore_error e = true.
Proof.
  unfold exists_, stat_query. destruct (stat p) as [st|e].
  - split; [discriminate | intros (e & [=] & _)].
  - destruct (ignore_error e) eqn:Hi; split; eauto; try discriminate.
    intros (e' & [= <-] & He). congruence.
Qed.

Lemma exists_is_dir p : exists_ p = Ok true -> is_dir p = Ok (kind_dir p).
Proof.
  intros He. apply exists_true in He. destruct He as [st Hs].
  unfold is_dir, stat_query. now rewrite Hs.
Qed.


(** ** The order on strings and on sort keys *)

Ltac z_cases :=
  repeat match goal with
    | |- context [?a <? ?b] => destruct (Z.ltb_spec a b)
    | |- context [?a =? ?b] => destruct (Z.eqb_spec a b)
    | H : context [?a <? ?b] |- _ => destruct (Z.ltb_spec a b)
    | H : context [?a =? ?b] |- _ => destruct (Z.eqb_spec a b)
    end.

Lemma str_lt_asym a b : str_lt a b = true -> str_lt b a = false.
Proof.
  revert b. induction a as [|c a IH]; intros [|d b]; simpl; try easy.
  intros Hlt. z_cases; simpl in *; try lia; try easy.
  now apply IH.
Qed.

Lemma str_lt_irrefl a : str_lt a a = false.
Proof.
  induction a as [|c a IH]; simpl; [reflexivity|].
  z_cases; simpl; try lia. exact IH.
Qed.

Lemma str_le_trans a b c :
  str_lt b a = false -> str_lt c b = false -> str_lt c a = false.
Proof.
  revert b c. induction a as [|x a IH]; intros [|y b] [|z c]; simpl; try easy.
  intros H1 H2. z_cases; simpl in *; try lia; try easy.
  now apply IH with b.
Qed.

Lemma str_lt_total a b : str_lt a b = false -> str_lt b a = false -> a = b.
Proof.
  revert b. induction a as [|x a IH]; intros [|y b]; simpl; try easy.
  intros H1 H2. z_cases; simpl in *; try lia; try easy.
  subst. f_equal. now apply IH.
Qed.

Lemma str_eqb_eq a b : str_eqb a b = true <-> a = b.
Proof.
  revert b. induction a as [|x a IH]; intros [|y b]; simpl; try easy.
  rewrite andb_true_iff, Z.eqb_eq, IH. split.
  - intros [-> ->]. reflexivity.
  - intros [= -> ->]. auto.
Qed.

Lemma str_eqb_refl a : str_eqb a a = true.
Proof. now apply str_eqb_eq. Qed.

Section KeyOrder.
Context `{builtins}.

Lemma key_lt_asym x y : path_key_lt x y = true -> path_key_lt y x = false.
Proof.
  unfold path_key_lt, key_lt, path_key. cbn [fst snd].
  destruct (kind_dir x), (kind_dir y); simpl; try easy.
  all: apply str_lt_asym.
Qed.

Lemma key_le_trans x y z :
  path_key_lt y x = false -> path_key_lt z y = false -> path_key_lt z x = false.
Proof.
  unfold path_key_lt, key_lt, path_key. cbn [fst snd].
  destruct (kind_dir x), (kind_dir y), (kind_dir z); simpl; try easy.
  all: apply str_le_trans.
Qed.

(** A listing sorted by the key: no entry has a key below that of an
    entry before it. *)
Lemma sorted_key_lt ls : StronglySorted (before path_key_lt) (sorted path_key_lt ls).
Proof.
  apply sorted_sorted.
  - intros x y z. apply key_le_trans.
  - apply key_lt_asym.
Qed.

Lemma first_raise_none l :
  first_raise l = None <-> Forall (fun x => is_dir x = Ok (kind_dir x)) l.
Proof.
  induction l as [|x l IH]; cbn [first_raise]; [split; auto|].
  destruct (is_dir x) as [b|e] eqn:Hd.
  - rewrite IH. split.
    + intros Hl. constructor; [now apply is_dir_answer in Hd | exact Hl].
    + intros Hl. now inversion Hl.
  - split; [discriminate|]. intros Hl. inversion Hl; congruence.
Qed.

Lemma first_raise_some l e :
  first_raise l = Some e -> exists x, In x l /\ is_dir x = Raise e.
Proof.
  induction l as [|x l IH]; cbn [first_raise]; [discriminate|].
  destruct (is_dir x) as [b|e'] eqn:Hd.
  - intros Hl. destruct (IH Hl) as (y & Hin & Hy). exists y. split; [now right | exact Hy].
  - intros [= ->]. exists x. split; [now left | exact Hd].
Qed.

Lemma first_raise_sortable show_hidden ls :
  sortable show_hidden ls = true
  <-> first_raise (if negb show_hidden then filter not_hidden ls else ls) = None.
Proof.
  unfold sortable, shown.
  induction ls as [|x ls IH]; [now destruct show_hidden|].
  cbn [forallb]. rewrite andb_true_iff, IH. clear IH.
  destruct show_hidden; cbn [negb orb filter first_raise].
  - unfold kind_answers. destruct (is_dir x); split; try tauto; try discriminate.
    now intros [[=] _].
  - destruct (not_hidden x); cbn [negb orb first_raise]; [|tauto].
    unfold kind_answers. destruct (is_dir x); split; try tauto; try discriminate.
    now intros [[=] _].
Qed.

Lemma decorate_sort_key l :
  decorate sort_key l
  = match first_raise l with
    | Some e => Raise e
    | None => Ok (map (fun x => (path_key x, x)) l)
    end.
Proof.
  induction l as [|x l IH]; [reflexivity|].
  cbn [decorate first_raise]. unfold sort_key at 1.
  destruct (is_dir x) as [b|e] eqn:Hd; [|reflexivity].
  rewrite IH. destruct (first_raise l); [reflexivity|].
  cbn [map]. unfold path_key at 2. now rewrite (is_dir_kind _ Hd).
Qed.

(** The sort raises what the first entry whose [is_dir()] raises, raises;
    when every [is_dir()] answers it is the stable sort by the keys. *)
Lemma sort_dirs_first_eq l :
  sort_dirs_first l
  = match first_raise l with
    | Some e => Raise e
    | None => Ok (sorted path_key_lt l)
    end.
Proof.
  unfold sort_dirs_first, sorted_by. rewrite decorate_sort_key.
  destruct (first_raise l); [reflexivity|]. f_equal.
  rewrite (sorted_map path_key_lt (fun x y : (bool * pystr) * path => key_lt (fst x) (fst y))
             (fun x => (path_key x, x))) by reflexivity.
  rewrite map_map. cbn [snd]. apply map_id.
Qed.

Lemma decorate_calling {R : Type} (f : path -> R) (ls : list path) :
  decorate (fun x : path * R => sort_key (fst x)) (map (fun item => (item, f item)) ls)
  = match decorate sort_key ls with
    | Ok kl => Ok (map (fun kx => (fst kx, (snd kx, f (snd kx)))) kl)
    | Raise e => Raise e
    end.
Proof.
  induction ls as [|x ls IH]; [reflexivity|].
  cbn [decorate map fst]. destruct (sort_key x); [|reflexivity].
  rewrite IH. now destruct (decorate sort_key ls).
Qed.

Lemma sort_dirs_first_calling_eq {R : Type} (f : path -> R) (ls : list path) :
  sort_dirs_first_calling (map (fun item => (item, f item)) ls)
  = match sort_dirs_first ls with
    | Ok items => Ok (map (fun item => (item, f item)) items)
    | Raise e => Raise e
    end.
Proof.
  unfold sort_dirs_first_calling, sort_dirs_first, sorted_by.
  rewrite decorate_calling. destruct (decorate sort_key ls) as [kl|e]; [|reflexivity].
  f_equal.
  rewrite (sorted_map (fun x y : (bool * pystr) * path => key_lt (fst x) (fst y))
             (fun x y : (bool * pystr) * (path * R) => key_lt (fst x) (fst y))
             (fun kx => (fst kx, (snd kx, f (snd kx))))) by reflexivity.
  now rewrite !map_map.
Qed.

Lemma sort_dirs_first_ok l items :
  sort_dirs_first l = Ok items ->
  items = sorted path_key_lt l
  /\ Forall (fun x => is_dir x = Ok (kind_dir x)) items.
Proof.
  rewrite sort_dirs_first_eq. destruct (first_raise l) eqn:Hf; [discriminate|].
  intros [= <-]. split; [reflexivity|].
  apply first_raise_none in Hf. apply Forall_forall. intros x Hx.
  apply sorted_In in Hx. rewrite Forall_forall in Hf. now apply Hf.
Qed.

Lemma sort_dirs_first_raise l e :
  sort_dirs_first l = Raise e -> exists x, In x l /\ is_dir x = Raise e.
Proof.
  rewrite sort_dirs_first_eq. destruct (first_raise l) eqn:Hf; [|discriminate].
  intros [= <-]. now apply first_raise_some.
Qed.

Lemma filter_not_hidden {R : Type} (f : path -> R) (ls : list path) :
  filter (fun x => not_hidden (fst x)) (map (fun item => (item, f item)) ls)
  = map (fun item => (item, f item)) (filter not_hidden ls).
Proof. apply (filter_map_comm (fun item => (item, f item))). Qed.

(** The entries that a listing hands to the loop are those of the
    directory that are shown, and their [is_dir()] answers. *)
Lemma ascii_listing_ok show_hidden p items :
  ascii_listing show_hidden p = Ok items ->
  exists ls,
    iterdir p = Ok ls
    /\ items = sorted path_key_lt (if negb show_hidden then filter not_hidden ls else ls)
    /\ Forall (fun x => is_dir x = Ok (kind_dir x)) items.
Proof.
  unfold ascii_listing. destruct (iterdir p) as [ls|e]; [|discriminate].
  intros Hs. apply sort_dirs_first_ok in Hs. exists ls. tauto.
Qed.

Lemma ascii_listing_In show_hidden p ls items x :
  iterdir p = Ok ls -> ascii_listing show_hidden p = Ok items ->
  In x items <-> In x ls /\ shown show_hidden x = true.
Proof.
  intros Hls Hit. destruct (ascii_listing_ok _ _ Hit) as (ls' & Hls' & -> & _).
  rewrite Hls in Hls'. injection Hls' as <-.
  rewrite sorted_In. unfold shown.
  destruct show_hidden; cbn [negb orb]; [tauto|]. apply filter_In.
Qed.
End KeyOrder.

Lemma sorted_path_lt {R : Type} (f : path -> R) (ls : list path) :
  sorted Basic.path_lt (map (fun item => (item, f item)) ls)
  = map (fun item => (item, f item))
      (sorted (fun x y => str_lt (name x) (name y)) ls).
Proof. apply sorted_map. reflexivity. Qed.

(* ===================================================================== *)
(** * The ASCII walker, one level at a time *)
(* ===================================================================== *)

Section AsciiFacts.
Context `{builtins}.
Import Ascii.

Lemma build_tree_eq show_hidden max_depth p prefix is_last depth s :
  build_tree show_hidden max_depth p prefix is_last depth s =
  if depth_exceeded max_depth depth then Returned s
  else
    try_except_PermissionError
      (eval (ascii_listing show_hidden p) s (fun items =>
         for_each (ascii_visit show_hidden max_depth prefix is_last depth (len items))
           (enumerate items) s))
      (fun s => Returned (append_line (prefix ++ corner ++ u "[Permission Denied]") s)).
Proof.
  destruct p as [n|n [st|e]|n st [ls|e]]; try reflexivity.
  cbn [build_tree iterdir_calling]. unfold ascii_listing. cbn [iterdir].
  destruct (depth_exceeded max_depth depth); [reflexivity|].
  f_equal.
  assert (E : (if negb show_hidden
               then filter (fun x => not_hidden (fst x))
                      (map (fun item => (item, build_tree show_hidden max_depth item)) ls)
               else map (fun item => (item, build_tree show_hidden max_depth item)) ls)
              = map (fun item => (item, build_tree show_hidden max_depth item))
                  (if negb show_hidden then filter not_hidden ls else ls)).
  { destruct show_hidden; simpl; [reflexivity | apply filter_not_hidden]. }
  cbv zeta. rewrite E, sort_dirs_first_calling_eq.
  destruct (sort_dirs_first _) as [items|e]; [|reflexivity].
  cbn [eval].
  rewrite len_map. unfold enumerate. rewrite enumerate_from_map, for_each_map.
  apply for_each_ext, Forall_forall. intros [i item] _ s'.
  unfold ascii_visit. cbn [fst snd].
  destruct (is_dir item) as [[|]|e]; cbn [eval]; try reflexivity.
  now rewrite <- !app_assoc.
Qed.

(** The body of the loop on an entry whose [is_dir()] answers. *)
Lemma ascii_visit_dir show_hidden max_depth prefix is_last depth n i item s :
  is_dir item = Ok true ->
  ascii_visit show_hidden max_depth prefix is_last depth n (i, item) s
  = build_tree show_hidden max_depth item
      (prefix ++ (if is_last then blank else bar)) (i =? n - 1) (depth + 1)
      (append_line
         ((prefix ++ (if i =? 0 then (if is_last then corner else tee)
                      else (if is_last then blank else bar)))
            ++ u "[D] " ++ dir_annotation show_hidden item) (incr_dirs s)).
Proof. intros Hd. unfold ascii_visit. cbn [fst snd]. now rewrite Hd. Qed.

Lemma ascii_visit_file show_hidden max_depth prefix is_last depth n i item s :
  is_dir item = Ok false ->
  ascii_visit show_hidden max_depth prefix is_last depth n (i, item) s
  = Returned
      (file_entry (prefix ++ (if i =? 0 then (if is_last then corner else tee)
                              else (if is_last then blank else bar))) item s).
Proof. intros Hd. unfold ascii_visit. cbn [fst snd]. now rewrite Hd. Qed.
End AsciiFacts.

Section DetailedFacts.
Context `{builtins}.
Import Detailed.

Lemma process_directory_eq show_hidden max_depth p prefix is_last depth s :
  process_directory show_hidden max_depth p prefix is_last depth s =
  if depth_exceeded max_depth depth then Returned s
  else
    try_except_PermissionError
      (eval (ascii_listing show_hidden p) s (fun items =>
         for_each
           (detailed_visit show_hidden max_depth prefix is_last depth (len items))
           (enumerate items) s))
      (fun s =>
         Returned (append_line
                     (prefix ++ corner ++ lock_mark ++ u "[Permission Denied]") s)).
Proof.
  destruct p as [n|n [st|e]|n st [ls|e]]; try reflexivity.
  cbn [process_directory iterdir_calling]. unfold ascii_listing. cbn [iterdir].
  destruct (depth_exceeded max_depth depth); [reflexivity|].
  f_equal.
  assert (E : (if negb show_hidden
               then filter (fun x => not_hidden (fst x))
                      (map (fun item => (item, process_directory show_hidden max_depth item)) ls)
               else map (fun item => (item, process_directory show_hidden max_depth item)) ls)
              = map (fun item => (item, process_directory show_hidden max_depth item))
                  (if negb show_hidden then filter not_hidden ls else ls)).
  { destruct show_hidden; simpl; [reflexivity | apply filter_not_hidden]. }
  cbv zeta. rewrite E, sort_dirs_first_calling_eq.
  destruct (sort_dirs_first _) as [items|e]; [|reflexivity].
  cbn [eval].
  rewrite len_map. unfold enumerate. rewrite enumerate_from_map, for_each_map.
  apply for_each_ext, Forall_forall. intros [i item] _ s'.
  reflexivity.
Qed.

Lemma detailed_visit_dir show_hidden max_depth prefix is_last depth n i item s :
  is_dir item = Ok true ->
  detailed_visit show_hidden max_depth prefix is_last depth n (i, item) s
  = process_directory show_hidden max_depth item
      (prefix ++ (if is_last then blank else bar)) (i =? n - 1) (depth + 1)
      (append_line
         (prefix ++ (if i =? 0 then (if is_last then corner else tee)
                     else (if is_last then blank else bar))
            ++ folder_mark ++ name item ++ count_info show_hidden item)
         (incr_dirs s)).
Proof. intros Hd. unfold detailed_visit. cbn [fst snd]. now rewrite Hd. Qed.

Lemma detailed_visit_file show_hidden max_depth prefix is_last depth n i item s :
  is_dir item = Ok false ->
  detailed_visit show_hidden max_depth prefix is_last depth n (i, item) s
  = Returned
      (file_entry prefix (if i =? 0 then (if is_last then corner else tee)
                          else (if is_last then blank else bar)) item s).
Proof. intros Hd. unfold detailed_visit. cbn [fst snd]. now rewrite Hd. Qed.
End DetailedFacts.

Section BasicFacts.
Import Basic.

End BasicFacts.

Section DictFacts.
Context `{builtins}.
Import Method5.

Lemma directory_to_dict_eq max_depth p path_str depth :
  directory_to_dict max_depth p path_str depth =
  match modified_of p with
  | Raise e => Raise e
  | Ok modified =>
      let d := dict_header p path_str modified in
      if depth_reached max_depth depth
      then Ok (PDict (setitem k_children (PList []) d))
      else
        match
          eval (ascii_listing true p) d (fun items =>
            for_each (dict_visit max_depth path_str depth) items
              (setitem k_children (PList []) d))
        with
        | Returned d => Ok (PDict d)
        | Raised _ d => Ok (PDict (setitem k_children (PList [error_entry]) d))
        end
  end.
Proof.
  destruct p as [n|n [st|e]|n st [ls|e]]; try reflexivity.
  cbn [directory_to_dict iterdir_calling]. unfold ascii_listing. cbn [iterdir negb].
  destruct (modified_of (Dir n st (Ok ls))); [|reflexivity].
  cbv zeta. destruct (depth_reached max_depth depth); [reflexivity|].
  rewrite sort_dirs_first_calling_eq.
  destruct (sort_dirs_first ls) as [items|e]; [|reflexivity].
  cbn [eval]. rewrite for_each_map.
  erewrite for_each_ext; [reflexivity|].
  apply Forall_forall. intros item _ d. reflexivity.
Qed.

Lemma dict_visit_dir max_depth path_str depth item d :
  is_dir item = Ok true ->
  dict_visit max_depth path_str depth item d
  = match
      directory_to_dict max_depth item (child_str path_str (name item)) (depth + 1)
    with
    | Raise e => Raised e d
    | Ok child_dict =>
        Returned
          (add_size (match child_dict with PDict c => size_of c | _ => 0 end)
             (append_child child_dict d))
    end.
Proof. intros Hd. unfold dict_visit. now rewrite Hd. Qed.

Lemma dict_visit_file max_depth path_str depth item d :
  is_dir item = Ok false ->
  dict_visit max_depth path_str depth item d
  = Returned (file_entry (child_str path_str (name item)) item d).
Proof. intros Hd. unfold dict_visit. now rewrite Hd. Qed.
End DictFacts.

(* ===================================================================== *)
(** * Sizes in the dictionary, and the total of the ASCII walk *)
(* ===================================================================== *)

Section SizeFacts.
Context `{builtins}.
Import Method5.

Lemma header_children p path_str modified cs :
  setitem k_children (PList cs) (dict_header p path_str modified)
  = dir_dict (name p) path_str 0 modified cs.
Proof. reflexivity. Qed.

Lemma dir_dict_children nm ps n m cs cs' :
  setitem k_children (PList cs') (dir_dict nm ps n m cs) = dir_dict nm ps n m cs'.
Proof. reflexivity. Qed.

Lemma dir_dict_append nm ps n m cs c :
  append_child c (dir_dict nm ps n m cs) = dir_dict nm ps n m (cs ++ [c]).
Proof. reflexivity. Qed.

Lemma dir_dict_add_size nm ps n m cs k :
  add_size k (dir_dict nm ps n m cs) = dir_dict nm ps (n + k) m cs.
Proof. reflexivity. Qed.

Lemma dir_dict_size nm ps n m cs : size_of (dir_dict nm ps n m cs) = n.
Proof. reflexivity. Qed.

Lemma file_bytes_app l1 l2 :
  file_bytes (PList (l1 ++ l2)) = file_bytes (PList l1) + file_bytes (PList l2).
Proof.
  induction l1 as [|x l1 IH]; [reflexivity|].
  change (file_bytes x + file_bytes (PList (l1 ++ l2))
          = file_bytes x + file_bytes (PList l1) + file_bytes (PList l2)).
  rewrite IH. lia.
Qed.

Lemma sizes_ok_app l1 l2 :
  sizes_ok (PList (l1 ++ l2)) = sizes_ok (PList l1) && sizes_ok (PList l2).
Proof.
  induction l1 as [|x l1 IH]; [reflexivity|].
  change (sizes_ok x && sizes_ok (PList (l1 ++ l2))
          = sizes_ok x && sizes_ok (PList l1) && sizes_ok (PList l2)).
  rewrite IH. now rewrite andb_assoc.
Qed.

Lemma file_bytes_dir_dict nm ps n m cs :
  file_bytes (PDict (dir_dict nm ps n m cs)) = file_bytes (PList cs).
Proof.
  change (file_bytes (PDict (dir_dict nm ps n m cs)))
    with (0 + (0 + (0 + (0 + (0 + (file_bytes (PList cs) + 0)))))).
  lia.
Qed.

Lemma sizes_ok_dir_dict nm ps n m cs :
  sizes_ok m = true ->
  sizes_ok (PDict (dir_dict nm ps n m cs))
  = (n =? file_bytes (PList cs)) && sizes_ok (PList cs).
Proof.
  intros Hm.
  change (sizes_ok (PDict (dir_dict nm ps n m cs)))
    with ((n =? file_bytes (PList cs))
          && (true && (true && (true && (true && (sizes_ok m
              && (sizes_ok (PList cs) && true))))))).
  rewrite Hm. simpl. now rewrite andb_true_r.
Qed.
End SizeFacts.

Section DictSizes.
Context `{builtins}.
Import Method5.

(** What [directory_to_dict] returns, when it returns: a directory
    dictionary whose size is the bytes of the files under it. *)
Definition sized_dict (p : path) (path_str : pystr) (v : pyval) : Prop :=
  exists n m cs,
    v = PDict (dir_dict (name p) path_str n m cs)
    /\ n = file_bytes (PList cs)
    /\ sizes_ok (PList cs) = true
    /\ sizes_ok m = true.

Lemma modified_of_scalar p m : modified_of p = Ok m -> sizes_ok m = true.
Proof.
  unfold modified_of. destruct (exists_ p) as [[|]|e]; [|now intros [= <-]|discriminate].
  destruct (stat p); [now intros [= <-] | discriminate].
Qed.

Lemma modified_of_dir p : is_dir p = Ok true -> exists m, modified_of p = Ok m.
Proof.
  intros Hd. destruct (is_dir_true _ Hd) as (n & st & ls & ->).
  eexists. reflexivity.
Qed.

Lemma directory_to_dict_dir_returns max_depth p path_str depth :
  is_dir p = Ok true -> exists v, directory_to_dict max_depth p path_str depth = Ok v.
Proof.
  intros Hd. rewrite directory_to_dict_eq.
  destruct (modified_of_dir p Hd) as [m ->]. cbv zeta.
  destruct (depth_reached max_depth depth); [eauto|].
  match goal with |- context [match ?o with Returned _ => _ | Raised _ _ => _ end] =>
    destruct o end; eauto.
Qed.

Lemma file_entry_sized item_str item nm ps n m cs :
  exists c,
    file_entry item_str item (dir_dict nm ps n m cs)
    = dir_dict nm ps (n + file_bytes c) m (cs ++ [c])
    /\ sizes_ok c = true.
Proof.
  unfold file_entry. destruct (stat item) as [st|e].
  - exists (PDict [(k_name, PStr (name item)); (k_path, PStr item_str);
                   (k_type, PStr s_file); (k_size, PInt (st_size st));
                   (k_modified, PFloat (st_mtime st))]).
    split; [|reflexivity].
    now rewrite dir_dict_append, dir_dict_add_size.
  - exists (PDict [(k_name, PStr (name item)); (k_type, PStr s_file);
                   (k_error, PStr s_permission_denied)]).
    split; [|reflexivity].
    rewrite dir_dict_append.
    change (file_bytes (PDict [(k_name, PStr (name item)); (k_type, PStr s_file);
                               (k_error, PStr s_permission_denied)])) with 0.
    now rewrite Z.add_0_r.
Qed.

Lemma file_bytes_single c : file_bytes (PList [c]) = file_bytes c.
Proof. change (file_bytes (PList [c])) with (file_bytes c + 0). lia. Qed.

Lemma sizes_ok_single c : sizes_ok (PList [c]) = sizes_ok c.
Proof. change (sizes_ok (PList [c])) with (sizes_ok c && true). apply andb_true_r. Qed.

Lemma dict_loop_sized max_depth ps depth items :
  Forall (fun item => forall path_str depth v,
              directory_to_dict max_depth item path_str depth = Ok v ->
              sized_dict item path_str v) items ->
  Forall (fun item => is_dir item = Ok (kind_dir item)) items ->
  forall nm n m cs,
    n = file_bytes (PList cs) -> sizes_ok (PList cs) = true ->
    exists n' cs',
      for_each (dict_visit max_depth ps depth) items (dir_dict nm ps n m cs)
      = Returned (dir_dict nm ps n' m cs')
      /\ n' = file_bytes (PList cs') /\ sizes_ok (PList cs') = true.
Proof.
  induction 1 as [|item items Hitem _ IH]; intros Hans nm n m cs Hn Hcs.
  - exists n, cs. auto.
  - apply Forall_cons_iff in Hans. destruct Hans as [Hd Hans']. cbn [for_each].
    destruct (kind_dir item).
    + rewrite dict_visit_dir by exact Hd.
      destruct (directory_to_dict_dir_returns max_depth item
                  (child_str ps (name item)) (depth + 1) Hd) as [v Hv].
      rewrite Hv. destruct (Hitem _ _ _ Hv) as (k & mc & ccs & -> & Hk & Hccs & Hmc).
      rewrite dir_dict_append, dir_dict_size, dir_dict_add_size. cbn [bind].
      apply (IH Hans').
      * rewrite file_bytes_app, file_bytes_single, file_bytes_dir_dict. lia.
      * rewrite sizes_ok_app, Hcs, sizes_ok_single.
        rewrite sizes_ok_dir_dict by exact Hmc.
        rewrite Hccs, Hk, Z.eqb_refl. reflexivity.
    + rewrite dict_visit_file by exact Hd.
      destruct (file_entry_sized (child_str ps (name item)) item nm ps n m cs)
        as (c & -> & Hc).
      cbn [bind]. apply (IH Hans').
      * rewrite file_bytes_app, file_bytes_single. lia.
      * now rewrite sizes_ok_app, Hcs, sizes_ok_single, Hc.
Qed.

(** The entries of a listing that sorted carry what holds of the entries
    of the directory. *)
Lemma listing_Forall (P : path -> Prop) show_hidden p items :
  (forall ls, iterdir p = Ok ls -> Forall P ls) ->
  ascii_listing show_hidden p = Ok items ->
  Forall P items.
Proof.
  intros IH Hit. destruct (ascii_listing_ok _ _ Hit) as (ls & Hls & _).
  apply Forall_forall. intros x Hx.
  apply (ascii_listing_In _ _ x Hls Hit) in Hx.
  specialize (IH ls Hls). rewrite Forall_forall in IH. now apply IH.
Qed.

Lemma directory_to_dict_sized max_depth p :
  forall path_str depth v,
    directory_to_dict max_depth p path_str depth = Ok v -> sized_dict p path_str v.
Proof.
  induction p as [p IH] using listing_induction.
  intros path_str depth v. rewrite directory_to_dict_eq.
  destruct (modified_of p) as [m|e'] eqn:Hm; [|discriminate].
  cbv zeta. rewrite !header_children.
  pose proof (modified_of_scalar _ Hm) as Hs.
  destruct (depth_reached max_depth depth);
    [intros [= <-]; exists 0, m, []; now repeat split|].
  destruct (ascii_listing true p) as [items|e] eqn:Hit; cbn [eval].
  - destruct (ascii_listing_ok _ _ Hit) as (ls & Hls & _ & Hans).
    destruct (dict_loop_sized max_depth path_str depth (items := items))
      with (nm := name p) (n := 0) (m := m) (cs := @nil pyval)
      as (n' & cs' & -> & Hn' & Hcs'); try reflexivity.
    + eapply listing_Forall; [exact IH | exact Hit].
    + exact Hans.
    + intros [= <-]. exists n', m, cs'. now repeat split.
  - rewrite ?header_children. intros [= <-].
    exists 0, m, [error_entry]; now repeat split.
Qed.

(** The size invariant of the dictionary. *)
Lemma directory_to_dict_sizes_ok max_depth p path_str depth v :
  directory_to_dict max_depth p path_str depth = Ok v -> sizes_ok v = true.
Proof.
  intros Hv. destruct (directory_to_dict_sized _ _ _ _ Hv) as (n & m & cs & -> & Hn & Hcs & Hm).
  rewrite sizes_ok_dir_dict by exact Hm. now rewrite Hcs, Hn, Z.eqb_refl.
Qed.
End DictSizes.

Section AsciiTotal.
Context `{builtins}.
Import Ascii.

Lemma depth_reached_one_more max_depth depth :
  depth_reached (one_more max_depth) depth = depth_exceeded max_depth depth.
Proof.
  destruct max_depth as [m|]; [|reflexivity]. simpl.
  unfold Z.geb, Z.gtb.
  destruct (Z.compare_spec depth (m + 1)), (Z.compare_spec depth m); lia || reflexivity.
Qed.

(** [build_tree] takes a [PermissionError] itself: none leaves it. *)
Lemma build_tree_not_permission show_hidden max_depth p prefix is_last depth s e s' :
  build_tree show_hidden max_depth p prefix is_last depth s = Raised e s' ->
  is_PermissionError e = false.
Proof.
  rewrite build_tree_eq. destruct (depth_exceeded max_depth depth); [discriminate|].
  unfold try_except_PermissionError.
  match goal with |- context [match ?o with Returned _ => _ | Raised _ _ => _ end] =>
    destruct o as [s1|e1 s1] end; [discriminate|].
  destruct (is_PermissionError e1) eqn:E; [discriminate|].
  now intros [= <- _].
Qed.

(** Nor does one leave the loop, once the sort has gone through. *)
Lemma ascii_loop_not_permission show_hidden max_depth prefix is_last depth n l :
  Forall (fun ix => is_dir (snd ix) = Ok (kind_dir (snd ix))) l ->
  forall s e s',
    for_each (ascii_visit show_hidden max_depth prefix is_last depth n) l s
    = Raised e s' ->
    is_PermissionError e = false.
Proof.
  induction 1 as [|[i item] l Hd _ IH]; intros s e s'; cbn [for_each]; [discriminate|].
  cbn [snd] in Hd. destruct (kind_dir item).
  - rewrite ascii_visit_dir by exact Hd.
    match goal with |- context [build_tree ?a ?b ?c ?d ?f ?g ?h] =>
      destruct (build_tree a b c d f g h) as [s1|e1 s1] eqn:E end; cbn [bind].
    + apply IH.
    + intros [= <- _]. eapply build_tree_not_permission, E.
  - rewrite ascii_visit_file by exact Hd. cbn [bind]. apply IH.
Qed.

(** The property of one path that the induction carries. *)
Definition totals_agree (max_depth : option Z) (p : path) : Prop :=
  forall prefix is_last depth s s' path_str v,
    build_tree true max_depth p prefix is_last depth s = Returned s' ->
    Method5.directory_to_dict (one_more max_depth) p path_str depth = Ok v ->
    total_size s' = total_size s + match v with PDict d => size_of d | _ => 0 end.

Lemma loops_agree max_depth prefix is_last depth ps len_items items :
  Forall (totals_agree max_depth) items ->
  Forall (fun item => is_dir item = Ok (kind_dir item)) items ->
  forall i s s' nm n m cs,
    for_each (ascii_visit true max_depth prefix is_last depth len_items)
      (enumerate_from i items) s = Returned s' ->
    exists n' cs',
      for_each (dict_visit (one_more max_depth) ps depth) items (dir_dict nm ps n m cs)
      = Returned (dir_dict nm ps n' m cs')
      /\ total_size s' - total_size s = n' - n.
Proof.
  induction 1 as [|item items Hitem _ IH]; intros Hans i s s' nm n m cs.
  - cbn. intros [= <-]. exists n, cs. split; [reflexivity | lia].
  - apply Forall_cons_iff in Hans. destruct Hans as [Hd Hans'].
    cbn [enumerate_from for_each].
    destruct (kind_dir item).
    + rewrite ascii_visit_dir, dict_visit_dir by exact Hd.
      match goal with |- context [build_tree ?a ?b ?c ?d ?f ?g ?h] =>
        destruct (build_tree a b c d f g h) as [s1|e1 s1] eqn:E end;
        cbn [bind]; [|discriminate].
      intros Hrest.
      destruct (directory_to_dict_dir_returns (one_more max_depth) item
                  (child_str ps (name item)) (depth + 1) Hd) as [v Hv].
      rewrite Hv. pose proof (Hitem _ _ _ _ _ _ _ E Hv) as Hsz.
      destruct (directory_to_dict_sized _ _ _ _ Hv) as (k & mc & ccs & -> & _).
      rewrite dir_dict_size in Hsz.
      rewrite dir_dict_append, dir_dict_size, dir_dict_add_size. cbn [bind].
      destruct (IH Hans' _ _ _ nm (n + k) m (cs ++ [PDict (dir_dict (name item)
                  (child_str ps (name item)) k mc ccs)]) Hrest) as (n' & cs' & -> & Hn').
      exists n', cs'. split; [reflexivity|].
      cbn in Hsz. lia.
    + rewrite ascii_visit_file, dict_visit_file by exact Hd.
      cbn [bind]. intros Hrest.
      unfold file_entry, Method5.file_entry in *.
      destruct (stat item) as [st|e].
      * rewrite dir_dict_append, dir_dict_add_size.
        match goal with
        | |- exists _ _, for_each _ _ (dir_dict _ _ ?k _ ?c) = _ /\ _ =>
            destruct (IH Hans' _ _ _ nm k m c Hrest) as (n' & cs' & -> & Hn')
        end.
        exists n', cs'. split; [reflexivity|]. cbn in Hn'. lia.
      * rewrite dir_dict_append.
        match goal with
        | |- exists _ _, for_each _ _ (dir_dict _ _ ?k _ ?c) = _ /\ _ =>
            destruct (IH Hans' _ _ _ nm k m c Hrest) as (n' & cs' & -> & Hn')
        end.
        exists n', cs'. split; [reflexivity|]. cbn in Hn'. lia.
Qed.

Lemma Forall_enumerate_snd {A : Type} (P : A -> Prop) (l : list A) (i : Z) :
  Forall P l -> Forall (fun ix => P (snd ix)) (enumerate_from i l).
Proof.
  intros Hl. revert i. induction Hl as [|x l Hx _ IH]; intros i; cbn; constructor; auto.
Qed.

Lemma answers_enumerate (l : list path) (i : Z) :
  Forall (fun x => is_dir x = Ok (kind_dir x)) l ->
  Forall (fun ix : Z * path => is_dir (snd ix) = Ok (kind_dir (snd ix)))
    (enumerate_from i l).
Proof. apply (@Forall_enumerate_snd path (fun x => is_dir x = Ok (kind_dir x))). Qed.

Lemma totals_agree_all max_depth p : totals_agree max_depth p.
Proof.
  induction p as [p IH] using listing_induction.
  intros prefix is_last depth s s' path_str v.
  rewrite build_tree_eq, directory_to_dict_eq, depth_reached_one_more.
  destruct (Method5.modified_of p) as [m|e'] eqn:Hm; [|discriminate].
  cbv zeta. rewrite !header_children.
  destruct (depth_exceeded max_depth depth);
    [intros [= <-] [= <-]; rewrite dir_dict_size; lia|].
  destruct (ascii_listing true p) as [items|e] eqn:Hit; cbn [eval].
  - destruct (ascii_listing_ok _ _ Hit) as (ls & Hls & _ & Hans).
    match goal with |- context [for_each ?b ?l s] =>
      destruct (for_each b l s) as [s1|e1 s1] eqn:E end.
    + cbn [try_except_PermissionError]. intros [= <-].
      assert (HF : Forall (totals_agree max_depth) items)
        by (eapply listing_Forall; [exact IH | exact Hit]).
      destruct (@loops_agree max_depth prefix is_last depth path_str
                  (len items) items HF Hans
                  0 s s1 (name p) 0 m [] E) as (n' & cs' & Hloop & Hn').
      rewrite Hloop. intros [= <-]. rewrite dir_dict_size. lia.
    + cbn [try_except_PermissionError].
      erewrite ascii_loop_not_permission;
        [discriminate | apply answers_enumerate, Hans | exact E].
  - cbn [try_except_PermissionError].
    destruct (is_PermissionError e); [|discriminate].
    intros [= <-] [= <-]. cbn. lia.
Qed.
End AsciiTotal.

(* ===================================================================== *)
(** * C1: sizes and totals *)
(* ===================================================================== *)

(** C1, as amended.  In the dictionary walk the [size] of every directory
    node is the sum of the sizes of the file nodes under it, the entries
    that record an error counting for nothing.  The [total_size] of the
    ASCII walk is the [size] of the root of the dictionary walk of the same
    tree when the ASCII walk shows hidden entries and the limit of the
    dictionary walk is one more than that of the ASCII walk, or both have
    none. *)
Theorem C1_sizes_and_total `{builtins} :
  (forall max_depth p path_str depth v,
      Method5.directory_to_dict max_depth p path_str depth = Ok v ->
      sizes_ok v = true)
  /\ (forall start_path_str now start_path max_depth s d,
         Ascii.generate_ascii_tree start_path_str now start_path true max_depth = Ok s ->
         Method5.directory_to_dict (one_more max_depth) start_path start_path_str 0
         = Ok (PDict d) ->
         Ascii.total_size s = size_of d).
Proof.
  split.
  - intros max_depth p path_str depth v. apply directory_to_dict_sizes_ok.
  - intros start_path_str now start_path max_depth s d.
    unfold Ascii.generate_ascii_tree.
    destruct (exists_ start_path) as [[|]|e0]; try discriminate.
    match goal with |- context [Ascii.build_tree ?a ?b ?c ?e ?f ?g ?h] =>
      destruct (Ascii.build_tree a b c e f g h) as [s1|e1 s1] eqn:E end;
      [|discriminate].
    intros [= <-] Hd.
    pose proof (@totals_agree_all _ max_depth start_path _ _ _ _ _ _ _ E Hd) as Ht.
    exact Ht.
Qed.

Lemma C1_sizes_and_total_witness :
  sizes_ok (PDict scenario_dict) = true
  /\ Ascii.total_size scenario_ascii = size_of scenario_dict.
Proof.
  destruct (@C1_sizes_and_total ascii_builtins) as [Hsizes Htotal].
  split.
  - apply (Hsizes None scenario (u "/root") 0). reflexivity.
  - apply (Htotal (u "/root") (u "now") scenario None); reflexivity.
Defined.

(** C1 as stated fails: on the scenario with [max_depth = 0] the ASCII walk
    totals the 10 bytes of [a.txt] while the root of the dictionary has size
    0; and with the default hidden filter the ASCII walk leaves out the 7
    bytes of [.env], which the dictionary counts. *)
Lemma C1_total_differs_from_root_size :
  (exists s d,
      Ascii.generate_ascii_tree (u "/root") (u "now") scenario false (Some 0) = Ok s
      /\ Method5.directory_to_dict (Some 0) scenario (u "/root") 0 = Ok (PDict d)
      /\ Ascii.total_size s = 10 /\ size_of d = 0)
  /\ (exists s d,
         Ascii.generate_ascii_tree (u "/root") (u "now") with_hidden false None = Ok s
         /\ Method5.directory_to_dict None with_hidden (u "/root") 0 = Ok (PDict d)
         /\ Ascii.total_size s = 3 /\ size_of d = 10).
Proof.
  split; do 2 eexists; (split; [reflexivity|]); (split; [reflexivity|]);
    split; reflexivity.
Qed.

(* ===================================================================== *)
(** * C10: the [max_depth] attribute of the XML root *)
(* ===================================================================== *)

Section XmlFacts.
Context `{builtins}.
Import Method5.

Lemma modified_of_cases p m :
  modified_of p = Ok m -> (exists x, m = PFloat x) \/ m = PInt 0.
Proof.
  unfold modified_of.
  destruct (exists_ p) as [[|]|e]; [|intros [= <-]; now right|discriminate].
  destruct (stat p); [intros [= <-]; left; eauto | discriminate].
Qed.

(** The shape of what [directory_to_dict] returns. *)
Lemma directory_to_dict_shape max_depth p path_str depth v :
  directory_to_dict max_depth p path_str depth = Ok v ->
  exists n m cs,
    modified_of p = Ok m /\ v = PDict (dir_dict (name p) path_str n m cs).
Proof.
  rewrite directory_to_dict_eq.
  destruct (modified_of p) as [m|e] eqn:Hm; [|discriminate].
  cbv zeta. rewrite !header_children.
  destruct (depth_reached max_depth depth); [intros [= <-]; eauto 6|].
  destruct (ascii_listing true p) as [items|e] eqn:Hit; cbn [eval].
  - destruct (ascii_listing_ok _ _ Hit) as (ls & _ & _ & Hans).
    destruct (@dict_loop_sized _ max_depth path_str depth items)
      with (nm := name p) (n := 0) (m := m) (cs := @nil pyval)
      as (n' & cs' & -> & _); try reflexivity.
    + apply Forall_forall. intros item _ ps d v'. apply directory_to_dict_sized.
    + exact Hans.
    + intros [= <-]. eauto 6.
  - rewrite ?header_children. intros [= <-].
    exists 0, m, [error_entry]. split; reflexivity.
Qed.

(** The sub-elements that [dict_to_xml] makes of the children. *)
Definition child_elements (cs : list pyval) : list element :=
  map (fun child => dict_to_xml child (Element (child_type child) [] [])) cs.

Lemma dict_to_xml_dir_dict nm ps n m cs tag attrib sub :
  (exists x, m = PFloat x) \/ m = PInt 0 ->
  dict_to_xml (PDict (dir_dict nm ps n m cs)) (Element tag attrib sub)
  = Element tag
      (set_attrib k_modified (str_of_value m)
         (set_attrib k_size (str_of_int n)
            (set_attrib k_path ps (set_attrib k_name nm attrib))))
      (sub ++ child_elements cs).
Proof.
  intros Hm.
  assert (Hc : forall cs tag attrib sub,
             (fix over_children (l : list pyval) (e : element) {struct l} : element :=
                match l with
                | [] => e
                | child :: l' =>
                    over_children l'
                      (sub_element e (dict_to_xml child (Element (child_type child) [] [])))
                end) cs (Element tag attrib sub)
             = Element tag attrib (sub ++ child_elements cs)).
  { clear. induction cs as [|c cs IH]; intros tag attrib sub.
    - now rewrite app_nil_r.
    - cbn [sub_element]. rewrite IH. cbn [child_elements map].
      now rewrite <- app_assoc. }
  destruct Hm as [[x ->] | ->]; cbn; now rewrite Hc.
Qed.

Lemma get_set_attrib_other k k' v a :
  str_eqb k' k = false -> get_attrib k (set_attrib k' v a) = get_attrib k a.
Proof.
  intros Hk. induction a as [|[k0 v0] a IH]; simpl.
  - now rewrite Hk.
  - destruct (str_eqb k0 k') eqn:E; simpl.
    + apply str_eqb_eq in E. subst k0. now rewrite Hk.
    + destruct (str_eqb k0 k); [reflexivity | exact IH].
Qed.
End XmlFacts.

Lemma str_of_int_not_unlimited m : str_of_int m <> u "unlimited".
Proof.
  unfold str_of_int. destruct (Z.to_int m) as [d|d]; destruct d; discriminate.
Qed.

(** C10.  The [max_depth] attribute of the root element that
    [save_tree_xml] builds is ['unlimited'] exactly when [max_depth] is
    [None] or 0; and with [max_depth = 0] the walk did stop at the root: the
    root element has no sub-element. *)
Theorem C10_xml_max_depth_unlimited `{builtins} :
  forall start_path_str now start_path max_depth tag attrib sub,
    Method5.save_tree_xml start_path_str now start_path max_depth
    = Ok (Method5.Element tag attrib sub) ->
    (Method5.get_attrib k_max_depth attrib = Some (u "unlimited")
     <-> max_depth = None \/ max_depth = Some 0)
    /\ (max_depth = Some 0 -> sub = []).
Proof.
  intros start_path_str now start_path max_depth tag attrib sub.
  unfold Method5.save_tree_xml.
  destruct (Method5.directory_to_dict max_depth start_path start_path_str 0)
    as [v|e] eqn:Hv; [|discriminate].
  destruct (directory_to_dict_shape _ _ _ _ Hv) as (n & m & cs & Hm & ->).
  cbn [Method5.set Method5.set_attrib].
  rewrite (dict_to_xml_dir_dict _ _ _ _ _ _ _ (modified_of_cases _ Hm)).
  intros [= <- <- <-]. split.
  - change (Some (Method5.max_depth_attribute max_depth) = Some (u "unlimited")
            <-> max_depth = None \/ max_depth = Some 0).
    destruct max_depth as [d|]; cbn [Method5.max_depth_attribute].
    + destruct (Z.eqb_spec d 0) as [->|Hd].
      * split; auto.
      * split.
        -- intros [= E]. now apply str_of_int_not_unlimited in E.
        -- intros [E|[= E]]; [discriminate | contradiction].
    + split; auto.
  - intros ->. revert Hv. rewrite directory_to_dict_eq, Hm. cbn.
    unfold dir_dict. intros E. injection E as _ <-. reflexivity.
Qed.

Lemma C10_xml_max_depth_unlimited_witness :
  (Method5.get_attrib k_max_depth scenario_xml_attrib = Some (u "unlimited")
   <-> Some 0 = None \/ Some 0 = Some 0)
  /\ (Some 0 = Some 0 -> @nil Method5.element = []).
Proof.
  apply (@C10_xml_max_depth_unlimited ascii_builtins
           (u "/root") (u "now") scenario (Some 0) (u "directory_tree")).
  reflexivity.
Defined.

(* ===================================================================== *)
(** * C9: a file whose [stat()] fails *)
(* ===================================================================== *)

Lemma zsum_app l1 l2 : zsum (l1 ++ l2) = zsum l1 + zsum l2.
Proof. induction l1; simpl; lia. Qed.




(** When the listing answers, the sort raises exactly when the key of an
    entry that is shown raises. *)
Lemma ascii_listing_sortable `{builtins} show_hidden p ls :
  iterdir p = Ok ls ->
  match ascii_listing show_hidden p with
  | Ok _ => sortable show_hidden ls = true
  | Raise e =>
      sortable show_hidden ls = false
      /\ exists x, In x ls /\ shown show_hidden x = true /\ is_dir x = Raise e
  end.
Proof.
  intros Hls. unfold ascii_listing. rewrite Hls, sort_dirs_first_eq.
  destruct (first_raise _) as [e|] eqn:Hf.
  - split.
    + destruct (sortable show_hidden ls) eqn:Hs; [|reflexivity].
      apply first_raise_sortable in Hs. congruence.
    + apply first_raise_some in Hf. destruct Hf as (x & Hin & Hx). exists x.
      unfold shown. destruct show_hidden; cbn [negb orb] in *; [auto|].
      apply filter_In in Hin. tauto.
  - now apply first_raise_sortable.
Qed.



Lemma fully_listed_entries n st ls :
  fully_listed (Dir n st (Ok ls)) = true -> Forall (fun x => fully_listed x = true) ls.
Proof.
  cbn [fully_listed]. induction ls as [|x ls IH]; [constructor|].
  intros Hl. apply andb_true_iff in Hl. destruct Hl as [Hx Hl]. constructor; auto.
Qed.

(** Under a path where every listing and every [is_dir()] answers, no
    listing raises [PermissionError]. *)
Lemma fully_listed_listing `{builtins} show_hidden p e :
  fully_listed p = true ->
  ascii_listing show_hidden p = Raise e ->
  is_PermissionError e = false.
Proof.
  intros Hf Hit. destruct (iterdir p) as [ls|e'] eqn:Hls.
  - pose proof (ascii_listing_sortable show_hidden p Hls) as Hs. rewrite Hit in Hs.
    destruct Hs as (_ & x & Hin & _ & Hx).
    destruct (iterdir_ok _ Hls) as (n & st & ->).
    apply fully_listed_entries in Hf. rewrite Forall_forall in Hf.
    specialize (Hf x Hin). apply is_dir_raises in Hx. destruct Hx as [Hx Hi].
    destruct x as [nx|nx [sx|ex]|nx sx lx]; cbn [stat] in Hx; try discriminate.
    + injection Hx as <-. discriminate.
    + injection Hx as ->. cbn [fully_listed] in Hf. congruence.
  - unfold ascii_listing in Hit. rewrite Hls in Hit. injection Hit as ->.
    destruct p as [n|n [st|e']|n st [ls|e']]; cbn [iterdir] in Hls; try discriminate.
    + now injection Hls as <-.
    + now injection Hls as <-.
    + injection Hls as ->. cbn [fully_listed] in Hf. now destruct e.
Qed.

Lemma len_app {A : Type} (l1 l2 : list A) : len (l1 ++ l2) = len l1 + len l2.
Proof. unfold len. rewrite length_app. lia. Qed.

Lemma len_nonneg {A : Type} (l : list A) : 0 <= len l.
Proof. unfold len. lia. Qed.

(** Arithmetic on the lengths of lists of lines. *)
Ltac len_lia := unfold len, pystr in *; lia.

(** ** Blocks of lines *)

Lemma blocks_of_nil {A : Type} (line : A -> pystr) (leaf : A -> Prop) :
  blocks_of line leaf [] [].
Proof. exists []. split; [reflexivity | constructor]. Qed.

Lemma blocks_of_cons {A : Type} (line : A -> pystr) (leaf : A -> Prop) x under
    entries body :
  (leaf x -> under = []) ->
  blocks_of line leaf entries body ->
  blocks_of line leaf (x :: entries) (line x :: under ++ body).
Proof.
  intros Hu (blocks & -> & Hb). exists ((line x :: under) :: blocks).
  split; [reflexivity|]. constructor; [eauto | exact Hb].
Qed.

(** The line of every entry is in the body. *)
Lemma blocks_of_In {A : Type} (line : A -> pystr) (leaf : A -> Prop) entries body x :
  blocks_of line leaf entries body -> In x entries -> In (line x) body.
Proof.
  intros (blocks & -> & Hb). induction Hb as [|y block entries blocks Hy _ IH];
    [contradiction|].
  destruct Hy as (under & -> & _). cbn [List.concat]. intros [<-|Hin].
  - now left.
  - apply in_or_app. right. now apply IH.
Qed.

(** When every entry is a leaf, the body is the lines of the entries. *)
Lemma blocks_of_leaves {A : Type} (line : A -> pystr) (leaf : A -> Prop) entries body :
  blocks_of line leaf entries body -> Forall leaf entries -> body = map line entries.
Proof.
  intros (blocks & -> & Hb) Hl.
  induction Hb as [|y block entries blocks Hy _ IH]; [reflexivity|].
  apply Forall_cons_iff in Hl. destruct Hl as [Hy' Hl].
  destruct Hy as (under & -> & Hu). rewrite (Hu Hy'). cbn [List.concat map app].
  f_equal. now apply IH.
Qed.

(** The lines of the entries stand in the body in the order of the
    entries. *)
Lemma blocks_of_order {A : Type} (line : A -> pystr) (leaf : A -> Prop) entries body :
  blocks_of line leaf entries body ->
  forall l1 x l2 y l3,
    entries = l1 ++ x :: l2 ++ y :: l3 ->
    exists b1 b2 b3, body = b1 ++ line x :: b2 ++ line y :: b3.
Proof.
  intros (blocks & -> & Hb) l1 x l2 y l3 ->.
  apply Forall2_app_inv_l in Hb. destruct Hb as (k1 & kx & _ & Hb & ->).
  inversion Hb as [|? bx ? ky (ux & -> & _) Hb1]; subst.
  apply Forall2_app_inv_l in Hb1. destruct Hb1 as (k2 & kz & _ & Hb2 & ->).
  inversion Hb2 as [|? by_ ? k3 (uy & -> & _) _]; subst.
  exists (List.concat k1), (ux ++ List.concat k2), (uy ++ List.concat k3).
  rewrite !List.concat_app. cbn [List.concat app]. rewrite !List.concat_app. cbn [List.concat app].
  now rewrite <- !app_assoc.
Qed.

(* ===================================================================== *)
(** * The ASCII and the detailed walk: totals and lines *)
(* ===================================================================== *)

Section AsciiCounts.
Context `{builtins}.
Import Ascii.




(** What a returning call of [build_tree] does to the lines and to the two
    counters: it appends [body], and counts [d] directories and [f]
    files. *)
Definition appended (s s' : state) (body : list pystr) (d f : Z) : Prop :=
  tree_lines s' = tree_lines s ++ body
  /\ total_dirs s' = total_dirs s + d
  /\ total_files s' = total_files s + f
  /\ 0 <= d /\ 0 <= f.

Definition ascii_lines (show_hidden : bool) (max_depth : option Z) (p : path)
  : Prop :=
  forall prefix is_last depth s s',
    build_tree show_hidden max_depth p prefix is_last depth s = Returned s' ->
    exists body d f,
      appended s s' body d f
      /\ d + f <= len body <= 2 * d + f + 1
      /\ (fully_listed p = true -> len body = d + f).

Lemma file_entry_line line item s :
  exists text,
    tree_lines (file_entry line item s) = tree_lines s ++ [text]
    /\ total_dirs (file_entry line item s) = total_dirs s
    /\ total_files (file_entry line item s) = total_files s + 1.
Proof. unfold file_entry. destruct (stat item); cbn; eauto. Qed.

Lemma ascii_loop_lines show_hidden max_depth prefix is_last depth n items :
  Forall (ascii_lines show_hidden max_depth) items ->
  Forall (fun item => is_dir item = Ok (kind_dir item)) items ->
  forall i s s',
    for_each (ascii_visit show_hidden max_depth prefix is_last depth n)
      (enumerate_from i items) s = Returned s' ->
    exists body d f,
      appended s s' body d f
      /\ d + f <= len body <= 2 * d + f
      /\ (Forall (fun x => fully_listed x = true) items -> len body = d + f).
Proof.
  induction 1 as [|item items Hitem _ IH]; intros Hans i s s'.
  - cbn. intros [= <-]. exists [], 0, 0. split; [|split].
    + unfold appended. rewrite app_nil_r. repeat split; lia.
    + change (len (@nil pystr)) with 0. lia.
    + intros _. reflexivity.
  - apply Forall_cons_iff in Hans. destruct Hans as [Hd Hans'].
    cbn [enumerate_from for_each]. destruct (kind_dir item).
    + rewrite ascii_visit_dir by exact Hd.
      match goal with |- context [build_tree ?a ?b ?c ?d ?f ?g ?h] =>
        destruct (build_tree a b c d f g h) as [s1|e1 s1] eqn:E end;
        cbn [bind]; [|discriminate].
      intros Hrest. apply Hitem in E. apply (IH Hans') in Hrest.
      destruct E as (b1 & d1 & f1 & (L1 & D1 & F1 & Hd1 & Hf1) & B1 & Full1).
      destruct Hrest as (b2 & d2 & f2 & (L2 & D2 & F2 & Hd2 & Hf2) & B2 & Full2).
      cbn in L1, D1, F1.
      match type of L1 with _ = (_ ++ [?line]) ++ _ =>
        exists (line :: b1 ++ b2), (1 + d1 + d2), (f1 + f2) end.
      split; [|split].
      * unfold appended. rewrite L2, L1, D2, D1, F2, F1, <- !app_assoc.
        cbn [app]. repeat split; lia.
      * change (len (?x :: b1 ++ b2)) with (len ([x] ++ b1 ++ b2)).
        rewrite !len_app. change (len [_]) with 1. len_lia.
      * intros Hall. inversion Hall as [|? ? Hx Hxs]; subst.
        change (len (?x :: b1 ++ b2)) with (len ([x] ++ b1 ++ b2)).
        rewrite !len_app. change (len [_]) with 1.
        specialize (Full1 Hx). specialize (Full2 Hxs). len_lia.
    + rewrite ascii_visit_file by exact Hd. cbn [bind].
      match goal with |- for_each _ _ ?x = _ -> _ =>
        destruct (file_entry_line
                    (prefix ++ (if i =? 0 then if is_last then corner else tee
                                else if is_last then blank else bar)) item s)
          as (line & L1 & D1 & F1);
        remember x as s1 eqn:Hs1 end.
      intros Hrest. apply (IH Hans') in Hrest.
      destruct Hrest as (b2 & d2 & f2 & (L2 & D2 & F2 & Hd2 & Hf2) & B2 & Full2).
      exists (line :: b2), d2, (1 + f2). split; [|split].
      * unfold appended. rewrite L2, L1, D2, D1, F2, F1, <- !app_assoc.
        cbn [app]. repeat split; lia.
      * change (len (line :: b2)) with (len ([line] ++ b2)).
        rewrite !len_app. change (len [_]) with 1. len_lia.
      * intros Hall. inversion Hall as [|? ? Hx Hxs]; subst.
        change (len (line :: b2)) with (len ([line] ++ b2)).
        rewrite !len_app. change (len [_]) with 1.
        specialize (Full2 Hxs). len_lia.
Qed.

Lemma ascii_lines_all show_hidden max_depth p : ascii_lines show_hidden max_depth p.
Proof.
  induction p as [p IH] using listing_induction.
  intros prefix is_last depth s s'. rewrite build_tree_eq.
  destruct (depth_exceeded max_depth depth).
  { intros [= <-]. exists [], 0, 0. unfold appended. rewrite app_nil_r.
    change (len (@nil pystr)) with 0.
    split; [repeat split; lia | split; [lia | reflexivity]]. }
  destruct (ascii_listing show_hidden p) as [items|e] eqn:Hit; cbn [eval].
  - destruct (ascii_listing_ok _ _ Hit) as (ls & Hls & _ & Hans).
    match goal with |- context [for_each ?b ?l s] =>
      destruct (for_each b l s) as [s1|e1 s1] eqn:E end;
      cbn [try_except_PermissionError].
    + intros [= <-]. apply ascii_loop_lines in E; [| | exact Hans].
      * destruct E as (body & d & f & Happ & Hb & Hfull).
        exists body, d, f. split; [exact Happ|]. split; [lia|].
        intros Hl. apply Hfull.
        destruct (iterdir_ok _ Hls) as (n & st & ->).
        apply fully_listed_entries in Hl.
        apply Forall_forall. intros x Hx.
        apply (ascii_listing_In _ _ x Hls Hit) in Hx.
        rewrite Forall_forall in Hl. apply Hl, Hx.
      * eapply listing_Forall; [exact IH | exact Hit].
    + erewrite ascii_loop_not_permission;
        [discriminate | apply answers_enumerate, Hans | exact E].
  - cbn [try_except_PermissionError].
    destruct (is_PermissionError e) eqn:He; [|discriminate].
    intros [= <-].
    exists [prefix ++ corner ++ u "[Permission Denied]"], 0, 0.
    unfold appended. change (len [_]) with 1.
    split; [cbn; repeat split; lia | split; [lia|]].
    intros Hf. apply (fully_listed_listing _ _ Hf) in Hit. congruence.
Qed.

(** The lines of one level: a block for each entry, in the order of the
    listing; nothing stands under an entry that is not a directory, nor
    under a directory beyond the depth limit. *)
Lemma ascii_loop_blocks show_hidden max_depth prefix is_last depth n items :
  Forall (fun item => is_dir item = Ok (kind_dir item)) items ->
  forall i s s',
    for_each (ascii_visit show_hidden max_depth prefix is_last depth n)
      (enumerate_from i items) s = Returned s' ->
    exists body,
      tree_lines s' = tree_lines s ++ body
      /\ blocks_of (ascii_line show_hidden prefix is_last)
           (fun ix => kind_dir (snd ix) = false
                      \/ depth_exceeded max_depth (depth + 1) = true)
           (enumerate_from i items) body.
Proof.
  induction 1 as [|item items Hd _ IH]; intros i s s'.
  - cbn. intros [= <-]. exists []. split; [now rewrite app_nil_r | apply blocks_of_nil].
  - cbn [enumerate_from for_each]. destruct (kind_dir item) eqn:Hk.
    + rewrite ascii_visit_dir by exact Hd.
      match goal with |- context [build_tree ?a ?b ?c ?d ?f ?g ?h] =>
        destruct (build_tree a b c d f g h) as [s1|e1 s1] eqn:E end;
        cbn [bind]; [|discriminate].
      intros Hrest. apply IH in Hrest. destruct Hrest as (body & L2 & Hb).
      assert (Hu : exists under,
                 tree_lines s1
                 = (tree_lines s ++ [ascii_line show_hidden prefix is_last (i, item)])
                     ++ under
                 /\ (depth_exceeded max_depth (depth + 1) = true -> under = [])).
      { unfold ascii_line. cbn [fst snd]. rewrite Hk. unfold connector_of.
        destruct (depth_exceeded max_depth (depth + 1)) eqn:Hex.
        - rewrite build_tree_eq, Hex in E. injection E as <-.
          exists []. split; [now rewrite app_nil_r | reflexivity].
        - apply ascii_lines_all in E. destruct E as (under & d & f & (L1 & _) & _).
          exists under. split; [exact L1 | discriminate]. }
      destruct Hu as (under & L1 & Hu).
      exists (ascii_line show_hidden prefix is_last (i, item) :: under ++ body).
      split.
      * rewrite L2, L1, <- !app_assoc. reflexivity.
      * apply blocks_of_cons; [|exact Hb]. cbn [snd]. rewrite Hk.
        intros [Hf|Hex]; [discriminate | now apply Hu].
    + rewrite ascii_visit_file by exact Hd. cbn [bind].
      intros Hrest. apply IH in Hrest. destruct Hrest as (body & L2 & Hb).
      exists (ascii_line show_hidden prefix is_last (i, item) :: [] ++ body).
      split.
      * rewrite L2. unfold ascii_line, file_entry, connector_of. cbn [fst snd].
        rewrite Hk. destruct (stat item); cbn [tree_lines append_line add_size incr_files];
          rewrite <- !app_assoc; reflexivity.
      * apply blocks_of_cons; [reflexivity | exact Hb].
Qed.

(** The same for a call of [build_tree] that goes through the entries. *)
Lemma build_tree_blocks show_hidden max_depth p prefix is_last depth s s' items :
  depth_exceeded max_depth depth = false ->
  ascii_listing show_hidden p = Ok items ->
  build_tree show_hidden max_depth p prefix is_last depth s = Returned s' ->
  exists body,
    tree_lines s' = tree_lines s ++ body
    /\ blocks_of (ascii_line show_hidden prefix is_last)
         (fun ix => kind_dir (snd ix) = false
                    \/ depth_exceeded max_depth (depth + 1) = true)
         (enumerate items) body.
Proof.
  intros Hdepth Hit. rewrite build_tree_eq, Hdepth, Hit. cbn [eval].
  destruct (ascii_listing_ok _ _ Hit) as (ls & _ & _ & Hans).
  match goal with |- context [for_each ?b ?l s] =>
    destruct (for_each b l s) as [s1|e1 s1] eqn:E end;
    cbn [try_except_PermissionError].
  - intros [= <-]. apply ascii_loop_blocks in E; [exact E | exact Hans].
  - erewrite ascii_loop_not_permission;
      [discriminate | apply answers_enumerate, Hans | exact E].
Qed.

(** A listing or a sort that raises [PermissionError] leaves one line. *)
Lemma build_tree_denied show_hidden max_depth p prefix is_last depth s :
  depth_exceeded max_depth depth = false ->
  ascii_listing show_hidden p = Raise PermissionError ->
  build_tree show_hidden max_depth p prefix is_last depth s
  = Returned (append_line (prefix ++ corner ++ u "[Permission Denied]") s).
Proof. intros Hdepth Hit. now rewrite build_tree_eq, Hdepth, Hit. Qed.
End AsciiCounts.

Section DetailedCounts.
Context `{builtins}.
Import Detailed.

(** [process_directory] takes a [PermissionError] itself: none leaves it. *)
Lemma process_directory_not_permission show_hidden max_depth p prefix is_last depth s e s' :
  process_directory show_hidden max_depth p prefix is_last depth s = Raised e s' ->
  is_PermissionError e = false.
Proof.
  rewrite process_directory_eq. destruct (depth_exceeded max_depth depth); [discriminate|].
  unfold try_except_PermissionError.
  match goal with |- context [match ?o with Returned _ => _ | Raised _ _ => _ end] =>
    destruct o as [s1|e1 s1] end; [discriminate|].
  destruct (is_PermissionError e1) eqn:E; [discriminate|].
  now intros [= <- _].
Qed.

Lemma detailed_loop_not_permission show_hidden max_depth prefix is_last depth n l :
  Forall (fun ix => is_dir (snd ix) = Ok (kind_dir (snd ix))) l ->
  forall s e s',
    for_each (detailed_visit show_hidden max_depth prefix is_last depth n) l s
    = Raised e s' ->
    is_PermissionError e = false.
Proof.
  induction 1 as [|[i item] l Hd _ IH]; intros s e s'; cbn [for_each]; [discriminate|].
  cbn [snd] in Hd. destruct (kind_dir item).
  - rewrite detailed_visit_dir by exact Hd.
    match goal with |- context [process_directory ?a ?b ?c ?d ?f ?g ?h] =>
      destruct (process_directory a b c d f g h) as [s1|e1 s1] eqn:E end; cbn [bind].
    + apply IH.
    + intros [= <- _]. eapply process_directory_not_permission, E.
  - rewrite detailed_visit_file by exact Hd. cbn [bind]. apply IH.
Qed.




(** A returning call only appends lines. *)
Definition detailed_extends (show_hidden : bool) (max_depth : option Z) (p : path)
  : Prop :=
  forall prefix is_last depth s s',
    process_directory show_hidden max_depth p prefix is_last depth s = Returned s' ->
    exists under, tree_lines s' = tree_lines s ++ under.

Lemma detailed_loop_blocks show_hidden max_depth prefix is_last depth n items :
  Forall (detailed_extends show_hidden max_depth) items ->
  Forall (fun item => is_dir item = Ok (kind_dir item)) items ->
  forall i s s',
    for_each (detailed_visit show_hidden max_depth prefix is_last depth n)
      (enumerate_from i items) s = Returned s' ->
    exists body,
      tree_lines s' = tree_lines s ++ body
      /\ blocks_of (detailed_line show_hidden prefix is_last)
           (fun ix => kind_dir (snd ix) = false
                      \/ depth_exceeded max_depth (depth + 1) = true)
           (enumerate_from i items) body.
Proof.
  induction 1 as [|item items Hitem _ IH]; intros Hans i s s'.
  - cbn. intros [= <-]. exists []. split; [now rewrite app_nil_r | apply blocks_of_nil].
  - apply Forall_cons_iff in Hans. destruct Hans as [Hd Hans'].
    cbn [enumerate_from for_each]. destruct (kind_dir item) eqn:Hk.
    + rewrite detailed_visit_dir by exact Hd.
      match goal with |- context [process_directory ?a ?b ?c ?d ?f ?g ?h] =>
        destruct (process_directory a b c d f g h) as [s1|e1 s1] eqn:E end;
        cbn [bind]; [|discriminate].
      intros Hrest. apply (IH Hans') in Hrest. destruct Hrest as (body & L2 & Hb).
      assert (Hu : exists under,
                 tree_lines s1
                 = (tree_lines s
                      ++ [detailed_line show_hidden prefix is_last (i, item)])
                     ++ under
                 /\ (depth_exceeded max_depth (depth + 1) = true -> under = [])).
      { unfold detailed_line. cbn [fst snd]. rewrite Hk. unfold connector_of.
        rewrite <- !app_assoc.
        destruct (depth_exceeded max_depth (depth + 1)) eqn:Hex.
        - rewrite process_directory_eq, Hex in E. injection E as <-.
          exists []. split; [now rewrite app_nil_r | reflexivity].
        - apply Hitem in E. destruct E as (under & L1).
          exists under. split; [exact L1 | discriminate]. }
      destruct Hu as (under & L1 & Hu).
      exists (detailed_line show_hidden prefix is_last (i, item) :: under ++ body).
      split.
      * rewrite L2, L1, <- !app_assoc. reflexivity.
      * apply blocks_of_cons; [|exact Hb]. cbn [snd]. rewrite Hk.
        intros [Hf|Hex]; [discriminate | now apply Hu].
    + rewrite detailed_visit_file by exact Hd. cbn [bind].
      intros Hrest. apply (IH Hans') in Hrest. destruct Hrest as (body & L2 & Hb).
      exists (detailed_line show_hidden prefix is_last (i, item) :: [] ++ body).
      split.
      * rewrite L2. unfold detailed_line, file_entry, connector_of. cbn [fst snd].
        rewrite Hk. destruct (stat item); cbn [tree_lines append_line add_size incr_files];
          rewrite <- ?app_assoc, ?app_nil_r; reflexivity.
      * apply blocks_of_cons; [reflexivity | exact Hb].
Qed.

Lemma detailed_extends_all show_hidden max_depth p :
  detailed_extends show_hidden max_depth p.
Proof.
  induction p as [p IH] using listing_induction.
  intros prefix is_last depth s s'. rewrite process_directory_eq.
  destruct (depth_exceeded max_depth depth).
  { intros [= <-]. exists []. now rewrite app_nil_r. }
  destruct (ascii_listing show_hidden p) as [items|e] eqn:Hit; cbn [eval].
  - destruct (ascii_listing_ok _ _ Hit) as (ls & Hls & _ & Hans).
    match goal with |- context [for_each ?b ?l s] =>
      destruct (for_each b l s) as [s1|e1 s1] eqn:E end;
      cbn [try_except_PermissionError].
    + intros [= <-]. apply detailed_loop_blocks in E; [| | exact Hans].
      * destruct E as (body & L & _). eauto.
      * eapply listing_Forall; [exact IH | exact Hit].
    + erewrite detailed_loop_not_permission;
        [discriminate | apply answers_enumerate, Hans | exact E].
  - cbn [try_except_PermissionError].
    destruct (is_PermissionError e); [|discriminate].
    intros [= <-]. cbn. eauto.
Qed.

Lemma process_directory_blocks show_hidden max_depth p prefix is_last depth s s' items :
  depth_exceeded max_depth depth = false ->
  ascii_listing show_hidden p = Ok items ->
  process_directory show_hidden max_depth p prefix is_last depth s = Returned s' ->
  exists body,
    tree_lines s' = tree_lines s ++ body
    /\ blocks_of (detailed_line show_hidden prefix is_last)
         (fun ix => kind_dir (snd ix) = false
                    \/ depth_exceeded max_depth (depth + 1) = true)
         (enumerate items) body.
Proof.
  intros Hdepth Hit. rewrite process_directory_eq, Hdepth, Hit. cbn [eval].
  destruct (ascii_listing_ok _ _ Hit) as (ls & _ & _ & Hans).
  match goal with |- context [for_each ?b ?l s] =>
    destruct (for_each b l s) as [s1|e1 s1] eqn:E end;
    cbn [try_except_PermissionError].
  - intros [= <-]. apply detailed_loop_blocks in E; [exact E | | exact Hans].
    apply Forall_forall. intros x _. apply detailed_extends_all.
  - erewrite detailed_loop_not_permission;
      [discriminate | apply answers_enumerate, Hans | exact E].
Qed.
End DetailedCounts.

(* ===================================================================== *)
(** * C9: a file whose [stat()] fails *)
(* ===================================================================== *)





(* ===================================================================== *)
(** * C3: a root that does not exist *)
(* ===================================================================== *)

(** C3, as amended.  The root path does not exist when its [stat()] raises
    an error that [exists()] takes for "no": [FileNotFoundError], or
    [NotADirectoryError] for a path that runs through a regular file.  Then
    the two entry points that test for it, [generate_directory_tree] and
    [generate_ascii_tree], raise [FileNotFoundError] before any line of the
    tree; the detailed, enhanced and rich entry points do not test, and the
    error of the first listing, which is that of [stat()], hence
    [FileNotFoundError] for a path that is not there, leaves them when the
    depth limit lets them list the root; [directory_to_dict], from which the
    JSON and XML documents are made, raises nothing and returns a root
    dictionary of size 0, modified 0, whose only child records an error. *)
Theorem C3_missing_root `{builtins} :
  forall start_path_str now start_path show_hidden max_depth e,
    stat start_path = Raise e ->
    ignore_error e = true ->
    exists_ start_path = Ok false
    /\ Basic.method1_generate_directory_tree start_path max_depth = Raise FileNotFoundError
    /\ Basic.generate_directory_tree start_path_str now start_path max_depth
       = Raise FileNotFoundError
    /\ Ascii.generate_ascii_tree start_path_str now start_path show_hidden max_depth
       = Raise FileNotFoundError
    /\ (depth_exceeded max_depth 0 = false ->
        Detailed.generate_detailed_tree start_path_str start_path show_hidden max_depth
        = Raise e
        /\ Enhanced.generate_enhanced_tree start_path_str now start_path max_depth
           = Raise e)
    /\ (depth_reached max_depth 0 = false ->
        Rich.create_rich_directory_tree start_path max_depth = Raise e
        /\ Method2.create_rich_directory_tree start_path max_depth = Raise e)
    /\ Method5.directory_to_dict max_depth start_path start_path_str 0
       = Ok (PDict (dir_dict (name start_path) start_path_str 0 (PInt 0)
                      (if depth_reached max_depth 0 then [] else [error_entry]))).
Proof.
  intros start_path_str now start_path show_hidden max_depth e Hstat Hi.
  destruct start_path as [n|n [st|e']|n st ls]; cbn [stat] in Hstat;
    try discriminate; injection Hstat as <-.
  2: destruct e'; try discriminate Hi.
  all: split; [reflexivity|]; split; [reflexivity|]; split; [reflexivity|];
    split; [reflexivity|]; split; [|split].
  all: try (intros Hd; split;
            [ unfold Detailed.generate_detailed_tree;
              cbn [Detailed.process_directory]; now rewrite Hd
            | unfold Enhanced.generate_enhanced_tree;
              cbn [Enhanced.build_tree]; now rewrite Hd ]).
  all: try (intros Hd; split;
            [ unfold Rich.create_rich_directory_tree; cbn [Rich.build_tree];
              now rewrite Hd
            | unfold Method2.create_rich_directory_tree; cbn [Method2.build_tree];
              now rewrite Hd ]).
  all: cbn [Method5.directory_to_dict Method5.modified_of exists_];
    now destruct (depth_reached max_depth 0).
Qed.

Lemma C3_missing_root_witness :
  exists_ gone = Ok false
  /\ Basic.method1_generate_directory_tree gone None = Raise FileNotFoundError
  /\ Basic.generate_directory_tree (u "/gone") (u "now") gone None
     = Raise FileNotFoundError
  /\ Ascii.generate_ascii_tree (u "/gone") (u "now") gone false None
     = Raise FileNotFoundError
  /\ Detailed.generate_detailed_tree (u "/gone") gone false None
     = Raise FileNotFoundError
  /\ Enhanced.generate_enhanced_tree (u "/gone") (u "now") gone None
     = Raise FileNotFoundError
  /\ Rich.create_rich_directory_tree gone None = Raise FileNotFoundError
  /\ Method2.create_rich_directory_tree gone None = Raise FileNotFoundError
  /\ Method5.directory_to_dict None gone (u "/gone") 0
     = Ok (PDict (dir_dict (u "gone") (u "/gone") 0 (PInt 0) [error_entry])).
Proof.
  destruct (@C3_missing_root ascii_builtins (u "/gone") (u "now") gone false None
              FileNotFoundError eq_refl eq_refl) as (X & A & B & C & D & E & F).
  destruct (D eq_refl) as [D1 D2]. destruct (E eq_refl) as [E1 E2].
  repeat split; assumption.
Defined.

(** C3 as stated fails for the JSON and XML entry points: on a root that
    does not exist they raise nothing and produce a document. *)
Lemma C3_json_of_missing_root_succeeds :
  Method5.json_tree_dict (u "/gone") (u "now") gone None
  = Ok (PDict
          (dir_dict (u "gone") (u "/gone") 0 (PInt 0) [error_entry]
             ++ [(k_metadata,
                  PDict [(k_generated, PStr (u "now"));
                         (k_source_path, PStr (u "/gone"));
                         (k_max_depth, PNone)])]))
  /\ (exists text, Json.save_tree_json (u "/gone") (u "now") gone None = Ok text)
  /\ (exists root, Method5.save_tree_xml (u "/gone") (u "now") gone None = Ok root).
Proof.
  split; [reflexivity|]. split; eexists; reflexivity.
Qed.

(* ===================================================================== *)
(** * C4: hidden entries *)
(* ===================================================================== *)

Lemma prune_hidden_dir n st ls :
  prune_hidden (Dir n st (Ok ls))
  = Dir n st (Ok (map prune_hidden (filter not_hidden ls))).
Proof.
  cbn [prune_hidden]. do 2 f_equal.
  induction ls as [|x ls IH]; [reflexivity|].
  cbn [filter]. destruct (not_hidden x); cbn [map]; now rewrite IH.
Qed.

Lemma prune_hidden_name p : name (prune_hidden p) = name p.
Proof. destruct p as [n|n st|n st [ls|e]]; reflexivity. Qed.

Lemma prune_hidden_stat p : stat (prune_hidden p) = stat p.
Proof. destruct p as [n|n st|n st [ls|e]]; reflexivity. Qed.

Lemma prune_hidden_kind_dir p : kind_dir (prune_hidden p) = kind_dir p.
Proof. destruct p as [n|n st|n st [ls|e]]; reflexivity. Qed.

Lemma prune_hidden_is_dir p : is_dir (prune_hidden p) = is_dir p.
Proof. destruct p as [n|n st|n st [ls|e]]; reflexivity. Qed.

Lemma prune_hidden_is_file p : is_file (prune_hidden p) = is_file p.
Proof. destruct p as [n|n st|n st [ls|e]]; reflexivity. Qed.

Lemma prune_hidden_exists p : exists_ (prune_hidden p) = exists_ p.
Proof. destruct p as [n|n st|n st [ls|e]]; reflexivity. Qed.

Lemma prune_hidden_not_dir p : kind_dir p = false -> prune_hidden p = p.
Proof. destruct p as [n|n st|n st [ls|e]]; try reflexivity; discriminate. Qed.

Lemma count_prune (pred : path -> result bool) l :
  (forall x, pred (prune_hidden x) = pred x) ->
  count pred (map prune_hidden l) = count pred l.
Proof.
  intros Hp. induction l as [|x l IH]; [reflexivity|].
  cbn [map count]. now rewrite Hp, IH.
Qed.

Lemma path_key_lt_prune `{builtins} x y :
  path_key_lt (prune_hidden x) (prune_hidden y) = path_key_lt x y.
Proof.
  unfold path_key_lt, path_key.
  now rewrite !prune_hidden_kind_dir, !prune_hidden_name.
Qed.

Lemma first_raise_prune l : first_raise (map prune_hidden l) = first_raise l.
Proof.
  induction l as [|x l IH]; [reflexivity|].
  cbn [map first_raise]. now rewrite prune_hidden_is_dir, IH.
Qed.

(** The listing of the pruned tree with [show_hidden] is the listing of the
    tree without it, each entry pruned: the entries that are not shown are
    left out before the sort looks at any of them. *)
Lemma ascii_listing_prune `{builtins} p :
  ascii_listing true (prune_hidden p)
  = match ascii_listing false p with
    | Ok items => Ok (map prune_hidden items)
    | Raise e => Raise e
    end.
Proof.
  destruct p as [n|n [st|e]|n st [ls|e]]; try reflexivity.
  rewrite prune_hidden_dir. unfold ascii_listing. cbn [iterdir negb].
  rewrite !sort_dirs_first_eq, first_raise_prune.
  destruct (first_raise (filter not_hidden ls)); [reflexivity|]. f_equal.
  apply sorted_map. apply path_key_lt_prune.
Qed.

Lemma Forall_enumerate_from {A : Type} (P : A -> Prop) (l : list A) (i : Z) :
  Forall P l -> Forall (fun ix => P (snd ix)) (enumerate_from i l).
Proof.
  intros HF. revert i. induction HF as [|x l Hx _ IH]; intros i; cbn; constructor; auto.
Qed.

(** Every entry listed in or under a pruned tree has a name that does not
    start with the hidden marker. *)
Lemma listed_prune_hidden p q : listed (prune_hidden p) q -> not_hidden q = true.
Proof.
  revert q. induction p as [p IH] using listing_induction. intros q Hq.
  destruct p as [n|n st|n st [ls|e]]; try (now inversion Hq).
  specialize (IH ls eq_refl).
  rewrite prune_hidden_dir in Hq. rewrite Forall_forall in IH.
  inversion Hq as [n' st' ls' q' Hin | n' st' ls' d q' Hin Hd]; subst;
    apply in_map_iff in Hin; destruct Hin as (x & <- & Hx);
    apply filter_In in Hx; destruct Hx as [Hx Hv].
  - destruct x as [m|m st'|m st' [l|e]]; exact Hv.
  - now apply (IH x Hx).
Qed.

Section AsciiHidden.
Context `{builtins}.
Import Ascii.

Lemma dir_annotation_prune item :
  dir_annotation true (prune_hidden item) = dir_annotation false item.
Proof.
  destruct item as [n|n [st|e]|n st [ls|e]]; try reflexivity.
  rewrite prune_hidden_dir. unfold dir_annotation. cbn [iterdir negb name].
  rewrite !count_prune; [reflexivity | apply prune_hidden_is_dir | apply prune_hidden_is_file].
Qed.

Lemma build_tree_prune_hidden max_depth p :
  forall prefix is_last depth s,
    build_tree false max_depth p prefix is_last depth s
    = build_tree true max_depth (prune_hidden p) prefix is_last depth s.
Proof.
  induction p as [p IH] using listing_induction.
  intros prefix is_last depth s. rewrite !build_tree_eq.
  destruct (depth_exceeded max_depth depth); [reflexivity|].
  rewrite ascii_listing_prune.
  destruct (ascii_listing false p) as [items|e] eqn:Hit; cbn [eval]; [|reflexivity].
  destruct (ascii_listing_ok _ _ Hit) as (ls & Hls & _ & Hans).
  assert (HIH : Forall (fun item => forall prefix is_last depth s,
                          build_tree false max_depth item prefix is_last depth s
                          = build_tree true max_depth (prune_hidden item)
                              prefix is_last depth s) items)
    by (eapply listing_Forall; [exact IH | exact Hit]).
  f_equal. rewrite len_map. unfold enumerate.
  rewrite enumerate_from_map, for_each_map.
  apply for_each_ext.
  eapply Forall_impl;
    [|apply (@Forall_enumerate_from path
               (fun item => forall i s,
                    ascii_visit false max_depth prefix is_last depth
                      (len items) (i, item) s
                    = ascii_visit true max_depth prefix is_last depth
                        (len items) (i, prune_hidden item) s))].
  { intros [i item] Hq s'. apply Hq. }
  rewrite Forall_forall in *. intros item Hin i s'.
  pose proof (Hans item Hin) as Hd.
  destruct (kind_dir item) eqn:Hk.
  - rewrite !ascii_visit_dir by (now rewrite ?prune_hidden_is_dir).
    rewrite dir_annotation_prune. apply HIH, Hin.
  - rewrite !ascii_visit_file by (now rewrite ?prune_hidden_is_dir).
    now rewrite (prune_hidden_not_dir _ Hk).
Qed.
End AsciiHidden.

Section DetailedHidden.
Context `{builtins}.
Import Detailed.

Lemma count_info_prune item :
  count_info true (prune_hidden item) = count_info false item.
Proof.
  destruct item as [n|n [st|e]|n st [ls|e]]; try reflexivity.
  rewrite prune_hidden_dir. unfold count_info. cbn [iterdir negb name].
  rewrite !count_prune; [reflexivity | apply prune_hidden_is_dir | apply prune_hidden_is_file].
Qed.

Lemma process_directory_prune_hidden max_depth p :
  forall prefix is_last depth s,
    process_directory false max_depth p prefix is_last depth s
    = process_directory true max_depth (prune_hidden p) prefix is_last depth s.
Proof.
  induction p as [p IH] using listing_induction.
  intros prefix is_last depth s. rewrite !process_directory_eq.
  destruct (depth_exceeded max_depth depth); [reflexivity|].
  rewrite ascii_listing_prune.
  destruct (ascii_listing false p) as [items|e] eqn:Hit; cbn [eval]; [|reflexivity].
  destruct (ascii_listing_ok _ _ Hit) as (ls & Hls & _ & Hans).
  assert (HIH : Forall (fun item => forall prefix is_last depth s,
                          process_directory false max_depth item prefix is_last depth s
                          = process_directory true max_depth (prune_hidden item)
                              prefix is_last depth s) items)
    by (eapply listing_Forall; [exact IH | exact Hit]).
  f_equal. rewrite len_map. unfold enumerate.
  rewrite enumerate_from_map, for_each_map.
  apply for_each_ext.
  eapply Forall_impl;
    [|apply (@Forall_enumerate_from path
               (fun item => forall i s,
                    detailed_visit false max_depth prefix is_last depth
                      (len items) (i, item) s
                    = detailed_visit true max_depth prefix is_last depth
                        (len items) (i, prune_hidden item) s))].
  { intros [i item] Hq s'. apply Hq. }
  rewrite Forall_forall in *. intros item Hin i s'.
  pose proof (Hans item Hin) as Hd.
  destruct (kind_dir item) eqn:Hk.
  - rewrite !detailed_visit_dir by (now rewrite ?prune_hidden_is_dir).
    rewrite count_info_prune, prune_hidden_name. apply HIH, Hin.
  - rewrite !detailed_visit_file by (now rewrite ?prune_hidden_is_dir).
    now rewrite (prune_hidden_not_dir _ Hk).
Qed.
End DetailedHidden.

(** C4, as amended.  The walks that take [show_hidden], the ASCII tree and
    the detailed tree, run with [show_hidden = False] produce the lines and
    the totals of the walk of the tree from which every entry with a name
    starting with ['.'] has been taken out, with all that is under it: no
    such entry is listed and none adds to a count or to the size.  (The
    basic, rich and dictionary walks take no such flag.) *)
Theorem C4_hidden_entries_excluded `{builtins} :
  forall start_path_str now start_path max_depth,
    Ascii.generate_ascii_tree start_path_str now start_path false max_depth
    = Ascii.generate_ascii_tree start_path_str now (prune_hidden start_path) true max_depth
    /\ Detailed.generate_detailed_tree start_path_str start_path false max_depth
       = Detailed.generate_detailed_tree start_path_str (prune_hidden start_path)
           true max_depth
    /\ (forall q, listed (prune_hidden start_path) q ->
                  startswith (name q) hidden_marker = false).
Proof.
  intros start_path_str now start_path max_depth. split; [|split].
  - unfold Ascii.generate_ascii_tree.
    now rewrite prune_hidden_exists, build_tree_prune_hidden.
  - unfold Detailed.generate_detailed_tree.
    now rewrite process_directory_prune_hidden.
  - intros q Hq. apply listed_prune_hidden in Hq.
    unfold not_hidden in Hq. now apply negb_true_iff in Hq.
Qed.

Lemma C4_hidden_entries_excluded_witness :
  startswith (name (file "notes" 3)) hidden_marker = false.
Proof.
  destruct (@C4_hidden_entries_excluded ascii_builtins (u "/root") (u "now")
              with_hidden None) as (_ & _ & Hl).
  apply Hl. apply listed_here. left. reflexivity.
Defined.

(** C4 as stated fails for the walks without the flag: the dictionary of a
    directory with the hidden file [.env] has a node of that name, and its 7
    bytes are in the size of the root. *)
Lemma C4_dictionary_lists_hidden :
  exists d c rest,
    Method5.directory_to_dict None with_hidden (u "/root") 0 = Ok (PDict d)
    /\ children_of d = PDict c :: rest
    /\ get k_name c = Some (PStr (u ".env"))
    /\ startswith (u ".env") hidden_marker = true
    /\ size_of d = 10.
Proof.
  do 3 eexists. split; [reflexivity|]. split; [reflexivity|].
  split; [reflexivity|]. split; reflexivity.
Qed.

(* ===================================================================== *)
(** * C5: the order of siblings *)
(* ===================================================================== *)

Lemma StronglySorted_pair {A : Type} (R : A -> A -> Prop) l1 x l2 y l3 :
  StronglySorted R (l1 ++ x :: l2 ++ y :: l3) -> R x y.
Proof.
  induction l1 as [|z l1 IH]; cbn; intros Hs; apply StronglySorted_inv in Hs.
  - destruct Hs as [_ Hx]. rewrite Forall_forall in Hx.
    apply Hx. apply in_or_app. right. now left.
  - now apply IH.
Qed.

(** The listing of a directory that answers, sorted by a sort that
    answers. *)
Lemma ascii_listing_sorted `{builtins} show_hidden p ls items :
  iterdir p = Ok ls ->
  sort_dirs_first (if negb show_hidden then filter not_hidden ls else ls) = Ok items ->
  ascii_listing show_hidden p = Ok items.
Proof. intros Hls Hs. unfold ascii_listing. now rewrite Hls. Qed.

Section EnhancedFacts.
Context `{builtins}.
Import Enhanced.

Lemma enhanced_build_tree_eq max_depth p prefix is_last depth s :
  build_tree max_depth p prefix is_last depth s =
  if depth_exceeded max_depth depth
  then Returned (append_line (prefix ++ corner ++ depth_limited) s)
  else
    try_except_PermissionError
      (eval (ascii_listing true p) s (fun items =>
         for_each (enhanced_visit max_depth prefix is_last depth (len items))
           (enumerate items) s))
      (fun s =>
         Returned (append_line
                     (prefix ++ corner ++ lock_mark ++ u "[Permission Denied]") s)).
Proof.
  destruct p as [n|n [st|e]|n st [ls|e]]; try reflexivity.
  cbn [build_tree iterdir_calling]. unfold ascii_listing. cbn [iterdir negb].
  destruct (depth_exceeded max_depth depth); [reflexivity|].
  f_equal. rewrite sort_dirs_first_calling_eq.
  destruct (sort_dirs_first ls) as [items|e]; [|reflexivity].
  cbn [eval].
  rewrite len_map. unfold enumerate. rewrite enumerate_from_map, for_each_map.
  apply for_each_ext, Forall_forall. intros [i item] _ s'.
  unfold enhanced_visit. cbn [fst snd].
  destruct (is_dir item) as [[|]|e]; cbn [eval]; try reflexivity.
  now rewrite <- !app_assoc.
Qed.

Lemma enhanced_visit_dir max_depth prefix is_last depth n i item s :
  is_dir item = Ok true ->
  enhanced_visit max_depth prefix is_last depth n (i, item) s
  = build_tree max_depth item
      (prefix ++ (if is_last then blank else bar)) (i =? n - 1) (depth + 1)
      (append_line
         ((prefix ++ (if i =? 0 then (if is_last then corner else tee)
                      else (if is_last then blank else bar)))
            ++ folder_mark ++ dir_annotation item) (incr_dirs s)).
Proof. intros Hd. unfold enhanced_visit. cbn [fst snd]. now rewrite Hd. Qed.

Lemma enhanced_visit_file max_depth prefix is_last depth n i item s :
  is_dir item = Ok false ->
  enhanced_visit max_depth prefix is_last depth n (i, item) s
  = Returned
      (file_entry (prefix ++ (if i =? 0 then (if is_last then corner else tee)
                              else (if is_last then blank else bar))) item s).
Proof. intros Hd. unfold enhanced_visit. cbn [fst snd]. now rewrite Hd. Qed.

(** [build_tree] takes a [PermissionError] itself: none leaves it. *)
Lemma enhanced_not_permission max_depth p prefix is_last depth s e s' :
  build_tree max_depth p prefix is_last depth s = Raised e s' ->
  is_PermissionError e = false.
Proof.
  rewrite enhanced_build_tree_eq.
  destruct (depth_exceeded max_depth depth); [discriminate|].
  unfold try_except_PermissionError.
  match goal with |- context [match ?o with Returned _ => _ | Raised _ _ => _ end] =>
    destruct o as [s1|e1 s1] end; [discriminate|].
  destruct (is_PermissionError e1) eqn:E; [discriminate|].
  now intros [= <- _].
Qed.

Lemma enhanced_loop_not_permission max_depth prefix is_last depth n l :
  Forall (fun ix => is_dir (snd ix) = Ok (kind_dir (snd ix))) l ->
  forall s e s',
    for_each (enhanced_visit max_depth prefix is_last depth n) l s = Raised e s' ->
    is_PermissionError e = false.
Proof.
  induction 1 as [|[i item] l Hd _ IH]; intros s e s'; cbn [for_each]; [discriminate|].
  cbn [snd] in Hd. destruct (kind_dir item).
  - rewrite enhanced_visit_dir by exact Hd.
    match goal with |- context [build_tree ?a ?b ?c ?d ?f ?g] =>
      destruct (build_tree a b c d f g) as [s1|e1 s1] eqn:E end; cbn [bind].
    + apply IH.
    + intros [= <- _]. eapply enhanced_not_permission, E.
  - rewrite enhanced_visit_file by exact Hd. cbn [bind]. apply IH.
Qed.

(** A returning call only appends lines. *)
Definition enhanced_extends (max_depth : option Z) (p : path) : Prop :=
  forall prefix is_last depth s s',
    build_tree max_depth p prefix is_last depth s = Returned s' ->
    exists under, tree_lines s' = tree_lines s ++ under.

Lemma enhanced_loop_blocks max_depth prefix is_last depth n items :
  Forall (enhanced_extends max_depth) items ->
  Forall (fun item => is_dir item = Ok (kind_dir item)) items ->
  forall i s s',
    for_each (enhanced_visit max_depth prefix is_last depth n)
      (enumerate_from i items) s = Returned s' ->
    exists body,
      tree_lines s' = tree_lines s ++ body
      /\ blocks_of (enhanced_line prefix is_last)
           (fun ix => kind_dir (snd ix) = false)
           (enumerate_from i items) body.
Proof.
  induction 1 as [|item items Hitem _ IH]; intros Hans i s s'.
  - cbn. intros [= <-]. exists []. split; [now rewrite app_nil_r | apply blocks_of_nil].
  - apply Forall_cons_iff in Hans. destruct Hans as [Hd Hans'].
    cbn [enumerate_from for_each]. destruct (kind_dir item) eqn:Hk.
    + rewrite enhanced_visit_dir by exact Hd.
      match goal with |- context [build_tree ?a ?b ?c ?d ?f ?g] =>
        destruct (build_tree a b c d f g) as [s1|e1 s1] eqn:E end;
        cbn [bind]; [|discriminate].
      intros Hrest. apply (IH Hans') in Hrest. destruct Hrest as (body & L2 & Hb).
      apply Hitem in E. destruct E as (under & L1).
      exists (enhanced_line prefix is_last (i, item) :: under ++ body).
      split.
      * rewrite L2, L1. unfold enhanced_line, connector_of. cbn [fst snd].
        rewrite Hk. cbn [tree_lines append_line incr_dirs].
        rewrite <- !app_assoc. reflexivity.
      * apply blocks_of_cons; [|exact Hb]. cbn [snd]. rewrite Hk. discriminate.
    + rewrite enhanced_visit_file by exact Hd. cbn [bind].
      intros Hrest. apply (IH Hans') in Hrest. destruct Hrest as (body & L2 & Hb).
      exists (enhanced_line prefix is_last (i, item) :: [] ++ body).
      split.
      * rewrite L2. unfold enhanced_line, file_entry, connector_of. cbn [fst snd].
        rewrite Hk. destruct (stat item); cbn [tree_lines append_line add_size incr_files];
          rewrite <- !app_assoc; reflexivity.
      * apply blocks_of_cons; [reflexivity | exact Hb].
Qed.

Lemma enhanced_extends_all max_depth p : enhanced_extends max_depth p.
Proof.
  induction p as [p IH] using listing_induction.
  intros prefix is_last depth s s'. rewrite enhanced_build_tree_eq.
  destruct (depth_exceeded max_depth depth).
  { intros [= <-]. cbn. eauto. }
  destruct (ascii_listing true p) as [items|e] eqn:Hit; cbn [eval].
  - destruct (ascii_listing_ok _ _ Hit) as (ls & Hls & _ & Hans).
    match goal with |- context [for_each ?b ?l s] =>
      destruct (for_each b l s) as [s1|e1 s1] eqn:E end;
      cbn [try_except_PermissionError].
    + intros [= <-]. apply enhanced_loop_blocks in E; [| | exact Hans].
      * destruct E as (body & L & _). eauto.
      * eapply listing_Forall; [exact IH | exact Hit].
    + erewrite enhanced_loop_not_permission;
        [discriminate | apply answers_enumerate, Hans | exact E].
  - cbn [try_except_PermissionError].
    destruct (is_PermissionError e); [|discriminate].
    intros [= <-]. cbn. eauto.
Qed.

Lemma enhanced_build_tree_blocks max_depth p prefix is_last depth s s' items :
  depth_exceeded max_depth depth = false ->
  ascii_listing true p = Ok items ->
  build_tree max_depth p prefix is_last depth s = Returned s' ->
  exists body,
    tree_lines s' = tree_lines s ++ body
    /\ blocks_of (enhanced_line prefix is_last)
         (fun ix => kind_dir (snd ix) = false) (enumerate items) body.
Proof.
  intros Hdepth Hit. rewrite enhanced_build_tree_eq, Hdepth, Hit. cbn [eval].
  destruct (ascii_listing_ok _ _ Hit) as (ls & _ & _ & Hans).
  match goal with |- context [for_each ?b ?l s] =>
    destruct (for_each b l s) as [s1|e1 s1] eqn:E end;
    cbn [try_except_PermissionError].
  - intros [= <-]. apply enhanced_loop_blocks in E; [exact E | | exact Hans].
    apply Forall_forall. intros x _. apply enhanced_extends_all.
  - erewrite enhanced_loop_not_permission;
      [discriminate | apply answers_enumerate, Hans | exact E].
Qed.
End EnhancedFacts.

Section RichFacts.
Context `{builtins}.

Lemma rich_build_tree_eq max_depth p depth node :
  Rich.build_tree max_depth p depth node =
  if depth_reached max_depth depth
  then Returned (add Rich.depth_limited node)
  else
    try_except_PermissionError
      (eval (ascii_listing true p) node (fun items =>
         for_each (rich_visit max_depth depth) items node))
      (fun node => Returned (add Rich.permission_denied node)).
Proof.
  destruct p as [n|n [st|e]|n st [ls|e]]; try reflexivity.
  cbn [Rich.build_tree iterdir_calling]. unfold ascii_listing. cbn [iterdir negb].
  destruct (depth_reached max_depth depth); [reflexivity|].
  f_equal. rewrite sort_dirs_first_calling_eq.
  destruct (sort_dirs_first ls) as [items|e]; [|reflexivity].
  cbn [eval]. rewrite for_each_map.
  apply for_each_ext, Forall_forall. intros item _ node'. reflexivity.
Qed.


Lemma rich_visit_dir max_depth depth item node :
  is_dir item = Ok true ->
  rich_visit max_depth depth item node
  = under node
      (Rich.build_tree max_depth item (depth + 1) (Tree (Rich.dir_label item) [])).
Proof. intros Hd. unfold rich_visit. now rewrite Hd. Qed.

Lemma rich_visit_file max_depth depth item node :
  is_dir item = Ok false ->
  rich_visit max_depth depth item node
  = Returned (add (Rich.file_label item) node).
Proof. intros Hd. unfold rich_visit. now rewrite Hd. Qed.

Lemma rich_not_permission max_depth p depth node e node' :
  Rich.build_tree max_depth p depth node = Raised e node' ->
  is_PermissionError e = false.
Proof.
  rewrite rich_build_tree_eq.
  destruct (depth_reached max_depth depth); [discriminate|].
  unfold try_except_PermissionError.
  match goal with |- context [match ?o with Returned _ => _ | Raised _ _ => _ end] =>
    destruct o as [s1|e1 s1] end; [discriminate|].
  destruct (is_PermissionError e1) eqn:E; [discriminate|].
  now intros [= <- _].
Qed.

Lemma rich_loop_not_permission max_depth depth items :
  Forall (fun item => is_dir item = Ok (kind_dir item)) items ->
  forall node e node',
    for_each (rich_visit max_depth depth) items node = Raised e node' ->
    is_PermissionError e = false.
Proof.
  induction 1 as [|item items Hd _ IH]; intros node e node'; cbn [for_each];
    [discriminate|].
  destruct (kind_dir item).
  - rewrite rich_visit_dir by exact Hd.
    match goal with |- context [Rich.build_tree ?a ?b ?c ?d] =>
      destruct (Rich.build_tree a b c d) as [s1|e1 s1] eqn:E end;
      destruct node as [l cs]; cbn [under bind].
    + apply IH.
    + intros [= <- _]. eapply rich_not_permission, E.
  - rewrite rich_visit_file by exact Hd. cbn [bind]. apply IH.
Qed.

(** A returning call only adds sub-trees to the node. *)
Definition rich_grows (max_depth : option Z) (p : path) : Prop :=
  forall depth node node',
    Rich.build_tree max_depth p depth node = Returned node' ->
    exists kids, grown node node' kids.

Lemma grown_add label node : grown node (add label node) [Tree label []].
Proof. destruct node as [l cs]. split; reflexivity. Qed.

(** The loop adds one sub-tree for each entry, in the order of the
    entries, under the label of the entry; nothing is under the node of an
    entry that is not a directory. *)
Lemma rich_loop_kids max_depth depth items :
  Forall (rich_grows max_depth) items ->
  Forall (fun item => is_dir item = Ok (kind_dir item)) items ->
  forall node node',
    for_each (rich_visit max_depth depth) items node = Returned node' ->
    exists kids,
      grown node node' kids
      /\ Forall2 (fun item kid =>
                    tree_label kid = rich_label item
                    /\ (kind_dir item = false -> tree_children kid = []))
           items kids.
Proof.
  induction 1 as [|item items Hitem _ IH]; intros Hans node node'.
  - cbn. intros [= <-]. exists []. split; [|constructor].
    split; [reflexivity | now rewrite app_nil_r].
  - apply Forall_cons_iff in Hans. destruct Hans as [Hd Hans'].
    cbn [for_each]. destruct (kind_dir item) eqn:Hk.
    + rewrite rich_visit_dir by exact Hd.
      match goal with |- context [Rich.build_tree ?a ?b ?c ?d] =>
        destruct (Rich.build_tree a b c d) as [dn|e1 dn] eqn:E end;
        destruct node as [l cs]; cbn [under bind]; [|discriminate].
      intros Hrest. apply (IH Hans') in Hrest.
      destruct Hrest as (kids & (Hl & Hc) & HF).
      apply Hitem in E. destruct E as (k1 & Hl1 & _).
      exists (dn :: kids). split; [split|].
      * exact Hl.
      * rewrite Hc. cbn [tree_children]. now rewrite <- app_assoc.
      * constructor; [|exact HF]. unfold rich_label. rewrite Hk.
        split; [exact Hl1 | discriminate].
    + rewrite rich_visit_file by exact Hd. cbn [bind].
      intros Hrest. apply (IH Hans') in Hrest.
      destruct Hrest as (kids & (Hl & Hc) & HF).
      exists (Tree (Rich.file_label item) [] :: kids).
      destruct node as [l cs]. split; [split|].
      * exact Hl.
      * rewrite Hc. cbn [tree_children add]. now rewrite <- app_assoc.
      * constructor; [|exact HF]. unfold rich_label. rewrite Hk.
        split; reflexivity.
Qed.

Lemma rich_grows_all max_depth p : rich_grows max_depth p.
Proof.
  induction p as [p IH] using listing_induction.
  intros depth node node'. rewrite rich_build_tree_eq.
  destruct (depth_reached max_depth depth).
  { intros [= <-]. eexists. apply grown_add. }
  destruct (ascii_listing true p) as [items|e] eqn:Hit; cbn [eval].
  - destruct (ascii_listing_ok _ _ Hit) as (ls & Hls & _ & Hans).
    match goal with |- context [for_each ?b ?l node] =>
      destruct (for_each b l node) as [s1|e1 s1] eqn:E end;
      cbn [try_except_PermissionError].
    + intros [= <-]. apply rich_loop_kids in E; [| | exact Hans].
      * destruct E as (kids & Hg & _). eauto.
      * eapply listing_Forall; [exact IH | exact Hit].
    + erewrite rich_loop_not_permission; [discriminate | exact Hans | exact E].
  - cbn [try_except_PermissionError].
    destruct (is_PermissionError e); [|discriminate].
    intros [= <-]. eexists. apply grown_add.
Qed.

Lemma rich_build_tree_kids max_depth p depth node node' items :
  depth_reached max_depth depth = false ->
  ascii_listing true p = Ok items ->
  Rich.build_tree max_depth p depth node = Returned node' ->
  exists kids,
    grown node node' kids
    /\ Forall2 (fun item kid =>
                  tree_label kid = rich_label item
                  /\ (kind_dir item = false -> tree_children kid = []))
         items kids.
Proof.
  intros Hdepth Hit. rewrite rich_build_tree_eq, Hdepth, Hit. cbn [eval].
  destruct (ascii_listing_ok _ _ Hit) as (ls & _ & _ & Hans).
  match goal with |- context [for_each ?b ?l node] =>
    destruct (for_each b l node) as [s1|e1 s1] eqn:E end;
    cbn [try_except_PermissionError].
  - intros [= <-]. apply rich_loop_kids in E; [exact E | | exact Hans].
    apply Forall_forall. intros x _. apply rich_grows_all.
  - erewrite rich_loop_not_permission; [discriminate | exact Hans | exact E].
Qed.
End RichFacts.

Section DictOrder.
Context `{builtins}.
Import Method5.

Lemma file_entry_child item_str item nm ps n m cs :
  exists n' c,
    file_entry item_str item (dir_dict nm ps n m cs) = dir_dict nm ps n' m (cs ++ [c])
    /\ child_name c = name item /\ child_is_dir c = false.
Proof.
  unfold file_entry. destruct (stat item) as [st|e].
  - do 2 eexists. rewrite dir_dict_append, dir_dict_add_size.
    split; [reflexivity|]. split; reflexivity.
  - do 2 eexists. rewrite dir_dict_append. split; [reflexivity|]. split; reflexivity.
Qed.

(** The loop appends one child per entry, in the order of the entries. *)
Lemma dict_loop_children max_depth ps depth items :
  Forall (fun item => is_dir item = Ok (kind_dir item)) items ->
  forall nm n m cs,
  exists n' cs',
    for_each (dict_visit max_depth ps depth) items (dir_dict nm ps n m cs)
    = Returned (dir_dict nm ps n' m (cs ++ cs'))
    /\ map child_name cs' = map name items
    /\ map child_is_dir cs' = map kind_dir items.
Proof.
  induction 1 as [|item items Hd _ IH]; intros nm n m cs.
  - exists n, []. rewrite app_nil_r. auto.
  - cbn [for_each]. destruct (kind_dir item) eqn:Hk.
    + rewrite dict_visit_dir by exact Hd.
      destruct (directory_to_dict_dir_returns max_depth item
                  (child_str ps (name item)) (depth + 1) Hd) as [v Hv].
      rewrite Hv. apply directory_to_dict_sized in Hv.
      destruct Hv as (k & mc & ccs & -> & _).
      rewrite dir_dict_append, dir_dict_size, dir_dict_add_size. cbn [bind].
      destruct (IH nm (n + k) m
                  (cs ++ [PDict (dir_dict (name item) (child_str ps (name item)) k mc ccs)]))
        as (n' & cs' & -> & Hn & Ht).
      exists n', (PDict (dir_dict (name item) (child_str ps (name item)) k mc ccs) :: cs').
      rewrite <- app_assoc. split; [reflexivity|].
      cbn [map]. rewrite Hn, Ht, Hk. split; reflexivity.
    + rewrite dict_visit_file by exact Hd.
      destruct (file_entry_child (child_str ps (name item)) item nm ps n m cs)
        as (n1 & c & -> & Hc1 & Hc2).
      cbn [bind]. destruct (IH nm n1 m (cs ++ [c])) as (n' & cs' & -> & Hn & Ht).
      exists n', (c :: cs'). rewrite <- app_assoc. split; [reflexivity|].
      cbn [map]. now rewrite Hn, Ht, Hc1, Hc2, Hk.
Qed.

(** The children of the dictionary of a directory that is listed are its
    entries in the order of the sort, when the sort answers, and the one
    error entry when it raises. *)
Lemma directory_to_dict_children max_depth p path_str depth ls d :
  iterdir p = Ok ls ->
  depth_reached max_depth depth = false ->
  directory_to_dict max_depth p path_str depth = Ok (PDict d) ->
  match sort_dirs_first ls with
  | Ok items =>
      map child_name (children_of d) = map name items
      /\ map child_is_dir (children_of d) = map kind_dir items
  | Raise _ => children_of d = [error_entry]
  end.
Proof.
  intros Hls Hdepth. rewrite directory_to_dict_eq, Hdepth.
  unfold ascii_listing. rewrite Hls. cbn [negb].
  destruct (modified_of p) as [m|e]; [|discriminate]. cbv zeta.
  rewrite header_children.
  destruct (sort_dirs_first ls) as [items|e] eqn:Hs; cbn [eval].
  - apply sort_dirs_first_ok in Hs. destruct Hs as [_ Hans].
    destruct (dict_loop_children max_depth path_str depth Hans
                (name p) 0 m []) as (n' & cs' & -> & Hn & Ht).
    intros [= <-]. now split.
  - intros [= <-]. reflexivity.
Qed.
End DictOrder.

Lemma sorted_dirs_first_ordered `{builtins} ls items :
  sort_dirs_first ls = Ok items -> dirs_first_ordered items.
Proof.
  intros Hs. apply sort_dirs_first_ok in Hs. destruct Hs as [-> Hans].
  intros l1 x l2 y l3 E.
  pose proof (sorted_key_lt ls) as Hs. rewrite E in Hs, Hans.
  apply StronglySorted_pair in Hs.
  apply Forall_app in Hans. destruct Hans as [_ Hans].
  apply Forall_cons_iff in Hans. destruct Hans as [Hx Hans].
  apply Forall_app in Hans. destruct Hans as [_ Hans].
  apply Forall_cons_iff in Hans. destruct Hans as [Hy _].
  rewrite Hx, Hy. unfold before, path_key_lt, path_key, key_lt in Hs.
  cbn [fst snd] in Hs.
  destruct (kind_dir x), (kind_dir y); cbn in Hs; split; intros; auto; discriminate.
Qed.

Lemma basic_listing_ordered ls : plainly_ordered (basic_listing ls).
Proof.
  intros l1 x l2 y l3 E.
  assert (Hs : StronglySorted (before (fun x y => str_lt (name x) (name y)))
                 (basic_listing ls)).
  { apply sorted_sorted.
    - intros a b c. apply str_le_trans.
    - intros a b. apply str_lt_asym. }
  rewrite E in Hs. now apply StronglySorted_pair in Hs.
Qed.

(** C5, as amended.  The sort that the ASCII, detailed, enhanced, rich and
    dictionary walks apply to a listing, when the [is_dir()] of every entry
    answers, keeps the entries, puts directories before the other entries
    and orders each group by lower-cased name.  Each of these walks goes
    through the entries in that order: the ASCII, detailed and enhanced
    trees have, for each entry in turn, its line and then the lines under
    it; the rich tree has one node for each entry in turn; the children of
    a dictionary node are the entries in turn, or the one error entry when
    the sort raises.  The basic tree sorts the paths themselves: by name,
    by code point, directories and files mixed. *)
Theorem C5_sibling_order `{builtins} :
  (forall ls items,
      sort_dirs_first ls = Ok items ->
      Permutation ls items /\ dirs_first_ordered items)
  /\ (forall (R : Type) (f : path -> R) ls items,
         sort_dirs_first ls = Ok items ->
         sort_dirs_first_calling (map (fun item => (item, f item)) ls)
         = Ok (map (fun item => (item, f item)) items))
  /\ (forall show_hidden max_depth p prefix is_last depth s s' ls items,
         depth_exceeded max_depth depth = false ->
         iterdir p = Ok ls ->
         sort_dirs_first (if negb show_hidden then filter not_hidden ls else ls)
         = Ok items ->
         Ascii.build_tree show_hidden max_depth p prefix is_last depth s = Returned s' ->
         exists body,
           Ascii.tree_lines s' = Ascii.tree_lines s ++ body
           /\ blocks_of (ascii_line show_hidden prefix is_last)
                (fun ix => kind_dir (snd ix) = false
                           \/ depth_exceeded max_depth (depth + 1) = true)
                (enumerate items) body)
  /\ (forall show_hidden max_depth p prefix is_last depth s s' ls items,
         depth_exceeded max_depth depth = false ->
         iterdir p = Ok ls ->
         sort_dirs_first (if negb show_hidden then filter not_hidden ls else ls)
         = Ok items ->
         Detailed.process_directory show_hidden max_depth p prefix is_last depth s
         = Returned s' ->
         exists body,
           Detailed.tree_lines s' = Detailed.tree_lines s ++ body
           /\ blocks_of (detailed_line show_hidden prefix is_last)
                (fun ix => kind_dir (snd ix) = false
                           \/ depth_exceeded max_depth (depth + 1) = true)
                (enumerate items) body)
  /\ (forall max_depth p prefix is_last depth s s' ls items,
         depth_exceeded max_depth depth = false ->
         iterdir p = Ok ls ->
         sort_dirs_first ls = Ok items ->
         Enhanced.build_tree max_depth p prefix is_last depth s = Returned s' ->
         exists body,
           Enhanced.tree_lines s' = Enhanced.tree_lines s ++ body
           /\ blocks_of (enhanced_line prefix is_last)
                (fun ix => kind_dir (snd ix) = false) (enumerate items) body)
  /\ (forall max_depth p depth node node' ls items,
         depth_reached max_depth depth = false ->
         iterdir p = Ok ls ->
         sort_dirs_first ls = Ok items ->
         Rich.build_tree max_depth p depth node = Returned node' ->
         exists kids,
           grown node node' kids
           /\ Forall2 (fun item kid =>
                         tree_label kid = rich_label item
                         /\ (kind_dir item = false -> tree_children kid = []))
                items kids)
  /\ (forall max_depth p path_str depth ls d,
         iterdir p = Ok ls ->
         depth_reached max_depth depth = false ->
         Method5.directory_to_dict max_depth p path_str depth = Ok (PDict d) ->
         match sort_dirs_first ls with
         | Ok items =>
             map child_name (children_of d) = map name items
             /\ map child_is_dir (children_of d) = map kind_dir items
         | Raise _ => children_of d = [error_entry]
         end)
  /\ (forall (R : Type) (f : path -> R) ls,
         map fst (sorted Basic.path_lt (map (fun item => (item, f item)) ls))
         = basic_listing ls
         /\ Permutation ls (basic_listing ls)
         /\ plainly_ordered (basic_listing ls)).
Proof.
  split; [|split; [|split; [|split; [|split; [|split; [|split]]]]]].
  - intros ls items Hs. split; [|eapply sorted_dirs_first_ordered, Hs].
    apply sort_dirs_first_ok in Hs. destruct Hs as [-> _]. apply sorted_perm.
  - intros R f ls items Hs. now rewrite sort_dirs_first_calling_eq, Hs.
  - intros show_hidden max_depth p prefix is_last depth s s' ls items Hd Hls Hs.
    apply build_tree_blocks; [exact Hd|]. eapply ascii_listing_sorted; eassumption.
  - intros show_hidden max_depth p prefix is_last depth s s' ls items Hd Hls Hs.
    apply process_directory_blocks; [exact Hd|].
    eapply ascii_listing_sorted; eassumption.
  - intros max_depth p prefix is_last depth s s' ls items Hd Hls Hs.
    apply enhanced_build_tree_blocks; [exact Hd|].
    apply (@ascii_listing_sorted _ true p ls items Hls Hs).
  - intros max_depth p depth node node' ls items Hd Hls Hs.
    apply rich_build_tree_kids; [exact Hd|].
    apply (@ascii_listing_sorted _ true p ls items Hls Hs).
  - intros max_depth p path_str depth ls d. apply directory_to_dict_children.
  - intros R f ls. split; [|split].
    + rewrite sorted_path_lt, map_map. cbn [fst]. apply map_id.
    + apply sorted_perm.
    + apply basic_listing_ordered.
Qed.

Lemma C5_sibling_order_witness :
  (Permutation [file "a.txt" 10; directory "B" [file "c.txt" 5]]
     [directory "B" [file "c.txt" 5]; file "a.txt" 10]
   /\ dirs_first_ordered [directory "B" [file "c.txt" 5]; file "a.txt" 10])
  /\ (exists body,
         Ascii.tree_lines scenario_ascii
         = [u "ASCII Tree for: /root"; u "Generated: now"; rule60] ++ body
         /\ blocks_of (ascii_line true [] true)
              (fun ix => kind_dir (snd ix) = false
                         \/ depth_exceeded None (0 + 1) = true)
              (enumerate [directory "B" [file "c.txt" 5]; file "a.txt" 10]) body)
  /\ map child_name (children_of scenario_dict)
     = map name [directory "B" [file "c.txt" 5]; file "a.txt" 10]
  /\ map child_is_dir (children_of scenario_dict)
     = map kind_dir [directory "B" [file "c.txt" 5]; file "a.txt" 10].
Proof.
  destruct (@C5_sibling_order ascii_builtins) as (Hs & _ & Ha & _ & _ & _ & Hd & _).
  split; [|split].
  - apply Hs. reflexivity.
  - apply (Ha true None scenario [] true 0
             (Ascii.mk_state [u "ASCII Tree for: /root"; u "Generated: now"; rule60]
                0 0 0)
             scenario_ascii [file "a.txt" 10; directory "B" [file "c.txt" 5]]);
      reflexivity.
  - apply (Hd None scenario (u "/root") 0
             [file "a.txt" 10; directory "B" [file "c.txt" 5]] scenario_dict);
      reflexivity.
Defined.

(** C5 as stated fails for the basic tree: it lists the file [README]
    before the directory [src]. *)
Lemma C5_basic_tree_lists_file_first :
  Basic.method1_generate_directory_tree project None
  = Ok [u "root/"; tee ++ u "README"; corner ++ u "src"].
Proof. reflexivity. Qed.

(* ===================================================================== *)
(** * C2: the depth limit *)
(* ===================================================================== *)



Section DepthFacts.
Context `{builtins}.





End DepthFacts.




(* ===================================================================== *)
(** * C6: failures during the walk *)
(* ===================================================================== *)




Lemma kinds_known_denied p : kinds_known p = true -> denied_at_worst p = true.
Proof.
  induction p as [p IH] using listing_induction.
  destruct p as [n|n [st|e]|n st [ls|e]]; cbn [kinds_known denied_at_worst]; auto.
  - now intros ->.
  - specialize (IH ls eq_refl). induction IH as [|x l Hx _ IHl]; [auto|].
    intros Hk. apply andb_true_iff in Hk. destruct Hk as [Hk Hl].
    now rewrite (Hx Hk), (IHl Hl).
Qed.


Section AsciiCompletes.
Context `{builtins}.
Import Ascii.


End AsciiCompletes.

(** C6, at the failing inputs.  In [method2] the [stat()] of a file stands
    bare in the loop: for an entry that is gone, or a link to nothing,
    [is_dir()] answers [False], [stat()] raises [FileNotFoundError], no
    handler takes it and the walk is left with it; the rich tree of the
    generator, which wraps [stat()], lists that entry and the next.  For an
    entry whose [stat()] raises [PermissionError] the key of the sort raises
    it first: the handler of the directory takes it, and in [method2], in
    the rich tree and in the ASCII tree alike the directory gets a single
    ['[Permission Denied]'] line and none of its entries is listed. *)
Theorem C6_entry_failure_not_local :
  Method2.create_rich_directory_tree with_ghost None = Raise FileNotFoundError
  /\ Rich.create_rich_directory_tree with_ghost None
     = Ok (Tree (u "[bold bright_blue]root[/bold bright_blue]")
             [Tree (u "[green]ghost[/green] [red](access denied)[/red]") [];
              Tree (u "[green]open[/green] [dim](4 B)[/dim]") []])
  /\ Method2.create_rich_directory_tree with_denied None
     = Ok (Tree (u "[bold blue]root[/bold blue]")
             [Tree (u "[red][Permission Denied][/red]") []])
  /\ Rich.create_rich_directory_tree with_denied None
     = Ok (Tree (u "[bold bright_blue]root[/bold bright_blue]")
             [Tree (u "[red][Permission Denied][/red]") []])
  /\ Ascii.generate_ascii_tree (u "/root") (u "now") with_denied false None
     = Ok denied_ascii.
Proof. repeat split; reflexivity. Qed.

(* ===================================================================== *)
(** * C7: connectors and prefixes *)
(* ===================================================================== *)

(** C7, at the failing input.  The ASCII tree chooses the connector from
    the index of the entry and from the flag of the directory being listed,
    not from the entry being the last of its siblings: of two files the
    first gets the corner and the second no glyph at all; and the prefix of
    [c.txt] under [B] is blank although [B] is not the last sibling.  The
    basic tree gives the tee, the corner and the bar. *)
Theorem C7_ascii_connector_not_by_last_sibling :
  Ascii.generate_ascii_tree (u "/root") (u "now") two_files false None
  = Ok two_files_ascii
  /\ Ascii.generate_ascii_tree (u "/root") (u "now") scenario true None
     = Ok scenario_ascii
  /\ Basic.method1_generate_directory_tree two_files None
     = Ok [u "root/"; tee ++ u "a"; corner ++ u "b"]
  /\ Basic.method1_generate_directory_tree scenario None
     = Ok [u "root/"; tee ++ u "B"; bar ++ corner ++ u "c.txt"; corner ++ u "a.txt"].
Proof. repeat split; reflexivity. Qed.

Section BasicRender.
Import Basic.




End BasicRender.

(* ===================================================================== *)
(** * Reading back what [json.dump] wrote *)
(* ===================================================================== *)

Import Json.

(** ** Strings: [py_scanstring] after [encode_basestring_ascii] *)

Lemma hex_value_digit d : 0 <= d < 16 -> hex_value (hex_digit d) = Some d.
Proof.
  intros Hd.
  assert (E : d = 0 \/ d = 1 \/ d = 2 \/ d = 3 \/ d = 4 \/ d = 5 \/ d = 6 \/ d = 7
              \/ d = 8 \/ d = 9 \/ d = 10 \/ d = 11 \/ d = 12 \/ d = 13 \/ d = 14
              \/ d = 15) by lia.
  repeat (destruct E as [->|E]; [reflexivity|]). now subst.
Qed.

Lemma decode_hex4_hex4 n :
  0 <= n < 0x10000 ->
  decode_hex4 (hex_digit (n / 4096 mod 16)) (hex_digit (n / 256 mod 16))
    (hex_digit (n / 16 mod 16)) (hex_digit (n mod 16)) = Some n.
Proof.
  intros Hn. unfold decode_hex4.
  rewrite !hex_value_digit by (apply Z.mod_pos_bound; lia).
  f_equal. Z.div_mod_to_equations. lia.
Qed.

Lemma lor_high_low a x : 0 <= x < 1024 -> Z.lor (a * 1024) x = a * 1024 + x.
Proof.
  intros Hx.
  assert (Hl : Z.land (a * 1024) x = 0).
  { rewrite <- (Z.mod_small x (2 ^ 10)) by lia.
    rewrite <- (Z.land_ones x 10) by lia.
    rewrite (Z.land_comm x), Z.land_assoc, (Z.land_ones (a * 1024) 10) by lia.
    change (2 ^ 10) with 1024. rewrite Z_mod_mult. reflexivity. }
  rewrite <- Z.lxor_lor by exact Hl. symmetry. now apply Z.add_nocarry_lxor.
Qed.

Lemma surrogate_pair c :
  0x10000 <= c <= 0x10FFFF ->
  let n := c - 0x10000 in
  let s1 := Z.lor 0xD800 (Z.land (Z.shiftr n 10) 0x3FF) in
  let s2 := Z.lor 0xDC00 (Z.land n 0x3FF) in
  0xD800 <= s1 <= 0xDBFF /\ 0xDC00 <= s2 <= 0xDFFF
  /\ 0x10000 + Z.lor (Z.shiftl (s1 - 0xD800) 10) (s2 - 0xDC00) = c.
Proof.
  intros Hc n s1 s2.
  assert (Hn : 0 <= n < 0x100000) by (unfold n; lia).
  assert (H1 : s1 = 0xD800 + n / 1024).
  { unfold s1. rewrite Z.shiftr_div_pow2 by lia.
    change 0x3FF with (Z.ones 10). rewrite Z.land_ones by lia.
    change (2 ^ 10) with 1024.
    rewrite Z.mod_small by (Z.div_mod_to_equations; lia).
    change 0xD800 with (54 * 1024). apply lor_high_low.
    Z.div_mod_to_equations; lia. }
  assert (H2 : s2 = 0xDC00 + n mod 1024).
  { unfold s2. change 0x3FF with (Z.ones 10). rewrite Z.land_ones by lia.
    change (2 ^ 10) with 1024. change 0xDC00 with (55 * 1024).
    apply lor_high_low. apply Z.mod_pos_bound. lia. }
  rewrite H1, H2. split; [Z.div_mod_to_equations; lia|].
  split; [Z.div_mod_to_equations; lia|].
  replace (0xD800 + n / 1024 - 0xD800) with (n / 1024) by lia.
  replace (0xDC00 + n mod 1024 - 0xDC00) with (n mod 1024) by lia.
  rewrite Z.shiftl_mul_pow2 by lia. change (2 ^ 10) with 1024.
  rewrite lor_high_low by (apply Z.mod_pos_bound; lia).
  unfold n in *. Z.div_mod_to_equations. lia.
Qed.

Lemma scanstring_literal c tail :
  0x20 <= c -> c <> 0x22 -> c <> 0x5C ->
  scanstring (c :: tail) = cons_char c (scanstring tail).
Proof.
  intros H1 H2 H3. cbn [scanstring].
  destruct (Z.eqb_spec c 0x22); [contradiction|].
  destruct (Z.eqb_spec c 0x5C); [contradiction|].
  destruct (Z.ltb_spec c 0x20); [lia | reflexivity].
Qed.

Lemma scanstring_backslash_u uni tail :
  0 <= uni < 0x10000 ->
  (is_high_surrogate uni = true -> low_escape_ahead tail = false) ->
  scanstring (backslash_u uni ++ tail) = cons_char uni (scanstring tail).
Proof.
  intros Hu Hahead. unfold backslash_u, hex4. cbn [app scanstring].
  change (0x5C =? 0x22) with false. change (0x5C =? 0x5C) with true.
  change (0x75 =? 0x75) with true. cbv iota.
  rewrite decode_hex4_hex4 by exact Hu.
  fold (is_high_surrogate uni).
  destruct (is_high_surrogate uni) eqn:Hh; [|reflexivity].
  specialize (Hahead eq_refl).
  destruct tail as [|b [|v tail]]; try reflexivity.
  cbn [low_escape_ahead] in Hahead.
  destruct ((b =? 0x5C) && (v =? 0x75)); [|reflexivity].
  cbn [andb] in Hahead.
  destruct tail as [|g1 [|g2 [|g3 [|g4 tail]]]]; try discriminate.
  destruct (decode_hex4 g1 g2 g3 g4) as [uni2|]; [|discriminate].
  fold (is_low_surrogate uni2). now rewrite Hahead.
Qed.

Lemma scanstring_surrogate_pair c tail :
  0x10000 <= c <= 0x10FFFF ->
  scanstring (escape_char c ++ tail) = cons_char c (scanstring tail).
Proof.
  intros Hc. destruct (surrogate_pair Hc) as (H1 & H2 & H3).
  unfold escape_char.
  repeat match goal with
         | |- context [c =? ?k] => destruct (Z.eqb_spec c k); [lia|]
         end.
  destruct (Z.leb_spec c 0x7E); [lia|]. rewrite andb_false_r.
  destruct (Z.ltb_spec c 0x10000); [lia|].
  cbv zeta.
  set (s1 := Z.lor 0xD800 (Z.land (Z.shiftr (c - 0x10000) 10) 0x3FF)) in *.
  set (s2 := Z.lor 0xDC00 (Z.land (c - 0x10000) 0x3FF)) in *.
  unfold backslash_u, hex4. cbn [app scanstring].
  change (0x5C =? 0x22) with false. change (0x5C =? 0x5C) with true.
  change (0x75 =? 0x75) with true. cbv iota. cbn [andb].
  rewrite decode_hex4_hex4 by lia.
  replace ((0xD800 <=? s1) && (s1 <=? 0xDBFF)) with true
    by (symmetry; apply andb_true_iff; split; apply Z.leb_le; lia).
  rewrite decode_hex4_hex4 by lia.
  replace ((0xDC00 <=? s2) && (s2 <=? 0xDFFF)) with true
    by (symmetry; apply andb_true_iff; split; apply Z.leb_le; lia).
  now rewrite H3.
Qed.

Lemma scanstring_escape c tail :
  0 <= c <= 0x10FFFF ->
  (is_high_surrogate c = true -> low_escape_ahead tail = false) ->
  scanstring (escape_char c ++ tail) = cons_char c (scanstring tail).
Proof.
  intros Hc Hahead.
  destruct (Z.ltb_spec c 0x10000) as [Hlt|Hge];
    [|apply scanstring_surrogate_pair; lia].
  unfold escape_char.
  repeat match goal with
         | |- context [c =? ?k] => destruct (Z.eqb_spec c k); [subst; reflexivity|]
         end.
  destruct ((0x20 <=? c) && (c <=? 0x7E)) eqn:Hprint.
  - apply andb_true_iff in Hprint. destruct Hprint as [Hlo _].
    apply Z.leb_le in Hlo. now apply scanstring_literal.
  - destruct (Z.ltb_spec c 0x10000); [|lia].
    apply scanstring_backslash_u; [lia | exact Hahead].
Qed.

Lemma low_escape_ahead_quote rest : low_escape_ahead (0x22 :: rest) = false.
Proof. destruct rest; reflexivity. Qed.

Lemma low_escape_ahead_escape d tail :
  0 <= d <= 0x10FFFF -> is_low_surrogate d = false ->
  low_escape_ahead (escape_char d ++ tail) = false.
Proof.
  intros Hd Hlow. unfold escape_char.
  repeat match goal with
         | |- context [d =? ?k] => destruct (Z.eqb_spec d k); [subst; reflexivity|]
         end.
  destruct ((0x20 <=? d) && (d <=? 0x7E)) eqn:Hprint.
  - cbn [app]. destruct tail as [|v tail]; [reflexivity|].
    cbn [low_escape_ahead]. destruct (Z.eqb_spec d 0x5C); [contradiction | reflexivity].
  - destruct (Z.ltb_spec d 0x10000) as [Hlt|Hge].
    + unfold backslash_u, hex4. cbn [app low_escape_ahead].
      rewrite decode_hex4_hex4 by lia. exact Hlow.
    + destruct (@surrogate_pair d) as (H1 & H2 & H3); [lia|].
      cbv zeta. unfold backslash_u, hex4. cbn [app low_escape_ahead].
      rewrite decode_hex4_hex4 by lia.
      change (0x5C =? 0x5C) with true. change (0x75 =? 0x75) with true. cbn [andb].
      unfold is_low_surrogate. apply andb_false_iff. left. apply Z.leb_gt. lia.
Qed.

Lemma wf_str_cons c s :
  wf_str (c :: s) = true ->
  0 <= c <= 0x10FFFF
  /\ (is_high_surrogate c = true ->
      match s with d :: _ => is_low_surrogate d = false | [] => True end)
  /\ wf_str s = true.
Proof.
  cbn [wf_str]. rewrite !andb_true_iff, negb_true_iff, !Z.leb_le.
  intros [[[H0 H1] Hp] Hs]. repeat split; auto.
  intros Hh. rewrite Hh in Hp. cbn [andb] in Hp. destruct s; [exact I | exact Hp].
Qed.

(** The decoder reads an encoded string back. *)
Lemma scanstring_encoded s rest :
  wf_str s = true ->
  scanstring (flat_map escape_char s ++ 0x22 :: rest) = Some (s, rest).
Proof.
  induction s as [|c s IH]; intros Hwf.
  - reflexivity.
  - apply wf_str_cons in Hwf. destruct Hwf as (Hc & Hpair & Hs).
    cbn [flat_map]. rewrite <- app_assoc, scanstring_escape, IH; auto.
    intros Hh. specialize (Hpair Hh). destruct s as [|d s].
    + apply low_escape_ahead_quote.
    + apply wf_str_cons in Hs. cbn [flat_map]. rewrite <- app_assoc.
      apply low_escape_ahead_escape; [tauto | exact Hpair].
Qed.

Lemma encode_basestring_ascii_app s rest :
  encode_basestring_ascii s ++ rest
  = 0x22 :: flat_map escape_char s ++ 0x22 :: rest.
Proof.
  unfold encode_basestring_ascii. cbn [app]. now rewrite <- app_assoc.
Qed.

Lemma scan_once_string `{builtins} fuel s rest :
  wf_str s = true ->
  scan_once (S fuel) (encode_basestring_ascii s ++ rest) = Some (PStr s, rest).
Proof.
  intros Hwf. rewrite encode_basestring_ascii_app. cbn [scan_once].
  change (0x22 =? 0x22) with true. cbv iota.
  now rewrite scanstring_encoded.
Qed.

(** ** Numbers: [NUMBER_RE] after [int.__repr__] and [float.__repr__] *)

Lemma delimited_cases rest :
  delimited rest = true ->
  rest = [] \/ exists c r, rest = c :: r /\ (c = 0x2C \/ c = 0x0A).
Proof.
  destruct rest as [|c r]; [now left|]. cbn. intros Hc. right. exists c, r.
  split; [reflexivity|]. apply orb_true_iff in Hc. rewrite !Z.eqb_eq in Hc. exact Hc.
Qed.

Lemma delimited_digit_free rest : delimited rest = true -> digit_free rest = true.
Proof.
  intros Hr. destruct (delimited_cases _ Hr) as [->|(c & r & -> & [->| ->])]; reflexivity.
Qed.

Lemma scan_digits_digits d rest :
  digit_free rest = true ->
  scan_digits (digits_of_uint d ++ rest) = (digits_of_uint d, rest).
Proof.
  intros Hr. induction d; cbn [digits_of_uint app scan_digits];
    try (change (is_digit _) with true; cbv iota; now rewrite IHd).
  destruct rest as [|c r]; [reflexivity|]. cbn [scan_digits].
  cbn [digit_free] in Hr. apply negb_true_iff in Hr. now rewrite Hr.
Qed.

Lemma uint_of_digits d : fold_right cons_digit Decimal.Nil (digits_of_uint d) = d.
Proof. induction d; cbn; now rewrite ?IHd. Qed.

Lemma to_uint_head p :
  exists c ds, digits_of_uint (Pos.to_uint p) = c :: ds
               /\ is_digit c = true /\ c <> 0x30 /\ c <> 0x2D.
Proof.
  pose proof (DecimalPos.Unsigned.to_uint_nonzero p) as Hnz.
  pose proof (DecimalPos.Unsigned.to_uint_nonnil p) as Hnn.
  assert (Hu : Decimal.unorm (Pos.to_uint p) = Pos.to_uint p).
  { rewrite <- (DecimalPos.Unsigned.to_of (Pos.to_uint p)).
    now rewrite DecimalPos.Unsigned.of_to. }
  destruct (Pos.to_uint p) as [|d|d|d|d|d|d|d|d|d|d] eqn:E;
    try (do 2 eexists; split; [reflexivity|]; repeat split; discriminate).
  - contradiction.
  - exfalso. rewrite DecimalFacts.unorm_D0 in Hu.
    unfold Decimal.unorm in Hu.
    destruct (Decimal.nzhead d) eqn:En;
      try (apply (DecimalFacts.nzhead_nonzero d d); congruence).
Qed.

Lemma scan_integer_int n rest :
  digit_free rest = true ->
  scan_integer (str_of_int n ++ rest) = Some (str_of_int n, rest).
Proof.
  intros Hr. unfold str_of_int. destruct n as [|p|p]; cbn [Z.to_int].
  - reflexivity.
  - destruct (to_uint_head p) as (c & ds & E & Hd & H0 & Hm).
    pose proof (scan_digits_digits (Pos.to_uint p) rest Hr) as Hs.
    rewrite E in *. cbn [app scan_digits] in Hs. rewrite Hd in Hs.
    unfold scan_integer. cbn [app].
    destruct (Z.eqb_spec c 0x2D); [contradiction|].
    destruct (Z.eqb_spec c 0x30); [contradiction|].
    rewrite Hd. destruct (scan_digits (ds ++ rest)) as [ds' r].
    now injection Hs as -> ->.
  - destruct (to_uint_head p) as (c & ds & E & Hd & H0 & Hm).
    pose proof (scan_digits_digits (Pos.to_uint p) rest Hr) as Hs.
    rewrite E in *. cbn [app scan_digits] in Hs. rewrite Hd in Hs.
    unfold scan_integer. cbn [app].
    change (0x2D =? 0x2D) with true. cbv iota.
    destruct (Z.eqb_spec c 0x30); [contradiction|].
    rewrite Hd. destruct (scan_digits (ds ++ rest)) as [ds' r].
    now injection Hs as -> ->.
Qed.

Lemma int_of_str_int n : int_of_str (str_of_int n) = n.
Proof.
  unfold int_of_str, str_of_int. destruct n as [|p|p]; cbn [Z.to_int].
  - reflexivity.
  - destruct (to_uint_head p) as (c & ds & E & Hd & H0 & Hm).
    rewrite E. destruct (Z.eqb_spec c 0x2D); [contradiction|].
    rewrite <- E. unfold int_of_digits. rewrite uint_of_digits.
    unfold Z.of_uint. now rewrite DecimalPos.Unsigned.of_to.
  - change (0x2D =? 0x2D) with true. cbv iota.
    unfold int_of_digits. rewrite uint_of_digits.
    unfold Z.of_uint. now rewrite DecimalPos.Unsigned.of_to.
Qed.

Lemma scan_frac_delimited rest : delimited rest = true -> scan_frac rest = ([], rest).
Proof.
  intros Hr. destruct (delimited_cases _ Hr) as [->|(c & r & -> & [->| ->])]; reflexivity.
Qed.

Lemma scan_exp_delimited rest : delimited rest = true -> scan_exp rest = ([], rest).
Proof.
  intros Hr. destruct (delimited_cases _ Hr) as [->|(c & r & -> & [->| ->])]; reflexivity.
Qed.

Section WithBuiltins.
Context `{builtins}.

Lemma scan_number_int n rest :
  delimited rest = true ->
  scan_number (str_of_int n ++ rest) = Some (PInt n, rest).
Proof.
  intros Hr. unfold scan_number.
  rewrite scan_integer_int by (now apply delimited_digit_free).
  rewrite scan_frac_delimited, scan_exp_delimited by exact Hr.
  pose proof (int_of_str_int n) as Hn. unfold int_of_str in Hn.
  now rewrite Hn.
Qed.
End WithBuiltins.

Lemma scan_digits_app s rest :
  delimited rest = true ->
  scan_digits (s ++ rest) = (fst (scan_digits s), snd (scan_digits s) ++ rest).
Proof.
  intros Hr. induction s as [|c s IH]; cbn [app scan_digits].
  - destruct (delimited_cases _ Hr) as [->|(c & r & -> & [->| ->])]; reflexivity.
  - destruct (is_digit c); [|reflexivity].
    rewrite IH. now destruct (scan_digits s).
Qed.

Lemma scan_digits_split s : fst (scan_digits s) ++ snd (scan_digits s) = s.
Proof.
  induction s as [|c s IH]; cbn [scan_digits]; [reflexivity|].
  destruct (is_digit c); [|reflexivity].
  destruct (scan_digits s); cbn in *. now rewrite IH.
Qed.

Lemma scan_integer_app s rest i r :
  delimited rest = true ->
  scan_integer s = Some (i, r) ->
  scan_integer (s ++ rest) = Some (i, r ++ rest) /\ i ++ r = s.
Proof.
  intros Hr. unfold scan_integer.
  assert (Hbody : forall sign s1,
             match s1 with
             | c :: s2 =>
                 if c =? 0x30 then Some (sign ++ [c], s2)
                 else if is_digit c
                      then let (ds, r) := scan_digits s2 in Some (sign ++ c :: ds, r)
                      else None
             | [] => None
             end = Some (i, r) ->
             match s1 ++ rest with
             | c :: s2 =>
                 if c =? 0x30 then Some (sign ++ [c], s2)
                 else if is_digit c
                      then let (ds, r) := scan_digits s2 in Some (sign ++ c :: ds, r)
                      else None
             | [] => None
             end = Some (i, r ++ rest) /\ i ++ r = sign ++ s1).
  { intros sign [|c s2]; [discriminate|]. cbn [app].
    destruct (c =? 0x30).
    - intros [= <- <-]. split; [reflexivity|]. now rewrite <- app_assoc.
    - destruct (is_digit c); [|discriminate].
      rewrite (@scan_digits_app s2 rest Hr). pose proof (scan_digits_split s2) as Hs.
      destruct (scan_digits s2) as [ds r']. cbn [fst snd] in *.
      intros [= <- <-]. split; [reflexivity|].
      rewrite <- app_assoc. cbn [app]. now rewrite Hs. }
  destruct s as [|c s'].
  - discriminate.
  - cbn [app]. destruct (c =? 0x2D) eqn:Ec.
    + apply Z.eqb_eq in Ec. subst c. intros Hi.
      destruct (Hbody [0x2D] s' Hi) as [H1 H2]. now split.
    + intros Hi. destruct (Hbody [] (c :: s') Hi) as [H1 H2]. now split.
Qed.

Lemma scan_frac_app s rest :
  delimited rest = true ->
  scan_frac (s ++ rest) = (fst (scan_frac s), snd (scan_frac s) ++ rest)
  /\ fst (scan_frac s) ++ snd (scan_frac s) = s.
Proof.
  intros Hr. destruct s as [|c s'].
  - cbn [app]. rewrite scan_frac_delimited by exact Hr. now split.
  - cbn [app scan_frac]. destruct (c =? 0x2E); [|now split].
    rewrite (@scan_digits_app s' rest Hr). pose proof (scan_digits_split s') as Hs.
    destruct (scan_digits s') as [[|d ds] r]; cbn [fst snd] in *; [now split|].
    split; [reflexivity|]. now rewrite <- Hs.
Qed.

Lemma scan_exp_app s rest :
  delimited rest = true ->
  scan_exp (s ++ rest) = (fst (scan_exp s), snd (scan_exp s) ++ rest)
  /\ fst (scan_exp s) ++ snd (scan_exp s) = s.
Proof.
  intros Hr. destruct s as [|c s'].
  - cbn [app]. rewrite scan_exp_delimited by exact Hr. now split.
  - cbn [app scan_exp]. destruct ((c =? 0x65) || (c =? 0x45)); [|now split].
    destruct s' as [|g s''].
    + cbn [app]. destruct (delimited_cases _ Hr) as [->|(c' & r & -> & [->| ->])];
        now split.
    + cbn [app]. destruct ((g =? 0x2D) || (g =? 0x2B)).
      * rewrite (@scan_digits_app s'' rest Hr). pose proof (scan_digits_split s'') as Hs.
        destruct (scan_digits s'') as [[|d ds] r]; cbn [fst snd] in *; [now split|].
        split; [reflexivity|]. now rewrite <- Hs.
      * change (g :: s'' ++ rest) with ((g :: s'') ++ rest).
        rewrite (@scan_digits_app (g :: s'') rest Hr).
        pose proof (scan_digits_split (g :: s'')) as Hs.
        destruct (scan_digits (g :: s'')) as [[|d ds] r]; cbn [fst snd] in *;
          [now split|].
        split; [reflexivity|]. now rewrite <- Hs.
Qed.

Section FloatFacts.
Context `{float_laws}.

Lemma scan_number_float x rest :
  finite x = true -> delimited rest = true ->
  scan_number (float_repr x ++ rest) = Some (PFloat x, rest).
Proof.
  intros Hx Hr. pose proof (float_repr_literal x Hx) as Hlit.
  pose proof (float_of_repr x Hx) as Hback.
  unfold is_float_literal in Hlit. unfold scan_number.
  destruct (scan_integer (float_repr x)) as [[i s1]|] eqn:Ei; [|discriminate].
  destruct (@scan_integer_app _ rest _ _ Hr Ei) as [-> Hi].
  destruct (@scan_frac_app s1 rest Hr) as [-> Hf].
  destruct (scan_frac s1) as [f s2]. cbn [fst snd] in *.
  destruct (@scan_exp_app s2 rest Hr) as [-> He].
  destruct (scan_exp s2) as [e s3]. cbn [fst snd] in *.
  destruct s3 as [|? ?]; [|discriminate]. rewrite app_nil_r in He.
  assert (Hlex : i ++ f ++ e = float_repr x) by (now rewrite He, Hf).
  destruct f as [|? ?], e as [|? ?]; try discriminate; cbn [app];
    now rewrite <- Hback, <- Hlex.
Qed.
End FloatFacts.

(** ** Well-formed values *)

(** Induction on a value with the hypothesis for the elements of a list
    and the values of a dictionary. *)
Fixpoint pyval_induction (P : pyval -> Prop)
    (HN : P PNone) (HB : forall b, P (PBool b)) (HI : forall n, P (PInt n))
    (HF : forall x, P (PFloat x)) (HS : forall s, P (PStr s))
    (HL : forall l, Forall P l -> P (PList l))
    (HD : forall d, Forall (fun kv => P (snd kv)) d -> P (PDict d))
    (v : pyval) {struct v} : P v :=
match v with
| PNone => HN
| PBool b => HB b
| PInt n => HI n
| PFloat x => HF x
| PStr s => HS s
| PList l =>
    HL l ((fix all (l : list pyval) : Forall P l :=
             match l with
             | [] => Forall_nil P
             | x :: l' =>
                 Forall_cons x (pyval_induction HN HB HI HF HS HL HD x) (all l')
             end) l)
| PDict d =>
    HD d ((fix all (d : list (pystr * pyval)) : Forall (fun kv => P (snd kv)) d :=
             match d with
             | [] => Forall_nil _
             | kv :: d' =>
                 Forall_cons kv (pyval_induction HN HB HI HF HS HL HD (snd kv)) (all d')
             end) d)
end.

Lemma wf_val_list x l :
  wf_val (PList (x :: l)) = wf_val x && wf_val (PList l).
Proof. reflexivity. Qed.

Lemma wf_val_dict_values k v d :
  wf_val (PDict ((k, v) :: d)) = true ->
  wf_str k = true /\ wf_val v = true /\ wf_val (PDict d) = true.
Proof.
  cbn [wf_val map fst keys_distinct]. rewrite !andb_true_iff.
  intros [[_ Hk] [[Hs Hv] Hd]]. repeat split; auto.
Qed.

Lemma wf_val_dict_keys d : wf_val (PDict d) = true -> keys_distinct (map fst d) = true.
Proof. cbn [wf_val]. now intros H%andb_true_iff. Qed.

(** ** [dict(pairs)] of distinct keys *)

Lemma setitem_fresh k v d :
  existsb (str_eqb k) (map fst d) = false -> setitem k v d = d ++ [(k, v)].
Proof.
  induction d as [|[k' v'] d IH]; cbn [setitem map fst existsb app]; [reflexivity|].
  intros Hk. apply orb_false_iff in Hk. destruct Hk as [Hk Hd].
  assert (E : str_eqb k' k = false).
  { destruct (str_eqb k' k) eqn:E; [|reflexivity].
    apply str_eqb_eq in E. subst. now rewrite str_eqb_refl in Hk. }
  now rewrite E, IH.
Qed.

Lemma dict_of_pairs_distinct pairs :
  keys_distinct (map fst pairs) = true -> Json.dict_of_pairs pairs = pairs.
Proof.
  unfold Json.dict_of_pairs.
  assert (Hgen : forall acc,
             keys_distinct (map fst (acc ++ pairs)) = true ->
             fold_left (fun d kv => setitem (fst kv) (snd kv) d) pairs acc = acc ++ pairs).
  { induction pairs as [|[k v] pairs IH]; intros acc Hk; cbn [fold_left fst snd].
    - now rewrite app_nil_r.
    - rewrite setitem_fresh.
      + rewrite IH; rewrite <- app_assoc; [reflexivity | exact Hk].
      + clear IH. induction acc as [|[k' v'] acc IHa]; [reflexivity|].
        cbn [app map fst keys_distinct existsb] in *.
        apply andb_true_iff in Hk. destruct Hk as [Hk' Hk].
        rewrite (IHa Hk), orb_false_r.
        apply negb_true_iff in Hk'. rewrite map_app, existsb_app in Hk'.
        apply orb_false_iff in Hk'. destruct Hk' as [_ Hk'].
        cbn in Hk'. apply orb_false_iff in Hk'. destruct Hk' as [Hk' _].
        destruct (str_eqb k k') eqn:E; [|reflexivity].
        apply str_eqb_eq in E. subst. now rewrite str_eqb_refl in Hk'. }
  intros Hk. now apply (Hgen []).
Qed.

(** ** The text of lists and dictionaries *)

Section EncodingFacts.
Context `{builtins}.

Lemma iterencode_list x l level :
  iterencode (PList (x :: l)) level
  = [0x5B] ++ newline_indent (S level) ++ iterencode x (S level)
      ++ encode_items level l ++ newline_indent level ++ [0x5D].
Proof.
  cbn [iterencode]. do 3 f_equal. f_equal.
  induction l as [|y l IH]; [reflexivity|].
  cbn [encode_items flat_map]. rewrite <- !app_assoc. do 3 f_equal. exact IH.
Qed.

Lemma iterencode_dict k v d level :
  iterencode (PDict ((k, v) :: d)) level
  = [0x7B] ++ newline_indent (S level) ++ encode_member level (k, v)
      ++ encode_members level d ++ newline_indent level ++ [0x7D].
Proof.
  cbn [iterencode]. unfold encode_member. cbn [fst snd].
  rewrite <- !app_assoc. do 5 f_equal. f_equal.
  induction d as [|[k' v'] d IH]; [reflexivity|].
  cbn [encode_members flat_map]. unfold encode_member. cbn [fst snd].
  rewrite <- !app_assoc. do 5 f_equal. exact IH.
Qed.

Lemma skip_ws_newline_indent level s :
  skip_ws (newline_indent level ++ s) = skip_ws s.
Proof.
  unfold newline_indent. cbn [app skip_ws]. change (is_ws 0x0A) with true. cbv iota.
  induction (2 * level)%nat as [|n IH]; [reflexivity|]. exact IH.
Qed.

Lemma skip_ws_starts_value s : starts_value s = true -> skip_ws s = s.
Proof.
  destruct s as [|c s]; [discriminate|]. cbn.
  intros Hc. apply andb_true_iff in Hc. destruct Hc as [Hc _].
  apply negb_true_iff in Hc. now rewrite Hc.
Qed.

Lemma starts_number_value s : starts_number s = true -> starts_value s = true.
Proof.
  destruct s as [|c s]; [discriminate|]. cbn. unfold is_digit, is_ws.
  intros Hc. apply orb_true_iff in Hc.
  rewrite andb_true_iff, !negb_true_iff, !orb_false_iff, !Z.eqb_neq.
  destruct Hc as [Hc|Hc].
  - apply Z.eqb_eq in Hc. lia.
  - apply andb_true_iff in Hc. rewrite !Z.leb_le in Hc. lia.
Qed.

Lemma scan_integer_starts_number s r : scan_integer s = Some r -> starts_number s = true.
Proof.
  unfold scan_integer. destruct s as [|c s]; [discriminate|].
  cbn [starts_number]. destruct (c =? 0x2D); [reflexivity|].
  cbn [orb]. destruct (c =? 0x30) eqn:E.
  - apply Z.eqb_eq in E. now subst.
  - destruct (is_digit c); [reflexivity | discriminate].
Qed.

Lemma starts_number_app s rest : starts_number s = true -> starts_number (s ++ rest) = true.
Proof. destruct s; [discriminate | auto]. Qed.

Lemma starts_value_app s rest : starts_value s = true -> starts_value (s ++ rest) = true.
Proof. destruct s; [discriminate | auto]. Qed.

Lemma str_of_int_starts_number n : starts_number (str_of_int n) = true.
Proof.
  apply scan_integer_starts_number with (r := (str_of_int n, [])).
  rewrite <- (app_nil_r (str_of_int n)) at 1. now apply scan_integer_int.
Qed.

(** A number goes to [NUMBER_RE]. *)
Lemma scan_once_number fuel s r :
  starts_number s = true -> scan_number s = Some r -> scan_once (S fuel) s = Some r.
Proof.
  destruct s as [|c s]; [discriminate|]. cbn [starts_number]. unfold is_digit.
  intros Hc Hn. cbn [scan_once].
  assert (Hcases : c = 0x2D \/ 0x30 <= c <= 0x39).
  { apply orb_true_iff in Hc. destruct Hc as [Hc|Hc].
    - left. now apply Z.eqb_eq.
    - right. apply andb_true_iff in Hc. now rewrite !Z.leb_le in Hc. }
  repeat match goal with
         | |- context [c =? ?k] => destruct (Z.eqb_spec c k); [lia|]
         end.
  now rewrite Hn.
Qed.
End EncodingFacts.

(** ** The round trip *)

Section RoundTrip.
Context `{float_laws}.

Lemma floatstr_finite x : finite x = true -> floatstr x = float_repr x.
Proof. unfold floatstr. now intros ->. Qed.

Lemma float_repr_starts_number x : finite x = true -> starts_number (float_repr x) = true.
Proof.
  intros Hx. pose proof (float_repr_literal x Hx) as Hl. unfold is_float_literal in Hl.
  destruct (scan_integer (float_repr x)) as [r|] eqn:E; [|discriminate].
  eapply scan_integer_starts_number, E.
Qed.

(** The text of a value starts where a value starts. *)
Lemma iterencode_starts_value v level :
  wf_val v = true -> starts_value (iterencode v level) = true.
Proof.
  destruct v as [|[|]|n|x|s|[|y l]|[|[k w] d]]; intros Hwf; try reflexivity.
  - apply starts_number_value, str_of_int_starts_number.
  - cbn [iterencode wf_val] in *. rewrite floatstr_finite by exact Hwf.
    now apply starts_number_value, float_repr_starts_number.
Qed.
End RoundTrip.

Section RoundTripValues.
Context `{float_laws}.

(** [scan_once] reads the text of [v] back, whatever the indentation and
    whatever delimited text follows, with fuel for the length of the text. *)
Definition reads_back (v : pyval) : Prop :=
  forall level rest fuel,
    delimited rest = true ->
    (List.length (iterencode v level) <= fuel)%nat ->
    scan_once fuel (iterencode v level ++ rest) = Some (v, rest).

Lemma delimited_newline_indent level s : delimited (newline_indent level ++ s) = true.
Proof. reflexivity. Qed.

Lemma newline_indent_length level : (1 <= List.length (newline_indent level))%nat.
Proof. unfold newline_indent. cbn [List.length]. lia. Qed.

Lemma wf_val_list_all l : wf_val (PList l) = true -> Forall (fun x => wf_val x = true) l.
Proof.
  induction l as [|x l IH]; [constructor|].
  rewrite wf_val_list, andb_true_iff. intros [Hx Hl]. constructor; auto.
Qed.

Lemma wf_val_dict_all d :
  wf_val (PDict d) = true ->
  Forall (fun kv => wf_str (fst kv) = true /\ wf_val (snd kv) = true) d.
Proof.
  induction d as [|[k v] d IH]; [constructor|].
  intros Hwf. apply wf_val_dict_values in Hwf. destruct Hwf as (Hk & Hv & Hd).
  constructor; auto.
Qed.

Lemma elements_encoded level rest l :
  forall x fuel,
    Forall reads_back (x :: l) ->
    Forall (fun x => wf_val x = true) (x :: l) ->
    (List.length (iterencode x (S level) ++ encode_items level l) < fuel)%nat ->
    elements fuel
      (iterencode x (S level) ++ encode_items level l
         ++ newline_indent level ++ 0x5D :: rest)
    = Some (x :: l, rest).
Proof.
  induction l as [|y l IH]; intros x fuel Hrb Hwf Hfuel;
    (destruct fuel as [|f]; [lia|]); cbn [elements];
    inversion Hrb as [|? ? Hx Hl]; subst; inversion Hwf as [|? ? Hwx Hwl]; subst;
    rewrite length_app in Hfuel.
  - cbn [encode_items flat_map app]. rewrite Hx; [|reflexivity|lia].
    now rewrite skip_ws_newline_indent.
  - cbn [encode_items flat_map]. rewrite <- !app_assoc.
    rewrite Hx; [|reflexivity|lia].
    cbn [app skip_ws]. change (is_ws 0x2C) with false. cbv iota.
    change (0x2C =? 0x5D) with false. change (0x2C =? 0x2C) with true. cbv iota.
    rewrite skip_ws_newline_indent, skip_ws_starts_value.
    + fold (encode_items level l). rewrite IH; [reflexivity|assumption|assumption|].
      cbn [encode_items flat_map] in Hfuel. rewrite !length_app in *.
      cbn [List.length] in Hfuel. fold (encode_items level l) in Hfuel. lia.
    + apply starts_value_app, iterencode_starts_value. now inversion Hwl.
Qed.

Lemma members_encoded level rest d :
  forall k v fuel,
    Forall (fun kv => reads_back (snd kv)) ((k, v) :: d) ->
    Forall (fun kv => wf_str (fst kv) = true /\ wf_val (snd kv) = true) ((k, v) :: d) ->
    (List.length (encode_member level (k, v) ++ encode_members level d) < fuel)%nat ->
    members fuel
      (flat_map escape_char k ++ 0x22 :: [0x3A; 0x20] ++ iterencode v (S level)
         ++ encode_members level d ++ newline_indent level ++ 0x7D :: rest)
    = Some ((k, v) :: d, rest).
Proof.
  induction d as [|[k2 v2] d IH]; intros k v fuel Hrb Hwf Hfuel;
    (destruct fuel as [|f]; [lia|]); cbn [members];
    inversion Hrb as [|? ? Hv Hl]; subst; inversion Hwf as [|? ? [Hwk Hwv] Hwl]; subst;
    cbn [fst snd] in *;
    rewrite scanstring_encoded by exact Hwk;
    cbn [app skip_ws]; change (is_ws 0x3A) with false; cbv iota;
    change (0x3A =? 0x3A) with true; cbv iota;
    cbn [skip_ws]; change (is_ws 0x20) with true; cbv iota;
    rewrite skip_ws_starts_value
      by (apply starts_value_app, iterencode_starts_value; exact Hwv);
    unfold encode_member in Hfuel; cbn [fst snd] in Hfuel;
    rewrite !length_app in Hfuel; cbn [List.length] in Hfuel.
  - cbn [encode_members flat_map app]. rewrite Hv; [|reflexivity|lia].
    now rewrite skip_ws_newline_indent.
  - cbn [encode_members flat_map]. rewrite <- !app_assoc.
    rewrite Hv; [|reflexivity|lia].
    cbn [app skip_ws]. change (is_ws 0x2C) with false. cbv iota.
    change (0x2C =? 0x7D) with false. change (0x2C =? 0x2C) with true. cbv iota.
    rewrite skip_ws_newline_indent. unfold encode_member at 1. cbn [fst snd].
    rewrite <- !app_assoc, encode_basestring_ascii_app.
    cbn [skip_ws]. change (is_ws 0x22) with false. cbv iota.
    change (0x22 =? 0x22) with true. cbv iota.
    fold (encode_members level d).
    rewrite IH; [reflexivity|assumption|assumption|].
    cbn [encode_members flat_map] in Hfuel. rewrite !length_app in *.
    cbn [List.length] in Hfuel. fold (encode_members level d) in Hfuel. lia.
Qed.
End RoundTripValues.

Section RoundTripMain.
Context `{float_laws}.

Lemma iterencode_nonempty v level :
  wf_val v = true -> (1 <= List.length (iterencode v level))%nat.
Proof.
  intros Hwf. pose proof (iterencode_starts_value v level Hwf) as Hs.
  destruct (iterencode v level); [discriminate | cbn; lia].
Qed.

Lemma starts_value_head s :
  starts_value s = true -> exists c r, s = c :: r /\ c <> 0x5D.
Proof.
  destruct s as [|c r]; [discriminate|]. cbn. intros Hc.
  apply andb_true_iff in Hc. destruct Hc as [_ Hc]. apply negb_true_iff in Hc.
  exists c, r. split; [reflexivity|]. now apply Z.eqb_neq.
Qed.

Theorem scan_once_encoded v : wf_val v = true -> reads_back v.
Proof.
  induction v as [|b|n|x|s|l IH|d IH] using pyval_induction;
    intros Hwf level rest fuel Hr Hfuel.
  - destruct fuel as [|f]; [cbn in Hfuel; lia | reflexivity].
  - destruct b; (destruct fuel as [|f]; [cbn in Hfuel; lia | reflexivity]).
  - pose proof (iterencode_nonempty (PInt n) level eq_refl) as Hne.
    destruct fuel as [|f]; [lia|]. cbn [iterencode] in *.
    apply (@scan_once_number _ f).
    + apply starts_number_app, str_of_int_starts_number.
    + now apply scan_number_int.
  - pose proof (iterencode_nonempty (PFloat x) level Hwf) as Hne.
    destruct fuel as [|f]; [lia|]. cbn [iterencode wf_val] in *.
    rewrite floatstr_finite by exact Hwf.
    apply (@scan_once_number _ f).
    + now apply starts_number_app, float_repr_starts_number.
    + now apply scan_number_float.
  - pose proof (iterencode_nonempty (PStr s) level Hwf) as Hne.
    destruct fuel as [|f]; [lia|]. cbn [iterencode wf_val] in *.
    now apply (@scan_once_string _ f).
  - destruct l as [|x l].
    + destruct fuel as [|f]; [cbn in Hfuel; lia | reflexivity].
    + rewrite iterencode_list in *.
      pose proof (newline_indent_length (S level)) as Hn1.
      pose proof (newline_indent_length level) as Hn2.
      rewrite !length_app in Hfuel. cbn [List.length] in Hfuel.
      destruct fuel as [|f]; [lia|].
      rewrite <- !app_assoc. cbn [app scan_once].
      change (0x5B =? 0x22) with false. change (0x5B =? 0x7B) with false.
      change (0x5B =? 0x5B) with true. cbv iota.
      pose proof (wf_val_list_all _ Hwf) as Hall.
      assert (Hrb : Forall reads_back (x :: l)).
      { rewrite Forall_forall in *. intros y Hy. apply IH; auto. }
      rewrite skip_ws_newline_indent, skip_ws_starts_value
        by (apply starts_value_app, iterencode_starts_value; now inversion Hall).
      pose proof (@elements_encoded _ _ level rest l x f Hrb Hall) as He.
      rewrite length_app in He. specialize (He ltac:(lia)).
      destruct (starts_value_head
                  (iterencode x (S level) ++ encode_items level l
                     ++ newline_indent level ++ 0x5D :: rest)) as (c & r & E & Hc).
      { apply starts_value_app, iterencode_starts_value. now inversion Hall. }
      rewrite E in *. destruct (Z.eqb_spec c 0x5D); [contradiction|].
      now rewrite He.
  - destruct d as [|[k v] d].
    + destruct fuel as [|f]; [cbn in Hfuel; lia | reflexivity].
    + rewrite iterencode_dict in *.
      pose proof (newline_indent_length (S level)) as Hn1.
      pose proof (newline_indent_length level) as Hn2.
      rewrite !length_app in Hfuel. cbn [List.length] in Hfuel.
      destruct fuel as [|f]; [lia|].
      rewrite <- !app_assoc. cbn [app scan_once].
      change (0x7B =? 0x22) with false. change (0x7B =? 0x7B) with true. cbv iota.
      pose proof (wf_val_dict_all _ Hwf) as Hall.
      assert (Hrb : Forall (fun kv => reads_back (snd kv)) ((k, v) :: d)).
      { rewrite Forall_forall in *. intros kv Hkv. apply IH; [exact Hkv|].
        now apply Hall. }
      rewrite skip_ws_newline_indent. unfold encode_member at 1. cbn [fst snd].
      rewrite <- !app_assoc, encode_basestring_ascii_app.
      cbn [skip_ws]. change (is_ws 0x22) with false. cbv iota.
      change (0x22 =? 0x7D) with false. change (0x22 =? 0x22) with true. cbv iota.
      pose proof (@members_encoded _ _ level rest d k v f Hrb Hall) as Hm.
      rewrite length_app in Hm. specialize (Hm ltac:(lia)).
      cbn [app] in Hm |- *. rewrite Hm.
      now rewrite dict_of_pairs_distinct by (now apply wf_val_dict_keys).
Qed.

(** [json.loads(json.dumps(v, indent=2)) == v] *)
Theorem loads_dumps v : wf_val v = true -> loads (dumps v) = Some v.
Proof.
  intros Hwf. unfold loads, dumps.
  rewrite skip_ws_starts_value by (now apply iterencode_starts_value).
  pose proof (@scan_once_encoded v Hwf 0%nat [] (S (List.length (iterencode v 0)))
                eq_refl ltac:(lia)) as Hs.
  rewrite app_nil_r in Hs. now rewrite Hs.
Qed.
End RoundTripMain.

(** ** The floats of [ascii_builtins] *)

#[export] Instance ascii_float_laws : @float_laws ascii_builtins.
Proof.
  assert (Hscan : forall x,
             scan_integer (str_of_int x ++ u ".0") = Some (str_of_int x, u ".0")).
  { intros x. now apply scan_integer_int. }
  split; intros x _; cbn [float_repr float_of_str ascii_builtins].
  - unfold is_float_literal. now rewrite Hscan.
  - rewrite Hscan. apply int_of_str_int.
Qed.

(** ** The dictionary of a well-formed tree is well formed *)

Lemma wf_str_app a b :
  wf_str a = true -> wf_str b = true ->
  match b with d :: _ => is_low_surrogate d = false | [] => True end ->
  wf_str (a ++ b) = true.
Proof.
  intros Ha Hb Hlow. induction a as [|c a IH]; [exact Hb|].
  apply wf_str_cons in Ha. destruct Ha as (Hc & Hpair & Ha).
  cbn [app wf_str]. rewrite (IH Ha), andb_true_r.
  apply andb_true_iff. split; [apply andb_true_iff; rewrite !Z.leb_le; lia|].
  apply negb_true_iff. destruct (is_high_surrogate c) eqn:Hh; [|reflexivity].
  specialize (Hpair eq_refl). cbn [andb].
  destruct a as [|d a]; cbn [app]; [|exact Hpair].
  destruct b as [|d b]; [reflexivity | exact Hlow].
Qed.

Lemma wf_str_child_str parent_str nm :
  wf_str parent_str = true -> wf_str nm = true ->
  wf_str (child_str parent_str nm) = true.
Proof.
  intros Hp Hn. unfold child_str. destruct (str_eqb parent_str (u "/")) eqn:E.
  - apply str_eqb_eq in E. subst. cbn [app u]. cbn [wf_str]. now rewrite Hn.
  - apply wf_str_app; [exact Hp | | reflexivity].
    cbn [app u]. cbn [wf_str]. now rewrite Hn.
Qed.

Lemma wf_path_name p : wf_path p = true -> wf_str (name p) = true.
Proof.
  destruct p as [n|n [st|e]|n st [ls|e]]; cbn [wf_path name];
    rewrite ?andb_true_iff; tauto.
Qed.

Lemma wf_path_entries n st ls :
  wf_path (Dir n st (Ok ls)) = true -> Forall (fun x => wf_path x = true) ls.
Proof.
  cbn [wf_path]. rewrite !andb_true_iff. intros [_ Hl].
  induction ls as [|x ls IH]; [constructor|].
  apply andb_true_iff in Hl. destruct Hl as [Hx Hl]. constructor; auto.
Qed.

Lemma wf_val_dir_dict nm ps n m cs :
  wf_val (PDict (dir_dict nm ps n m cs))
  = wf_str nm && wf_str ps && wf_val m && wf_val (PList cs).
Proof.
  change (wf_val (PDict (dir_dict nm ps n m cs)))
    with (true && (wf_str k_name && wf_str nm
                   && (wf_str k_path && wf_str ps
                       && (wf_str k_type && wf_str s_directory
                           && (wf_str k_size && true
                               && (wf_str k_modified && wf_val m
                                   && (wf_str k_children && wf_val (PList cs)
                                       && true))))))).
  cbn [andb]. change (wf_str k_name) with true. change (wf_str k_path) with true.
  change (wf_str k_type) with true. change (wf_str s_directory) with true.
  change (wf_str k_size) with true. change (wf_str k_modified) with true.
  change (wf_str k_children) with true. cbn [andb].
  now rewrite !andb_true_r, !andb_assoc.
Qed.

Lemma wf_val_app l1 l2 :
  wf_val (PList (l1 ++ l2)) = wf_val (PList l1) && wf_val (PList l2).
Proof.
  induction l1 as [|x l1 IH]; [reflexivity|].
  cbn [app]. rewrite !wf_val_list, IH. now rewrite andb_assoc.
Qed.

Section DictWellFormed.
Context `{builtins}.
Import Method5.

Lemma modified_of_wf p m : wf_path p = true -> modified_of p = Ok m -> wf_val m = true.
Proof.
  unfold modified_of, exists_, stat_query.
  destruct p as [n|n [st|[]]|n st [ls|e]]; cbn; rewrite ?andb_true_iff;
    intros Hwf [= <-]; cbn; tauto.
Qed.

Lemma file_entry_wf item_str item nm ps n m cs :
  wf_path item = true -> wf_str item_str = true ->
  exists n' c,
    file_entry item_str item (dir_dict nm ps n m cs) = dir_dict nm ps n' m (cs ++ [c])
    /\ wf_val c = true.
Proof.
  intros Hwf Hs. pose proof (wf_path_name _ Hwf) as Hn. unfold file_entry.
  destruct item as [nm'|nm' [st|e]|nm' st ls]; cbn [stat name] in *.
  - do 2 eexists. rewrite dir_dict_append. split; [reflexivity|].
    cbn. now rewrite Hn.
  - do 2 eexists. rewrite dir_dict_append, dir_dict_add_size. split; [reflexivity|].
    cbn [wf_path] in Hwf. apply andb_true_iff in Hwf. destruct Hwf as [_ Hf].
    cbn. now rewrite Hn, Hs, Hf.
  - do 2 eexists. rewrite dir_dict_append. split; [reflexivity|].
    cbn. now rewrite Hn.
  - do 2 eexists. rewrite dir_dict_append, dir_dict_add_size. split; [reflexivity|].
    assert (Hf : Json.finite (st_mtime st) = true).
    { destruct ls; cbn [wf_path] in Hwf; rewrite !andb_true_iff in Hwf; tauto. }
    cbn. now rewrite Hn, Hs, Hf.
Qed.

Definition dict_wf (max_depth : option Z) (p : path) : Prop :=
  forall path_str depth v,
    wf_path p = true -> wf_str path_str = true ->
    directory_to_dict max_depth p path_str depth = Ok v -> wf_val v = true.

Lemma dict_loop_wf max_depth ps depth items :
  wf_str ps = true ->
  Forall (fun item => wf_path item = true /\ dict_wf max_depth item) items ->
  Forall (fun item => is_dir item = Ok (kind_dir item)) items ->
  forall nm n m cs,
    wf_val (PList cs) = true ->
    exists n' cs',
      for_each (dict_visit max_depth ps depth) items (dir_dict nm ps n m cs)
      = Returned (dir_dict nm ps n' m cs')
      /\ wf_val (PList cs') = true.
Proof.
  intros Hps. induction 1 as [|item items [Hwf Hitem] _ IH]; intros Hans nm n m cs Hcs.
  - exists n, cs. auto.
  - apply Forall_cons_iff in Hans. destruct Hans as [Hd Hans'].
    cbn [for_each].
    pose proof (wf_str_child_str _ _ Hps (wf_path_name _ Hwf)) as Hchild.
    destruct (kind_dir item).
    + rewrite dict_visit_dir by exact Hd.
      destruct (directory_to_dict_dir_returns max_depth item
                  (child_str ps (name item)) (depth + 1) Hd) as [v Hv].
      rewrite Hv. pose proof (Hitem _ _ _ Hwf Hchild Hv) as Hwv.
      apply directory_to_dict_sized in Hv. destruct Hv as (k & mc & ccs & -> & _).
      rewrite dir_dict_append, dir_dict_size, dir_dict_add_size. cbn [bind].
      apply (IH Hans'). rewrite wf_val_app, Hcs, wf_val_list, Hwv. reflexivity.
    + rewrite dict_visit_file by exact Hd.
      destruct (file_entry_wf (child_str ps (name item)) item nm ps n m cs Hwf Hchild)
        as (n1 & c & -> & Hc).
      cbn [bind]. apply (IH Hans').
      rewrite wf_val_app, Hcs, wf_val_list, Hc. reflexivity.
Qed.

Lemma directory_to_dict_wf max_depth p : dict_wf max_depth p.
Proof.
  induction p as [p IH] using listing_induction.
  intros path_str depth v Hwf Hps. rewrite directory_to_dict_eq.
  pose proof (wf_path_name _ Hwf) as Hn.
  destruct (modified_of p) as [m|e'] eqn:Hm; [|discriminate].
  pose proof (modified_of_wf _ Hwf Hm) as Hwm.
  cbv zeta. rewrite !header_children.
  destruct (depth_reached max_depth depth).
  { intros [= <-]. rewrite wf_val_dir_dict. now rewrite Hn, Hps, Hwm. }
  destruct (ascii_listing true p) as [items|e] eqn:Hit; cbn [eval].
  - destruct (ascii_listing_ok _ _ Hit) as (ls & Hls & _ & Hans).
    destruct (@dict_loop_wf max_depth path_str depth items Hps)
      with (nm := name p) (n := 0) (m := m) (cs := @nil pyval)
      as (n' & cs' & -> & Hcs'); try reflexivity; [|exact Hans|].
    + apply Forall_forall. intros item Hin.
      apply (ascii_listing_In _ _ item Hls Hit) in Hin. destruct Hin as [Hin _].
      specialize (IH ls Hls).
      destruct (iterdir_ok _ Hls) as (n & st & ->).
      pose proof (wf_path_entries _ _ _ Hwf) as Hl.
      rewrite Forall_forall in IH, Hl. split; [now apply Hl | now apply IH].
    + intros [= <-]. rewrite wf_val_dir_dict. now rewrite Hn, Hps, Hwm, Hcs'.
  - rewrite ?header_children. intros [= <-].
    rewrite wf_val_dir_dict. now rewrite Hn, Hps, Hwm.
Qed.
End DictWellFormed.

(** ** The encoder and the decoder at work *)

(** The text of a small dictionary, as [json.dumps(d, indent=2)] prints
    it: one member a line, two spaces a level, an empty list as [[]]. *)
Example dumps_small_dict :
  Json.dumps (PDict [(k_name, PStr (u "a.txt")); (k_size, PInt (-10));
                     (k_children, PList [])])
  = u "{" ++ [10]
    ++ u "  " ++ [34] ++ u "name" ++ [34] ++ u ": " ++ [34] ++ u "a.txt" ++ [34]
    ++ u "," ++ [10]
    ++ u "  " ++ [34] ++ u "size" ++ [34] ++ u ": -10," ++ [10]
    ++ u "  " ++ [34] ++ u "children" ++ [34] ++ u ": []" ++ [10]
    ++ u "}".
Proof. reflexivity. Qed.

(** A quote, a backslash, a newline, a Latin-1 letter and a character
    beyond the basic plane are escaped, the last as a surrogate pair. *)
Example dumps_escapes :
  Json.dumps (PStr [34; 92; 10; 233; 0x1F4C1])
  = [34] ++ [92; 34] ++ [92; 92] ++ u "\n" ++ u "\u00e9" ++ u "\ud83d\udcc1" ++ [34].
Proof. reflexivity. Qed.

(** Why the names must be well formed: a high surrogate directly followed
    by a low one is written as two escapes, which the decoder reads as one
    character.  A lone surrogate, as [os.fsdecode] makes of a byte that is
    not UTF-8, comes back unchanged. *)
Example loads_joins_surrogates :
  wf_str [0xD83D; 0xDCC1] = false
  /\ Json.loads (Json.dumps (PStr [0xD83D; 0xDCC1])) = Some (PStr [0x1F4C1])
  /\ wf_str [0xDC80; 97] = true
  /\ Json.loads (Json.dumps (PStr [0xDC80; 97])) = Some (PStr [0xDC80; 97]).
Proof. repeat split; reflexivity. Qed.

(* ===================================================================== *)
(** * C8: the JSON document read back *)
(* ===================================================================== *)

(** C8.  For a tree whose names are well-formed strings and whose
    modification times are finite, the text that [save_tree_json] writes is
    read by [json.loads] as the very dictionary that was written: the same
    keys and values in the same order at every node, so the same names,
    types, sizes and order of children. *)
Theorem C8_json_round_trip `{float_laws} :
  forall start_path_str now start_path max_depth text,
    wf_path start_path = true ->
    wf_str start_path_str = true ->
    wf_str now = true ->
    Json.save_tree_json start_path_str now start_path max_depth = Ok text ->
    exists tree_dict,
      Method5.json_tree_dict start_path_str now start_path max_depth = Ok tree_dict
      /\ Json.loads text = Some tree_dict.
Proof.
  intros start_path_str now start_path max_depth text Hwf Hps Hnow.
  unfold Json.save_tree_json.
  destruct (Method5.json_tree_dict start_path_str now start_path max_depth)
    as [tree_dict|e] eqn:Ht; [|discriminate].
  intros [= <-]. exists tree_dict. split; [reflexivity|].
  apply loads_dumps.
  unfold Method5.json_tree_dict in Ht.
  destruct (Method5.directory_to_dict max_depth start_path start_path_str 0)
    as [v|e] eqn:Hv; [|discriminate].
  pose proof (@directory_to_dict_wf _ max_depth start_path _ _ _ Hwf Hps Hv) as Hwv.
  destruct (directory_to_dict_sized _ _ _ _ Hv) as (n & m & cs & -> & _).
  injection Ht as <-.
  rewrite wf_val_dir_dict in Hwv. rewrite !andb_true_iff in Hwv.
  destruct Hwv as [[[Hn Hp] Hm] Hcs].
  assert (Hmeta : wf_val (PDict [(k_generated, PStr now);
                                 (k_source_path, PStr start_path_str);
                                 (k_max_depth,
                                  match max_depth with
                                  | Some m0 => PInt m0
                                  | None => PNone
                                  end)]) = true).
  { change (true && (true && wf_str now
                     && (true && wf_str start_path_str
                         && (true && wf_val match max_depth with
                                            | Some m0 => PInt m0
                                            | None => PNone
                                            end && true))) = true).
    rewrite Hnow, Hp. now destruct max_depth. }
  set (meta := PDict ((k_generated, _) :: _)) in *.
  change (true && (true && wf_str (name start_path)
                   && (true && wf_str start_path_str
                       && (true && true
                           && (true && true
                               && (true && wf_val m
                                   && (true && wf_val (PList cs)
                                       && (true && wf_val meta && true))))))) = true).
  now rewrite Hn, Hp, Hm, Hcs, Hmeta.
Qed.

Lemma C8_json_round_trip_witness :
  exists tree_dict,
    Method5.json_tree_dict (u "/root") (u "now") scenario None = Ok tree_dict
    /\ Json.loads (Json.dumps scenario_json) = Some tree_dict.
Proof.
  apply (@C8_json_round_trip ascii_builtins ascii_float_laws
           (u "/root") (u "now") scenario None (Json.dumps scenario_json));
    reflexivity.
Defined.

(* ===================================================================== *)
(** * Further properties of the walkers *)
(* ===================================================================== *)







(** X4.  The lines and the totals of [generate_ascii_tree] fit: the three
    header lines stay first, and the walk appends one line for every
    directory and every file it counts, and besides at most one
    [[Permission Denied]] line for the root and one for each directory
    counted.  When every listing and the [is_dir()] of every entry answer,
    the lines after the header are as many as the two totals together. *)
Theorem X4_ascii_lines_match_totals `{builtins} :
  forall start_path_str now start_path show_hidden max_depth s,
    Ascii.generate_ascii_tree start_path_str now start_path show_hidden max_depth
    = Ok s ->
    exists body,
      Ascii.tree_lines s
      = [u "ASCII Tree for: " ++ start_path_str; u "Generated: " ++ now; rule60]
          ++ body
      /\ 0 <= Ascii.total_dirs s /\ 0 <= Ascii.total_files s
      /\ Ascii.total_dirs s + Ascii.total_files s <= len body
         <= 2 * Ascii.total_dirs s + Ascii.total_files s + 1
      /\ (fully_listed start_path = true ->
          len body = Ascii.total_dirs s + Ascii.total_files s).
Proof.
  intros start_path_str now start_path show_hidden max_depth s.
  unfold Ascii.generate_ascii_tree.
  destruct (exists_ start_path) as [[|]|e0]; try discriminate.
  destruct (Ascii.build_tree _ _ _ _ _ _ _) as [s'|e s'] eqn:E; [|discriminate].
  intros [= <-]. apply ascii_lines_all in E.
  destruct E as (body & d & f & (L & D & F & Hd & Hf) & Hb & Hfull).
  cbn [Ascii.tree_lines Ascii.total_dirs Ascii.total_files] in L, D, F.
  exists body. rewrite L, D, F.
  split; [reflexivity|]. split; [lia|]. split; [lia|]. split; [len_lia|].
  intros Hl. specialize (Hfull Hl). len_lia.
Qed.

Lemma X4_ascii_lines_match_totals_witness :
  exists body,
    Ascii.tree_lines scenario_ascii
    = [u "ASCII Tree for: " ++ u "/root"; u "Generated: " ++ u "now"; rule60] ++ body
    /\ 0 <= Ascii.total_dirs scenario_ascii /\ 0 <= Ascii.total_files scenario_ascii
    /\ Ascii.total_dirs scenario_ascii + Ascii.total_files scenario_ascii <= len body
       <= 2 * Ascii.total_dirs scenario_ascii + Ascii.total_files scenario_ascii + 1
    /\ (fully_listed scenario = true ->
        len body = Ascii.total_dirs scenario_ascii + Ascii.total_files scenario_ascii).
Proof.
  apply (@X4_ascii_lines_match_totals ascii_builtins
           (u "/root") (u "now") scenario false None scenario_ascii).
  reflexivity.
Defined.

(** ** Walkers side by side *)

(** Two outcomes agree: both return, or both raise the same exception, and
    the states they leave are related. *)
Definition agree {S T : Type} (R : S -> T -> Prop)
    (o1 : outcome S) (o2 : outcome T) : Prop :=
  match o1, o2 with
  | Returned s, Returned t => R s t
  | Raised e s, Raised e' t => e = e' /\ R s t
  | _, _ => False
  end.

Lemma for_each_agree {A S T : Type} (R : S -> T -> Prop)
    (body1 : A -> S -> outcome S) (body2 : A -> T -> outcome T) (l : list A) :
  Forall (fun x => forall s t, R s t -> agree R (body1 x s) (body2 x t)) l ->
  forall s t, R s t -> agree R (for_each body1 l s) (for_each body2 l t).
Proof.
  induction 1 as [|x l Hx _ IH]; intros s t Hst; cbn [for_each]; [exact Hst|].
  specialize (Hx s t Hst).
  destruct (body1 x s) as [s1|e1 s1], (body2 x t) as [t1|e2 t1];
    cbn [agree bind] in *; try contradiction; auto.
Qed.

Lemma try_agree {S T : Type} (R : S -> T -> Prop)
    (o1 : outcome S) (o2 : outcome T) (h1 : S -> outcome S) (h2 : T -> outcome T) :
  agree R o1 o2 ->
  (forall s t, R s t -> agree R (h1 s) (h2 t)) ->
  agree R (try_except_PermissionError o1 h1) (try_except_PermissionError o2 h2).
Proof.
  intros Ho Hh. destruct o1 as [s|e s], o2 as [t|e' t]; cbn [agree] in Ho;
    try contradiction; cbn [try_except_PermissionError]; [exact Ho|].
  destruct Ho as [<- Hst]. destruct (is_PermissionError e); [now apply Hh|].
  cbn [agree]. auto.
Qed.

Section EnhancedAgainstAscii.
Context `{builtins}.

(** The three totals of the two walks are the same. *)
Definition same_totals (a : Ascii.state) (e : Enhanced.state) : Prop :=
  Ascii.total_dirs a = Enhanced.total_dirs e
  /\ Ascii.total_files a = Enhanced.total_files e
  /\ Ascii.total_size a = Enhanced.total_size e.

Definition enhanced_agrees (max_depth : option Z) (p : path) : Prop :=
  forall prefix is_last depth a prefix' is_last' e,
    same_totals a e ->
    agree same_totals
      (Ascii.build_tree true max_depth p prefix is_last depth a)
      (Enhanced.build_tree max_depth p prefix' is_last' depth e).

Lemma enhanced_loop_agrees max_depth prefix is_last prefix' is_last' depth n items :
  Forall (enhanced_agrees max_depth) items ->
  Forall (fun item => is_dir item = Ok (kind_dir item)) items ->
  forall i a e,
    same_totals a e ->
    agree same_totals
      (for_each (ascii_visit true max_depth prefix is_last depth n)
         (enumerate_from i items) a)
      (for_each (enhanced_visit max_depth prefix' is_last' depth n)
         (enumerate_from i items) e).
Proof.
  induction 1 as [|item items Hitem _ IHl]; intros Hans i a en Hae;
    cbn [enumerate_from for_each]; [exact Hae|].
  apply Forall_cons_iff in Hans. destruct Hans as [Hd Hans'].
  destruct (kind_dir item).
  - rewrite ascii_visit_dir, enhanced_visit_dir by exact Hd.
    match goal with |- agree _ (bind ?o1 _) (bind ?o2 _) =>
      assert (Ho : agree same_totals o1 o2) end.
    { apply Hitem. destruct Hae as (D & F & S). unfold same_totals. cbn.
      repeat split; lia. }
    match type of Ho with agree _ ?o1 ?o2 =>
      destruct o1 as [a1|e1 a1], o2 as [en1|e2 en1] end;
      cbn [agree bind] in *; try contradiction; auto.
  - rewrite ascii_visit_file, enhanced_visit_file by exact Hd.
    cbn [bind]. apply (IHl Hans').
    destruct Hae as (D & F & S).
    unfold Ascii.file_entry, Enhanced.file_entry, same_totals.
    destruct (stat item); cbn; repeat split; lia.
Qed.

Lemma enhanced_agrees_all max_depth p : enhanced_agrees max_depth p.
Proof.
  induction p as [p IH] using listing_induction.
  intros prefix is_last depth a prefix' is_last' en Hae.
  rewrite build_tree_eq, enhanced_build_tree_eq.
  destruct (depth_exceeded max_depth depth); [exact Hae|].
  apply try_agree; [|intros s t Hst; exact Hst].
  destruct (ascii_listing true p) as [items|e] eqn:Hit; cbn [eval agree]; [|auto].
  destruct (ascii_listing_ok _ _ Hit) as (ls & Hls & _ & Hans).
  unfold enumerate. apply enhanced_loop_agrees; [|exact Hans|exact Hae].
  eapply listing_Forall; [exact IH | exact Hit].
Qed.
End EnhancedAgainstAscii.

(** X5.  [generate_enhanced_tree], the fall-back of the rich tree, and
    [generate_ascii_tree] with hidden entries shown walk a root whose
    [exists()] answers [True] alike, whatever the depth limit: both return,
    with the same totals of directories, files and bytes, or both raise the
    same exception. *)
Theorem X5_enhanced_totals_are_ascii_totals `{builtins} :
  forall start_path_str now start_path max_depth,
    exists_ start_path = Ok true ->
    match
      Ascii.generate_ascii_tree start_path_str now start_path true max_depth,
      Enhanced.generate_enhanced_tree start_path_str now start_path max_depth
    with
    | Ok a, Ok e =>
        Ascii.total_dirs a = Enhanced.total_dirs e
        /\ Ascii.total_files a = Enhanced.total_files e
        /\ Ascii.total_size a = Enhanced.total_size e
    | Raise e, Raise e' => e = e'
    | _, _ => False
    end.
Proof.
  intros start_path_str now start_path max_depth He.
  unfold Ascii.generate_ascii_tree, Enhanced.generate_enhanced_tree.
  rewrite He.
  match goal with
  | |- context [Ascii.build_tree true max_depth start_path ?p ?l ?d ?a] =>
      match goal with
      | |- context [Enhanced.build_tree max_depth start_path ?p' ?l' d ?e] =>
          pose proof (@enhanced_agrees_all _ max_depth start_path p l d a p' l' e) as Ho
      end
  end.
  match type of Ho with _ -> agree _ ?o1 ?o2 =>
    destruct o1 as [a1|e1 a1], o2 as [en1|e2 en1] end;
    cbn [agree] in Ho; apply Ho; repeat split; reflexivity.
Qed.

Lemma X5_enhanced_totals_are_ascii_totals_witness :
  match
    Ascii.generate_ascii_tree (u "/root") (u "now") with_hidden true (Some 0),
    Enhanced.generate_enhanced_tree (u "/root") (u "now") with_hidden (Some 0)
  with
  | Ok a, Ok e =>
      Ascii.total_dirs a = Enhanced.total_dirs e
      /\ Ascii.total_files a = Enhanced.total_files e
      /\ Ascii.total_size a = Enhanced.total_size e
  | Raise e, Raise e' => e = e'
  | _, _ => False
  end.
Proof.
  apply (@X5_enhanced_totals_are_ascii_totals ascii_builtins
           (u "/root") (u "now") with_hidden (Some 0)).
  reflexivity.
Defined.

Section DetailedAgainstAscii.
Context `{builtins}.

Definition same_counts (a : Ascii.state) (d : Detailed.state) : Prop :=
  Ascii.total_dirs a = Detailed.dir_count d
  /\ Ascii.total_files a = Detailed.file_count d
  /\ Ascii.total_size a = Detailed.total_size d.

Definition detailed_agrees (show_hidden : bool) (max_depth : option Z) (p : path)
  : Prop :=
  forall prefix is_last depth a prefix' is_last' d,
    same_counts a d ->
    agree same_counts
      (Ascii.build_tree show_hidden max_depth p prefix is_last depth a)
      (Detailed.process_directory show_hidden max_depth p prefix' is_last' depth d).

Lemma detailed_loop_agrees show_hidden max_depth prefix is_last prefix' is_last'
    depth n items :
  Forall (detailed_agrees show_hidden max_depth) items ->
  Forall (fun item => is_dir item = Ok (kind_dir item)) items ->
  forall i a d,
    same_counts a d ->
    agree same_counts
      (for_each (ascii_visit show_hidden max_depth prefix is_last depth n)
         (enumerate_from i items) a)
      (for_each (detailed_visit show_hidden max_depth prefix' is_last' depth n)
         (enumerate_from i items) d).
Proof.
  induction 1 as [|item items Hitem _ IHl]; intros Hans i a d Had;
    cbn [enumerate_from for_each]; [exact Had|].
  apply Forall_cons_iff in Hans. destruct Hans as [Hd Hans'].
  destruct (kind_dir item).
  - rewrite ascii_visit_dir, detailed_visit_dir by exact Hd.
    match goal with |- agree _ (bind ?o1 _) (bind ?o2 _) =>
      assert (Ho : agree same_counts o1 o2) end.
    { apply Hitem. destruct Had as (D & F & S). unfold same_counts. cbn.
      repeat split; lia. }
    match type of Ho with agree _ ?o1 ?o2 =>
      destruct o1 as [a1|e1 a1], o2 as [d1|e2 d1] end;
      cbn [agree bind] in *; try contradiction; auto.
  - rewrite ascii_visit_file, detailed_visit_file by exact Hd.
    cbn [bind]. apply (IHl Hans').
    destruct Had as (D & F & S).
    unfold Ascii.file_entry, Detailed.file_entry, same_counts.
    destruct (stat item); cbn; repeat split; lia.
Qed.

Lemma detailed_agrees_all show_hidden max_depth p :
  detailed_agrees show_hidden max_depth p.
Proof.
  induction p as [p IH] using listing_induction.
  intros prefix is_last depth a prefix' is_last' d Had.
  rewrite build_tree_eq, process_directory_eq.
  destruct (depth_exceeded max_depth depth); [exact Had|].
  apply try_agree; [|intros s t Hst; exact Hst].
  destruct (ascii_listing show_hidden p) as [items|e] eqn:Hit; cbn [eval agree];
    [|auto].
  destruct (ascii_listing_ok _ _ Hit) as (ls & Hls & _ & Hans).
  unfold enumerate. apply detailed_loop_agrees; [|exact Hans|exact Had].
  eapply listing_Forall; [exact IH | exact Hit].
Qed.
End DetailedAgainstAscii.

(** X6.  [generate_detailed_tree] and [generate_ascii_tree], given the
    same [show_hidden] and [max_depth], walk a root whose [exists()]
    answers [True] alike: both return, with the same numbers of directories
    and files and the same total size, or both raise the same exception. *)
Theorem X6_detailed_totals_are_ascii_totals `{builtins} :
  forall start_path_str now start_path show_hidden max_depth,
    exists_ start_path = Ok true ->
    match
      Ascii.generate_ascii_tree start_path_str now start_path show_hidden max_depth,
      Detailed.generate_detailed_tree start_path_str start_path show_hidden max_depth
    with
    | Ok a, Ok d =>
        Ascii.total_dirs a = Detailed.dir_count d
        /\ Ascii.total_files a = Detailed.file_count d
        /\ Ascii.total_size a = Detailed.total_size d
    | Raise e, Raise e' => e = e'
    | _, _ => False
    end.
Proof.
  intros start_path_str now start_path show_hidden max_depth He.
  unfold Ascii.generate_ascii_tree, Detailed.generate_detailed_tree.
  rewrite He.
  match goal with
  | |- context [Ascii.build_tree show_hidden max_depth start_path ?p ?l ?d ?a] =>
      match goal with
      | |- context [Detailed.process_directory show_hidden max_depth start_path
                      ?p' ?l' d ?e] =>
          pose proof (@detailed_agrees_all _ show_hidden max_depth start_path
                        p l d a p' l' e) as Ho
      end
  end.
  match type of Ho with _ -> agree _ ?o1 ?o2 =>
    destruct o1 as [a1|e1 a1], o2 as [d1|e2 d1] end;
    cbn [agree] in Ho; apply Ho; repeat split; reflexivity.
Qed.

Lemma X6_detailed_totals_are_ascii_totals_witness :
  match
    Ascii.generate_ascii_tree (u "/root") (u "now") with_denied false None,
    Detailed.generate_detailed_tree (u "/root") with_denied false None
  with
  | Ok a, Ok d =>
      Ascii.total_dirs a = Detailed.dir_count d
      /\ Ascii.total_files a = Detailed.file_count d
      /\ Ascii.total_size a = Detailed.total_size d
  | Raise e, Raise e' => e = e'
  | _, _ => False
  end.
Proof.
  apply (@X6_detailed_totals_are_ascii_totals ascii_builtins
           (u "/root") (u "now") with_denied false None).
  reflexivity.
Defined.

(** ** The shape of the tree dictionary *)

(** Induction on a node with the hypothesis for the children of a
    directory. *)
Fixpoint tree_node_induction (P : pyval -> Prop)
    (Herror : P error_entry)
    (Hfile : forall nm ps size mtime,
        P (PDict [(k_name, PStr nm); (k_path, PStr ps); (k_type, PStr s_file);
                  (k_size, PInt size); (k_modified, PFloat mtime)]))
    (Hunreadable : forall nm,
        P (PDict [(k_name, PStr nm); (k_type, PStr s_file);
                  (k_error, PStr s_permission_denied)]))
    (Hdir : forall nm ps n m cs,
        (exists x, m = PFloat x) \/ m = PInt 0 ->
        Forall tree_node cs -> Forall P cs ->
        P (PDict (dir_dict nm ps n m cs)))
    (v : pyval) (Hv : tree_node v) {struct Hv} : P v :=
  match Hv in tree_node v return P v with
  | node_error => Herror
  | node_file nm ps size mtime => Hfile nm ps size mtime
  | node_unreadable nm => Hunreadable nm
  | @node_dir nm ps n m cs Hm Hcs =>
      Hdir nm ps n m cs Hm Hcs
        ((fix all (l : list pyval) (Hl : Forall tree_node l) {struct Hl}
            : Forall P l :=
            match Hl in Forall _ l return Forall P l with
            | Forall_nil _ => Forall_nil P
            | @Forall_cons _ _ c l' Hc Hl' =>
                Forall_cons c
                  (tree_node_induction Herror Hfile Hunreadable Hdir Hc)
                  (all l' Hl')
            end) cs Hcs)
  end.

Section DictNodes.
Context `{builtins}.
Import Method5.

Lemma file_entry_node item_str item nm ps n m cs :
  exists n' c,
    file_entry item_str item (dir_dict nm ps n m cs) = dir_dict nm ps n' m (cs ++ [c])
    /\ tree_node c.
Proof.
  unfold file_entry. destruct (stat item) as [st|e].
  - do 2 eexists. rewrite dir_dict_append, dir_dict_add_size.
    split; [reflexivity | apply node_file].
  - do 2 eexists. rewrite dir_dict_append. split; [reflexivity | apply node_unreadable].
Qed.

Lemma dict_loop_nodes max_depth ps depth items :
  Forall (fun item => forall path_str d v,
              directory_to_dict max_depth item path_str d = Ok v -> tree_node v)
    items ->
  Forall (fun item => is_dir item = Ok (kind_dir item)) items ->
  forall nm n m cs,
    Forall tree_node cs ->
    exists n' cs',
      for_each (dict_visit max_depth ps depth) items (dir_dict nm ps n m cs)
      = Returned (dir_dict nm ps n' m cs')
      /\ Forall tree_node cs'.
Proof.
  induction 1 as [|item items Hitem _ IH]; intros Hans nm n m cs Hcs.
  - exists n, cs. auto.
  - apply Forall_cons_iff in Hans. destruct Hans as [Hd Hans'].
    cbn [for_each]. destruct (kind_dir item).
    + rewrite dict_visit_dir by exact Hd.
      destruct (directory_to_dict_dir_returns max_depth item
                  (child_str ps (name item)) (depth + 1) Hd) as [v Hv].
      rewrite Hv. pose proof (Hitem _ _ _ Hv) as Hnode.
      apply directory_to_dict_sized in Hv. destruct Hv as (k & mc & ccs & -> & _).
      rewrite dir_dict_append, dir_dict_size, dir_dict_add_size. cbn [bind].
      apply (IH Hans'). apply Forall_app. auto.
    + rewrite dict_visit_file by exact Hd.
      destruct (file_entry_node (child_str ps (name item)) item nm ps n m cs)
        as (n1 & c & -> & Hc).
      cbn [bind]. apply (IH Hans'). apply Forall_app. auto.
Qed.

Lemma directory_to_dict_node max_depth p :
  forall path_str depth v,
    directory_to_dict max_depth p path_str depth = Ok v -> tree_node v.
Proof.
  induction p as [p IH] using listing_induction.
  intros path_str depth v. rewrite directory_to_dict_eq.
  destruct (modified_of p) as [m|e'] eqn:Hm; [|discriminate].
  pose proof (modified_of_cases _ Hm) as Hcases.
  cbv zeta. rewrite !header_children.
  destruct (depth_reached max_depth depth);
    [intros [= <-]; apply node_dir; auto|].
  destruct (ascii_listing true p) as [items|e] eqn:Hit; cbn [eval].
  - destruct (ascii_listing_ok _ _ Hit) as (ls & Hls & _ & Hans).
    destruct (@dict_loop_nodes max_depth path_str depth items)
      with (nm := name p) (n := 0) (m := m) (cs := @nil pyval)
      as (n' & cs' & -> & Hcs'); auto.
    + eapply listing_Forall; [exact IH | exact Hit].
    + intros [= <-]. now apply node_dir.
  - rewrite ?header_children. intros [= <-]. apply node_dir; auto.
    repeat constructor.
Qed.
End DictNodes.

(** X7.  Every node of the dictionary that [directory_to_dict] returns has
    one of four forms: a directory with the keys [name], [path], [type],
    [size], [modified], [children] in this order and nodes for children; a
    file with [name], [path], [type], [size], [modified]; a file whose
    [stat()] failed with [name], [type], [error]; and the bare entry
    [{'error': 'Permission denied'}] that stands for a listing that
    failed. *)
Theorem X7_dictionary_nodes `{builtins} :
  forall max_depth p path_str depth v,
    Method5.directory_to_dict max_depth p path_str depth = Ok v ->
    tree_node v.
Proof. intros max_depth p path_str depth v. apply directory_to_dict_node. Qed.

Lemma X7_dictionary_nodes_witness : tree_node (PDict scenario_dict).
Proof.
  apply (@X7_dictionary_nodes ascii_builtins None scenario (u "/root") 0).
  reflexivity.
Defined.

(** ** The XML tree beside the dictionary *)

Section XmlOutline.
Context `{builtins}.
Import Method5.

Lemma get_set_attrib_same k v a : get_attrib k (set_attrib k v a) = Some v.
Proof.
  induction a as [|[k0 v0] a IH]; cbn [set_attrib get_attrib].
  - now rewrite str_eqb_refl.
  - destruct (str_eqb k0 k) eqn:E; cbn [get_attrib]; now rewrite E.
Qed.

Lemma dict_outline_kind v :
  match dict_outline v with Node _ nm cs => Node (child_type v) nm cs end
  = dict_outline v.
Proof. destruct v; reflexivity. Qed.

Lemma dict_outline_dir_dict nm ps n m cs :
  dict_outline (PDict (dir_dict nm ps n m cs))
  = Node s_directory (Some nm) (map dict_outline cs).
Proof. reflexivity. Qed.

Lemma xml_outline_element tag attrib sub :
  xml_outline (Element tag attrib sub)
  = Node tag (get_attrib k_name attrib) (map xml_outline sub).
Proof. reflexivity. Qed.

Lemma xml_outline_node v :
  tree_node v ->
  forall tag attrib sub,
    xml_outline (dict_to_xml v (Element tag attrib sub))
    = match dict_outline v with
      | Node _ nm cs =>
          Node tag
            (match nm with Some _ => nm | None => get_attrib k_name attrib end)
            (map xml_outline sub ++ cs)
      end.
Proof.
  induction 1 as [|nm ps size mtime|nm|nm ps n m cs Hm Hcs IH]
    using tree_node_induction; intros tag attrib sub.
  - cbn [dict_to_xml error_entry]. cbn -[xml_outline get_attrib set_attrib].
    rewrite xml_outline_element, app_nil_r.
    now rewrite get_set_attrib_other by reflexivity.
  - cbn -[xml_outline get_attrib set_attrib].
    rewrite xml_outline_element, app_nil_r.
    rewrite !get_set_attrib_other by reflexivity.
    now rewrite get_set_attrib_same.
  - cbn -[xml_outline get_attrib set_attrib].
    rewrite xml_outline_element, app_nil_r.
    rewrite !get_set_attrib_other by reflexivity.
    now rewrite get_set_attrib_same.
  - rewrite (dict_to_xml_dir_dict _ _ _ _ _ _ _ Hm), dict_outline_dir_dict.
    rewrite xml_outline_element.
    rewrite !get_set_attrib_other by reflexivity.
    rewrite get_set_attrib_same, map_app. do 2 f_equal.
    unfold child_elements. rewrite map_map.
    apply map_ext_Forall. eapply Forall_impl; [|exact IH].
    intros c Hc. cbn beta. rewrite Hc. cbn [map app get_attrib].
    rewrite <- (dict_outline_kind c) at 2.
    destruct (dict_outline c) as [k [nm'|] cs']; reflexivity.
Qed.
End XmlOutline.

(** X8.  The XML tree of [save_tree_xml] mirrors the dictionary of the same
    walk: under the root element [directory_tree], which carries the name
    of the root directory, there is one element for each child of the
    dictionary, in the same order, with the child's ['type'] for tag
    (['item'] for the entry of a failed listing), its name for the
    attribute [name], and the same again below it. *)
Theorem X8_xml_mirrors_dictionary `{builtins} :
  forall start_path_str now start_path max_depth e,
    Method5.save_tree_xml start_path_str now start_path max_depth = Ok e ->
    exists size modified sub,
      Method5.directory_to_dict max_depth start_path start_path_str 0
      = Ok (PDict (dir_dict (name start_path) start_path_str size modified sub))
      /\ xml_outline e
         = Node (u "directory_tree") (Some (name start_path)) (map dict_outline sub).
Proof.
  intros start_path_str now start_path max_depth e.
  unfold Method5.save_tree_xml.
  destruct (Method5.directory_to_dict max_depth start_path start_path_str 0)
    as [v|e'] eqn:Hv; [|discriminate].
  intros [= <-].
  pose proof (directory_to_dict_node _ _ _ _ Hv) as Hnode.
  destruct (directory_to_dict_shape _ _ _ _ Hv) as (n & m & cs & Hm & ->).
  exists n, m, cs. split; [reflexivity|].
  cbn [Method5.set]. rewrite (xml_outline_node Hnode), dict_outline_dir_dict.
  reflexivity.
Qed.

Lemma X8_xml_mirrors_dictionary_witness :
  exists e,
    Method5.save_tree_xml (u "/root") (u "now") scenario None = Ok e
    /\ xml_outline e
       = Node (u "directory_tree") (Some (u "root"))
           [Node (u "directory") (Some (u "B")) [Node (u "file") (Some (u "c.txt")) []];
            Node (u "file") (Some (u "a.txt")) []].
Proof.
  destruct (Method5.save_tree_xml (u "/root") (u "now") scenario None) as [e|x] eqn:E;
    [|discriminate E].
  exists e. split; [reflexivity|].
  destruct (@X8_xml_mirrors_dictionary ascii_builtins
              (u "/root") (u "now") scenario None e E) as (n & m & sub & Hd & ->).
  injection Hd as _ _ <-. reflexivity.
Defined.

(** ** The JSON text is plain ASCII *)

Lemma plain_ascii_app a b : plain_ascii a -> plain_ascii b -> plain_ascii (a ++ b).
Proof. intros Ha Hb. apply Forall_app. auto. Qed.

Lemma plain_ascii_literal s :
  forallb (fun c => (c =? 0x0A) || ((0x20 <=? c) && (c <=? 0x7E))) s = true ->
  plain_ascii s.
Proof.
  intros Hs. apply Forall_forall. intros c Hc.
  rewrite forallb_forall in Hs. specialize (Hs c Hc). lia.
Qed.

Lemma plain_ascii_digits d : plain_ascii (digits_of_uint d).
Proof.
  induction d; cbn [digits_of_uint]; constructor; try assumption; lia.
Qed.

Lemma plain_ascii_str_of_int n : plain_ascii (str_of_int n).
Proof.
  unfold str_of_int. destruct (Z.to_int n).
  - apply plain_ascii_digits.
  - constructor; [lia | apply plain_ascii_digits].
Qed.

Lemma plain_ascii_hex_digit n : 0x20 <= Json.hex_digit (n mod 16) <= 0x7E.
Proof.
  unfold Json.hex_digit. pose proof (Z.mod_pos_bound n 16 ltac:(lia)).
  destruct (n mod 16 <? 10) eqn:E; lia.
Qed.

Lemma plain_ascii_backslash_u n : plain_ascii (Json.backslash_u n).
Proof.
  unfold Json.backslash_u, Json.hex4. cbn [app].
  unfold plain_ascii. repeat apply Forall_cons; try apply Forall_nil; try lia;
    right; apply plain_ascii_hex_digit.
Qed.

Lemma plain_ascii_escape_char c : plain_ascii (Json.escape_char c).
Proof.
  unfold Json.escape_char.
  repeat match goal with
         | |- plain_ascii (if ?b then _ else _) => destruct b eqn:?
         end;
    try (apply plain_ascii_literal; reflexivity);
    try apply plain_ascii_backslash_u.
  - constructor; [lia | constructor].
  - cbv zeta. apply plain_ascii_app; apply plain_ascii_backslash_u.
Qed.

Lemma plain_ascii_basestring s : plain_ascii (Json.encode_basestring_ascii s).
Proof.
  unfold Json.encode_basestring_ascii.
  apply plain_ascii_app; [apply plain_ascii_literal; reflexivity|].
  apply plain_ascii_app; [|apply plain_ascii_literal; reflexivity].
  induction s as [|c s IH]; [constructor|].
  cbn [flat_map]. apply plain_ascii_app; [apply plain_ascii_escape_char | exact IH].
Qed.

Lemma plain_ascii_newline_indent level : plain_ascii (Json.newline_indent level).
Proof.
  unfold Json.newline_indent. constructor; [lia|].
  apply Forall_forall. intros c Hc. apply repeat_spec in Hc. lia.
Qed.

Section PlainJson.
Context `{builtins}.
Hypothesis float_repr_plain :
  forall x, Json.finite x = true -> plain_ascii (float_repr x).

Lemma plain_ascii_iterencode v : forall level, plain_ascii (Json.iterencode v level).
Proof.
  induction v as [|b|n|x|s|l IH|d IH] using pyval_induction; intros level.
  - apply plain_ascii_literal. reflexivity.
  - destruct b; apply plain_ascii_literal; reflexivity.
  - apply plain_ascii_str_of_int.
  - cbn [Json.iterencode]. unfold Json.floatstr.
    destruct (Json.finite x) eqn:Hx; [now apply float_repr_plain|].
    destruct (negb _); [apply plain_ascii_literal; reflexivity|].
    destruct (Json.float_negative x); apply plain_ascii_literal; reflexivity.
  - apply plain_ascii_basestring.
  - destruct l as [|y l]; [apply plain_ascii_literal; reflexivity|].
    rewrite iterencode_list. inversion IH as [|? ? Hy Hl]; subst.
    repeat apply plain_ascii_app;
      try apply plain_ascii_newline_indent;
      try (apply plain_ascii_literal; reflexivity); auto.
    unfold encode_items. clear Hy IH. induction Hl as [|z l Hz _ IHl]; [constructor|].
    cbn [flat_map]. repeat apply plain_ascii_app;
      try apply plain_ascii_newline_indent;
      try (apply plain_ascii_literal; reflexivity); auto.
  - destruct d as [|[k y] d]; [apply plain_ascii_literal; reflexivity|].
    rewrite iterencode_dict. inversion IH as [|? ? Hy Hd]; subst.
    assert (Hmember : forall kv lv,
               (forall lv', plain_ascii (Json.iterencode (snd kv) lv')) ->
               plain_ascii (encode_member lv kv)).
    { intros kv lv Hkv. unfold encode_member.
      apply plain_ascii_app; [apply plain_ascii_basestring|].
      apply plain_ascii_app; [apply plain_ascii_literal; reflexivity | apply Hkv]. }
    apply plain_ascii_app; [apply plain_ascii_literal; reflexivity|].
    apply plain_ascii_app; [apply plain_ascii_newline_indent|].
    apply plain_ascii_app; [apply Hmember, Hy|].
    apply plain_ascii_app;
      [|apply plain_ascii_app;
        [apply plain_ascii_newline_indent | apply plain_ascii_literal; reflexivity]].
    unfold encode_members. clear Hy IH. induction Hd as [|z d Hz _ IHd]; [constructor|].
    cbn [flat_map].
    apply plain_ascii_app; [|exact IHd].
    apply plain_ascii_app; [apply plain_ascii_literal; reflexivity|].
    apply plain_ascii_app; [apply plain_ascii_newline_indent | apply Hmember, Hz].
Qed.
End PlainJson.

Lemma ascii_float_repr_plain :
  forall x, Json.finite x = true -> plain_ascii (@float_repr ascii_builtins x).
Proof.
  intros x _. cbn [float_repr ascii_builtins].
  apply plain_ascii_app; [apply plain_ascii_str_of_int|].
  apply plain_ascii_literal. reflexivity.
Qed.

(** X9.  The text that [save_tree_json] writes holds line feeds and
    printable ASCII characters only, whatever characters the names of the
    files hold: [json.dump] escapes every other character.  (The [repr] of
    a finite float is taken to be such a text.) *)
Theorem X9_json_text_is_plain_ascii `{builtins} :
  (forall x, Json.finite x = true -> plain_ascii (float_repr x)) ->
  forall start_path_str now start_path max_depth text,
    Json.save_tree_json start_path_str now start_path max_depth = Ok text ->
    plain_ascii text.
Proof.
  intros Hfloat start_path_str now start_path max_depth text.
  unfold Json.save_tree_json.
  destruct (Method5.json_tree_dict _ _ _ _) as [tree_dict|e]; [|discriminate].
  intros [= <-]. now apply plain_ascii_iterencode.
Qed.

Lemma X9_json_text_is_plain_ascii_witness :
  exists text,
    @Json.save_tree_json ascii_builtins (u "/root") (u "now") exotic None = Ok text
    /\ plain_ascii text.
Proof.
  destruct (@Json.save_tree_json ascii_builtins (u "/root") (u "now") exotic None)
    as [text|e] eqn:E; [|discriminate E].
  exists text. split; [reflexivity|].
  exact (@X9_json_text_is_plain_ascii ascii_builtins ascii_float_repr_plain
           (u "/root") (u "now") exotic None text E).
Defined.

(* ===================================================================== *)
(** * [method3] beside the detailed tree of the generator *)
(* ===================================================================== *)

Section Method3Facts.
Context `{builtins}.
Import Method3.

Lemma method3_process_directory_eq show_hidden p prefix is_last s :
  process_directory show_hidden p prefix is_last s =
  try_except_PermissionError
    (eval (ascii_listing show_hidden p) s (fun items =>
       for_each (method3_visit show_hidden prefix is_last (len items))
         (enumerate items) s))
    (fun s =>
       Returned (append_line
                   (prefix ++ corner ++ lock_mark ++ u "[Permission Denied]") s)).
Proof.
  destruct p as [n|n [st|e]|n st [ls|e]]; try reflexivity.
  cbn [process_directory iterdir_calling]. unfold ascii_listing. cbn [iterdir].
  f_equal.
  assert (E : (if negb show_hidden
               then filter (fun x => not_hidden (fst x))
                      (map (fun item => (item, process_directory show_hidden item)) ls)
               else map (fun item => (item, process_directory show_hidden item)) ls)
              = map (fun item => (item, process_directory show_hidden item))
                  (if negb show_hidden then filter not_hidden ls else ls)).
  { destruct show_hidden; simpl; [reflexivity | apply filter_not_hidden]. }
  cbv zeta. rewrite E, sort_dirs_first_calling_eq.
  destruct (sort_dirs_first _) as [items|e]; [|reflexivity].
  cbn [eval].
  rewrite len_map. unfold enumerate. rewrite enumerate_from_map, for_each_map.
  apply for_each_ext, Forall_forall. intros [i item] _ s'.
  reflexivity.
Qed.

(** [method3] and the generator side by side, for a relation [R] between
    their states that the steps of the two loops keep on the entries that
    are [fit]. *)
Section SideBySide.
Variable R : Detailed.state -> state -> Prop.
Variable fit : path -> Prop.
Hypothesis fit_entries : forall n st ls, fit (Dir n st (Ok ls)) -> Forall fit ls.
Hypothesis R_dir : forall line d m,
    R d m ->
    R (Detailed.append_line line (Detailed.incr_dirs d)) (append_line line (incr_dirs m)).
Hypothesis R_file : forall prefix connector item d m,
    fit item -> kind_dir item = false -> R d m ->
    R (Detailed.file_entry prefix connector item d) (file_entry prefix connector item m).
Hypothesis R_denied : forall line d m,
    R d m -> R (Detailed.append_line line d) (append_line line m).

Definition method3_agrees (show_hidden : bool) (p : path) : Prop :=
  forall prefix is_last depth d m,
    R d m ->
    agree R
      (Detailed.process_directory show_hidden None p prefix is_last depth d)
      (process_directory show_hidden p prefix is_last m).

Lemma method3_loop_agrees show_hidden prefix is_last depth n items :
  Forall (fun item => fit item /\ method3_agrees show_hidden item) items ->
  Forall (fun item => is_dir item = Ok (kind_dir item)) items ->
  forall i d m,
    R d m ->
    agree R
      (for_each (detailed_visit show_hidden None prefix is_last depth n)
         (enumerate_from i items) d)
      (for_each (method3_visit show_hidden prefix is_last n)
         (enumerate_from i items) m).
Proof.
  induction 1 as [|item items [Hfit Hitem] _ IHl]; intros Hans i d m Hdm;
    cbn [enumerate_from for_each]; [exact Hdm|].
  apply Forall_cons_iff in Hans. destruct Hans as [Hd Hans'].
  unfold detailed_visit at 1, method3_visit at 1. cbn [fst snd].
  rewrite Hd. cbn [eval]. destruct (kind_dir item) eqn:Hk.
  - match goal with |- agree _ (bind ?o1 _) (bind ?o2 _) =>
      assert (Ho : agree R o1 o2) end.
    { apply Hitem. now apply R_dir. }
    match type of Ho with agree _ ?o1 ?o2 =>
      destruct o1 as [d1|e1 d1], o2 as [m1|e2 m1] end;
      cbn [agree bind] in *; try contradiction; auto.
  - cbn [bind]. apply (IHl Hans'). now apply R_file.
Qed.

Lemma method3_agrees_all show_hidden p : fit p -> method3_agrees show_hidden p.
Proof.
  induction p as [p IH] using listing_induction.
  intros Hfit prefix is_last depth d m Hdm.
  rewrite process_directory_eq, method3_process_directory_eq.
  cbn [depth_exceeded].
  apply try_agree; [|intros s t Hst; now apply R_denied].
  destruct (ascii_listing show_hidden p) as [items|e] eqn:Hit; cbn [eval agree];
    [|auto].
  destruct (ascii_listing_ok _ _ Hit) as (ls & Hls & _ & Hans).
  unfold enumerate. apply method3_loop_agrees; [|exact Hans|exact Hdm].
  specialize (IH ls Hls).
  destruct (iterdir_ok _ Hls) as (n & st & ->).
  apply fit_entries in Hfit.
  apply Forall_forall. intros item Hin.
  apply (ascii_listing_In _ _ item Hls Hit) in Hin. destruct Hin as [Hin _].
  rewrite Forall_forall in IH, Hfit. split; [now apply Hfit|].
  apply IH; [exact Hin | now apply Hfit].
Qed.
End SideBySide.

(** The two counters are the same, and the lines of [method3] are [hd] and
    a body; the same, and the lines of the generator are [hd], the rule and
    that body. *)
Definition same_body (d : Detailed.state) (m : state) : Prop :=
  Detailed.dir_count d = dir_count m /\ Detailed.file_count d = file_count m.

Definition same_counts3 (hd : pystr) (d : Detailed.state) (m : state) : Prop :=
  same_body d m /\ exists body, tree_lines m = hd :: body.

Definition same_lines3 (hd : pystr) (d : Detailed.state) (m : state) : Prop :=
  same_body d m
  /\ exists body,
       Detailed.tree_lines d = hd :: rule60 :: body /\ tree_lines m = hd :: body.

Lemma small_files_entries n st ls :
  small_files (Dir n st (Ok ls)) = true -> Forall (fun x => small_files x = true) ls.
Proof.
  cbn [small_files]. induction ls as [|x ls IH]; [constructor|].
  intros Hl. apply andb_true_iff in Hl. destruct Hl as [Hx Hl]. constructor; auto.
Qed.

Lemma method3_counts hd show_hidden p :
  method3_agrees (same_counts3 hd) show_hidden p.
Proof.
  apply method3_agrees_all with (fit := fun _ => True); auto.
  - intros n st ls _. apply Forall_forall. auto.
  - intros line d m [[D F] [body L]]. unfold same_counts3, same_body. cbn.
    rewrite L. split; [lia | exists (body ++ [line]); reflexivity].
  - intros prefix connector item d m _ _ [[D F] [body L]].
    unfold same_counts3, same_body, Detailed.file_entry, file_entry.
    destruct (stat item); cbn; rewrite L; (split; [lia | eexists; reflexivity]).
  - intros line d m [[D F] [body L]]. unfold same_counts3, same_body. cbn.
    rewrite L. split; [lia | exists (body ++ [line]); reflexivity].
Qed.

Lemma method3_lines hd show_hidden p :
  small_files p = true -> method3_agrees (same_lines3 hd) show_hidden p.
Proof.
  apply method3_agrees_all with (fit := fun p => small_files p = true).
  - apply small_files_entries.
  - intros line d m [[D F] (body & Ld & Lm)]. unfold same_lines3, same_body. cbn.
    rewrite Ld, Lm. split; [lia | exists (body ++ [line]); split; reflexivity].
  - intros prefix connector item d m Hfit Hd [[D F] (body & Ld & Lm)].
    unfold same_lines3, same_body, Detailed.file_entry, file_entry.
    destruct item as [n|n [st|e]|n st ls]; try discriminate; cbn [stat];
      cbn; rewrite Ld, Lm; (split; [lia|]);
      try (eexists; split; reflexivity).
    cbn [small_files] in Hfit.
    unfold Detailed.size_str, size_str.
    replace (st_size st >? 1024 * 1024 * 1024) with false by lia.
    replace (st_size st >? 1024 * 1024) with false by lia.
    replace (st_size st >? 1024) with false by lia.
    eexists; split; reflexivity.
  - intros line d m [[D F] (body & Ld & Lm)]. unfold same_lines3, same_body. cbn.
    rewrite Ld, Lm. split; [lia | exists (body ++ [line]); split; reflexivity].
Qed.
End Method3Facts.

(** X10.  [method3]'s [generate_detailed_tree] and the generator's with
    [max_depth = None] walk a tree alike: both return or both raise the same
    exception, and the summary line of [method3] gives the numbers of
    directories and files that the generator counts.  When no file is
    larger than 1024 bytes the lines of the tree are the same too: the
    generator's lines are those of [method3] with the rule after the first
    line. *)
Theorem X10_method3_is_detailed_unlimited `{builtins} :
  forall start_path_str start_path show_hidden,
    match
      Detailed.generate_detailed_tree start_path_str start_path show_hidden None,
      Method3.generate_detailed_tree start_path_str start_path show_hidden
    with
    | Ok d, Ok lines =>
        exists body,
          lines
          = (open_folder_mark ++ start_path_str) :: body
              ++ [u (String "010" "") ++ Method3.rule50;
                  u "Summary: " ++ str_of_int (Detailed.dir_count d)
                    ++ u " directories, " ++ str_of_int (Detailed.file_count d)
                    ++ u " files"]
          /\ (small_files start_path = true ->
              Detailed.tree_lines d
              = (open_folder_mark ++ start_path_str) :: rule60 :: body)
    | Raise e, Raise e' => e = e'
    | _, _ => False
    end.
Proof.
  intros start_path_str start_path show_hidden.
  unfold Detailed.generate_detailed_tree, Method3.generate_detailed_tree.
  set (hd := open_folder_mark ++ start_path_str).
  set (d0 := Detailed.mk_state [hd; rule60] 0 0 0).
  set (m0 := Method3.mk_state [hd] 0 0).
  destruct (small_files start_path) eqn:Hsmall.
  - pose proof (@method3_lines _ hd show_hidden start_path Hsmall [] true 0 d0 m0) as Ho.
    match type of Ho with _ -> agree _ ?o1 ?o2 =>
      destruct o1 as [d1|e1 d1], o2 as [m1|e2 m1] end;
      cbn [agree] in Ho.
    + destruct Ho as [[D F] (body & Ld & Lm)].
      { split; [split; reflexivity | exists []; split; reflexivity]. }
      exists body. cbv zeta.
      cbn [Method3.append_line Method3.tree_lines Method3.dir_count Method3.file_count].
      rewrite Lm, <- D, <- F, <- app_assoc. split; [reflexivity | auto].
    + apply Ho. split; [split; reflexivity | exists []; split; reflexivity].
    + apply Ho. split; [split; reflexivity | exists []; split; reflexivity].
    + apply Ho. split; [split; reflexivity | exists []; split; reflexivity].
  - pose proof (@method3_counts _ hd show_hidden start_path [] true 0 d0 m0) as Ho.
    match type of Ho with _ -> agree _ ?o1 ?o2 =>
      destruct o1 as [d1|e1 d1], o2 as [m1|e2 m1] end;
      cbn [agree] in Ho.
    + destruct Ho as [[D F] (body & Lm)].
      { split; [split; reflexivity | exists []; reflexivity]. }
      exists body. cbv zeta.
      cbn [Method3.append_line Method3.tree_lines Method3.dir_count Method3.file_count].
      rewrite Lm, <- D, <- F, <- app_assoc. split; [reflexivity | discriminate].
    + apply Ho. split; [split; reflexivity | exists []; reflexivity].
    + apply Ho. split; [split; reflexivity | exists []; reflexivity].
    + apply Ho. split; [split; reflexivity | exists []; reflexivity].
Qed.

Lemma X10_method3_is_detailed_unlimited_witness :
  match
    Detailed.generate_detailed_tree (u "/root") scenario false None,
    Method3.generate_detailed_tree (u "/root") scenario false
  with
  | Ok d, Ok lines =>
      exists body,
        lines
        = (open_folder_mark ++ u "/root") :: body
            ++ [u (String "010" "") ++ Method3.rule50;
                u "Summary: " ++ str_of_int (Detailed.dir_count d)
                  ++ u " directories, " ++ str_of_int (Detailed.file_count d)
                  ++ u " files"]
        /\ (small_files scenario = true ->
            Detailed.tree_lines d = (open_folder_mark ++ u "/root") :: rule60 :: body)
  | Raise e, Raise e' => e = e'
  | _, _ => False
  end.
Proof.
  exact (@X10_method3_is_detailed_unlimited ascii_builtins (u "/root") scenario false).
Defined.

(* ===================================================================== *)
(** * [method4]: what the XML export cannot take *)
(* ===================================================================== *)

Section Method4Facts.
Context `{builtins}.
Import Method4.


Lemma dir_dict4_append nm cs c :
  append_child c (dir_dict4 nm cs) = dir_dict4 nm (cs ++ [c]).
Proof. reflexivity. Qed.















End Method4Facts.


(* ===================================================================== *)
(** * The files that the entry points write *)
(* ===================================================================== *)

(** ** The store and the names *)

Lemma startswith_app p s : startswith (p ++ s) p = true.
Proof.
  induction p as [|c p IH]; cbn [app startswith]; [now destruct s|].
  now rewrite Z.eqb_refl, IH.
Qed.

Lemma endswith_app s suffix : Cli.endswith (s ++ suffix) suffix = true.
Proof. unfold Cli.endswith. rewrite rev_app_distr. apply startswith_app. Qed.

Lemma startswith_length s p : startswith s p = true -> (List.length p <= List.length s)%nat.
Proof.
  revert s. induction p as [|c p IH]; intros s; cbn [startswith List.length]; [lia|].
  destruct s as [|d s]; [discriminate|]. intros Hs. apply andb_true_iff in Hs.
  destruct Hs as [_ Hs]. apply IH in Hs. cbn [List.length]. lia.
Qed.

Lemma startswith_head s p c : startswith s (c :: p) = true -> exists s', s = c :: s'.
Proof.
  destruct s as [|d s]; cbn [startswith]; [discriminate|].
  intros Hs. apply andb_true_iff in Hs. destruct Hs as [Hc _].
  apply Z.eqb_eq in Hc. subst. eauto.
Qed.

Lemma lookup_store_same name content l :
  Cli.lookup name (Cli.store name content l) = Some content.
Proof.
  induction l as [|[n c] l IH]; cbn [Cli.store Cli.lookup].
  - now rewrite str_eqb_refl.
  - destruct (str_eqb n name) eqn:E; cbn [Cli.lookup]; now rewrite E.
Qed.

Lemma lookup_store_other name name' content l :
  name' <> name ->
  Cli.lookup name' (Cli.store name content l) = Cli.lookup name' l.
Proof.
  intros Hn. induction l as [|[n c] l IH]; cbn [Cli.store Cli.lookup].
  - destruct (str_eqb name name') eqn:E; [|reflexivity].
    apply str_eqb_eq in E. congruence.
  - destruct (str_eqb n name) eqn:E; cbn [Cli.lookup].
    + apply str_eqb_eq in E. subst n.
      destruct (str_eqb name name') eqn:E'; [|reflexivity].
      apply str_eqb_eq in E'. congruence.
    + now rewrite IH.
Qed.

Lemma exists_file_put name content w : Cli.exists_file name (Cli.put name content w) = true.
Proof. unfold Cli.exists_file, Cli.put. cbn [Cli.files]. now rewrite lookup_store_same. Qed.

Lemma exists_file_put_other name name' content w :
  name' <> name ->
  Cli.exists_file name' (Cli.put name content w) = Cli.exists_file name' w.
Proof.
  intros Hn. unfold Cli.exists_file, Cli.put. cbn [Cli.files].
  now rewrite lookup_store_other.
Qed.

Lemma utf8_len_pos c : 0 < Cli.utf8_len c.
Proof. unfold Cli.utf8_len. repeat destruct (_ <? _); lia. Qed.

Lemma getsize_put c content name w :
  0 < Cli.getsize name (Cli.put name (c :: content) w).
Proof.
  unfold Cli.getsize, Cli.put. cbn [Cli.files]. rewrite lookup_store_same.
  cbn [fold_right]. pose proof (utf8_len_pos c).
  assert (0 <= fold_right (fun c n => Cli.utf8_len c + n) 0 content).
  { induction content as [|d content IH]; cbn [fold_right]; [lia|].
    pose proof (utf8_len_pos d). lia. }
  lia.
Qed.

(** One [write] into a file that opens: the file holds the text, or is left
    empty by the [UnicodeEncodeError]. *)
Lemma write_file_one name text w :
  Cli.write_file name [text] w =
  match Cli.open_error w name with
  | Some e => Cli.Failed (Cli.OsError e) w
  | None =>
      if existsb Cli.is_surrogate text
      then Cli.Failed Cli.UnicodeEncodeError (Cli.put name [] w)
      else Cli.Done tt (Cli.put name text w)
  end.
Proof.
  unfold Cli.write_file. destruct (Cli.open_error w name); [reflexivity|].
  cbn [Cli.write_all]. now destruct (existsb Cli.is_surrogate text).
Qed.

Lemma write_file_done name text w w' :
  Cli.write_file name [text] w = Cli.Done tt w' -> w' = Cli.put name text w.
Proof.
  rewrite write_file_one. destruct (Cli.open_error w name); [discriminate|].
  destruct (existsb Cli.is_surrogate text); [discriminate|]. now intros [= <-].
Qed.

Lemma join_head sep c x l : exists rest, Cli.join sep ((c :: x) :: l) = c :: rest.
Proof. destruct l; cbn [Cli.join app]; eauto. Qed.

Section OutputNames.
Context `{builtins}.

Lemma auto_name_endswith prefix start_path c ext :
  Cli.endswith (Cli.auto_name prefix start_path c ext) ext = true.
Proof.
  unfold Cli.auto_name.
  rewrite !app_assoc. apply endswith_app.
Qed.

Lemma text_output_name_known prefix start_path c output_file :
  Cli.endswith_any (Cli.text_output_name prefix start_path c output_file)
    Cli.known_extensions = true.
Proof.
  unfold Cli.text_output_name. destruct output_file as [o|].
  - destruct (Cli.endswith_any o Cli.known_extensions) eqn:E; cbn [negb]; [exact E|].
    unfold Cli.endswith_any, Cli.known_extensions. cbn [existsb].
    now rewrite endswith_app.
  - unfold Cli.endswith_any, Cli.known_extensions. cbn [existsb].
    now rewrite auto_name_endswith.
Qed.

Lemma data_output_name_ext ext start_path c output_file :
  Cli.endswith (Cli.data_output_name ext start_path c output_file) ext = true.
Proof.
  unfold Cli.data_output_name. destruct output_file as [o|].
  - destruct (Cli.endswith o ext) eqn:E; cbn [negb]; [exact E | apply endswith_app].
  - apply auto_name_endswith.
Qed.
End OutputNames.

Lemma generate_ascii_tree_header `{builtins} start_path_str now start_path
    show_hidden max_depth s :
  Ascii.generate_ascii_tree start_path_str now start_path show_hidden max_depth
  = Ok s ->
  exists body,
    Ascii.tree_lines s
    = [u "ASCII Tree for: " ++ start_path_str; u "Generated: " ++ now; rule60]
        ++ body.
Proof.
  unfold Ascii.generate_ascii_tree.
  destruct (exists_ start_path) as [[|]|e0]; try discriminate.
  destruct (Ascii.build_tree _ _ _ _ _ _ _) as [s'|e s'] eqn:E; [|discriminate].
  intros [= <-]. apply ascii_lines_all in E.
  destruct E as (body & d & f & (L & _) & _). exists body. exact L.
Qed.

(** X12.  When [generate_ascii_tree] returns [(tree_str, output_file)], it
    has written exactly one file: [output_file] holds [tree_str], which is
    not empty, and every other file is as before.  The name ends in
    [.txt], [.json] or [.xml]: a given name that ends so is taken as it
    is, any other gets [.txt] appended. *)
Theorem X12_ascii_tree_file `{builtins} :
  forall c start_path_str start_path output_file show_hidden max_depth w
         tree_str written w',
    Cli.generate_ascii_tree c start_path_str start_path output_file show_hidden
      max_depth w
    = Cli.Done (tree_str, written) w' ->
    w' = Cli.put written tree_str w
    /\ 0 < Cli.getsize written w'
    /\ Cli.endswith_any written Cli.known_extensions = true
    /\ (forall given,
          output_file = Some given ->
          written
          = if Cli.endswith_any given Cli.known_extensions
            then given else given ++ u ".txt").
Proof.
  intros c start_path_str start_path output_file show_hidden max_depth w
    tree_str written w'.
  unfold Cli.generate_ascii_tree.
  destruct (Ascii.generate_ascii_tree _ _ _ _ _) as [s|e] eqn:Hs; [|discriminate].
  cbv zeta.
  destruct (Cli.write_file _ _ w) as [[] w1|f w1] eqn:Hw; [|discriminate].
  intros [= <- <- <-]. apply write_file_done in Hw. subst w1.
  split; [reflexivity|]. split; [|split].
  - destruct (generate_ascii_tree_header _ _ _ _ _ Hs) as (body & ->).
    change (u "ASCII Tree for: " ++ start_path_str)
      with (0x41 :: (u "SCII Tree for: " ++ start_path_str)).
    cbn [app].
    match goal with |- context [Cli.join Cli.nl ((?c :: ?x) :: ?l)] =>
      pose proof (join_head Cli.nl c x l) as [rest Hj];
      unfold pystr in *; rewrite Hj end.
    apply getsize_put.
  - apply text_output_name_known.
  - intros given ->. unfold Cli.text_output_name.
    now destruct (Cli.endswith_any given Cli.known_extensions).
Qed.

(** ** What a call leaves in the store *)

Lemma wrote_put name content w : wrote name w (Cli.put name content w).
Proof.
  split; [apply exists_file_put|]. split; [|reflexivity].
  intros other Ho. unfold Cli.put. cbn [Cli.files]. now apply lookup_store_other.
Qed.

Lemma wrote_trans name w1 w2 w3 : wrote name w1 w2 -> wrote name w2 w3 -> wrote name w1 w3.
Proof.
  intros (_ & F1 & O1) (E2 & F2 & O2). split; [exact E2|]. split.
  - intros other Ho. now rewrite F2, F1.
  - now rewrite O2.
Qed.

Lemma write_all_wrote name chunks :
  forall written w w',
    Cli.write_all name chunks written w = Cli.Done tt w' ->
    w' = Cli.put name (written ++ List.concat chunks) w.
Proof.
  induction chunks as [|chunk chunks IH]; intros written w w'; cbn [Cli.write_all List.concat].
  - rewrite app_nil_r. now intros [= <-].
  - destruct (existsb Cli.is_surrogate chunk); [discriminate|].
    intros Hw. apply IH in Hw. now rewrite <- app_assoc in Hw.
Qed.

Lemma write_file_wrote name chunks w w' :
  Cli.write_file name chunks w = Cli.Done tt w' ->
  w' = Cli.put name (List.concat chunks) w.
Proof.
  unfold Cli.write_file. destruct (Cli.open_error w name); [discriminate|].
  apply write_all_wrote.
Qed.

Section Wrote.
Context `{builtins}.
Variable rich_available : bool.
Variable export_text : tree -> option pystr.
Variable toprettyxml : Method5.element -> option pystr.

Ltac written_by Hw :=
  match type of Hw with
  | Cli.write_file _ _ _ = _ => apply write_file_wrote in Hw; subst; apply wrote_put
  end.

Lemma generate_enhanced_tree_wrote c start_path_str start_path output_file max_depth
    w r w' :
  Cli.generate_enhanced_tree c start_path_str start_path output_file max_depth w
  = Cli.Done r w' ->
  r = output_file /\ wrote output_file w w'.
Proof.
  unfold Cli.generate_enhanced_tree.
  destruct (Enhanced.generate_enhanced_tree _ _ _ _); [|discriminate]. cbv zeta.
  destruct (Cli.write_file _ _ w) as [[] w1|f w1] eqn:Hw; [|discriminate].
  intros [= <- <-]. split; [reflexivity | written_by Hw].
Qed.

Lemma generate_ascii_tree_wrote c start_path_str start_path output_file show_hidden
    max_depth w r w' :
  Cli.generate_ascii_tree c start_path_str start_path output_file show_hidden
    max_depth w = Cli.Done r w' ->
  wrote (Cli.text_output_name (u "ascii_tree") start_path c output_file) w w'.
Proof.
  unfold Cli.generate_ascii_tree.
  destruct (Ascii.generate_ascii_tree _ _ _ _ _); [|discriminate]. cbv zeta.
  destruct (Cli.write_file _ _ w) as [[] w1|f w1] eqn:Hw; [|discriminate].
  intros [= <- <-]. written_by Hw.
Qed.

Lemma generate_detailed_tree_wrote c start_path_str start_path output_file
    show_hidden max_depth w r w' :
  Cli.generate_detailed_tree c start_path_str start_path output_file show_hidden
    max_depth w = Cli.Done r w' ->
  wrote (Cli.text_output_name (u "detailed") start_path c output_file) w w'.
Proof.
  unfold Cli.generate_detailed_tree.
  destruct (Detailed.generate_detailed_tree _ _ _ _); [|discriminate]. cbv zeta.
  destruct (Cli.write_file _ _ w) as [[] w1|f w1] eqn:Hw; [|discriminate].
  intros [= <- <-]. written_by Hw.
Qed.

Lemma generate_directory_tree_wrote c start_path_str start_path given max_depth
    w r w' :
  given <> [] ->
  Cli.generate_directory_tree c start_path_str start_path (Some given) max_depth
    true w = Cli.Done r w' ->
  wrote (Cli.text_output_name (u "tree") start_path c (Some given)) w w'.
Proof.
  intros Hg. unfold Cli.generate_directory_tree.
  destruct (Basic.generate_directory_tree _ _ _ _); [|discriminate]. cbv zeta.
  destruct given as [|g given]; [contradiction|].
  destruct (Cli.write_file _ _ w) as [[] w1|f w1] eqn:Hw; [|discriminate].
  intros [= <- <-]. unfold Cli.text_output_name. written_by Hw.
Qed.

Lemma save_tree_json_wrote c start_path_str start_path output_file max_depth w r w' :
  Cli.save_tree_json c start_path_str start_path output_file max_depth w
  = Cli.Done r w' ->
  wrote (Cli.data_output_name (u ".json") start_path c output_file) w w'.
Proof.
  unfold Cli.save_tree_json. cbv zeta.
  destruct (Json.save_tree_json _ _ _ _); [|discriminate].
  destruct (Cli.write_file _ _ w) as [[] w1|f w1] eqn:Hw; [|discriminate].
  intros [= <- <-]. written_by Hw.
Qed.

Lemma save_tree_xml_wrote c start_path_str start_path output_file max_depth w r w' :
  Cli.save_tree_xml toprettyxml c start_path_str start_path output_file max_depth w
  = Cli.Done r w' ->
  wrote (Cli.data_output_name (u ".xml") start_path c output_file) w w'.
Proof.
  unfold Cli.save_tree_xml. cbv zeta.
  destruct (Method5.save_tree_xml _ _ _ _); [|discriminate].
  destruct (toprettyxml _); [|discriminate].
  destruct (Cli.write_file _ _ w) as [[] w1|f w1] eqn:Hw; [|discriminate].
  intros [= <- <-]. written_by Hw.
Qed.

Lemma create_rich_directory_tree_wrote c start_path_str start_path output_file
    max_depth w r w' :
  Cli.create_rich_directory_tree rich_available export_text c start_path_str
    start_path output_file max_depth w = Cli.Done r w' ->
  r = Cli.text_output_name (u "rich_tree") start_path c output_file
  /\ wrote (Cli.text_output_name (u "rich_tree") start_path c output_file) w w'.
Proof.
  unfold Cli.create_rich_directory_tree. cbv zeta.
  destruct (negb rich_available); [apply generate_enhanced_tree_wrote|].
  destruct (Rich.create_rich_directory_tree _ _); [|discriminate].
  destruct (export_text _); [|discriminate].
  destruct (Cli.write_file _ _ w) as [[] w1|f w1] eqn:Hw; [|discriminate].
  assert (H1 : wrote (Cli.text_output_name (u "rich_tree") start_path c output_file)
                 w w1) by written_by Hw.
  destruct (Cli.exists_file _ w1).
  - destruct (Cli.getsize _ w1 =? 0).
    + intros Hf. apply generate_enhanced_tree_wrote in Hf. destruct Hf as [-> H2].
      split; [reflexivity | eapply wrote_trans; eassumption].
    + intros [= <- <-]. auto.
  - intros Hf. apply generate_enhanced_tree_wrote in Hf. destruct Hf as [-> H2].
    split; [reflexivity | eapply wrote_trans; eassumption].
Qed.
End Wrote.

(** ** The text written is not empty *)

(** The first line is there and is not empty. *)
Definition headed (lines : list pystr) : Prop :=
  exists c x l, lines = (c :: x) :: l.

Lemma headed_app lines line : headed lines -> headed (lines ++ [line]).
Proof. intros (c & x & l & ->). exists c, x, (l ++ [line]). reflexivity. Qed.

Lemma headed_join lines : headed lines -> exists c rest, Cli.join Cli.nl lines = c :: rest.
Proof.
  intros (c & x & l & ->). destruct (join_head Cli.nl c x l) as [rest Hj]. eauto.
Qed.

Lemma headed_app_r lines more : headed lines -> headed (lines ++ more).
Proof. intros (c & x & l & ->). exists c, x, (l ++ more). reflexivity. Qed.

Section NotEmpty.
Context `{builtins}.
Variable rich_available : bool.
Variable export_text : tree -> option pystr.

Lemma getsize_headed name lines w :
  headed lines -> 0 < Cli.getsize name (Cli.put name (Cli.join Cli.nl lines) w).
Proof.
  intros Hl. destruct (headed_join Hl) as (c & rest & ->). apply getsize_put.
Qed.

Lemma generate_enhanced_tree_size c start_path_str start_path output_file max_depth
    w r w' :
  Cli.generate_enhanced_tree c start_path_str start_path output_file max_depth w
  = Cli.Done r w' ->
  0 < Cli.getsize output_file w'.
Proof.
  unfold Cli.generate_enhanced_tree, Enhanced.generate_enhanced_tree.
  match goal with |- context [Enhanced.build_tree ?a ?b ?c ?d ?e ?s] =>
    destruct (Enhanced.build_tree a b c d e s) as [s1|e1 s1] eqn:E end;
    [|discriminate].
  cbv zeta.
  destruct (Cli.write_file _ _ w) as [[] w1|f w1] eqn:Hw; [|discriminate].
  intros [= <- <-]. apply write_file_done in Hw. subst w1.
  apply enhanced_extends_all in E. destruct E as (under & ->).
  apply getsize_headed, headed_app_r, headed_app_r.
  exists 0x45, (u "NHANCED TREE for: " ++ start_path_str),
    [u "Generated: " ++ Cli.now c; rule60]. reflexivity.
Qed.

Lemma generate_ascii_tree_size c start_path_str start_path output_file show_hidden
    max_depth w r w' :
  Cli.generate_ascii_tree c start_path_str start_path output_file show_hidden
    max_depth w = Cli.Done r w' ->
  0 < Cli.getsize (Cli.text_output_name (u "ascii_tree") start_path c output_file) w'.
Proof.
  unfold Cli.generate_ascii_tree.
  destruct (Ascii.generate_ascii_tree _ _ _ _ _) as [s|e] eqn:Hs; [|discriminate].
  cbv zeta.
  destruct (Cli.write_file _ _ w) as [[] w1|f w1] eqn:Hw; [|discriminate].
  intros [= <- <-]. apply write_file_done in Hw. subst w1.
  apply getsize_headed, headed_app_r.
  destruct (generate_ascii_tree_header _ _ _ _ _ Hs) as (body & ->).
  exists 0x41, (u "SCII Tree for: " ++ start_path_str),
    ([u "Generated: " ++ Cli.now c; rule60] ++ body). reflexivity.
Qed.

Lemma generate_detailed_tree_size c start_path_str start_path output_file show_hidden
    max_depth w r w' :
  Cli.generate_detailed_tree c start_path_str start_path output_file show_hidden
    max_depth w = Cli.Done r w' ->
  0 < Cli.getsize (Cli.text_output_name (u "detailed") start_path c output_file) w'.
Proof.
  unfold Cli.generate_detailed_tree, Detailed.generate_detailed_tree.
  match goal with |- context [Detailed.process_directory ?a ?b ?c ?d ?e ?f ?s] =>
    destruct (Detailed.process_directory a b c d e f s) as [s1|e1 s1] eqn:E end;
    [|discriminate].
  cbv zeta.
  destruct (Cli.write_file _ _ w) as [[] w1|f w1] eqn:Hw; [|discriminate].
  intros [= <- <-]. apply write_file_done in Hw. subst w1.
  apply detailed_extends_all in E. destruct E as (under & ->).
  apply getsize_headed, headed_app_r, headed_app_r.
  exists 0x1F4C2, (0x20 :: start_path_str), [rule60]. reflexivity.
Qed.

Lemma generate_directory_tree_size c start_path_str start_path given max_depth
    w r w' :
  given <> [] ->
  Cli.generate_directory_tree c start_path_str start_path (Some given) max_depth
    true w = Cli.Done r w' ->
  0 < Cli.getsize (Cli.text_output_name (u "tree") start_path c (Some given)) w'.
Proof.
  intros Hg. unfold Cli.generate_directory_tree, Basic.generate_directory_tree.
  destruct (exists_ start_path) as [[|]|e0]; try discriminate. cbv zeta.
  destruct given as [|g given]; [contradiction|].
  destruct (Cli.write_file _ _ w) as [[] w1|f w1] eqn:Hw; [|discriminate].
  intros [= <- <-]. apply write_file_done in Hw. subst w1.
  unfold Cli.text_output_name. apply getsize_headed.
  exists 0x44, (u "irectory Tree for: " ++ start_path_str),
    ([u "Generated: " ++ Cli.now c; rule60] ++ [rule60]). reflexivity.
Qed.

Lemma save_tree_json_text start_path_str now start_path max_depth text :
  Json.save_tree_json start_path_str now start_path max_depth = Ok text ->
  exists rest, text = 0x7B :: rest.
Proof.
  unfold Json.save_tree_json, Method5.json_tree_dict.
  destruct (Method5.directory_to_dict max_depth start_path start_path_str 0)
    as [v|e] eqn:Hv; [|discriminate].
  destruct (directory_to_dict_shape _ _ _ _ Hv) as (n & m & cs & _ & ->).
  intros [= <-]. unfold Json.dumps. cbn [setitem dir_dict str_eqb].
  rewrite iterencode_dict. cbn [app]. eauto.
Qed.

Lemma save_tree_json_size c start_path_str start_path output_file max_depth w r w' :
  Cli.save_tree_json c start_path_str start_path output_file max_depth w
  = Cli.Done r w' ->
  0 < Cli.getsize (Cli.data_output_name (u ".json") start_path c output_file) w'.
Proof.
  unfold Cli.save_tree_json. cbv zeta.
  destruct (Json.save_tree_json _ _ _ _) as [text|e] eqn:Ht; [|discriminate].
  destruct (save_tree_json_text _ _ _ _ Ht) as [rest ->].
  destruct (Cli.write_file _ _ w) as [[] w1|f w1] eqn:Hw; [|discriminate].
  intros [= <- <-]. apply write_file_done in Hw. subst w1. apply getsize_put.
Qed.

Lemma create_rich_directory_tree_size c start_path_str start_path output_file
    max_depth w r w' :
  Cli.create_rich_directory_tree rich_available export_text c start_path_str
    start_path output_file max_depth w = Cli.Done r w' ->
  0 < Cli.getsize (Cli.text_output_name (u "rich_tree") start_path c output_file) w'.
Proof.
  unfold Cli.create_rich_directory_tree. cbv zeta.
  destruct (negb rich_available); [apply generate_enhanced_tree_size|].
  destruct (Rich.create_rich_directory_tree _ _); [|discriminate].
  destruct (export_text _); [|discriminate].
  destruct (Cli.write_file _ _ w) as [[] w1|f w1] eqn:Hw; [|discriminate].
  destruct (Cli.exists_file _ w1).
  - destruct (Cli.getsize _ w1 =? 0) eqn:Hz.
    + apply generate_enhanced_tree_size.
    + intros [= <- <-]. apply write_file_wrote in Hw. subst w1.
      cbn [app List.concat]. change rule60 with (0x3D :: repeat 0x3D 59).
      cbn [app]. apply getsize_put.
  - apply generate_enhanced_tree_size.
Qed.
End NotEmpty.

(** ** [main] and the file it looks for *)

Lemma app_neq_self (s ext : pystr) : ext <> [] -> s ++ ext <> s.
Proof.
  intros He Heq. apply (f_equal (@List.length Z)) in Heq.
  rewrite length_app in Heq. destruct ext; [contradiction | cbn in Heq; lia].
Qed.

Section MainFacts.
Context `{builtins}.
Variable isalnum : Z -> bool.
Variable isspace : Z -> bool.
Variable rich_available : bool.
Variable export_text : tree -> option pystr.
Variable toprettyxml : Method5.element -> option pystr.

(** The name under which the generator of a format writes, given the name
    that [main] hands over. *)
Definition written_name (format output_file : pystr) : pystr :=
  if takes_name format output_file then output_file
  else output_file ++ extension_of format.

(** What the call of the generator in [main] leaves, for each format. *)
Definition main_call (format : pystr) (cs : Cli.clocks) (args : Cli.arguments)
    (output_file : pystr) (w : Cli.world) : Cli.run unit :=
  if str_eqb format (u "basic") then
    Cli.finish (Cli.generate_directory_tree (Cli.c_basic cs) (Cli.arg_path_str args)
                  (Cli.arg_path args) (Some output_file) (Cli.arg_depth args) true w)
  else if str_eqb format (u "ascii") then
    Cli.finish (Cli.generate_ascii_tree (Cli.c_ascii cs) (Cli.arg_path_str args)
                  (Cli.arg_path args) (Some output_file) (Cli.arg_all args)
                  (Cli.arg_depth args) w)
  else if str_eqb format (u "rich") then
    Cli.finish (Cli.create_rich_directory_tree rich_available export_text
                  (Cli.c_rich cs) (Cli.arg_path_str args)
                  (Cli.arg_path args) (Some output_file) (Cli.arg_depth args) w)
  else if str_eqb format (u "detailed") then
    Cli.finish (Cli.generate_detailed_tree (Cli.c_detailed cs) (Cli.arg_path_str args)
                  (Cli.arg_path args) (Some output_file) (Cli.arg_all args)
                  (Cli.arg_depth args) w)
  else if str_eqb format (u "json") then
    Cli.finish (Cli.save_tree_json (Cli.c_json cs) (Cli.arg_path_str args)
                  (Cli.arg_path args) (Some output_file) (Cli.arg_depth args) w)
  else if str_eqb format (u "xml") then
    Cli.finish (Cli.save_tree_xml toprettyxml (Cli.c_xml cs) (Cli.arg_path_str args)
                  (Cli.arg_path args) (Some output_file) (Cli.arg_depth args) w)
  else Cli.Done tt w.

Lemma main_call_wrote format cs args output_file w w' :
  In format writer_formats -> output_file <> [] ->
  main_call format cs args output_file w = Cli.Done tt w' ->
  wrote (written_name format output_file) w w'
  /\ (format <> u "xml" -> 0 < Cli.getsize (written_name format output_file) w').
Proof.
  intros Hfmt Hout. unfold main_call, written_name, takes_name, extension_of.
  cbn [In writer_formats] in Hfmt.
  destruct Hfmt as [<-|[<-|[<-|[<-|[<-|[<-|[]]]]]]];
    repeat match goal with
           | |- context [str_eqb (u ?a) (u ?b)] =>
               let v := eval vm_compute in (str_eqb (u a) (u b)) in
               change (str_eqb (u a) (u b)) with v
           end; cbv iota; unfold Cli.finish.
  - destruct (Cli.generate_directory_tree _ _ _ _ _ _ _) as [r w1|f w1] eqn:E;
      [|discriminate]. intros [= <-]. split.
    + eapply generate_directory_tree_wrote in E; [|exact Hout].
      unfold Cli.text_output_name in E.
      now destruct (Cli.endswith_any output_file Cli.known_extensions).
    + intros _. eapply generate_directory_tree_size in E; [|exact Hout].
      unfold Cli.text_output_name in E.
      now destruct (Cli.endswith_any output_file Cli.known_extensions).
  - destruct (Cli.generate_ascii_tree _ _ _ _ _ _ _) as [r w1|f w1] eqn:E;
      [|discriminate]. intros [= <-]. split.
    + apply generate_ascii_tree_wrote in E. unfold Cli.text_output_name in E.
      now destruct (Cli.endswith_any output_file Cli.known_extensions).
    + intros _. apply generate_ascii_tree_size in E.
      unfold Cli.text_output_name in E.
      now destruct (Cli.endswith_any output_file Cli.known_extensions).
  - destruct (Cli.create_rich_directory_tree _ _ _ _ _ _ _ _) as [r w1|f w1] eqn:E;
      [|discriminate]. intros [= <-]. split.
    + apply create_rich_directory_tree_wrote in E. destruct E as [_ E].
      unfold Cli.text_output_name in E.
      now destruct (Cli.endswith_any output_file Cli.known_extensions).
    + intros _. apply create_rich_directory_tree_size in E.
      unfold Cli.text_output_name in E.
      now destruct (Cli.endswith_any output_file Cli.known_extensions).
  - destruct (Cli.generate_detailed_tree _ _ _ _ _ _ _) as [r w1|f w1] eqn:E;
      [|discriminate]. intros [= <-]. split.
    + apply generate_detailed_tree_wrote in E. unfold Cli.text_output_name in E.
      now destruct (Cli.endswith_any output_file Cli.known_extensions).
    + intros _. apply generate_detailed_tree_size in E.
      unfold Cli.text_output_name in E.
      now destruct (Cli.endswith_any output_file Cli.known_extensions).
  - destruct (Cli.save_tree_json _ _ _ _ _ _) as [r w1|f w1] eqn:E;
      [|discriminate]. intros [= <-]. split.
    + apply save_tree_json_wrote in E. unfold Cli.data_output_name in E.
      now destruct (Cli.endswith output_file (u ".json")).
    + intros _. apply save_tree_json_size in E. unfold Cli.data_output_name in E.
      now destruct (Cli.endswith output_file (u ".json")).
  - destruct (Cli.save_tree_xml _ _ _ _ _ _ _) as [r w1|f w1] eqn:E;
      [|discriminate]. intros [= <-]. split.
    + apply save_tree_xml_wrote in E. unfold Cli.data_output_name in E.
      now destruct (Cli.endswith output_file (u ".xml")).
    + intros Hx. now contradiction Hx.
Qed.

(** [main], past its early returns, on the name [output_file]. *)
Lemma main_eq c cs args w output_file :
  Cli.arg_test_rich args = false ->
  Cli.arg_auto_all args = false ->
  In (Cli.arg_format args) writer_formats ->
  output_file
  = match Cli.arg_output args with
    | Some ((_ :: _) as output) => output
    | _ => Cli.generate_auto_filename isalnum isspace c (Cli.arg_path args)
             (Cli.arg_format args)
    end ->
  Cli.main isalnum isspace rich_available export_text toprettyxml c cs args w
  = match main_call (Cli.arg_format args) cs args output_file w with
    | Cli.Failed (Cli.OsError FileNotFoundError) w => (Cli.ExitNotFound, w)
    | Cli.Failed (Cli.OsError PermissionError) w => (Cli.ExitPermissionDenied, w)
    | Cli.Failed _ w => (Cli.ExitUnexpected, w)
    | Cli.Done _ w =>
        if Cli.exists_file output_file w then
          if Cli.getsize output_file w >? 0 then (Cli.Success output_file, w)
          else (Cli.CreatedButEmpty output_file, w)
        else (Cli.NotCreated output_file, w)
    end.
Proof.
  intros Htest Hauto Hfmt ->. unfold Cli.main, main_call. rewrite Htest, Hauto.
  cbn [orb].
  assert (Hall : str_eqb (Cli.arg_format args) (u "all") = false).
  { cbn [In writer_formats] in Hfmt.
    destruct Hfmt as [<-|[<-|[<-|[<-|[<-|[<-|[]]]]]]]; reflexivity. }
  rewrite Hall. reflexivity.
Qed.
End MainFacts.

Section AutoNames.
Variable isalnum : Z -> bool.
Variable isspace : Z -> bool.

Lemma generate_auto_filename_taken c start_path format :
  In format writer_formats ->
  takes_name format (Cli.generate_auto_filename isalnum isspace c start_path format)
  = true
  /\ Cli.generate_auto_filename isalnum isspace c start_path format <> [].
Proof.
  intros Hfmt. unfold Cli.generate_auto_filename, takes_name. cbv zeta.
  cbn [In writer_formats] in Hfmt.
  destruct Hfmt as [<-|[<-|[<-|[<-|[<-|[<-|[]]]]]]];
    repeat match goal with
           | |- context [str_eqb (u ?a) (u ?b)] =>
               let v := eval vm_compute in (str_eqb (u a) (u b)) in
               change (str_eqb (u a) (u b)) with v
           end; cbv iota;
    match goal with
    | |- context [Cli.get_str ?k Cli.format_prefixes ?d] =>
        let v := eval vm_compute in (Cli.get_str k Cli.format_prefixes d) in
        change (Cli.get_str k Cli.format_prefixes d) with v
    end;
    match goal with
    | |- context [Cli.get_str ?k Cli.format_extensions ?d] =>
        let v := eval vm_compute in (Cli.get_str k Cli.format_extensions d) in
        change (Cli.get_str k Cli.format_extensions d) with v
    end;
    (split; [|discriminate]);
    rewrite !app_assoc;
    unfold Cli.endswith_any, Cli.known_extensions; cbn [existsb];
    rewrite ?endswith_app; rewrite ?orb_true_r; reflexivity.
Qed.
End AutoNames.

(** X13.  [main] looks for the file under the name it handed over, not
    under the name the generator wrote.  With [-o NAME] where [NAME] does
    not end as the generator of the format wants ([.txt], [.json] or
    [.xml] for the text formats, [.json] for [json], [.xml] for [xml]) and
    no file [NAME] is there beforehand, a run that does not exit with
    status 1 has written [NAME] with the extension appended and reports
    that the file was not created. *)
Theorem X13_main_misses_the_renamed_file `{builtins} :
  forall isalnum isspace rich_available export_text toprettyxml c cs args w
         given v w',
    Cli.arg_test_rich args = false ->
    Cli.arg_auto_all args = false ->
    In (Cli.arg_format args) writer_formats ->
    Cli.arg_output args = Some given ->
    given <> [] ->
    takes_name (Cli.arg_format args) given = false ->
    Cli.exists_file given w = false ->
    Cli.main isalnum isspace rich_available export_text toprettyxml c cs args w
    = (v, w') ->
    match v with
    | Cli.NotCreated output_file =>
        output_file = given
        /\ Cli.exists_file (given ++ extension_of (Cli.arg_format args)) w' = true
        /\ Cli.exists_file given w' = false
    | Cli.ExitNotFound | Cli.ExitPermissionDenied | Cli.ExitUnexpected => True
    | _ => False
    end.
Proof.
  intros isalnum isspace rich_available export_text toprettyxml c cs args w
    given v w' Htest Hauto Hfmt Hout Hgiven Htakes Hnew.
  rewrite (@main_eq _ isalnum isspace rich_available export_text toprettyxml
             c cs args w given Htest Hauto Hfmt)
    by (rewrite Hout; now destruct given).
  destruct (main_call _ _ _ _ _ _ _ _) as [[] w1|f w1] eqn:E.
  - eapply main_call_wrote in E; [|exact Hfmt|exact Hgiven].
    destruct E as [(Hex & Hframe & _) _].
    unfold written_name in *. rewrite Htakes in *.
    assert (Hstill : Cli.exists_file given w1 = false).
    { unfold Cli.exists_file in *. rewrite Hframe; [exact Hnew|].
      intros Heq. symmetry in Heq. revert Heq. apply app_neq_self.
      unfold extension_of. repeat destruct (str_eqb _ _); discriminate. }
    rewrite Hstill. intros [= <- <-]. auto.
  - destruct f as [[]| |]; intros [= <- <-]; exact I.
Qed.

(** X14.  When the name is one the generator keeps ([-o NAME] with [NAME]
    ending as the generator wants, or no [-o] at all, where
    [generate_auto_filename] makes the name), [main] never reports a
    missing file: a run that does not exit with status 1 reports success
    on a file that is there, under the name given if one was given; only
    the [xml] format, whose text [minidom] makes, can be reported
    empty. *)
Theorem X14_main_finds_the_kept_name `{builtins} :
  forall isalnum isspace rich_available export_text toprettyxml c cs args w v w',
    Cli.arg_test_rich args = false ->
    Cli.arg_auto_all args = false ->
    In (Cli.arg_format args) writer_formats ->
    (Cli.arg_output args = None
     \/ exists given,
          Cli.arg_output args = Some given
          /\ takes_name (Cli.arg_format args) given = true) ->
    Cli.main isalnum isspace rich_available export_text toprettyxml c cs args w
    = (v, w') ->
    match v with
    | Cli.Success output_file =>
        Cli.exists_file output_file w' = true
        /\ (forall given, Cli.arg_output args = Some given -> output_file = given)
    | Cli.CreatedButEmpty _ => Cli.arg_format args = u "xml"
    | Cli.ExitNotFound | Cli.ExitPermissionDenied | Cli.ExitUnexpected => True
    | _ => False
    end.
Proof.
  intros isalnum isspace rich_available export_text toprettyxml c cs args w v w'
    Htest Hauto Hfmt Hname.
  set (output_file :=
         match Cli.arg_output args with
         | Some ((_ :: _) as output) => output
         | _ => Cli.generate_auto_filename isalnum isspace c (Cli.arg_path args)
                  (Cli.arg_format args)
         end).
  assert (Hkept : takes_name (Cli.arg_format args) output_file = true
                  /\ output_file <> []
                  /\ (forall given, Cli.arg_output args = Some given ->
                                    output_file = given)).
  { subst output_file.
    destruct (generate_auto_filename_taken isalnum isspace c (Cli.arg_path args) Hfmt)
      as [Ha Hne].
    destruct Hname as [->|(given & -> & Hg)].
    - split; [exact Ha|]. split; [exact Hne | discriminate].
    - destruct given as [|g given].
      + exfalso. revert Hg. unfold takes_name.
        repeat destruct (str_eqb _ _); discriminate.
      + split; [exact Hg|]. split; [discriminate | now intros ? [= <-]]. }
  destruct Hkept as (Htakes & Hne & Hgiven).
  rewrite (@main_eq _ isalnum isspace rich_available export_text toprettyxml
             c cs args w output_file Htest Hauto Hfmt eq_refl).
  destruct (main_call _ _ _ _ _ _ _ _) as [[] w1|f w1] eqn:E.
  - eapply main_call_wrote in E; [|exact Hfmt|exact Hne].
    destruct E as [(Hex & _) Hsize].
    unfold written_name in *. rewrite Htakes in *. rewrite Hex.
    destruct (Cli.getsize output_file w1 >? 0) eqn:Hz; intros [= <- <-].
    + auto.
    + destruct (list_eq_dec Z.eq_dec (Cli.arg_format args) (u "xml")) as [Hx|Hx];
        [exact Hx|]. specialize (Hsize Hx). lia.
  - destruct f as [[]| |]; intros [= <- <-]; exact I.
Qed.

Lemma X12_ascii_tree_file_witness :
  let r := @Cli.generate_ascii_tree ascii_builtins noon (u "/root") scenario
             (Some (u "out")) false None empty_world in
  match r with
  | Cli.Done (tree_str, written) w' =>
      w' = Cli.put written tree_str empty_world
      /\ 0 < Cli.getsize written w'
      /\ Cli.endswith_any written Cli.known_extensions = true
      /\ (forall given,
            Some (u "out") = Some given ->
            written
            = if Cli.endswith_any given Cli.known_extensions
              then given else given ++ u ".txt")
  | Cli.Failed _ _ => False
  end.
Proof.
  intros r.
  destruct r as [[tree_str written] w'|f w'] eqn:E; [|discriminate E].
  exact (@X12_ascii_tree_file ascii_builtins noon (u "/root") scenario
           (Some (u "out")) false None empty_world tree_str written w' E).
Defined.

Lemma X13_main_misses_the_renamed_file_witness :
  let r := @Cli.main ascii_builtins (fun _ => true) (fun _ => false) false
             (fun _ => None) (fun _ => None) noon at_noon
             (sample_arguments "ascii" (Some (u "my_tree"))) empty_world in
  match fst r with
  | Cli.NotCreated output_file =>
      output_file = u "my_tree"
      /\ Cli.exists_file (u "my_tree" ++ extension_of (u "ascii")) (snd r) = true
      /\ Cli.exists_file (u "my_tree") (snd r) = false
  | Cli.ExitNotFound | Cli.ExitPermissionDenied | Cli.ExitUnexpected => True
  | _ => False
  end.
Proof.
  intros r.
  apply (@X13_main_misses_the_renamed_file ascii_builtins (fun _ => true)
           (fun _ => false) false (fun _ => None) (fun _ => None) noon at_noon
           (sample_arguments "ascii" (Some (u "my_tree"))) empty_world
           (u "my_tree") (fst r) (snd r));
    try reflexivity.
  - right; left; reflexivity.
  - discriminate.
Defined.

Lemma X14_main_finds_the_kept_name_witness :
  let r := @Cli.main ascii_builtins (fun _ => true) (fun _ => false) false
             (fun _ => None) (fun _ => None) noon at_noon
             (sample_arguments "json" None) empty_world in
  match fst r with
  | Cli.Success output_file =>
      Cli.exists_file output_file (snd r) = true
      /\ (forall given, @None pystr = Some given -> output_file = given)
  | Cli.CreatedButEmpty _ => u "json" = u "xml"
  | Cli.ExitNotFound | Cli.ExitPermissionDenied | Cli.ExitUnexpected => True
  | _ => False
  end.
Proof.
  intros r.
  apply (@X14_main_finds_the_kept_name ascii_builtins (fun _ => true)
           (fun _ => false) false (fun _ => None) (fun _ => None) noon at_noon
           (sample_arguments "json" None) empty_world (fst r) (snd r));
    try reflexivity.
  - do 4 right; left; reflexivity.
  - left; reflexivity.
Defined.

(** The run [-f ascii -o my_tree] on the scenario: the tree is written to
    [my_tree.txt] and [main] reports that [my_tree] was not created. *)
Example main_with_a_bare_name :
  let r := @Cli.main ascii_builtins (fun _ => true) (fun _ => false) false
             (fun _ => None) (fun _ => None) noon at_noon
             (sample_arguments "ascii" (Some (u "my_tree"))) empty_world in
  fst r = Cli.NotCreated (u "my_tree")
  /\ map fst (Cli.files (snd r)) = [u "my_tree.txt"].
Proof. vm_compute. split; reflexivity. Qed.

(** The run [-f json] with no [-o]. *)
Example main_with_no_name :
  let r := @Cli.main ascii_builtins (fun _ => true) (fun _ => false) false
             (fun _ => None) (fun _ => None) noon at_noon
             (sample_arguments "json" None) empty_world in
  fst r = Cli.Success (u "tree_data_root_20240101_120000.json")
  /\ map fst (Cli.files (snd r)) = [u "tree_data_root_20240101_120000.json"].
Proof. vm_compute. split; reflexivity. Qed.

(** ** The calls of [generate_all_formats] *)

Section AllFormats.
Context `{builtins}.
Variable rich_available : bool.
Variable export_text : tree -> option pystr.
Variable toprettyxml : Method5.element -> option pystr.

Lemma generate_directory_tree_auto c start_path_str start_path max_depth w t f w' :
  Cli.generate_directory_tree c start_path_str start_path None max_depth true w
  = Cli.Done (t, f) w' ->
  f = Some (Cli.auto_name (u "tree") start_path c (u ".txt"))
  /\ wrote (Cli.auto_name (u "tree") start_path c (u ".txt")) w w'.
Proof.
  unfold Cli.generate_directory_tree.
  destruct (Basic.generate_directory_tree _ _ _ _); [|discriminate]. cbv zeta.
  pose proof (@text_output_name_known (u "tree") start_path c None) as Hk.
  cbn [Cli.text_output_name] in Hk.
  remember (Cli.auto_name (u "tree") start_path c (u ".txt")) as n eqn:Hn.
  destruct n as [|ch n]; [discriminate Hn|].
  rewrite Hk. cbn [negb].
  destruct (Cli.write_file _ _ _) as [[] w2|f2 w2] eqn:Hw; [|discriminate].
  intros [= _ <- <-]. split; [reflexivity|].
  apply write_file_wrote in Hw. subst w2. apply wrote_put.
Qed.

Lemma generate_ascii_tree_auto c start_path_str start_path show_hidden max_depth
    w t f w' :
  Cli.generate_ascii_tree c start_path_str start_path None show_hidden max_depth w
  = Cli.Done (t, f) w' ->
  f = Cli.auto_name (u "ascii_tree") start_path c (u ".txt")
  /\ wrote (Cli.auto_name (u "ascii_tree") start_path c (u ".txt")) w w'.
Proof.
  intros E. split; [|exact (generate_ascii_tree_wrote _ _ _ _ _ _ _ E)].
  unfold Cli.generate_ascii_tree in E.
  destruct (Ascii.generate_ascii_tree _ _ _ _ _); [|discriminate].
  cbv zeta in E.
  destruct (Cli.write_file _ _ _) as [[] w2|f2 w2]; [|discriminate].
  now injection E as _ <- _.
Qed.

Lemma generate_detailed_tree_auto c start_path_str start_path show_hidden max_depth
    w t f w' :
  Cli.generate_detailed_tree c start_path_str start_path None show_hidden max_depth w
  = Cli.Done (t, f) w' ->
  f = Cli.auto_name (u "detailed") start_path c (u ".txt")
  /\ wrote (Cli.auto_name (u "detailed") start_path c (u ".txt")) w w'.
Proof.
  intros E. split; [|exact (generate_detailed_tree_wrote _ _ _ _ _ _ _ E)].
  unfold Cli.generate_detailed_tree in E.
  destruct (Detailed.generate_detailed_tree _ _ _ _); [|discriminate].
  cbv zeta in E.
  destruct (Cli.write_file _ _ _) as [[] w2|f2 w2]; [|discriminate].
  now injection E as _ <- _.
Qed.

Lemma save_tree_json_auto c start_path_str start_path max_depth w f w' :
  Cli.save_tree_json c start_path_str start_path None max_depth w = Cli.Done f w' ->
  f = Cli.auto_name (u "tree") start_path c (u ".json")
  /\ wrote (Cli.auto_name (u "tree") start_path c (u ".json")) w w'.
Proof.
  intros E. split; [|exact (save_tree_json_wrote _ _ _ _ _ _ E)].
  unfold Cli.save_tree_json in E. cbv zeta in E.
  destruct (Json.save_tree_json _ _ _ _); [|discriminate].
  destruct (Cli.write_file _ _ _) as [[] w2|f2 w2]; [|discriminate].
  now injection E as <- _.
Qed.

Lemma save_tree_xml_auto c start_path_str start_path max_depth w f w' :
  Cli.save_tree_xml toprettyxml c start_path_str start_path None max_depth w
  = Cli.Done f w' ->
  f = Cli.auto_name (u "tree") start_path c (u ".xml")
  /\ wrote (Cli.auto_name (u "tree") start_path c (u ".xml")) w w'.
Proof.
  intros E. split; [|exact (save_tree_xml_wrote _ _ _ _ _ _ _ E)].
  unfold Cli.save_tree_xml in E. cbv zeta in E.
  destruct (Method5.save_tree_xml _ _ _ _); [|discriminate].
  destruct (toprettyxml _); [|discriminate].
  destruct (Cli.write_file _ _ _) as [[] w2|f2 w2]; [|discriminate].
  now injection E as <- _.
Qed.

Lemma auto_names_differ cs start_path :
  NoDup (auto_names cs start_path).
Proof.
  unfold auto_names, Cli.auto_name.
  assert (Hext : forall a b x y : pystr,
             rev a <> [] -> rev b <> [] -> hd 0 (rev a) <> hd 0 (rev b) ->
             x ++ a <> y ++ b).
  { intros a b x y Ha Hb Hab Heq. apply (f_equal (@rev Z)) in Heq.
    rewrite !rev_app_distr in Heq.
    destruct (rev a) as [|c ra]; [contradiction|].
    destruct (rev b) as [|d rb]; [contradiction|].
    cbn [app hd] in *. congruence. }
  repeat apply NoDup_cons; try apply NoDup_nil; cbn [In]; intros Hin;
    repeat match goal with
           | Hin : _ \/ _ |- _ => destruct Hin as [Hin|Hin]
           | Hin : False |- _ => contradiction
           end;
    try (cbn [app u] in Hin; discriminate Hin);
    rewrite !app_assoc in Hin; revert Hin; apply Hext; cbn; discriminate.
Qed.
End AllFormats.

(** X15.  The six generators that [generate_all_formats] calls, none with
    a file name, keep apart.  Each call that returns has written the file
    it names and no other, and names it as [auto_names] says: from its
    own prefix, the name of the directory, its reading of the clock and
    its extension.  These six names are different from one another
    whatever the directory and the six readings of the clock are: no
    format overwrites the file of another. *)
Theorem X15_all_formats_keep_apart `{builtins} :
  forall rich_available export_text toprettyxml cs start_path_str start_path
         depth include_hidden,
    NoDup (auto_names cs start_path)
    /\ (forall w tree_str filename w',
          Cli.generate_directory_tree (Cli.c_basic cs) start_path_str start_path
            None depth true w = Cli.Done (tree_str, filename) w' ->
          filename = Some (Cli.auto_name (u "tree") start_path (Cli.c_basic cs) (u ".txt"))
          /\ wrote (Cli.auto_name (u "tree") start_path (Cli.c_basic cs) (u ".txt"))
               w w')
    /\ (forall w tree_str filename w',
          Cli.generate_ascii_tree (Cli.c_ascii cs) start_path_str start_path
            None include_hidden depth w = Cli.Done (tree_str, filename) w' ->
          filename = Cli.auto_name (u "ascii_tree") start_path (Cli.c_ascii cs) (u ".txt")
          /\ wrote (Cli.auto_name (u "ascii_tree") start_path (Cli.c_ascii cs) (u ".txt"))
               w w')
    /\ (forall w tree_str filename w',
          Cli.generate_detailed_tree (Cli.c_detailed cs) start_path_str start_path
            None include_hidden depth w = Cli.Done (tree_str, filename) w' ->
          filename = Cli.auto_name (u "detailed") start_path (Cli.c_detailed cs) (u ".txt")
          /\ wrote (Cli.auto_name (u "detailed") start_path (Cli.c_detailed cs) (u ".txt"))
               w w')
    /\ (forall w filename w',
          Cli.save_tree_json (Cli.c_json cs) start_path_str start_path None depth w
          = Cli.Done filename w' ->
          filename = Cli.auto_name (u "tree") start_path (Cli.c_json cs) (u ".json")
          /\ wrote (Cli.auto_name (u "tree") start_path (Cli.c_json cs) (u ".json"))
               w w')
    /\ (forall w filename w',
          Cli.save_tree_xml toprettyxml (Cli.c_xml cs) start_path_str start_path None
            depth w = Cli.Done filename w' ->
          filename = Cli.auto_name (u "tree") start_path (Cli.c_xml cs) (u ".xml")
          /\ wrote (Cli.auto_name (u "tree") start_path (Cli.c_xml cs) (u ".xml"))
               w w')
    /\ (forall w filename w',
          Cli.create_rich_directory_tree rich_available export_text (Cli.c_rich cs)
            start_path_str start_path None depth w = Cli.Done filename w' ->
          filename = Cli.auto_name (u "rich_tree") start_path (Cli.c_rich cs) (u ".txt")
          /\ wrote (Cli.auto_name (u "rich_tree") start_path (Cli.c_rich cs) (u ".txt"))
               w w').
Proof.
  intros rich_available export_text toprettyxml cs start_path_str start_path
    depth include_hidden.
  split; [apply auto_names_differ|].
  split; [intros w tree_str filename w'; apply generate_directory_tree_auto|].
  split; [intros w tree_str filename w'; apply generate_ascii_tree_auto|].
  split; [intros w tree_str filename w'; apply generate_detailed_tree_auto|].
  split; [intros w filename w'; apply save_tree_json_auto|].
  split; [intros w filename w'; apply save_tree_xml_auto|].
  intros w filename w' E.
  apply create_rich_directory_tree_wrote in E. exact E.
Qed.

Lemma X15_all_formats_keep_apart_witness :
  let r := @Cli.generate_ascii_tree ascii_builtins noon (u "/root") scenario None
             false None empty_world in
  NoDup (auto_names at_noon scenario)
  /\ match r with
     | Cli.Done (_, filename) w' =>
         filename = u "ascii_tree_root_20240101_120000.txt"
         /\ wrote (u "ascii_tree_root_20240101_120000.txt") empty_world w'
     | Cli.Failed _ _ => False
     end.
Proof.
  intros r.
  destruct (@X15_all_formats_keep_apart ascii_builtins false (fun _ => None)
              (fun _ => None) at_noon (u "/root") scenario None false)
    as (Hdiffer & _ & Hascii & _).
  split; [exact Hdiffer|].
  destruct r as [[tree_str filename] w'|f w'] eqn:E; [|discriminate E].
  exact (Hascii empty_world tree_str filename w' E).
Defined.

(** What [generate_all_formats] leaves for the scenario when [rich] and
    [minidom] are not there to render and the console takes every line:
    five files, and the error of the XML export. *)
Example all_formats_of_the_scenario :
  let r := @Cli.generate_all_formats ascii_builtins false (fun _ => None)
             (fun _ => None) at_noon (u "/root") scenario None false empty_world in
  map snd (fst r)
  = [Cli.Saved (u "tree_root_20240101_120000.txt");
     Cli.Saved (u "ascii_tree_root_20240101_120000.txt");
     Cli.Saved (u "detailed_root_20240101_120000.txt");
     Cli.Saved (u "tree_root_20240101_120000.json");
     Cli.Error Cli.LibraryError;
     Cli.Saved (u "rich_tree_root_20240101_120000.txt")]
  /\ map fst (Cli.files (snd r))
     = [u "tree_root_20240101_120000.txt";
        u "ascii_tree_root_20240101_120000.txt";
        u "detailed_root_20240101_120000.txt";
        u "tree_root_20240101_120000.json";
        u "rich_tree_root_20240101_120000.txt"].
Proof. vm_compute. split; reflexivity. Qed.

(** ** Names that UTF-8 cannot write *)




Lemma existsb_In {A : Type} (f : A -> bool) (x : A) l :
  In x l -> f x = true -> existsb f l = true.
Proof. intros Hin Hf. apply existsb_exists. eauto. Qed.

Lemma In_join sep line lines c :
  In line lines -> In c line -> In c (Cli.join sep lines).
Proof.
  induction lines as [|x lines IH]; [contradiction|].
  intros [->|Hin] Hc.
  - destruct lines; cbn [Cli.join]; [exact Hc|]. apply in_or_app. now left.
  - destruct lines as [|y lines]; [contradiction|].
    cbn [Cli.join]. apply in_or_app. right. apply in_or_app. right. now apply IH.
Qed.

Lemma enumerate_from_In {A : Type} (l : list A) (x : A) :
  In x l -> forall i, exists j, In (j, x) (enumerate_from i l).
Proof.
  induction l as [|y l IH]; [contradiction|].
  intros [->|Hin] i; cbn [enumerate_from].
  - exists i. now left.
  - destruct (IH Hin (i + 1)) as [j Hj]. exists j. now right.
Qed.

Section NamesInLines.
Context `{builtins}.
Import Ascii.

(** The line of an entry holds its name. *)
Lemma ascii_line_names show_hidden prefix is_last i item c :
  In c (name item) -> In c (ascii_line show_hidden prefix is_last (i, item)).
Proof.
  intros Hc. unfold ascii_line. cbn [fst snd].
  destruct (kind_dir item).
  - apply in_or_app. right. apply in_or_app. right.
    unfold dir_annotation.
    destruct (iterdir item); [|apply in_or_app; now left].
    destruct (count is_file _); [|apply in_or_app; now left].
    destruct (count is_dir _); apply in_or_app; now left.
  - destruct (stat item); apply in_or_app; right; apply in_or_app; right;
      apply in_or_app; now left.
Qed.

(** A tree that is made has a line with the name of every entry that the
    walk of the root goes through. *)
Lemma ascii_tree_names start_path_str now start_path show_hidden max_depth s items
    item :
  generate_ascii_tree start_path_str now start_path show_hidden max_depth = Ok s ->
  depth_exceeded max_depth 0 = false ->
  ascii_listing show_hidden start_path = Ok items ->
  In item items ->
  exists line, In line (tree_lines s) /\ forall c, In c (name item) -> In c line.
Proof.
  unfold generate_ascii_tree. intros Hs Hdepth Hit Hin.
  destruct (exists_ start_path) as [[|]|e0]; try discriminate.
  destruct (build_tree _ _ _ _ _ _ _) as [s1|e1 s1] eqn:E; [|discriminate].
  injection Hs as <-.
  apply build_tree_blocks with (items := items) in E; [|exact Hdepth|exact Hit].
  destruct E as (body & L & Hb).
  destruct (enumerate_from_In _ _ Hin 0) as [i Hi].
  exists (ascii_line show_hidden [] true (i, item)). split.
  - rewrite L. apply in_or_app. right.
    apply blocks_of_In with (1 := Hb). exact Hi.
  - intros c. apply ascii_line_names.
Qed.
End NamesInLines.

(** X17.  [generate_ascii_tree] cannot save a tree that shows a name UTF-8
    cannot encode.  Let the root exist and list its entries, and let
    [is_dir()] answer for each entry that is shown, so that the walk goes
    through them.  When one of these entries has a surrogate in its name
    (a byte of the file name that is not UTF-8) and the output file
    opens, the call never returns: the walk raises, or [f.write] raises
    [UnicodeEncodeError] and leaves the output file in place, empty. *)
Theorem X17_ascii_tree_needs_utf8_names `{builtins} :
  forall c start_path_str start_path ls output_file show_hidden max_depth w item,
    exists_ start_path = Ok true ->
    iterdir start_path = Ok ls ->
    (forall x, In x ls -> shown show_hidden x = true ->
               exists answer, is_dir x = Ok answer) ->
    In item ls ->
    shown show_hidden item = true ->
    existsb Cli.is_surrogate (name item) = true ->
    depth_exceeded max_depth 0 = false ->
    Cli.open_error w
      (Cli.text_output_name (u "ascii_tree") start_path c output_file)
    = None ->
    match
      Cli.generate_ascii_tree c start_path_str start_path output_file
        show_hidden max_depth w
    with
    | Cli.Failed Cli.UnicodeEncodeError w' =>
        w' = Cli.put (Cli.text_output_name (u "ascii_tree") start_path c
                        output_file) [] w
    | Cli.Failed (Cli.OsError e) w' => w' = w /\ e <> PermissionError
    | _ => False
    end.
Proof.
  intros c start_path_str start_path ls output_file show_hidden max_depth w item
    Hex Hls Hans Hin Hshown Hsur Hdepth Hopen.
  assert (Hit : exists items, ascii_listing show_hidden start_path = Ok items).
  { pose proof (ascii_listing_sortable show_hidden _ Hls) as Hs.
    destruct (ascii_listing show_hidden start_path) as [items|e]; [eauto|].
    exfalso. destruct Hs as (_ & x & Hx & Hsx & Hraise).
    destruct (Hans x Hx Hsx) as [answer Ha]. congruence. }
  destruct Hit as [items Hit].
  assert (Hitem : In item items)
    by (apply (ascii_listing_In _ _ item Hls Hit); auto).
  unfold Cli.generate_ascii_tree.
  destruct (Ascii.generate_ascii_tree _ _ _ _ _) as [s|e] eqn:Hs.
  - cbv zeta. rewrite write_file_one, Hopen.
    destruct (@ascii_tree_names _ _ _ _ _ _ _ _ _ Hs Hdepth Hit Hitem)
      as (line & Hline & Hc).
    apply existsb_exists in Hsur. destruct Hsur as (ch & Hch & Hsurr).
    rewrite (existsb_In Cli.is_surrogate ch); [reflexivity | | exact Hsurr].
    apply In_join with (line := line); [|now apply Hc].
    apply in_or_app. now left.
  - split; [reflexivity|].
    unfold Ascii.generate_ascii_tree in Hs. rewrite Hex in Hs.
    destruct (Ascii.build_tree _ _ _ _ _ _ _) as [s'|e' s'] eqn:E; [discriminate|].
    injection Hs as <-. apply build_tree_not_permission in E. now destruct e'.
Qed.

(** A directory with a file whose name holds a lone surrogate. *)
Example ascii_tree_of_a_name_that_is_not_utf8 :
  @Cli.generate_ascii_tree ascii_builtins noon (u "/root") exotic (Some (u "out.txt"))
    false None empty_world
  = Cli.Failed Cli.UnicodeEncodeError (Cli.put (u "out.txt") [] empty_world).
Proof. vm_compute. reflexivity. Qed.

Lemma X17_ascii_tree_needs_utf8_names_witness :
  match
    @Cli.generate_ascii_tree ascii_builtins noon (u "/root") exotic
      (Some (u "out.txt")) false None empty_world
  with
  | Cli.Failed Cli.UnicodeEncodeError w' =>
      w' = Cli.put (u "out.txt") [] empty_world
  | Cli.Failed (Cli.OsError e) w' => w' = empty_world /\ e <> PermissionError
  | _ => False
  end.
Proof.
  apply (@X17_ascii_tree_needs_utf8_names ascii_builtins noon (u "/root") exotic
           [File [0x1F4C1; 0xE9; 0xDC80; 0x22] (Ok (mk_stat 1 0x41D9000000000000))]
           (Some (u "out.txt")) false None empty_world
           (File [0x1F4C1; 0xE9; 0xDC80; 0x22] (Ok (mk_stat 1 0x41D9000000000000))));
    try reflexivity.
  - intros x [<-|[]] _. exists false. reflexivity.
  - left. reflexivity.
Defined.
